(* ===== verification/_CoqProject ===== *)
-Q . S2P
Prelude.v
Types.v
Runtime.v
Common.v
Policy.v
ArgoPush.v
Capi.v
GiteaClient.v
Manifests.v
Scanner.v
Resources.v
CheckpointCR.v
Records.v
Pool.v
NodeHealthTransition.v
Backups.v
Transition.v
Reconcile.v
Probes.v
Monitors.v
Heartbeat.v
Names.v
Minio.v
CheckpointController.v
Prepull.v
Durations.v
Main.v
Memory.v
DeepCopy.v
Liveness.v
Migration.v
NodeList.v
Races.v
