(* ===== verification/Prelude.v ===== *)
(** * The transition operator, verified

    A library of definitions and theorems about the Go program under src/: a
    Kubernetes operator that watches workload clusters (Cluster API), detects
    failures of their nodes, control planes and pod networks, and moves the
    packages that a ClusterPolicy selects to another cluster by committing
    recovery manifests to a git repository that Argo CD applies there.

    ** How the program works

    A [ClusterPolicy] selects a source cluster, the packages to protect and the
    clusters to move them to. Three things lead to a transition:
    - Reconcile (internal/controller/clusterpolicy_controller.go) finds a node
      that is not ready and hands its pods to HandlePodsOnNodeForPolicy;
    - a monitor of the control plane or of the pod network, which Reconcile
      starts, reports an outage and calls triggerMigrationNodeCP;
    - the heartbeat server (reconcilers/heartbeat) reports a silent node and
      calls ReconcileClusterPoliciesForNode.
    A transition pushes an Argo CD application (and a Velero restore, or a
    rewritten image, for stateful packages) to the repository called "dr", asks
    Argo CD to sync, and appends a record to the policy's status. Live packages
    are prepared by Checkpoint resources (reconcilers/checkpoint_transition).

    ** How it is modelled

    - Prelude: errors with the classes the program tells apart, times and
      durations (int64, saturating subtraction), strings, and the scan for the
      first greatest element that several loops of the program are.
    - Types: src/api/v1, reconcilers/helpers/argoapp_types.go and
      velero_restore_types.go, and the parts of third-party objects in use.
    - Runtime: everything outside src/ that the program calls, as one type
      [call] with a typed answer [resp]. What is answered is a parameter
      ([Externals]); the theorems hold for all answers, unless a hypothesis
      says otherwise. A handler is a term of the monad [M]: it reads and writes
      the process state, records the trace of its calls with their answers, and
      ends with a value or with [Crash] (a panic or log.Fatalf). [wp] and [spec]
      are the rules to reason about it.
    - Common, Durations: reconcilers/helpers/common.go; the durations with
      time.ParseDuration in 64-bit and float64 arithmetic.
    - Policy, ArgoPush: reconcilers/helpers/clusterpolicy_helpers.go; the
      decisions, which are pure, and the pushes to git and Argo CD.
    - Capi: reconcilers/capi. GiteaClient: reconcilers/gitaclient/giteaclient.go.
    - Manifests, Scanner, Resources: reconcilers/gitaclient/gitea.go; the editing
      of manifests; the concurrent search, a step relation over channels in which
      the scheduler's choices are a list; the sequential search, the second copy of
      the Argo CD functions, and what editing does to a file of several documents.
    - CheckpointCR: checkpoint_transition.go, the creation of Checkpoints.
    - Records: the common end of all transitions, and trace properties that
      are closed under sequencing ([Closed]), which carry from a transition to
      whole reconciliations.
    - Pool, Races: the semaphore-bounded goroutines around transitions, each body
      one step; and their status updates, cut at each access to the shared slice.
    - NodeHealthTransition: nodehealth_transition.go.
    - Backups, Transition, Reconcile: clusterpolicy_controller.go; the choice of
      a backup, the transitions of selected and of live workloads, and the
      reconciliation with everything that triggers it.
    - Probes: reconcilers/controlplane and reconcilers/cnifault.
    - Monitors: the registry of monitors, the fault detectors and the monitor
      loops of clusterpolicy_controller.go.
    - Heartbeat, NodeList, Liveness: reconcilers/heartbeat/heartbeat_server.go;
      requests and ticks are the inputs of one system; what /nodes answers, against
      a reference; and what becomes of a silent node.
    - Migration: what the server and the monitors, as a whole, write into policies.
    - Names, Minio, CheckpointController, Prepull: checkpoint_controller.go and
      reconcilers/miniohelper; names and paths (with SHA-1), the object store,
      the pods that pre-pull an image, and the controller, whose inputs are reconciliations and firing cron
      entries. A cron closure and the reconciliation that scheduled it share one
      Checkpoint object, which is kept with the entry.
    - Main: cmd/main.go and the two empty controllers; the scheme, the flags, the
      slices of TLS options, and the order of the start.
    - Memory, DeepCopy: api/v1/zz_generated.deepcopy.go; a memory of cells with
      pointers, slices and maps, what it means to copy a value in it
      ([Copyable], a class with its laws), and every generated method. The f-types
      are the API types as they lie in memory.

    A function has the source's name; a part of a function that has a name of
    its own is a loop body, a closure or a stretch between two early returns.

    ** What is proved

    - Transitions are truthful (Records, Transition, NodeHealthTransition,
      Reconcile, Migration): each [Completed] record that a reconciliation, the
      heartbeat server, a monitor or a migration writes comes after the commit of that package's recovery manifest; a
      transition leaves nothing, or one record that says what happened; Argo CD
      gets a stateful package only after its restore was observed completed.
    - Choices are right (Policy, Backups): the target is the first git cluster
      of greatest weight, the backup the latest completed one, a package counts
      as transitioned when its newest record says so.
    - Manifests are changed only where they should be (Manifests), and the change
      can be undone.
    - The concurrent search ends in every interleaving and is never stuck
      (Scanner): [scan_terminates] bounds the number of steps by a measure of
      the files, which is the fuel [CheckRepoForMatchingManifests] gives it.
    - Checkpoints are created only for annotated workloads, once (CheckpointCR).
    - Detection is exact (Probes, Monitors, Heartbeat): the probes are ready
      exactly when their observations are; an outage is reported at the third
      failed probe in a row, at the first one after three seconds, at the
      thirteenth silent tick, and once; the loops implement the detectors, and
      the registry keeps one goroutine per key.
    - A silent node is recovered (Liveness): after the warm-up, within fourteen ticks
      of 100 ms, whatever else arrives, or the monitor ended in one of two known ways.
      A node that is alive but whose heartbeats are 1.4 s or more apart is reported
      after each of them (Heartbeat), although the documents speak of 10 and 20 s. What the server lists
      is what the nodes last sent (NodeList).
    - Concurrent status updates never damage the status, but can lose a record
      (Races): [append_alone] is the step of [Pool], [appends_interleaved] what any
      schedule keeps, [append_loses_record] what it may lose.
    - Copies of API objects are deep (DeepCopy): same value, no shared cell.
    - Durations from the environment are in range and never wrap (Durations); no code
      calls the two readers.
    - The start makes its calls in one order, stops at the first failure, and returns
      only when there was none (Main).
    - Checkpoint runs are truthful (CheckpointController): an image is reported
      completed only after it was pushed, the statuses of a run tell container by
      container what happened, and the scheduler's entries are those the reconciler
      knows.
    - Pre-pull pods have bounded names and go to the workers of the target cluster,
      to each of them when no error is returned (Prepull).
    - Theorems of the kind "error" state what the program does where that is
      not what it means to do.

    ** Bounds

    Loops over lists are structural. The monitor loops never end: [monitor_loop]
    is cut after [n] rounds and [prepare_pods] after [n] attempts, and the
    theorems hold for every [n]. [scan] gets the measure of its start state as
    fuel, [finish_some] and [wait_n] the number of goroutines. Waiting for a file
    ([wait_file]) is cut after the rounds that the timeout and the sleeps allow,
    and [wait_rounds_enough] shows, for any well-behaved clock, that more rounds
    change nothing; waiting for the Gitea client ([wait_init]) likewise
    ([wait_init_enough]); [parse_elements] gets the length of its text, which each
    element shortens; waiting for a restore and for a pre-pull pod is driven by
    tickers that fire a known number of times before their deadline. Counters of
    missed probes are Go ints that would overflow after 2^63 ticks; they are
    integers here.

    ** What is not modelled

    - Logging, metrics and tracing, with the clock readings made only for them; an
      odd list of keys and values in a log call included. A nil slice and an empty one
      are one value.
    - Contexts, except where the program itself cancels one and goes on with it
      (the error group of the live transition); a deadline shows in the answer
      of the call that it ends.
    - The interleaving inside the bodies of pooled goroutines: a body runs as
      one step, in any order with the others, but for the status updates of Races.
      The scan is interleaved at each channel operation.
    - Cron runs that overlap each other or a reconciliation: a run is one step.
    - Text details: [%q] of text that needs escapes, case and character classes
      beyond ASCII; JSON and YAML are given by what they decode to.
    - The inside of the libraries: what the manager does with its options, the
      scheme with a group, the parser with the flags of zap, and the DeepCopyInto
      of third-party types, which is a parameter with the law that it copies.
    - The listening socket of the heartbeat server, and paths that the HTTP
      multiplexer would clean.
    - Tests (test/, *_test.go), and functions that are commented out. *)
From stdpp Require Export base tactics list gmap strings fin_maps.
From Stdlib Require Export ZArith Ascii String.
From Stdlib Require Import Lia.

(** ** Automation *)

Create HintDb go discriminated.
Create Rewrite HintDb go_rw.

(** Splits one conditional of the goal or the context. *)
Ltac split_if :=
  match goal with
  | |- context [if decide ?P then _ else _] => destruct (decide P)
  | |- context [if ?b then _ else _] => destruct b eqn:?
  | H : context [if decide ?P then _ else _] |- _ => destruct (decide P)
  | H : context [if ?b then _ else _] |- _ => destruct b eqn:?
  end.

(** Turns boolean tests on numbers and strings into propositions. *)
Ltac bool_to_prop :=
  repeat match goal with
  | H : (_ =? _)%string = true |- _ => apply String.eqb_eq in H
  | H : (_ =? _)%string = false |- _ => apply String.eqb_neq in H
  | H : (_ =? _)%Z = true |- _ => apply Z.eqb_eq in H
  | H : (_ =? _)%Z = false |- _ => apply Z.eqb_neq in H
  | H : (_ <? _)%Z = true |- _ => apply Z.ltb_lt in H
  | H : (_ <? _)%Z = false |- _ => apply Z.ltb_ge in H
  | H : (_ <=? _)%Z = true |- _ => apply Z.leb_le in H
  | H : (_ <=? _)%Z = false |- _ => apply Z.leb_gt in H
  | H : (_ && _) = true |- _ => apply andb_true_iff in H as [? ?]
  | H : (_ || _) = false |- _ => apply orb_false_iff in H as [? ?]
  | H : negb _ = true |- _ => apply negb_true_iff in H
  | H : negb _ = false |- _ => apply negb_false_iff in H
  end.

(** ** Go values *)

Declare Scope go_scope.
Delimit Scope go_scope with go.

(** The classes of Go errors the program tells apart: the Kubernetes
    reasons tested with [apierrors.IsNotFound] and [IsAlreadyExists], the
    MinIO code [NoSuchKey], a [net.Error] with its two predicates, and every
    other error. *)
Inductive ErrReason :=
| ReasonNotFound
| ReasonAlreadyExists
| ReasonNoSuchKey
| ReasonNetError (timeout temporary : bool)
| ReasonOther.

Record error := MkError { err_msg : string; err_reason : ErrReason }.

#[export] Instance ErrReason_eq_dec : EqDecision ErrReason.
Proof. solve_decision. Defined.
#[export] Instance error_eq_dec : EqDecision error.
Proof. solve_decision. Defined.

(** A call that returns [(value, error)]. *)
Inductive result (A : Type) :=
| Ok (a : A)
| Err (e : error).
Arguments Ok {A} a.
Arguments Err {A} e.

Definition is_ok {A} (r : result A) : bool :=
  match r with Ok _ => true | Err _ => false end.

(** [fmt.Errorf] without and with a wrapped error: [%w] keeps the class. *)
Definition Errorf (msg : string) : error := MkError msg ReasonOther.
Definition Wrapf (pre : string) (e : error) : error :=
  MkError (pre +:+ err_msg e) (err_reason e).

(** The verb [%q], on text that needs no escape. *)
Definition quoted (s : string) : string :=
  let dq := String (ascii_of_nat 34) EmptyString in dq +:+ s +:+ dq.

Definition IsNotFound (e : error) : bool :=
  match err_reason e with ReasonNotFound => true | _ => false end.
Definition IsAlreadyExists (e : error) : bool :=
  match err_reason e with ReasonAlreadyExists => true | _ => false end.

(** [time.Time] as nanoseconds since the zero time, [time.Duration] as an
    int64 count of nanoseconds. *)
Abbreviation Time := Z (only parsing).
Abbreviation Duration := Z (only parsing).
Definition ZeroTime : Time := 0%Z.
Definition IsZero (t : Time) : bool := (t =? 0)%Z.
Definition After (t u : Time) : bool := (u <? t)%Z.
Definition maxInt64 : Z := (2 ^ 63 - 1)%Z.
Definition minInt64 : Z := (- 2 ^ 63)%Z.
(** [t.Sub(u)] saturates at the bounds of [Duration]. *)
Definition Sub (t u : Time) : Duration := (Z.max minInt64 (Z.min maxInt64 (t - u)))%Z.
Definition Millisecond : Duration := 1000000%Z.
Definition Second : Duration := 1000000000%Z.
Definition Minute : Duration := (60 * Second)%Z.
Definition Hour : Duration := (60 * Minute)%Z.

(** Conversion [int32(x)] of a 64-bit [int]. *)
Definition int32 (z : Z) : Z := ((z + 2 ^ 31) mod 2 ^ 32 - 2 ^ 31)%Z.
Definition maxInt32 : Z := (2 ^ 31 - 1)%Z.

(** Reading a Go map: a missing key gives the zero value. *)
Definition mget (m : gmap string string) (k : string) : string := default "" (m !! k).

(** ** Package strings *)

Definition HasPrefix (s pre : string) : bool := String.prefix pre s.
Definition HasSuffix (s suf : string) : bool :=
  (String.length suf <=? String.length s)%nat &&
  (String.substring (String.length s - String.length suf) (String.length suf) s =? suf)%string.
Definition TrimSuffix (s suf : string) : string :=
  if HasSuffix s suf
  then String.substring 0 (String.length s - String.length suf) s else s.
Fixpoint Contains (s sub : string) : bool :=
  String.prefix sub s ||
  match s with
  | EmptyString => false
  | String _ s' => Contains s' sub
  end.

(** [strings.ToLower] and [strings.EqualFold] on ASCII text. *)
Definition lower_ascii (a : ascii) : ascii :=
  let n := nat_of_ascii a in
  if (65 <=? n)%nat && (n <=? 90)%nat then ascii_of_nat (n + 32) else a.
Fixpoint ToLower (s : string) : string :=
  match s with
  | EmptyString => EmptyString
  | String a s' => String (lower_ascii a) (ToLower s')
  end.
Definition EqualFold (s t : string) : bool := (ToLower s =? ToLower t)%string.

(** [filepath.Ext]: from the last dot of the last path element. *)
Fixpoint Ext (s : string) : string :=
  match s with
  | EmptyString => EmptyString
  | String a s' =>
      let r := Ext s' in
      if negb (r =? "")%string then r
      else if (Ascii.eqb a "."%char) && negb (Contains s' "/") then s
      else EmptyString
  end.

(** [strings.Join]. *)
Fixpoint JoinStrings (l : list string) (sep : string) : string :=
  match l with
  | [] => ""
  | [s] => s
  | s :: l' => s +:+ sep +:+ JoinStrings l' sep
  end.

(** ** Scans that keep the first strictly greater element *)

Section Scan.
Context {A : Type} (key : A -> Z).

(** The loop [if best == nil || key(x) > key(best) { best = x }]. *)
Definition scan_step (best : option A) (x : A) : option A :=
  match best with
  | None => Some x
  | Some b => if (key b <? key x)%Z then Some x else Some b
  end.
Definition scan_max (l : list A) : option A := foldl scan_step None l.

(** [x] is the first element of [l] with the greatest key. *)
Definition first_max (l : list A) (x : A) : Prop :=
  exists l1 l2, l = l1 ++ x :: l2 /\
    Forall (fun y => (key y < key x)%Z) l1 /\ Forall (fun y => (key y <= key x)%Z) l2.

Lemma scan_from_some b l :
  exists x, foldl scan_step (Some b) l = Some x /\ first_max (b :: l) x.
Proof.
  revert b. induction l as [|y l IH]; intros b; simpl.
  - exists b. split; [done|]. exists [], []. by repeat constructor.
  - destruct (key b <? key y)%Z eqn:Hlt; bool_to_prop.
    + destruct (IH y) as (x & -> & l1 & l2 & Heq & H1 & H2).
      exists x. split; [done|]. exists (b :: l1), l2. split; [by rewrite Heq|].
      split; [|done]. constructor; [|done].
      destruct l1 as [|z l1]; simplify_list_eq; [lia|].
      apply Forall_cons in H1 as [? _]. lia.
    + destruct (IH b) as (x & -> & l1 & l2 & Heq & H1 & H2).
      exists x. split; [done|]. destruct l1 as [|z l1]; simplify_list_eq.
      * eexists [], (y :: _). split; [reflexivity|]. split; [done|]. constructor; [lia|done].
      * exists (z :: y :: l1), l2. split; [done|]. split; [|done].
        apply Forall_cons in H1 as [? ?]. repeat constructor; [lia|lia|done].
Qed.

Lemma scan_max_some l x : scan_max l = Some x -> first_max l x.
Proof.
  destruct l as [|b l]; [done|]. unfold scan_max. simpl. intros H.
  destruct (scan_from_some b l) as (x' & Hx & Hm). by simplify_eq.
Qed.

Lemma scan_max_none l : scan_max l = None <-> l = [].
Proof.
  split; [|by intros ->]. destruct l as [|b l]; [done|]. unfold scan_max; simpl.
  by destruct (scan_from_some b l) as (x & -> & _).
Qed.

Lemma first_max_unique l x y : first_max l x -> first_max l y -> x = y.
Proof.
  intros (l1 & l2 & -> & H1 & H2) (k1 & k2 & Heq & K1 & K2).
  rewrite Forall_forall in H1, H2, K1, K2.
  destruct (app_eq_inv _ _ _ _ Heq) as [(k & Hk1 & Hk2) | (k & Hk1 & Hk2)].
  - destruct k as [|z k]; [by simplify_list_eq|]. exfalso. simplify_list_eq.
    enough (key z < key x /\ key x <= key z)%Z by lia.
    split; [apply H1 | apply K2]; set_solver.
  - destruct k as [|z k]; [by simplify_list_eq|]. exfalso. simplify_list_eq.
    enough (key z < key y /\ key y <= key z)%Z by lia.
    split; [apply K1 | apply H2]; set_solver.
Qed.

Lemma scan_max_first l x : scan_max l = Some x <-> first_max l x.
Proof.
  split; [apply scan_max_some|]. intros Hx.
  destruct (scan_max l) as [y|] eqn:E.
  - apply scan_max_some in E. by rewrite (first_max_unique _ _ _ E Hx).
  - apply scan_max_none in E as ->. by destruct Hx as ([] & ? & ? & _).
Qed.

Lemma first_max_in l x : first_max l x -> x ∈ l.
Proof. intros (l1 & l2 & -> & _). set_solver. Qed.

Lemma first_max_ge l x y : first_max l x -> y ∈ l -> (key y <= key x)%Z.
Proof.
  intros (l1 & l2 & -> & H1 & H2) Hy. rewrite Forall_forall in H1, H2.
  apply elem_of_app in Hy as [Hy|Hy]; [specialize (H1 _ Hy); lia|].
  apply elem_of_cons in Hy as [->|Hy]; [lia|by apply H2].
Qed.

(** Appending an element with a strictly greater key makes it the result. *)
Lemma scan_max_app_greater l x :
  Forall (fun y => (key y < key x)%Z) l -> scan_max (l ++ [x]) = Some x.
Proof. intros H. apply scan_max_first. exists l, []. by repeat constructor. Qed.

End Scan.

(** ** Lemmas on lists *)

Lemma omap_none {A B} (f : A -> option B) (P : A -> Prop) (t : list A) :
  (forall e, P e -> f e = None) -> Forall P t -> omap f t = [].
Proof.
  intros HP Ht. induction Ht as [|e t He _ IH]; simpl; [done|]. by rewrite (HP e He).
Qed.

(** ** Lemmas on strings *)

Lemma app_cons a s t : String a s +:+ t = String a (s +:+ t).
Proof. reflexivity. Qed.

Lemma string_app_length s t :
  String.length (s +:+ t) = (String.length s + String.length t)%nat.
Proof. induction s as [|a s IH]; [done|]. rewrite ?app_cons; simpl. by f_equal. Qed.

Lemma substring_all s : String.substring 0 (String.length s) s = s.
Proof. induction s as [|a s IH]; [done|]. rewrite ?app_cons; simpl. by f_equal. Qed.

Lemma substring_app_l s t : String.substring 0 (String.length s) (s +:+ t) = s.
Proof. induction s as [|a s IH]; [by destruct t|]. rewrite app_cons; simpl. by f_equal. Qed.

Lemma substring_app_r s t :
  String.substring (String.length s) (String.length t) (s +:+ t) = t.
Proof. induction s as [|a s IH]; [apply substring_all|]. rewrite app_cons; simpl. by f_equal. Qed.

Lemma HasSuffix_app s suf : HasSuffix (s +:+ suf) suf = true.
Proof.
  unfold HasSuffix. rewrite string_app_length.
  replace (String.length s + String.length suf - String.length suf)%nat
    with (String.length s) by lia.
  rewrite substring_app_r, String.eqb_refl, andb_true_r. apply Nat.leb_le. lia.
Qed.

Lemma TrimSuffix_app s suf : TrimSuffix (s +:+ suf) suf = s.
Proof.
  unfold TrimSuffix. rewrite HasSuffix_app, string_app_length.
  replace (String.length s + String.length suf - String.length suf)%nat
    with (String.length s) by lia.
  apply substring_app_l.
Qed.

Lemma app_empty_r s : s +:+ "" = s.
Proof. induction s as [|a s IH]; [done|]. rewrite ?app_cons; simpl. by f_equal. Qed.

Lemma app_not_empty s t : t ≠ "" -> s +:+ t ≠ "".
Proof. by destruct s, t. Qed.

Lemma lower_ascii_idem a : lower_ascii (lower_ascii a) = lower_ascii a.
Proof. by destruct a as [[] [] [] [] [] [] [] []]. Qed.

Lemma EqualFold_refl s : EqualFold s s = true.
Proof. apply String.eqb_refl. Qed.

#[export] Hint Rewrite string_app_length TrimSuffix_app HasSuffix_app app_empty_r : go_rw.
#[export] Hint Resolve EqualFold_refl first_max_in app_not_empty : go.

(** ** Lemmas on durations *)

Lemma Sub_small t u : (minInt64 <= t - u <= maxInt64)%Z -> Sub t u = (t - u)%Z.
Proof. unfold Sub. lia. Qed.

Lemma Sub_lt t u d : (minInt64 < d <= maxInt64)%Z -> (Sub t u < d <-> t - u < d)%Z.
Proof. unfold Sub. lia. Qed.

Lemma Sub_gt t u d : (minInt64 <= d < maxInt64)%Z -> (d < Sub t u <-> d < t - u)%Z.
Proof. unfold Sub. lia. Qed.
