(* ===== verification/Types.v ===== *)
(** * Data

    The custom resources of the operator (src/api/v1) with their fields in
    source order, and the parts of the Kubernetes, Cluster API, Velero, Argo CD
    and Gitea objects that the program reads or writes. *)
From S2P Require Import Prelude.

(** ** Kubernetes objects, restricted to the fields the program uses *)

Record NamespacedName := NN { nn_Namespace : string; nn_Name : string }.

Record OwnerReference := MkOwnerReference {
  or_Kind : string; or_Name : string; or_Controller : option bool }.

Record ObjectMeta := MkObjectMeta {
  om_Name : string;
  om_Namespace : string;
  om_Labels : gmap string string;
  om_Annotations : gmap string string;
  om_OwnerReferences : list OwnerReference;
  om_Finalizers : list string;
  om_CreationTimestamp : Time;
  om_DeletionTimestamp : option Time }.

Definition named (ns name : string) : ObjectMeta :=
  MkObjectMeta name ns ∅ ∅ [] [] ZeroTime None.

(** [metav1.PartialObjectMetadata]: a type and an object header. *)
Record PartialObjectMetadata := MkPartial {
  pom_APIVersion : string; pom_Kind : string; pom_Meta : ObjectMeta }.

Record ContainerPort := MkPort { port_ContainerPort : Z; port_Protocol : string }.

Record CoreContainer := MkContainer {
  c_Name : string;
  c_Image : string;
  c_Command : list string;
  c_Args : list string;
  c_Ports : list ContainerPort;
  c_ImagePullPolicy : string }.

Record Toleration := MkToleration {
  tol_Key : string; tol_Effect : string; tol_Operator : string }.

(** A pod or node condition: [corev1.PodCondition], [corev1.NodeCondition]. *)
Record Condition := MkCondition {
  cond_Type : string;
  cond_Status : string;
  cond_Reason : string;
  cond_Message : string;
  cond_LastTransitionTime : Time }.

Record Pod := MkPod {
  pod_Meta : ObjectMeta;
  pod_NodeName : string;
  pod_Containers : list CoreContainer;
  pod_Tolerations : list Toleration;
  pod_RestartPolicy : string;
  pod_HostNetwork : bool;
  pod_Phase : string;
  pod_PodIP : string;
  pod_Conditions : list Condition }.

Definition pod_Name (p : Pod) : string := om_Name (pod_Meta p).
Definition pod_Namespace (p : Pod) : string := om_Namespace (pod_Meta p).

Record NodeAddress := MkAddress { addr_Type : string; addr_Address : string }.

Record Node := MkNode {
  node_Meta : ObjectMeta;
  node_Addresses : list NodeAddress;
  node_Conditions : list Condition }.

Definition node_Name (n : Node) : string := om_Name (node_Meta n).

Record Secret := MkSecret {
  sec_Meta : ObjectMeta; sec_Type : string; sec_Data : gmap string string }.

Definition ConditionTrue : string := "True".
Definition ConditionFalse : string := "False".
Definition ConditionUnknown : string := "Unknown".
Definition NodeReady : string := "Ready".
Definition NodeMemoryPressure : string := "MemoryPressure".
Definition NodeDiskPressure : string := "DiskPressure".
Definition NodePIDPressure : string := "PIDPressure".
Definition NodeNetworkUnavailable : string := "NetworkUnavailable".
Definition PodReady : string := "Ready".
Definition PodRunning : string := "Running".
Definition PodSucceeded : string := "Succeeded".
Definition PodFailed : string := "Failed".
Definition NodeInternalIP : string := "InternalIP".
Definition ReadyCondition : string := "Ready".

(** ** Cluster API objects *)

Record Cluster := MkCluster {
  cl_Name : string;
  cl_Namespace : string;
  cl_Phase : string;
  cl_Conditions : list Condition }.

Record Machine := MkMachine {
  m_Name : string;
  m_Labels : gmap string string;
  m_ClusterName : string;
  m_Phase : string;
  m_NodeRef : option string;
  m_Addresses : list string }.

(** The zero [capiv1beta1.Machine]. *)
Definition zero_Machine : Machine := MkMachine "" ∅ "" "" None [].

(** ** Velero, Argo CD and Gitea objects *)

Record VeleroBackup := MkVeleroBackup {
  vb_Name : string;
  vb_Labels : gmap string string;
  vb_Phase : string;
  vb_CreationTimestamp : Time }.

(** The sync request of an Argo CD [Application]: revision, whether the apply
    strategy forces, and the initiating user. *)
Record SyncOperation := MkSync {
  sync_Revision : string; sync_ApplyForce : bool; sync_Username : string }.

Record Application := MkApplication {
  app_Name : string; app_Namespace : string; app_Operation : option SyncOperation }.

Record Repository := MkRepository { repo_Name : string; repo_FullName : string }.

Record CreateFileOptions := MkCreateFileOptions {
  cfo_Content : string; cfo_Message : string; cfo_BranchName : string }.

(** ** api/v1/clusterpolicy_types.go *)

Definition PackageTypeStateless : string := "Stateless".
Definition PackageTypeStateful : string := "Stateful".
Definition PackageTransitionConditionInProgress : string := "InProgress".
Definition PackageTransitionConditionCompleted : string := "Completed".
Definition PackageTransitionConditionFailed : string := "Failed".
Definition BackupTypeSchedule : string := "Schedule".
Definition BackupTypeManual : string := "Manual".

Record ClusterSelector := MkClusterSelector {
  cs_Name : string; cs_Repo : string; cs_RepoType : string; cs_Provider : string }.

Record BackupInformation := MkBackupInformation {
  bi_Name : string; bi_BackupType : string; bi_SchedulePeriod : string }.

Definition zero_BackupInformation : BackupInformation := MkBackupInformation "" "" "".

Record PackageSelector := MkPackageSelector {
  ps_Name : string;
  ps_PackagePath : string;
  ps_PackageType : string;
  ps_LiveStatePackage : bool;
  ps_BackupInformation : list BackupInformation }.

Record PreferredCluster := MkPreferredCluster {
  pc_Name : string; pc_RepoType : string; pc_Weight : Z }.

Record TargetClusterPolicy := MkTargetClusterPolicy {
  tcp_PreferClusters : list PreferredCluster;
  tcp_AvoidClusters : list PreferredCluster }.

Record ClusterPolicySpec := MkClusterPolicySpec {
  cps_ClusterSelector : ClusterSelector;
  cps_PackageSelectors : list PackageSelector;
  cps_TargetClusterPolicy : TargetClusterPolicy }.

Record TransitionedPackages := MkTransitionedPackages {
  tp_PackageSelectors : list PackageSelector;
  tp_LastTransitionTime : Time;
  tp_PackageTransitionCondition : string;
  tp_PackageTransitionMessage : string }.

Record ClusterPolicyStatus := MkClusterPolicyStatus {
  cpst_TransitionedPackages : list TransitionedPackages }.

Record ClusterPolicy := MkClusterPolicy {
  cp_Meta : ObjectMeta;
  cp_Spec : ClusterPolicySpec;
  cp_Status : ClusterPolicyStatus }.

Definition cp_Name (p : ClusterPolicy) : string := om_Name (cp_Meta p).

(** The zero [ClusterPolicy], which [&ClusterPolicy{}] points to. *)
Definition zero_ClusterPolicy : ClusterPolicy :=
  MkClusterPolicy (named "" "")
    (MkClusterPolicySpec (MkClusterSelector "" "" "" "") [] (MkTargetClusterPolicy [] []))
    (MkClusterPolicyStatus []).

(** ** api/v1/checkpoint_types.go *)

Record ResourceRef := MkResourceRef {
  rr_APIVersion : string;
  rr_Kind : string;
  rr_Namespace : string;
  rr_Name : string;
  rr_Annotations : gmap string string }.

Record ContainerRef := MkContainerRef { cr_Containers : list CoreContainer }.

Record PodRef := MkPodRef {
  pr_Namespace : string; pr_Name : string; pr_ContainerRef : ContainerRef }.

Record SecretRef := MkSecretRef { sr_Name : string; sr_Namespace : string }.

Record Registry := MkRegistry {
  reg_URL : string; reg_Repository : string; reg_SecretRef : option SecretRef }.

Record Container := MkCkptContainer { cc_Name : string; cc_Image : string }.

Record ClusterRef := MkClusterRef {
  clr_Name : string; clr_Repository : string; clr_PackageName : string }.

Record CheckpointSpec := MkCheckpointSpec {
  cks_Schedule : string;
  cks_ClusterRef : option ClusterRef;
  cks_TargetClusterRef : option ClusterRef;
  cks_PodRef : PodRef;
  cks_ResourceRef : ResourceRef;
  cks_Registry : Registry;
  cks_Containers : list Container }.

Definition CheckpointPhasePending : string := "Pending".
Definition CheckpointPhaseRunning : string := "Running".
Definition CheckpointPhaseCompleted : string := "Completed".
Definition CheckpointPhaseFailed : string := "Failed".

Record CheckpointStatus := MkCheckpointStatus {
  ckst_Phase : string;
  ckst_LastCheckpointTime : option Time;
  ckst_Message : string;
  ckst_ObservedGeneration : Z;
  ckst_LastCheckpointImage : string;
  ckst_OriginalImage : string;
  ckst_Conditions : list Condition }.

Record Checkpoint := MkCheckpoint {
  ck_Meta : ObjectMeta;
  ck_Spec : CheckpointSpec;
  ck_Status : CheckpointStatus }.

Definition ck_Name (c : Checkpoint) : string := om_Name (ck_Meta c).
Definition ck_Namespace (c : Checkpoint) : string := om_Namespace (ck_Meta c).

Definition zero_CheckpointStatus : CheckpointStatus :=
  MkCheckpointStatus "" None "" 0 "" "" [].
Definition zero_ResourceRef : ResourceRef := MkResourceRef "" "" "" "" ∅.

(** The zero [Checkpoint] of a [var c Checkpoint] declaration. *)
Definition zero_Checkpoint : Checkpoint :=
  MkCheckpoint (named "" "")
    (MkCheckpointSpec "" None None (MkPodRef "" "" (MkContainerRef [])) zero_ResourceRef
       (MkRegistry "" "" None) [])
    zero_CheckpointStatus.

(** ** api/v1/nodehealth_types.go *)

Record NodeHealthSpec := MkNodeHealthSpec { nhs_NodeName : string }.

Record NodeHealthStatus := MkNodeHealthStatus {
  nhst_Conditions : list Condition;
  nhst_IP : string;
  nhst_OS : string;
  nhst_Arch : string;
  nhst_CPUs : Z;
  nhst_CPUUsage : string;
  nhst_MemTotal : Z;
  nhst_MemUsed : Z;
  nhst_LastSeen : Time;
  nhst_Condition : string;
  nhst_ClusterName : string;
  nhst_ClusterNS : string;
  nhst_Machine : string;
  nhst_OwnerKind : string;
  nhst_OwnerName : string;
  nhst_ProvidedIP : string;
  nhst_CRISocket : string }.

Record NodeHealth := MkNodeHealth {
  nh_APIVersion : string;
  nh_Kind : string;
  nh_Meta : ObjectMeta;
  nh_Spec : NodeHealthSpec;
  nh_Status : NodeHealthStatus }.

(** ** reconcilers/helpers/argoapp_types.go and velero_restore_types.go *)

Record IgnoreDifference := MkIgnoreDifference {
  id_Group : string;
  id_Kind : string;
  id_Name : string;
  id_Namespace : string;
  id_JSONPointers : list string }.

(** [ArgoAppSpec], its nested anonymous structs flattened in source order. *)
Record ArgoAppSpec := MkArgoAppSpec {
  aa_APIVersion : string;
  aa_Kind : string;
  aa_Metadata_Name : string;
  aa_Metadata_Namespace : string;
  aa_Metadata_Finalizers : list string;
  aa_Project : string;
  aa_Source_RepoURL : string;
  aa_Source_TargetRevision : string;
  aa_Source_Path : string;
  aa_Source_Directory_Recurse : bool;
  aa_Destination_Server : string;
  aa_Destination_Namespace : string;
  aa_Automated_Prune : bool;
  aa_Automated_SelfHeal : bool;
  aa_Automated_AllowEmpty : bool;
  aa_SyncOptions : list string;
  aa_IgnoreDifferences : list IgnoreDifference }.

Record VeleroRestore := MkVeleroRestore {
  vr_APIVersion : string;
  vr_Kind : string;
  vr_Metadata_Name : string;
  vr_Metadata_Namespace : string;
  vr_BackupName : string;
  vr_ExcludedResources : list string;
  vr_IncludedResources : list string;
  vr_RestorePVs : bool;
  vr_PreserveNodePorts : bool;
  vr_Hooks : gmap string string;
  vr_IncludedNamespaces : list string;
  vr_ItemOperationTimeout : string }.
