(* ===== verification/Runtime.v ===== *)
(** * Runtime

    The services the program calls (Kubernetes API servers, Gitea, git, the file
    system, the YAML codec, MinIO, the container tools, cron, the clock and the
    process environment) as one type of calls with typed responses, and the
    state-and-trace monad in which the handlers are written. What a service
    answers is a parameter ([Externals]): every theorem holds for all answers. *)
From S2P Require Import Prelude Types.
From stdpp Require Export pretty.

(** A decoded YAML value, as yaml.v3 decodes into [interface{}]. *)
Inductive yval :=
| YNull
| YBool (b : bool)
| YNum (n : Z)
| YFloat (repr : string)
| YStr (s : string)
| YSeq (l : list yval)
| YMap (m : gmap string yval).

#[export] Instance yval_eq_dec : EqDecision yval.
Proof.
  refine (fix go v w {struct v} := let _ : EqDecision yval := @go in
    match v, w with
    | YNull, YNull => left eq_refl
    | YBool a, YBool b => cast_if (decide (a = b))
    | YNum a, YNum b => cast_if (decide (a = b))
    | YFloat a, YFloat b => cast_if (decide (a = b))
    | YStr a, YStr b => cast_if (decide (a = b))
    | YSeq a, YSeq b => cast_if (decide (a = b))
    | YMap a, YMap b => cast_if (decide (a = b))
    | _, _ => right _
    end); congruence.
Defined.

(** The part of a YAML document that CheckRepoForMatchingManifests decodes. *)
Record ManifestHead := MkManifestHead {
  mh_Kind : string; mh_Name : string; mh_Namespace : string }.

(** A controller-runtime client: of the management cluster, or of the workload
    cluster whose kubeconfig was parsed into a [rest.Config]. *)
Record RestConfig := MkRestConfig { rc_Host : string; rc_Raw : string }.
Inductive Client := MgmtClient | WorkloadClient (cfg : RestConfig).

(** A connected Gitea SDK client. *)
Record GiteaHandle := MkGiteaHandle { gh_URL : string; gh_User : string; gh_Password : string }.

(** The API groups that are registered in a [runtime.Scheme]; [ScaleScheme] is
    k8s.io/client-go/scale/scheme, [ClientGoScheme] k8s.io/client-go/kubernetes/scheme. *)
Inductive SchemeGroup :=
| CoreV1 | AppsV1 | BatchV1 | RbacV1 | AutoscalingV1 | NetworkingV1 | PolicyV1 | StorageV1
| ApiextensionsV1 | ScaleScheme | ClientGoScheme | VeleroV1 | ArgoV1alpha1 | TransitionV1
| CapiV1beta1.

(** A scheme: the groups registered in it, in order. *)
Abbreviation Scheme := (list SchemeGroup).

#[export] Instance SchemeGroup_eq_dec : EqDecision SchemeGroup.
Proof. solve_decision. Defined.

(** *** The manager that runs the controllers (controller-runtime) *)

(** The functions in the [TLSOpts] of the two servers. *)
Inductive TLSOpt := DisableHTTP2 | WebhookGetCertificate | MetricsGetCertificate.

#[export] Instance TLSOpt_eq_dec : EqDecision TLSOpt.
Proof. solve_decision. Defined.

(** [metricsserver.Options]; [FilterProvider] is set or nil. *)
Record MetricsOptions := MkMetricsOptions {
  mo_BindAddress : string;
  mo_SecureServing : bool;
  mo_TLSOpts : list TLSOpt;
  mo_FilterProvider : bool }.

(** [ctrl.Options], with the options of the webhook server. *)
Record ManagerOptions := MkManagerOptions {
  mgo_Scheme : Scheme;
  mgo_Metrics : MetricsOptions;
  mgo_WebhookTLSOpts : list TLSOpt;
  mgo_HealthProbeBindAddress : string;
  mgo_LeaderElection : bool;
  mgo_LeaderElectionID : string }.

(** What a controller is built from: the kind it reconciles, the kinds whose
    events it maps to requests, and its name ([""] when it is not given one). *)
Record ControllerSetup := MkControllerSetup {
  cset_For : string; cset_Watches : list string; cset_Named : string }.

Inductive PodSelector :=
| AllPods
| PodsOnNode (node : string)
| PodsMatching (ns : string) (labels : gmap string string)
| PodsLimit (n : Z).

Record HttpResponse := MkHttpResponse { http_Status : Z; http_Body : result string }.

(** How a [StreamWithContext] call ends: whether its context had expired, the
    error it returned, and what the command wrote. *)
Record ExecResult := MkExecResult {
  er_Deadline : bool; er_Err : option error; er_Stdout : string }.

(** Background work started with a [go] statement. *)
Inductive bgjob :=
| BgCommitAndPush (tmpDir branch repoURL commitMsg : string)
| BgControlPlaneMonitor (clusterPolicy : ClusterPolicy)
| BgCNIMonitor (clusterPolicy : ClusterPolicy)
| BgCleanupPod (cl : Client) (ns podName : string)
| BgHeartbeatServer (addr : string)
| BgMonitorNodes (namespace : string).

Inductive call :=
(* Kubernetes objects *)
| KListClusters (cl : Client)
| KGetUnstructuredCluster (cl : Client) (nn : NamespacedName)
| KListMachines (cl : Client) (ns : string) (labels : gmap string string)
| KGetMachine (cl : Client) (nn : NamespacedName)
| KListNodes (cl : Client) (labels : gmap string string)
| KGetNode (cl : Client) (nn : NamespacedName)
| KListPods (cl : Client) (sel : PodSelector)
| KGetPod (cl : Client) (nn : NamespacedName)
| KCreatePod (cl : Client) (p : Pod)
| KDeletePod (cl : Client) (nn : NamespacedName)
| KGetSecret (cl : Client) (nn : NamespacedName)
| KListSecrets (cl : Client) (ns : string)
| KGetServiceAccount (cl : Client) (nn : NamespacedName)
| KCreateToken (cl : Client) (sa : NamespacedName) (audiences : list string) (seconds : Z)
| KGetNamespace (cl : Client) (name : string)
| KCreateNamespace (cl : Client) (name : string)
| KGetWorkload (cl : Client) (kind : string) (nn : NamespacedName)
| KGetClusterPolicy (cl : Client) (nn : NamespacedName)
| KListClusterPolicies (cl : Client)
| KUpdateClusterPolicyStatus (cl : Client) (p : ClusterPolicy)
| KListCheckpoints (cl : Client)
| KGetCheckpoint (cl : Client) (nn : NamespacedName)
| KCreateCheckpoint (cl : Client) (c : Checkpoint)
| KUpdateCheckpoint (cl : Client) (c : Checkpoint)
| KUpdateCheckpointStatus (cl : Client) (c : Checkpoint)
| KGetNodeHealth (cl : Client) (nn : NamespacedName)
| KCreateNodeHealth (cl : Client) (h : NodeHealth)
| KUpdateNodeHealthStatus (cl : Client) (h : NodeHealth)
| KUpdateNodeHealth (cl : Client) (h : NodeHealth)
| KGetApplication (cl : Client) (nn : NamespacedName)
| KUpdateApplication (cl : Client) (a : Application)
| KListApplications (cl : Client) (ns : string)
| KGetApplicationDoc (cl : Client) (nn : NamespacedName)
| KPatchApplication (cl : Client) (nn : NamespacedName) (mergePatch : string)
| KGetRestore (cl : Client) (nn : NamespacedName)
| KListBackups (cl : Client) (ns : string)
(* building clients *)
| RESTConfigFromKubeConfig (data : string)
| NewK8sClient (cfg : RestConfig) (scheme : Scheme)
| AddToScheme (scheme : Scheme) (group : SchemeGroup)
| NewClientset (cfg : RestConfig)
| NewSPDYExecutor (cfg : RestConfig) (pod : NamespacedName) (container : string) (cmd : list string)
| ExecStream (cfg : RestConfig) (pod : NamespacedName) (container : string) (cmd : list string)
| MarshalUnstructured (obj : string)
| UnmarshalCluster (data : string)
(* Gitea *)
| GNewClient (h : GiteaHandle)
| GGetMyUserInfo (h : GiteaHandle)
| GListMyRepos (h : GiteaHandle)
| GForward (h : GiteaHandle) (method : string) (args : list string)
| GCreateFile (h : GiteaHandle) (owner repo path : string) (opts : CreateFileOptions)
(* git *)
| GitClone (dir url ref : string) (depth : Z)
| GitOpen (dir : string)
| GitWorktree (dir : string)
| GitAddAll (dir : string)
| GitCommit (dir msg author email : string)
| GitPush (dir remote refspec user password : string)
(* files and YAML *)
| MkdirTemp (dir pattern : string)
| ReadFile (path : string)
| WriteFile (path data : string)
| RemoveFile (path : string)
| StatFile (path : string)
| WalkDir (dir : string)
| YDecodeHeads (data : string)
| YUnmarshalDoc (data : string)
| YMarshalDoc (doc : gmap string yval)
| JMarshal (doc : yval)
| YMarshalArgo (app : ArgoAppSpec)
| YMarshalVelero (app : VeleroRestore)
(* kubelet, MinIO, buildah, cron *)
| TransportFor (cfg : RestConfig)
| HttpNewRequest (method url : string)
| HttpPost (url : string)
| UnmarshalItems (body : string)
| MinioNew (endpoint access secret : string)
| MinioBucketExists (bucket : string)
| MinioMakeBucket (bucket : string)
| MinioStat (bucket object : string)
| MinioGetObject (bucket object : string)
| CreateFile (path : string)
| CopyObject (bucket object path : string)
| Exec (cmd : list string)
| CronNew
| CronAddFunc (schedule job : string)
| CronRemove (id : Z)
(* the manager *)
| GetConfig
| CertWatcherNew (cert key : string)
| NewManager (opts : ManagerOptions)
| SetupController (d : ControllerSetup)
| MgrAdd (watcher : TLSOpt)
| MgrAddHealthzCheck (name : string)
| MgrAddReadyzCheck (name : string)
| MgrStart
(* process *)
| OsArgs
| Getenv (key : string)
| Now
| LocalOffset (t : Time)
| Sleep (d : Duration)
| AwaitTick (interval : Duration)
| SelectAfter (d : Duration)
| CtxErr
| NumCPU
| Schedule
| Go (job : bgjob)
(* a call that is given a cancelled context *)
| WithCancelled (c : call).

Fixpoint resp (c : call) : Type :=
  match c with
  | KListClusters _ => result (list Cluster)
  | KGetUnstructuredCluster _ _ => result string
  | KListMachines _ _ _ => result (list Machine)
  | KGetMachine _ _ => result Machine
  | KListNodes _ _ => result (list Node)
  | KGetNode _ _ => result Node
  | KListPods _ _ => result (list Pod)
  | KGetPod _ _ => result Pod
  | KCreatePod _ _ | KDeletePod _ _ => result unit
  | KGetSecret _ _ => result Secret
  | KListSecrets _ _ => result (list Secret)
  | KGetServiceAccount _ _ => result unit
  | KCreateToken _ _ _ _ => result string
  | KGetNamespace _ _ | KCreateNamespace _ _ => result unit
  | KGetWorkload _ _ _ => result ObjectMeta
  | KGetClusterPolicy _ _ => result ClusterPolicy
  | KListClusterPolicies _ => result (list ClusterPolicy)
  | KUpdateClusterPolicyStatus _ _ => result ClusterPolicy
  | KListCheckpoints _ => result (list Checkpoint)
  | KGetCheckpoint _ _ => result Checkpoint
  | KCreateCheckpoint _ _ => result unit
  | KUpdateCheckpoint _ _ | KUpdateCheckpointStatus _ _ => result Checkpoint
  | KGetNodeHealth _ _ => result NodeHealth
  | KCreateNodeHealth _ _ | KUpdateNodeHealthStatus _ _ | KUpdateNodeHealth _ _ => result unit
  | KGetApplication _ _ => result Application
  | KUpdateApplication _ _ => result unit
  | KListApplications _ _ => result (list Application)
  | KGetApplicationDoc _ _ => result (gmap string yval)
  | KPatchApplication _ _ _ => result unit
  | KGetRestore _ _ => result string
  | KListBackups _ _ => result (list VeleroBackup)
  | RESTConfigFromKubeConfig _ => result RestConfig
  | NewK8sClient _ _ => result unit
  | AddToScheme _ _ => result unit
  | NewClientset _ => result unit
  | NewSPDYExecutor _ _ _ _ => result unit
  | ExecStream _ _ _ _ => ExecResult
  | MarshalUnstructured _ => result string
  | UnmarshalCluster _ => result Cluster
  | GNewClient _ => result unit
  | GGetMyUserInfo _ => result string
  | GListMyRepos _ => result (list Repository)
  | GForward _ _ _ => result string
  | GCreateFile _ _ _ _ _ => result unit
  | GitClone _ _ _ _ | GitOpen _ | GitWorktree _ | GitAddAll _ | GitCommit _ _ _ _
  | GitPush _ _ _ _ _ => result unit
  | MkdirTemp _ _ => result string
  | ReadFile _ => result string
  | WriteFile _ _ | RemoveFile _ | StatFile _ => result unit
  | WalkDir _ => list string * option error
  | YDecodeHeads _ => list ManifestHead * option error
  | YUnmarshalDoc _ => result (gmap string yval)
  | YMarshalDoc _ => result string
  | JMarshal _ => result string
  | YMarshalArgo _ | YMarshalVelero _ => result string
  | TransportFor _ => result unit
  | HttpNewRequest _ _ => result unit
  | HttpPost _ => result HttpResponse
  | UnmarshalItems _ => result (list string)
  | MinioNew _ _ _ => result unit
  | MinioBucketExists _ => result bool
  | MinioMakeBucket _ => result unit
  | MinioStat _ _ => result unit
  | MinioGetObject _ _ | CreateFile _ => result unit
  | CopyObject _ _ _ => result Z
  | Exec _ => result string
  | CronNew => unit
  | CronAddFunc _ _ => result Z
  | CronRemove _ => unit
  | GetConfig | CertWatcherNew _ _ | NewManager _ | SetupController _ | MgrAdd _
  | MgrAddHealthzCheck _ | MgrAddReadyzCheck _ | MgrStart => result unit
  | OsArgs => list string
  | Getenv _ => string
  | Now => Time
  | LocalOffset _ => Z
  | Sleep _ => unit
  | AwaitTick _ | SelectAfter _ => bool
  | CtxErr => error
  | NumCPU => positive
  | Schedule => list nat
  | Go _ => unit
  | WithCancelled c => resp c
  end.

(** The world outside the program: an arbitrary state and an arbitrary answer
    to every call. *)
Class Externals := {
  World : Type;
  respond : forall c : call, World -> resp c * World }.

(** One call with the answer it got. *)
Inductive event := Ev (c : call) (r : resp c).
Abbreviation trace := (list event).

(** ** The monad *)

(** [Crash]: a run-time panic, or [log.Fatalf], which ends the process. *)
Inductive outcome (A : Type) := Ret (a : A) | Crash.
Arguments Ret {A} a.
Arguments Crash {A}.

(** The Gitea singleton ([gc] of giteaclient.go): created or not, and, once
    created, connected or not. *)
Record gc := MkGc { gc_giteaClient : option GiteaHandle }.

Section Monad.
Context {X : Externals}.

(** Process state: the world and the package variable [singleInstance]. *)
Record mstate := MkState { ms_world : World; ms_singleton : option gc }.

Record run (A : Type) := MkRun { r_out : outcome A; r_state : mstate; r_trace : trace }.

Definition M (A : Type) : Type := mstate -> run A.

Definition ret {A} (a : A) : M A := fun s => MkRun A (Ret a) s [].

Definition crash {A} : M A := fun s => MkRun A Crash s [].

Definition bind {A B} (m : M A) (f : A -> M B) : M B := fun s =>
  match r_out A (m s) with
  | Ret a =>
      let r2 := f a (r_state A (m s)) in
      MkRun B (r_out B r2) (r_state B r2) (r_trace A (m s) ++ r_trace B r2)
  | Crash => MkRun B Crash (r_state A (m s)) (r_trace A (m s))
  end.

Definition do (c : call) : M (resp c) := fun s =>
  let rw := respond c (ms_world s) in
  MkRun (resp c) (Ret rw.1) (MkState rw.2 (ms_singleton s)) [Ev c rw.1].

(** A [context.Context], live or cancelled, and a call that is given it. *)
Definition ctx_do (cancelled : bool) (c : call) : M (resp c) :=
  if cancelled then do (WithCancelled c) else do c.

Definition get_singleton : M (option gc) := fun s => MkRun _ (Ret (ms_singleton s)) s [].
Definition set_singleton (g : gc) : M unit := fun s =>
  MkRun _ (Ret tt) (MkState (ms_world s) (Some g)) [].

End Monad.

Arguments r_out {X A} r.
Arguments r_state {X A} r.
Arguments r_trace {X A} r.

Notation "x <- m ;; k" := (bind m (fun x => k))
  (at level 100, m at next level, right associativity) : go_scope.
Notation "m ;;; k" := (bind m (fun _ => k))
  (at level 100, right associativity) : go_scope.
Open Scope go_scope.

(** A loop body either continues with a new loop state or makes the function
    return ([return] inside the loop). *)
Inductive flow (B R : Type) := Next (b : B) | Return (r : R).
Arguments Next {B R} b.
Arguments Return {B R} r.

(** [for _, x := range l { body }]. *)
Fixpoint forEach {X : Externals} {A B R} (l : list A) (b : B)
    (body : A -> B -> M (flow B R)) : M (flow B R) :=
  match l with
  | [] => ret (Next b)
  | x :: l' =>
      f <- body x b ;;
      match f with
      | Next b' => forEach l' b' body
      | Return r => ret (Return r)
      end
  end.

(** A loop that neither returns nor keeps state. *)
Fixpoint forDo {X : Externals} {A} (l : list A) (body : A -> M unit) : M unit :=
  match l with
  | [] => ret tt
  | x :: l' => body x ;;; forDo l' body
  end.

(** ** Base64 and timestamps *)

Definition base64_char (n : Z) : ascii :=
  let c := Z.to_nat n in
  if (n <? 26)%Z then ascii_of_nat (c + 65)
  else if (n <? 52)%Z then ascii_of_nat (c - 26 + 97)
  else if (n <? 62)%Z then ascii_of_nat (c - 52 + 48)
  else if (n =? 62)%Z then "+"%char else "/"%char.

Definition byte_val (a : ascii) : Z := Z.of_nat (nat_of_ascii a).
Definition digit64 (v sh : Z) : ascii := base64_char (Z.land (Z.shiftr v sh) 63).

(** [base64.StdEncoding.EncodeToString]. *)
Fixpoint base64_encode (s : string) : string :=
  match s with
  | EmptyString => EmptyString
  | String a EmptyString =>
      let v := Z.shiftl (byte_val a) 16 in
      String (digit64 v 18) (String (digit64 v 12) "==")
  | String a (String b EmptyString) =>
      let v := Z.lor (Z.shiftl (byte_val a) 16) (Z.shiftl (byte_val b) 8) in
      String (digit64 v 18) (String (digit64 v 12) (String (digit64 v 6) "="))
  | String a (String b (String c s')) =>
      let v := Z.lor (Z.lor (Z.shiftl (byte_val a) 16) (Z.shiftl (byte_val b) 8)) (byte_val c) in
      String (digit64 v 18) (String (digit64 v 12) (String (digit64 v 6)
        (String (digit64 v 0) (base64_encode s'))))
  end.

Definition pad (width : nat) (z : Z) : string :=
  let s := pretty z in
  String.concat "" (replicate (width - String.length s) "0") +:+ s.

(** Year, month and day of a day counted from 1 January of year 1, in the
    proleptic Gregorian calendar that [time.Time] uses. *)
Definition civil (d : Z) : Z * Z * Z :=
  (let z := d + 306 in
   let era := z / 146097 in
   let doe := z mod 146097 in
   let yoe := (doe - doe / 1460 + doe / 36524 - doe / 146096) / 365 in
   let doy := doe - (365 * yoe + yoe / 4 - yoe / 100) in
   let mp := (5 * doy + 2) / 153 in
   let day := doy - (153 * mp + 2) / 5 + 1 in
   let month := if mp <? 10 then mp + 3 else mp - 9 in
   let year := yoe + era * 400 + (if month <=? 2 then 1 else 0) in
   (year, month, day))%Z.

(** [t.Format("20060102-150405")] for a wall-clock reading [t]. *)
Definition format_timestamp (t : Time) : string :=
  (let secs := t / Second in
   let day := secs / 86400 in
   let sod := secs mod 86400 in
   let '(y, m, d) := civil day in
   pad 4 y +:+ pad 2 m +:+ pad 2 d +:+ "-" +:+
   pad 2 (sod / 3600) +:+ pad 2 (sod mod 3600 / 60) +:+ pad 2 (sod mod 60))%Z.

Example format_timestamp_unix_epoch :
  format_timestamp (62135596800 * Second + 999) = "19700101-000000".
Proof. vm_compute. reflexivity. Qed.

Example format_timestamp_leap_day :
  format_timestamp ((62135596800 + 1709251199) * Second) = "20240229-235959".
Proof. vm_compute. reflexivity. Qed.

Example base64_encode_ex : base64_encode "kind: Pod" = "a2luZDogUG9k".
Proof. vm_compute. reflexivity. Qed.

Example base64_encode_pad : base64_encode "Ma" = "TWE=".
Proof. vm_compute. reflexivity. Qed.

(** [time.Now().Format("20060102-150405")]: the local wall clock. *)
Definition now_timestamp {X : Externals} : M string :=
  t <- do Now ;;
  off <- do (LocalOffset t) ;;
  ret (format_timestamp (t + off)).

(** ** Reasoning about runs *)

Section Wp.
Context {X : Externals}.

(** [wp m Q s tr]: running [m] in state [s] after the trace [tr] ends in an
    outcome, state and extended trace that satisfy [Q]. *)
Definition wp {A} (m : M A) (Q : outcome A -> mstate -> trace -> Prop)
    (s : mstate) (tr : trace) : Prop :=
  Q (r_out (m s)) (r_state (m s)) (tr ++ r_trace (m s)).

Lemma wp_ret {A} (a : A) Q s tr : Q (Ret a) s tr -> wp (ret a) Q s tr.
Proof. unfold wp; simpl. by rewrite app_nil_r. Qed.

Lemma wp_crash {A} Q s tr : Q Crash s tr -> wp (@crash X A) Q s tr.
Proof. unfold wp; simpl. by rewrite app_nil_r. Qed.

Lemma wp_bind {A B} (m : M A) (f : A -> M B) Q s tr :
  wp m (fun o s' tr' => match o with Ret a => wp (f a) Q s' tr' | Crash => Q Crash s' tr' end) s tr ->
  wp (bind m f) Q s tr.
Proof.
  unfold wp, bind. destruct (r_out (m s)) as [a|]; simpl; [|done]. by rewrite app_assoc.
Qed.

Lemma wp_do (c : call) Q s tr :
  (forall r w, Q (Ret r) (MkState w (ms_singleton s)) (tr ++ [Ev c r])) -> wp (do c) Q s tr.
Proof. intros H. unfold wp; simpl. apply H. Qed.

(** The same, keeping the equation of the answer. *)
Lemma wp_do_at (c : call) Q s tr :
  (forall r w, (respond c (ms_world s)).1 = r ->
     Q (Ret r) (MkState w (ms_singleton s)) (tr ++ [Ev c r])) -> wp (do c) Q s tr.
Proof. intros H. unfold wp; simpl. by apply H. Qed.

Lemma wp_ctx_do cancelled (c : call) Q s tr :
  (forall r w e, e = Ev c r \/ e = Ev (WithCancelled c) r ->
     Q (Ret r) (MkState w (ms_singleton s)) (tr ++ [e])) ->
  wp (ctx_do cancelled c) Q s tr.
Proof.
  intros H. destruct cancelled; [apply (wp_do (WithCancelled c))|apply (wp_do c)];
    intros r w; apply H; auto.
Qed.

Lemma wp_get_singleton Q s tr :
  Q (Ret (ms_singleton s)) s tr -> wp get_singleton Q s tr.
Proof. unfold wp; simpl. by rewrite app_nil_r. Qed.

Lemma wp_set_singleton g Q s tr :
  Q (Ret tt) (MkState (ms_world s) (Some g)) tr -> wp (set_singleton g) Q s tr.
Proof. unfold wp; simpl. by rewrite app_nil_r. Qed.

Lemma wp_mono {A} (m : M A) (P Q : outcome A -> mstate -> trace -> Prop) s tr :
  wp m P s tr -> (forall o s' tr', P o s' tr' -> Q o s' tr') -> wp m Q s tr.
Proof. unfold wp. auto. Qed.

(** [spec m P]: every run of [m] ends with an outcome and a trace in [P]. *)
Definition spec {A} (m : M A) (P : outcome A -> trace -> Prop) : Prop :=
  forall s, P (r_out (m s)) (r_trace (m s)).

Lemma spec_of_wp {A} (m : M A) P :
  (forall s, wp m (fun o _ t => P o t) s []) -> spec m P.
Proof. intros H s. apply H. Qed.

Lemma wp_spec {A} (m : M A) (P : outcome A -> trace -> Prop) Q s tr :
  spec m P -> (forall o s' t, P o t -> Q o s' (tr ++ t)) -> wp m Q s tr.
Proof. intros Hm HQ. apply HQ, Hm. Qed.

(** Programs that agree on a state have the same postconditions there. *)
Lemma wp_eq {A} (m m' : M A) Q s tr : m s = m' s -> wp m' Q s tr -> wp m Q s tr.
Proof. unfold wp. by intros ->. Qed.

Lemma spec_and {A} (m : M A) (P Q : outcome A -> trace -> Prop) :
  spec m P -> spec m Q -> spec m (fun o t => P o t /\ Q o t).
Proof. intros HP HQ s. split; [apply HP|apply HQ]. Qed.

(** Every event of every run of [m] satisfies [P]. *)
Definition emits {A} (P : event -> Prop) (m : M A) : Prop :=
  forall s, Forall P (r_trace (m s)).

Lemma wp_emits {A} P (m : M A) Q s tr :
  emits P m -> (forall o s' t, Forall P t -> Q o s' (tr ++ t)) -> wp m Q s tr.
Proof. unfold wp, emits. auto. Qed.

Lemma emits_ret {A} P (a : A) : emits P (ret a).
Proof. intros s. constructor. Qed.
Lemma emits_crash {A} P : emits P (@crash X A).
Proof. intros s. constructor. Qed.
Lemma emits_bind {A B} P (m : M A) (f : A -> M B) :
  emits P m -> (forall a, emits P (f a)) -> emits P (bind m f).
Proof.
  intros Hm Hf s. unfold bind. specialize (Hm s).
  destruct (r_out (m s)); simpl; [|done]. apply Forall_app. split; [done|apply Hf].
Qed.
Lemma emits_do P (c : call) : (forall w, P (Ev c (respond c w).1)) -> emits P (do c).
Proof. intros H s. constructor; [apply H|done]. Qed.
Lemma emits_ctx_do P cancelled (c : call) :
  (forall w, P (Ev c (respond c w).1) /\
     P (Ev (WithCancelled c) (respond (WithCancelled c) w).1)) ->
  emits P (ctx_do cancelled c).
Proof.
  intros H. destruct cancelled; [apply (emits_do P (WithCancelled c))|apply (emits_do P c)];
    intros w; apply (H w).
Qed.
Lemma emits_get_singleton P : emits P get_singleton.
Proof. intros s. constructor. Qed.
Lemma emits_set_singleton P g : emits P (set_singleton g).
Proof. intros s. constructor. Qed.
Lemma emits_mono {A} (P Q : event -> Prop) (m : M A) :
  (forall e, P e -> Q e) -> emits P m -> emits Q m.
Proof. intros HPQ Hm s. by eapply Forall_impl. Qed.
Lemma emits_forEach {A B R} P (l : list A) (b : B) (body : A -> B -> M (flow B R)) :
  (forall a b, emits P (body a b)) -> emits P (forEach l b body).
Proof.
  intros Hb. revert b. induction l as [|x l IH]; intros b; simpl; [apply emits_ret|].
  apply emits_bind; [apply Hb|]. intros [b'|r]; [apply IH|apply emits_ret].
Qed.
Lemma emits_forDo {A} P (l : list A) (body : A -> M unit) :
  (forall a, emits P (body a)) -> emits P (forDo l body).
Proof.
  intros Hb. induction l as [|x l IH]; simpl; [apply emits_ret|].
  apply emits_bind; [apply Hb|]. intros _; apply IH.
Qed.

(** A loop keeps an invariant of its state, the process state and the trace. *)
Lemma wp_forEach {A B R} (I : list A -> B -> mstate -> trace -> Prop)
    (l : list A) (b : B) (body : A -> B -> M (flow B R)) Q s tr :
  I l b s tr ->
  (forall x l' b s tr, I (x :: l') b s tr ->
     wp (body x b) (fun o s' tr' =>
       match o with
       | Ret (Next b') => I l' b' s' tr'
       | Ret (Return r) => Q (Ret (Return r)) s' tr'
       | Crash => Q Crash s' tr'
       end) s tr) ->
  (forall b s tr, I [] b s tr -> Q (Ret (Next b)) s tr) ->
  wp (forEach l b body) Q s tr.
Proof.
  intros HI Hb Hend. revert b s tr HI. induction l as [|x l IH]; intros b s tr HI; simpl.
  - by apply wp_ret, Hend.
  - apply wp_bind. eapply wp_mono; [by apply Hb|]. simpl.
    intros [[b'|r]|] s' tr' H; [by apply IH|by apply wp_ret|done].
Qed.

End Wp.

#[global] Arguments wp : simpl never.
#[global] Arguments bind : simpl never.
#[global] Arguments do : simpl never.
#[global] Arguments ctx_do : simpl never.
#[global] Arguments ret : simpl never.
#[global] Arguments spec : simpl never.
#[global] Arguments emits : simpl never.

(** [precedes P Q tr]: in [tr], every event with [Q] comes after one with [P]. *)
Definition precedes (P Q : event -> Prop) (tr : trace) : Prop :=
  forall i e, tr !! i = Some e -> Q e -> exists j e', (j < i)%nat /\ tr !! j = Some e' /\ P e'.

Lemma precedes_nil P Q : precedes P Q [].
Proof. intros i e H. by rewrite lookup_nil in H. Qed.

Lemma precedes_app P Q t1 t2 :
  precedes P Q t1 -> (Exists P t1 \/ precedes P Q t2) -> precedes P Q (t1 ++ t2).
Proof.
  intros H1 H2 i e Hi HQ. apply lookup_app_Some in Hi as [Hi|[Hlen Hi]].
  - destruct (H1 i e Hi HQ) as (j & e' & Hj & He' & HP). exists j, e'.
    split; [done|]. split; [|done]. by apply lookup_app_l_Some.
  - destruct H2 as [HE|H2].
    + apply Exists_exists in HE as (e' & Hin & HP).
      apply list_elem_of_lookup in Hin as [j Hj]. exists j, e'.
      split; [apply lookup_lt_Some in Hj; lia|]. split; [|done]. by apply lookup_app_l_Some.
    + destruct (H2 _ e Hi HQ) as (j & e' & Hj & He' & HP). exists (length t1 + j)%nat, e'.
      split; [lia|]. split; [|done]. rewrite lookup_app_r by lia.
      by replace (length t1 + j - length t1)%nat with j by lia.
Qed.

Lemma precedes_no P Q t : Forall (fun e => ~ Q e) t -> precedes P Q t.
Proof.
  intros H i e Hi HQ. exfalso. rewrite Forall_forall in H. apply (H e); [|done].
  by eapply list_elem_of_lookup_2.
Qed.

Lemma precedes_snoc P Q t e :
  precedes P Q t -> (Q e -> Exists P t) -> (~ Q e \/ Q e) -> precedes P Q (t ++ [e]).
Proof.
  intros Ht HQ [Hn|Hy]; (apply precedes_app; [done|]).
  - right. apply precedes_no. by constructor.
  - left. auto.
Qed.

(** ** Automation for runs *)

Ltac wp_step :=
  match goal with
  | |- wp (bind _ _) _ _ _ => apply wp_bind
  | |- wp (ret _) _ _ _ => apply wp_ret
  | |- wp crash _ _ _ => apply wp_crash
  | |- wp (do ?c) _ _ _ => apply (wp_do c); intros ? ?
  | |- wp (ctx_do _ ?c) _ _ _ => apply (wp_ctx_do _ c); intros ? ? ? ?
  | |- wp get_singleton _ _ _ => apply wp_get_singleton
  | |- wp (set_singleton _) _ _ _ => apply wp_set_singleton
  | |- wp (match ?x with _ => _ end) _ _ _ => destruct x eqn:?
  | |- match ?x with _ => _ end => destruct x eqn:?
  end; cbn beta iota zeta.

Ltac emits_step :=
  match goal with
  | |- emits _ (bind _ _) => apply emits_bind; [|intros ?]
  | |- emits _ (ret _) => apply emits_ret
  | |- emits _ crash => apply emits_crash
  | |- emits _ (do ?c) => apply (emits_do _ c); intros ?; simpl
  | |- emits _ (ctx_do _ ?c) => apply (emits_ctx_do _ _ c); intros ?; simpl
  | |- emits _ get_singleton => apply emits_get_singleton
  | |- emits _ (set_singleton _) => apply emits_set_singleton
  | |- emits _ (forEach _ _ _) => apply emits_forEach; intros ? ?
  | |- emits _ (forDo _ _) => apply emits_forDo; intros ?
  | |- emits _ (match ?x with _ => _ end) => destruct x eqn:?
  | |- emits _ _ => solve [eauto with go]
  end.
Ltac emits_auto := repeat (emits_step; try done); try done.

(** Finds a witness of [Exists] in a literal trace, or in a known sub-trace. *)
Ltac exists_event :=
  repeat rewrite ?Exists_app, ?Exists_cons, ?Exists_nil; simpl; eauto 20.

(** Closes [Forall P] on a trace made of literal events and known sub-traces. *)
Ltac forall_events :=
  simpl;
  repeat first
    [ apply Forall_nil_2
    | apply Forall_app_2
    | apply Forall_cons_2; [first [solve [eauto with go] | solve [simpl; tauto]]|] ];
  try solve [eauto with go].

#[export] Hint Resolve precedes_nil precedes_no : go.

Lemma emits_now_timestamp {X : Externals} P :
  (forall r, P (Ev Now r)) -> (forall t r, P (Ev (LocalOffset t) r)) -> emits P now_timestamp.
Proof. intros H1 H2. unfold now_timestamp. emits_auto. Qed.

(** ** A concrete outside world, for the witnesses *)

Definition no_service : error := Errorf "no service".

(** The answer of a world in which every service fails; registering types in a
    scheme needs no service. *)
Definition default_resp (c : call) : resp c.
Proof.
  induction c; try match goal with |- resp (AddToScheme _ _) => exact (Ok tt) end; simpl;
    first [exact (Err no_service) | exact tt | exact 0%Z | exact EmptyString | exact false
          | exact ([], None) | exact (MkExecResult true None EmptyString)
          | exact 1%positive | exact [] | exact no_service | exact IHc].
Defined.

(** A world whose answers do not change over time. *)
Definition ConstExternals (answers : forall c : call, resp c) : Externals :=
  {| World := unit; respond := fun c w => (answers c, w) |}.

Definition const_state (answers : forall c : call, resp c) : @mstate (ConstExternals answers) :=
  @MkState (ConstExternals answers) tt None.

(** ** Clocks *)

(** What the standard library promises of [time.Now], [time.Sleep] and
    [time.After]: readings never go back, a sleep lasts at least its duration, and
    a timer does not fire early. *)
Class Clock (X : Externals) := {
  clock : World -> Time;
  clock_now : forall w, (respond Now w).1 = clock w;
  clock_mono : forall c w, (clock w <= clock (respond c w).2)%Z;
  clock_sleep : forall d w, (clock w + d <= clock (respond (Sleep d) w).2)%Z;
  clock_after : forall d w, (respond (SelectAfter d) w).1 = true ->
    (clock w + d <= clock (respond (SelectAfter d) w).2)%Z }.

(** A world whose time only passes in sleeps. *)
Definition SleepExternals (answers : forall c : call, resp c) : Externals :=
  {| World := Time;
     respond := fun c t =>
       match c return resp c * Time with
       | Now => (t, t)
       | Sleep d => (tt, t + Z.max 0 d)%Z
       | SelectAfter d => (true, t + Z.max 0 d)%Z
       | c => (answers c, t)
       end |}.

#[export] Instance sleep_clock answers : Clock (SleepExternals answers).
Proof.
  exists (fun t : @World (SleepExternals answers) => t : Time); simpl; [done| |intros; lia..].
  intros [] w; simpl; lia.
Defined.

Lemma bind_cong {X : Externals} {A B} (m : M A) (f g : A -> M B) s :
  (forall a, r_out (m s) = Ret a -> f a (r_state (m s)) = g a (r_state (m s))) ->
  bind m f s = bind m g s.
Proof. intros H. unfold bind. destruct (r_out (m s)) as [a|]; [|done]. by rewrite (H a). Qed.
