(* ===== verification/Common.v ===== *)
(** * reconcilers/helpers/common.go

    Owner references, environment defaults, and the lookup of the workload whose
    annotations select a pod for transition. *)
From S2P Require Import Prelude Types Runtime.

(** ** Owner references *)

Definition isController (ref : OwnerReference) : bool :=
  match or_Controller ref with Some b => b | None => false end.

(** The loop over [pod.OwnerReferences]; [None] is [("", "", false)]. *)
Fixpoint findController (refs : list OwnerReference) : option (string * string) :=
  match refs with
  | [] => None
  | ref :: refs' =>
      if isController ref then Some (or_Kind ref, or_Name ref) else findController refs'
  end.

Definition GetWorkloadOwnerControllerInfo (pod : Pod) : option (string * string) :=
  findController (om_OwnerReferences (pod_Meta pod)).

Fixpoint GetWorkloadControllerOwnerName (refs : list OwnerReference) (kind : string)
    : option string :=
  match refs with
  | [] => None
  | ref :: refs' =>
      if (or_Kind ref =? kind)%string && isController ref then Some (or_Name ref)
      else GetWorkloadControllerOwnerName refs' kind
  end.

(** Kinds compare without case, and a nil [Controller] counts as true. *)
Fixpoint GetOwnerName (refs : list OwnerReference) (kind : string) : option (string * string) :=
  match refs with
  | [] => None
  | ref :: refs' =>
      if EqualFold (or_Kind ref) kind &&
         match or_Controller ref with Some b => b | None => true end
      then Some (or_Name ref, or_Kind ref)
      else GetOwnerName refs' kind
  end.

Section Common.
Context {X : Externals}.

Definition GetEnv (key defaultVal : string) : M string :=
  v <- do (Getenv key) ;;
  ret (if (v =? "")%string then defaultVal else v).

(** [(nil, "", nil)] for an unsupported kind is [Ok (None, "")]. *)
Definition GetParentAnnotations (c : Client) (kind name namespace : string)
    : M (result (option ObjectMeta * string)) :=
  if (kind =? "ReplicaSet")%string then
    rs <- do (KGetWorkload c "ReplicaSet" (NN namespace name)) ;;
    match rs with
    | Err e => ret (Err e)
    | Ok rs =>
        match GetOwnerName (om_OwnerReferences rs) "Deployment" with
        | None => ret (Ok (Some rs, "ReplicaSet"))
        | Some (deployName, _) =>
            deploy <- do (KGetWorkload c "Deployment" (NN (om_Namespace rs) deployName)) ;;
            match deploy with
            | Err _ => ret (Ok (Some rs, "ReplicaSet"))
            | Ok deploy => ret (Ok (Some deploy, "Deployment"))
            end
        end
    end
  else if (kind =? "Deployment")%string then
    deploy <- do (KGetWorkload c "Deployment" (NN namespace name)) ;;
    match deploy with
    | Err e => ret (Err e)
    | Ok deploy => ret (Ok (Some deploy, "Deployment"))
    end
  else if (kind =? "DaemonSet")%string then
    ds <- do (KGetWorkload c "DaemonSet" (NN namespace name)) ;;
    match ds with
    | Err e => ret (Err e)
    | Ok ds => ret (Ok (Some ds, "DaemonSet"))
    end
  else if (kind =? "StatefulSet")%string then
    ss <- do (KGetWorkload c "StatefulSet" (NN namespace name)) ;;
    match ss with
    | Err e => ret (Err e)
    | Ok ss => ret (Ok (Some ss, "StatefulSet"))
    end
  else ret (Ok (None, "")).

(** ** Events of these operations *)

Definition is_getenv (e : event) : Prop :=
  match e with Ev (Getenv _) _ => True | _ => False end.
Definition is_get_workload (e : event) : Prop :=
  match e with Ev (KGetWorkload _ _ _) _ => True | _ => False end.

Lemma emits_GetEnv key d : emits is_getenv (GetEnv key d).
Proof. unfold GetEnv. emits_auto. Qed.

Lemma emits_GetParentAnnotations c kind name ns :
  emits is_get_workload (GetParentAnnotations c kind name ns).
Proof. unfold GetParentAnnotations. emits_auto. Qed.

End Common.

#[export] Hint Resolve emits_GetEnv emits_GetParentAnnotations : go.

(** ** Properties of the owner lookups *)

Lemma findController_some refs kind name :
  findController refs = Some (kind, name) <->
  exists l1 ref l2, refs = l1 ++ ref :: l2 /\ isController ref = true /\
    or_Kind ref = kind /\ or_Name ref = name /\ Forall (fun r => isController r = false) l1.
Proof.
  split.
  - induction refs as [|ref refs IH]; simpl; [done|].
    destruct (isController ref) eqn:E.
    + intros [= <- <-]. by exists [], ref, refs.
    + intros H. destruct (IH H) as (l1 & r & l2 & -> & ? & ? & ? & ?).
      exists (ref :: l1), r, l2. repeat split; try done. by constructor.
  - intros (l1 & ref & l2 & -> & Hc & <- & <- & Hl). induction l1 as [|r l1 IH]; simpl.
    + by rewrite Hc.
    + apply Forall_cons in Hl as [-> Hl]. by apply IH.
Qed.
