(* ===== verification/Policy.v ===== *)
(** * Decisions on cluster policies and node conditions

    The pure functions of reconcilers/helpers/clusterpolicy_helpers.go: the choice
    of the target cluster, the summary of a node's conditions, and the test that a
    package was already transitioned. *)
From S2P Require Import Prelude Types Runtime.

(** ** Choice of the target repository *)

Definition target_step (st : Z * string * string) (target : PreferredCluster)
    : Z * string * string :=
  let '(highestWeight, repo, targetClusterName) := st in
  if negb (pc_RepoType target =? "git")%string then st
  else if (highestWeight <? pc_Weight target)%Z
  then (pc_Weight target, pc_Name target +:+ "-dr", pc_Name target)
  else st.

(** [(repo, targetClusterName, found)]. *)
Definition DetermineTargetRepo (policy : ClusterPolicy) : string * string * bool :=
  let '(_, repo, targetClusterName) :=
    foldl target_step ((-1)%Z, "", "")
      (tcp_PreferClusters (cps_TargetClusterPolicy (cp_Spec policy))) in
  (repo, targetClusterName, negb (repo =? "")%string).

(** A cluster that [DetermineTargetRepo] can select. *)
Definition eligible (t : PreferredCluster) : bool :=
  (pc_RepoType t =? "git")%string && (0 <=? pc_Weight t)%Z.

Definition eligible_targets (policy : ClusterPolicy) : list PreferredCluster :=
  List.filter eligible (tcp_PreferClusters (cps_TargetClusterPolicy (cp_Spec policy))).

(** ** Node conditions *)

Definition recent_step (latest : option Condition) (cond : Condition) : option Condition :=
  match latest with
  | None => Some cond
  | Some l =>
      if After (cond_LastTransitionTime cond) (cond_LastTransitionTime l)
      then Some cond else latest
  end.

Definition GetMostRecentNodeCondition (node : Node) : option Condition :=
  foldl recent_step None (node_Conditions node).

Definition ready_step (readyCond : option Condition) (cond : Condition) : option Condition :=
  if (cond_Type cond =? NodeReady)%string then recent_step readyCond cond else readyCond.

Definition conditionMap (conds : list Condition) : gmap string string :=
  foldl (fun m cond => <[cond_Type cond := cond_Status cond]> m) ∅ conds.

Definition node_problems (conds : list Condition) : list string :=
  let m := conditionMap conds in
  let problem ty name :=
    if (mget m ty =? ConditionTrue)%string then [name] else [] in
  problem NodeMemoryPressure "MemoryPressure" ++
  problem NodeDiskPressure "DiskPressure" ++
  problem NodePIDPressure "PIDPressure" ++
  problem NodeNetworkUnavailable "NetworkUnavailable".

Definition GetNodeStatusSummary (node : Node) : string :=
  match foldl ready_step None (node_Conditions node) with
  | None => "Node status unknown (no Ready condition)"
  | Some readyCond =>
      let status :=
        if (cond_Status readyCond =? ConditionTrue)%string then "Ready"
        else if (cond_Status readyCond =? ConditionFalse)%string
        then "NotReady (" +:+ cond_Reason readyCond +:+ ")"
        else "Unknown" in
      let problems := node_problems (node_Conditions node) in
      match problems with
      | [] => status
      | _ :: _ => status +:+ " (Issues: " +:+ JoinStrings problems ", " +:+ ")"
      end
  end.

(** The conditions of [conds] of one type. *)
Definition of_type (ty : string) (conds : list Condition) : list Condition :=
  List.filter (fun c => cond_Type c =? ty)%string conds.

(** The last condition of a type in [conds] reports a problem. *)
Definition last_is_true (ty : string) (conds : list Condition) : Prop :=
  exists c, last (of_type ty conds) = Some c /\ cond_Status c = ConditionTrue.

(** ** Was the package already transitioned? *)

Definition selector_step (pkg : PackageSelector) (transitioned : TransitionedPackages)
    (latestMatch : option TransitionedPackages) (sel : PackageSelector)
    : option TransitionedPackages :=
  if (ps_Name sel =? ps_Name pkg)%string then
    match latestMatch with
    | None => Some transitioned
    | Some l =>
        if After (tp_LastTransitionTime transitioned) (tp_LastTransitionTime l)
        then Some transitioned else latestMatch
    end
  else latestMatch.

Definition transitioned_step (pkg : PackageSelector)
    (latestMatch : option TransitionedPackages) (transitioned : TransitionedPackages)
    : option TransitionedPackages :=
  foldl (selector_step pkg transitioned) latestMatch (tp_PackageSelectors transitioned).

Definition IsPackageTransitioned (clusterPolicy : ClusterPolicy) (pkg : PackageSelector) : bool :=
  match foldl (transitioned_step pkg) None
          (cpst_TransitionedPackages (cp_Status clusterPolicy)) with
  | Some latestMatch =>
      if (tp_PackageTransitionCondition latestMatch =? PackageTransitionConditionCompleted)%string
      then true
      else false
  | None => false
  end.

(** The record is about the package. *)
Definition mentions (pkg : PackageSelector) (t : TransitionedPackages) : bool :=
  existsb (fun sel => ps_Name sel =? ps_Name pkg)%string (tp_PackageSelectors t).

(** [clusterPolicy.Status.TransitionedPackages = append(..., record)]. *)
Definition append_record (p : ClusterPolicy) (t : TransitionedPackages) : ClusterPolicy :=
  MkClusterPolicy (cp_Meta p) (cp_Spec p)
    (MkClusterPolicyStatus (cpst_TransitionedPackages (cp_Status p) ++ [t])).

(** ** The minimal pod manifest of a checkpoint *)

Definition clean_port (p : ContainerPort) : yval :=
  YMap (let m := {[ "containerPort" := YNum (port_ContainerPort p) ]} in
        if (port_Protocol p =? "")%string then m
        else <["protocol" := YStr (port_Protocol p)]> m).

Definition clean_container (image : string) (c : CoreContainer) : yval :=
  let m : gmap string yval :=
    <["name" := YStr (c_Name c)]> {[ "image" := YStr image ]} in
  let m := match c_Args c with
           | [] => m
           | _ :: _ => <["args" := YSeq (YStr <$> c_Args c)]> m
           end in
  let m := match c_Ports c with
           | [] => m
           | _ :: _ => <["ports" := YSeq (clean_port <$> c_Ports c)]> m
           end in
  YMap m.

Definition buildCleanPodFromCheckpoint (cp : Checkpoint) : gmap string yval :=
  let pr := cks_PodRef (ck_Spec cp) in
  <["apiVersion" := YStr "v1"]>
  (<["kind" := YStr "Pod"]>
  (<["metadata" := YMap (<["name" := YStr (pr_Name pr)]>
       (<["namespace" := YStr (pr_Namespace pr)]>
          {[ "labels" := YMap {[ "checkpoint" := YStr (ck_Name cp) ]} ]}))]>
     {[ "spec" := YMap {[ "containers" :=
          YSeq (clean_container (ckst_LastCheckpointImage (ck_Status cp)) <$>
                  cr_Containers (pr_ContainerRef pr)) ]} ]})).

(** ** Lemmas: the loops are scans *)

Lemma scan_snoc {A} (key : A -> Z) l x :
  scan_max key (l ++ [x]) = scan_step key (scan_max key l) x.
Proof. unfold scan_max. by rewrite foldl_app. Qed.

Definition target_state (o : option PreferredCluster) : Z * string * string :=
  match o with
  | None => ((-1)%Z, "", "")
  | Some t => (pc_Weight t, pc_Name t +:+ "-dr", pc_Name t)
  end.

Lemma target_fold_scan l :
  foldl target_step ((-1)%Z, "", "") l = target_state (scan_max pc_Weight (List.filter eligible l)).
Proof.
  induction l as [|t l IH] using rev_ind; [done|].
  rewrite foldl_app, IH, List.filter_app. simpl.
  assert (match scan_max pc_Weight (List.filter eligible l) with
          | Some b => (0 <= pc_Weight b)%Z | None => True end) as Hpos.
  { destruct (scan_max _ _) as [b|] eqn:E; [|done].
    apply scan_max_some, first_max_in, list_elem_of_In, List.filter_In in E as [_ E].
    unfold eligible in E. bool_to_prop. done. }
  destruct (eligible t) eqn:He; unfold eligible in He.
  - bool_to_prop. rewrite scan_snoc.
    destruct (scan_max _ _) as [b|]; simpl; rewrite H; simpl.
    + by destruct (pc_Weight b <? pc_Weight t)%Z.
    + by replace (-1 <? pc_Weight t)%Z with true by (symmetry; apply Z.ltb_lt; lia).
  - rewrite app_nil_r. destruct (scan_max _ _) as [b|]; simpl;
      destruct (pc_RepoType t =? "git")%string; simpl in *; try done; bool_to_prop.
    + by replace (pc_Weight b <? pc_Weight t)%Z with false by (symmetry; apply Z.ltb_ge; lia).
    + by replace (-1 <? pc_Weight t)%Z with false by (symmetry; apply Z.ltb_ge; lia).
Qed.

Lemma suffix_dr_not_empty n : (n +:+ "-dr" =? "")%string = false.
Proof. apply String.eqb_neq. by apply app_not_empty. Qed.

Lemma DetermineTargetRepo_scan policy :
  DetermineTargetRepo policy =
  match scan_max pc_Weight (eligible_targets policy) with
  | Some t => (pc_Name t +:+ "-dr", pc_Name t, true)
  | None => ("", "", false)
  end.
Proof.
  unfold DetermineTargetRepo, eligible_targets. rewrite target_fold_scan.
  destruct (scan_max _ _) as [t|]; simpl; [|done]. by rewrite suffix_dr_not_empty.
Qed.

Lemma recent_fold_scan l :
  foldl recent_step None l = scan_max cond_LastTransitionTime l.
Proof.
  unfold scan_max. generalize (@None Condition).
  induction l as [|c l IH]; intros o; simpl; [done|]. rewrite IH. by destruct o.
Qed.

Lemma ready_fold_scan l :
  foldl ready_step None l = scan_max cond_LastTransitionTime (of_type NodeReady l).
Proof.
  unfold scan_max. generalize (@None Condition).
  induction l as [|c l IH]; intros o; simpl; [done|]. rewrite IH.
  unfold ready_step. destruct (cond_Type c =? NodeReady)%string; [|done]. by destruct o.
Qed.

Lemma conditionMap_lookup l ty :
  conditionMap l !! ty = cond_Status <$> last (of_type ty l).
Proof.
  unfold conditionMap. induction l as [|c l IH] using rev_ind; [done|].
  rewrite foldl_app. simpl. unfold of_type. rewrite List.filter_app. simpl.
  destruct (cond_Type c =? ty)%string eqn:E; bool_to_prop.
  - subst. rewrite lookup_insert_eq. by rewrite last_snoc.
  - rewrite lookup_insert_ne by done. by rewrite app_nil_r.
Qed.

Lemma condition_true_iff l ty :
  (mget (conditionMap l) ty =? ConditionTrue)%string = true <-> last_is_true ty l.
Proof.
  unfold mget, last_is_true. rewrite conditionMap_lookup, String.eqb_eq.
  destruct (last (of_type ty l)) as [c|]; simpl.
  - split; [by exists c|]. by intros (? & [= <-] & ?).
  - split; [done|]. by intros (? & ? & _).
Qed.

Lemma node_problems_nil l :
  node_problems l = [] <->
  ~ last_is_true NodeMemoryPressure l /\ ~ last_is_true NodeDiskPressure l /\
  ~ last_is_true NodePIDPressure l /\ ~ last_is_true NodeNetworkUnavailable l.
Proof.
  rewrite <- !condition_true_iff. unfold node_problems.
  destruct (mget _ NodeMemoryPressure =? _)%string, (mget _ NodeDiskPressure =? _)%string,
    (mget _ NodePIDPressure =? _)%string, (mget _ NodeNetworkUnavailable =? _)%string;
    simpl; naive_solver.
Qed.

Lemma transitioned_step_mentions pkg o t :
  transitioned_step pkg o t =
  if mentions pkg t then scan_step tp_LastTransitionTime o t else o.
Proof.
  unfold transitioned_step, mentions.
  assert (forall sels, foldl (selector_step pkg t) (scan_step tp_LastTransitionTime o t) sels =
                       scan_step tp_LastTransitionTime o t) as Hstay.
  { induction sels as [|sel sels IH]; simpl; [done|]. unfold selector_step at 2.
    destruct (ps_Name sel =? ps_Name pkg)%string; [|done].
    destruct o as [l|]; simpl in *; unfold After in *.
    - destruct (tp_LastTransitionTime l <? tp_LastTransitionTime t)%Z eqn:E; simpl.
      + by rewrite Z.ltb_irrefl.
      + by rewrite E.
    - by rewrite Z.ltb_irrefl. }
  induction (tp_PackageSelectors t) as [|sel sels IH]; simpl; [done|].
  unfold selector_step at 2. destruct (ps_Name sel =? ps_Name pkg)%string; simpl; [|done].
  replace (match o with
           | None => Some t
           | Some l => if After (tp_LastTransitionTime t) (tp_LastTransitionTime l)
                       then Some t else o end)
    with (scan_step tp_LastTransitionTime o t) by (by destruct o).
  by rewrite Hstay.
Qed.

Lemma transitioned_fold_scan pkg l :
  foldl (transitioned_step pkg) None l =
  scan_max tp_LastTransitionTime (List.filter (mentions pkg) l).
Proof.
  unfold scan_max. generalize (@None TransitionedPackages).
  induction l as [|t l IH]; intros o; simpl; [done|]. rewrite IH.
  rewrite transitioned_step_mentions. by destruct (mentions pkg t).
Qed.

Lemma IsPackageTransitioned_scan p pkg :
  IsPackageTransitioned p pkg =
  match scan_max tp_LastTransitionTime
          (List.filter (mentions pkg) (cpst_TransitionedPackages (cp_Status p))) with
  | Some t => (tp_PackageTransitionCondition t =? PackageTransitionConditionCompleted)%string
  | None => false
  end.
Proof.
  unfold IsPackageTransitioned. rewrite transitioned_fold_scan.
  destruct (scan_max _ _); [|done]. by destruct (_ =? _)%string.
Qed.

#[export] Hint Rewrite recent_fold_scan ready_fold_scan transitioned_fold_scan : go_rw.

(** ** Properties *)

(** C22: The target is the first of the git clusters with the greatest weight, its
    repository is its name with the suffix [-dr], and no target is found exactly
    when no git cluster has a non-negative weight. *)
Theorem DetermineTargetRepo_spec policy :
  match DetermineTargetRepo policy with
  | (repo, name, true) =>
      exists t, first_max pc_Weight (eligible_targets policy) t /\
        name = pc_Name t /\ repo = pc_Name t +:+ "-dr"
  | (repo, name, false) => eligible_targets policy = [] /\ repo = "" /\ name = ""
  end.
Proof.
  rewrite DetermineTargetRepo_scan.
  destruct (scan_max pc_Weight (eligible_targets policy)) as [t|] eqn:E.
  - exists t. by apply scan_max_some in E.
  - by apply scan_max_none in E.
Qed.

(** A node is summarised as [Ready] exactly when the most recent of its Ready
    conditions is true and no pressure or network condition, as last reported,
    is true. *)
Theorem GetNodeStatusSummary_ready node :
  GetNodeStatusSummary node = "Ready" <->
  (exists c, first_max cond_LastTransitionTime (of_type NodeReady (node_Conditions node)) c /\
     cond_Status c = ConditionTrue) /\
  Forall (fun ty => ~ last_is_true ty (node_Conditions node))
    [NodeMemoryPressure; NodeDiskPressure; NodePIDPressure; NodeNetworkUnavailable].
Proof.
  unfold GetNodeStatusSummary. rewrite ready_fold_scan, !Forall_cons, Forall_nil.
  destruct (scan_max _ _) as [c|] eqn:E.
  - apply scan_max_first in E.
    assert (forall c', first_max cond_LastTransitionTime
        (of_type NodeReady (node_Conditions node)) c' -> c' = c) as Huniq
      by (intros; by eapply first_max_unique).
    pose proof (node_problems_nil (node_Conditions node)) as Hp.
    destruct (node_problems (node_Conditions node)) as [|pr prs].
    + destruct (cond_Status c =? ConditionTrue)%string eqn:Hc; bool_to_prop.
      * naive_solver.
      * split; [by destruct (_ =? _)%string|]. intros [(c' & H & H') _].
        by rewrite (Huniq _ H) in H'.
    + split; [|by intros [_ Hn]; assert (pr :: prs = []) by (apply Hp; naive_solver)].
      destruct (_ =? ConditionTrue)%string; [done|].
      by destruct (_ =? ConditionFalse)%string.
  - apply scan_max_none in E. rewrite E. split; [done|].
    by intros [(c & ([] & ? & ? & _) & _) _].
Qed.

(** C24: A package counts as transitioned exactly when, among the records that name
    it, the first of those with the greatest transition time is [Completed]. *)
Theorem IsPackageTransitioned_spec policy pkg :
  IsPackageTransitioned policy pkg = true <->
  exists t, first_max tp_LastTransitionTime
      (List.filter (mentions pkg) (cpst_TransitionedPackages (cp_Status policy))) t /\
    tp_PackageTransitionCondition t = PackageTransitionConditionCompleted.
Proof.
  rewrite IsPackageTransitioned_scan. destruct (scan_max _ _) as [t|] eqn:E.
  - apply scan_max_some in E. rewrite String.eqb_eq. split; [by exists t|].
    intros (t' & Ht & <-). by rewrite (first_max_unique _ _ _ _ Ht E).
  - apply scan_max_none in E. rewrite E. split; [done|].
    by intros (t & ([] & ? & ? & _) & _).
Qed.

(** A record appended for a package later than the records that name it decides
    alone: after it the package counts as transitioned exactly when the record is
    [Completed], so a failed transition is retried and a completed one is not. *)
Theorem IsPackageTransitioned_append policy pkg time cond msg :
  Forall (fun t => tp_LastTransitionTime t < time)%Z
    (List.filter (mentions pkg) (cpst_TransitionedPackages (cp_Status policy))) ->
  IsPackageTransitioned
    (append_record policy (MkTransitionedPackages [pkg] time cond msg)) pkg =
  (cond =? PackageTransitionConditionCompleted)%string.
Proof.
  intros H. rewrite IsPackageTransitioned_scan. unfold append_record; simpl.
  rewrite List.filter_app. simpl. unfold mentions at 2. simpl.
  rewrite String.eqb_refl. simpl. by rewrite scan_max_app_greater.
Qed.

Definition example_pkg : PackageSelector :=
  MkPackageSelector "web" "web" PackageTypeStateless false [].

Lemma IsPackageTransitioned_append_witness :
  IsPackageTransitioned
    (append_record
       (append_record zero_ClusterPolicy
          (MkTransitionedPackages [example_pkg] 5 PackageTransitionConditionFailed "push"))
       (MkTransitionedPackages [example_pkg] 6 PackageTransitionConditionCompleted "ok"))
    example_pkg = true.
Proof.
  apply (IsPackageTransitioned_append
    (append_record zero_ClusterPolicy
       (MkTransitionedPackages [example_pkg] 5 PackageTransitionConditionFailed "push"))
    example_pkg 6 PackageTransitionConditionCompleted "ok").
  vm_compute. repeat constructor.
Defined.
