(* ===== verification/ArgoPush.v ===== *)
(** * Pushing manifests and syncing Argo CD

    The effectful functions of reconcilers/helpers/clusterpolicy_helpers.go: the
    Argo CD application and the Velero restore pushed to the recovery repository,
    the sync request, and the wait for a restore to complete. *)
From S2P Require Import Prelude Types Runtime.

Record ArgoAppSkipResourcesIgnoreDifferences := MkSkip {
  sk_Group : string; sk_Kind : string; sk_Name : string; sk_JsonPointers : list string }.

(** The application manifest of [CreateAndPushArgoApp]. *)
Definition argo_app (clusterPolicy : ClusterPolicy) (transitionPackage : PackageSelector)
    (ignoreDifferences : list ArgoAppSkipResourcesIgnoreDifferences) : ArgoAppSpec :=
  let sel := cps_ClusterSelector (cp_Spec clusterPolicy) in
  {| aa_APIVersion := "argoproj.io/v1alpha1";
     aa_Kind := "Application";
     aa_Metadata_Name := "argocd-" +:+ cs_Name sel +:+ "-" +:+ ps_Name transitionPackage;
     aa_Metadata_Namespace := "argocd";
     aa_Metadata_Finalizers := ["resources-finalizer.argocd.argoproj.io"];
     aa_Project := "default";
     aa_Source_RepoURL := cs_Repo sel;
     aa_Source_TargetRevision := "HEAD";
     aa_Source_Path := ps_PackagePath transitionPackage;
     aa_Source_Directory_Recurse := true;
     aa_Destination_Server := "https://kubernetes.default.svc";
     aa_Destination_Namespace := "default";
     aa_Automated_Prune := false;
     aa_Automated_SelfHeal := true;
     aa_Automated_AllowEmpty := true;
     aa_SyncOptions := ["CreateNamespace=true"];
     aa_IgnoreDifferences :=
       [MkIgnoreDifference "fn.kpt.dev" "ApplyReplacements" "" "" [];
        MkIgnoreDifference "fn.kpt.dev" "StarlarkRun" "" "" [];
        MkIgnoreDifference "infra.nephio.org" "WorkloadCluster" "" "" []] ++
       ((fun diff => MkIgnoreDifference (sk_Group diff) (sk_Kind diff) (sk_Name diff) ""
                       (sk_JsonPointers diff)) <$> ignoreDifferences) |}.

(** The restore manifest of [CreateAndPushVeleroRestore]. *)
Definition velero_restore (clusterPolicy : ClusterPolicy) (transitionPackage : PackageSelector)
    (backupInfo : BackupInformation) : VeleroRestore :=
  {| vr_APIVersion := "velero.io/v1";
     vr_Kind := "Restore";
     vr_Metadata_Name := "velero-" +:+ cs_Name (cps_ClusterSelector (cp_Spec clusterPolicy))
                           +:+ "-" +:+ ps_Name transitionPackage;
     vr_Metadata_Namespace := "velero";
     vr_BackupName := bi_Name backupInfo;
     vr_ExcludedResources := [];
     vr_IncludedResources := [];
     vr_RestorePVs := false;
     vr_PreserveNodePorts := true;
     vr_Hooks := ∅;
     vr_IncludedNamespaces := ["*"];
     vr_ItemOperationTimeout := "4h0m0s" |}.

Definition argo_file (folder timestamp : string) : string :=
  folder +:+ "/argo-app-" +:+ timestamp +:+ ".yaml".
Definition velero_file (folder timestamp : string) : string :=
  folder +:+ "/velero-restore-" +:+ timestamp +:+ ".yaml".

Definition transition_subject (clusterPolicy : ClusterPolicy) (pkg : PackageSelector) : string :=
  cs_Name (cps_ClusterSelector (cp_Spec clusterPolicy)) +:+ "-" +:+ ps_Name pkg.

Definition RestorePhaseCompleted : string := "Completed".
Definition RestorePhaseFailed : string := "Failed".

(** The operation written into an Argo CD application to force a sync. *)
Definition sync_operation : SyncOperation := MkSync "HEAD" true "gitea-client".

Section ArgoPush.
Context {X : Externals}.

Definition CreateAndPushArgoApp (client : GiteaHandle) (username repoName folder : string)
    (clusterPolicy : ClusterPolicy) (transitionPackage : PackageSelector)
    (ignoreDifferences : list ArgoAppSkipResourcesIgnoreDifferences) : M (result string) :=
  yamlData <- do (YMarshalArgo (argo_app clusterPolicy transitionPackage ignoreDifferences)) ;;
  match yamlData with
  | Err e => ret (Err (Wrapf "failed to marshal Argo application YAML: " e))
  | Ok yamlData =>
      timestamp <- now_timestamp ;;
      let filename := argo_file folder timestamp in
      let message := "ArgoCD app: " +:+ transition_subject clusterPolicy transitionPackage in
      let fileOpts := MkCreateFileOptions (base64_encode yamlData) message "main" in
      err <- do (GCreateFile client username repoName filename fileOpts) ;;
      match err with
      | Err e => ret (Err (Wrapf "failed to create file in Gitea: " e))
      | Ok _ => ret (Ok filename)
      end
  end.

(** A nil [k8sClient] makes [k8sClient.Get] panic. *)
Definition TriggerArgoCDSyncWithKubeClient (k8sClient : option Client) (appName namespace : string)
    : M (result unit) :=
  match k8sClient with
  | None => crash
  | Some k8sClient =>
      app <- do (KGetApplication k8sClient (NN namespace appName)) ;;
      match app with
      | Err e => ret (Err (Wrapf "failed to get Argo CD application: " e))
      | Ok app =>
          err <- do (KUpdateApplication k8sClient
                   (MkApplication (app_Name app) (app_Namespace app) (Some sync_operation))) ;;
          match err with
          | Err e => ret (Err (Wrapf "failed to update application with sync operation: " e))
          | Ok _ => ret (Ok tt)
          end
      end
  end.

(** [unstructured.SetNestedMap(obj, value, field)] with one field. *)
Definition SetNestedMap (obj : gmap string yval) (value : gmap string yval) (field : string)
    : gmap string yval := <[field := YMap value]> obj.

(** The operation of [TriggerArgoCDSync]: no apply strategy, so nothing is forced. *)
Definition patch_operation : gmap string yval :=
  {[ "sync" := YMap {[ "revision" := YStr "HEAD" ]};
     "initiatedBy" := YMap {[ "username" := YStr "gitea-client" ]} ]}.

(** The whole object, with its operation, is sent as a merge patch. *)
Definition TriggerArgoCDSync (k8sClient : option Client) (appName namespace : string)
    : M (result unit) :=
  match k8sClient with
  | None => crash
  | Some k8sClient =>
      app <- do (KGetApplicationDoc k8sClient (NN namespace appName)) ;;
      match app with
      | Err e => ret (Err (Wrapf "failed to get Argo CD application: " e))
      | Ok app =>
          let modified := SetNestedMap app patch_operation "operation" in
          modifiedJSON <- do (JMarshal (YMap modified)) ;;
          match modifiedJSON with
          | Err e => ret (Err e)
          | Ok modifiedJSON =>
              do (KPatchApplication k8sClient (NN namespace appName) modifiedJSON)
          end
      end
  end.

Definition restore_interval : Duration := (10 * Second)%Z.

(** The polling loop, for at most [ticks] ticks before the context is done. *)
Fixpoint wait_restore (ticks : nat) (k8sClient : Client) (restoreName namespace : string)
    : M (result unit) :=
  let timed_out := Errorf ("timed out waiting for Velero restore " +:+ restoreName +:+
                             " to complete") in
  match ticks with
  | O => ret (Err timed_out)
  | S ticks' =>
      tick <- do (AwaitTick restore_interval) ;;
      if tick then
        phase <- do (KGetRestore k8sClient (NN namespace restoreName)) ;;
        match phase with
        | Err e => ret (Err (Wrapf ("failed to get Velero restore " +:+ restoreName +:+ ": ") e))
        | Ok phase =>
            if (phase =? RestorePhaseCompleted)%string then ret (Ok tt)
            else if (phase =? RestorePhaseFailed)%string
            then ret (Err (Errorf ("velero restore " +:+ restoreName +:+ " failed")))
            else wait_restore ticks' k8sClient restoreName namespace
        end
      else ret (Err timed_out)
  end.

(** A 10 s ticker fires at most [timeout / 10 s] times before the deadline. *)
Definition waitForVeleroRestoreCompletion (k8sClient : Client) (restoreName namespace : string)
    (timeout : Duration) : M (result unit) :=
  wait_restore (Z.to_nat (timeout / restore_interval)) k8sClient restoreName namespace.

Definition CreateAndPushVeleroRestore (client : GiteaHandle) (username repoName folder : string)
    (clusterPolicy : ClusterPolicy) (transitionPackage : PackageSelector)
    (backupInfo : BackupInformation) (TargetClusterk8sClient : Client) (appName : string)
    : M (result string) :=
  let app := velero_restore clusterPolicy transitionPackage backupInfo in
  yamlData <- do (YMarshalVelero app) ;;
  match yamlData with
  | Err e => ret (Err (Wrapf "failed to marshal Velero restore YAML: " e))
  | Ok yamlData =>
      timestamp <- now_timestamp ;;
      let filename := velero_file folder timestamp in
      let message := "Velero restore: " +:+ transition_subject clusterPolicy transitionPackage in
      let fileOpts := MkCreateFileOptions (base64_encode yamlData) message "main" in
      err <- do (GCreateFile client username repoName filename fileOpts) ;;
      match err with
      | Err e => ret (Err (Wrapf "failed to create velero restore file in Gitea: " e))
      | Ok _ =>
          TriggerArgoCDSyncWithKubeClient (Some TargetClusterk8sClient) appName "argocd" ;;;
          werr <- waitForVeleroRestoreCompletion TargetClusterk8sClient (vr_Metadata_Name app)
                    (vr_Metadata_Namespace app) (30 * Minute)%Z ;;
          match werr with
          | Err e => ret (Err e)
          | Ok _ =>
              perr <- CreateAndPushArgoApp client username repoName folder clusterPolicy
                        transitionPackage [] ;;
              match perr with
              | Err e => ret (Err (Wrapf ("stateful workload final restore file - failed to " +:+
                  "create argocd application restore file in gitea: ") e))
              | Ok _ => ret (Ok filename)
              end
          end
      end
  end.

(** The restored workload's containers are left out of the Argo CD diff, and the
    returned name is the literal ["filename"]. *)
Definition CreateAndPushLiveStateBackupRestore (client : GiteaHandle)
    (username repoName folder : string) (clusterPolicy : ClusterPolicy)
    (transitionPackage : PackageSelector) (checkpoint : Checkpoint) : M (result string) :=
  let ref := cks_ResourceRef (ck_Spec checkpoint) in
  let ignoreDifferences := [MkSkip "" (rr_Kind ref) (rr_Name ref) ["/spec/containers"]] in
  perr <- CreateAndPushArgoApp client username repoName folder clusterPolicy
            transitionPackage ignoreDifferences ;;
  match perr with
  | Err e => ret (Err (Wrapf ("stateful workload final restore file - failed to " +:+
      "create argocd application restore file in gitea: ") e))
  | Ok _ => ret (Ok "filename")
  end.

(** ** Events *)

Definition is_create_file (e : event) : Prop :=
  match e with Ev (GCreateFile _ _ _ _ _) _ => True | _ => False end.

(** The application manifest was committed to the repository: the file was
    created, with this content, message and branch. *)
Definition app_pushed (client : GiteaHandle) (username repoName folder : string)
    (clusterPolicy : ClusterPolicy) (pkg : PackageSelector) (e : event) : Prop :=
  match e with
  | Ev (GCreateFile h owner repo path opts) (Ok _) =>
      h = client /\ owner = username /\ repo = repoName /\
      (exists ts, path = argo_file folder ts) /\ cfo_BranchName opts = "main" /\
      cfo_Message opts = "ArgoCD app: " +:+ transition_subject clusterPolicy pkg
  | _ => False
  end.

(** A commit of the application manifest of a package, wherever it goes. *)
Definition app_commit (clusterPolicy : ClusterPolicy) (pkg : PackageSelector) (e : event) : Prop :=
  match e with
  | Ev (GCreateFile _ _ _ _ opts) (Ok _) =>
      cfo_Message opts = "ArgoCD app: " +:+ transition_subject clusterPolicy pkg
  | _ => False
  end.

Definition restore_pushed (client : GiteaHandle) (username repoName folder : string) (e : event)
    : Prop :=
  match e with
  | Ev (GCreateFile h owner repo path _) (Ok _) =>
      h = client /\ owner = username /\ repo = repoName /\
      exists ts, path = velero_file folder ts
  | _ => False
  end.

(** A poll of the restore reported the phase [Completed]. *)
Definition restore_completed (c : Client) (ns name : string) (e : event) : Prop :=
  match e with
  | Ev (KGetRestore c' nn) (Ok phase) =>
      c' = c /\ nn = NN ns name /\ phase = RestorePhaseCompleted
  | _ => False
  end.

Definition is_poll (e : event) : Prop :=
  match e with Ev (KGetRestore _ _) _ | Ev (AwaitTick _) _ => True | _ => False end.

(** The events of a push: codec, clock, and one file creation. *)
Definition is_push_event (e : event) : Prop :=
  match e with
  | Ev (GCreateFile _ _ _ _ _) _ | Ev (YMarshalArgo _) _ | Ev Now _ | Ev (LocalOffset _) _ => True
  | _ => False
  end.

Definition is_app_event (e : event) : Prop :=
  match e with Ev (KGetApplication _ _) _ | Ev (KUpdateApplication _ _) _ => True | _ => False end.

(** ** Lemmas *)

Lemma emits_argo client u r f p k i :
  emits is_push_event (CreateAndPushArgoApp client u r f p k i).
Proof. unfold CreateAndPushArgoApp, now_timestamp. emits_auto. Qed.

Lemma emits_sync c n ns : emits is_app_event (TriggerArgoCDSyncWithKubeClient c n ns).
Proof. unfold TriggerArgoCDSyncWithKubeClient. emits_auto. Qed.

Lemma emits_wait n c r ns : emits is_poll (wait_restore n c r ns).
Proof. induction n as [|n IH]; simpl; emits_auto. Qed.

(** A push succeeds exactly when its one file creation does. *)
Lemma spec_argo client u r f p k i :
  spec (CreateAndPushArgoApp client u r f p k i) (fun o t =>
    Forall is_push_event t /\
    match o with
    | Ret (Ok name) => (exists ts, name = argo_file f ts) /\
        Exists (app_pushed client u r f p k) t
    | Ret (Err _) => Forall (fun e => ~ app_commit p k e) t
    | Crash => False
    end).
Proof.
  apply spec_of_wp. intros s. unfold CreateAndPushArgoApp, now_timestamp.
  repeat wp_step; simpl; (split; [by repeat constructor|]).
  all: try by repeat constructor; auto.
  split; [by eexists|]. exists_event.
Qed.

(** The wait succeeds only on an observed completion. *)
Lemma spec_wait n c r ns :
  spec (wait_restore n c r ns) (fun o t =>
    Forall is_poll t /\
    match o with
    | Ret (Ok _) => Exists (restore_completed c ns r) t
    | Ret (Err _) => True
    | Crash => False
    end).
Proof.
  induction n as [|n IH]; apply spec_of_wp; intros s; simpl; repeat wp_step; simpl.
  all: try (split; [by repeat constructor|done]).
  - split; [by repeat constructor|]. bool_to_prop. subst.
    exists_event.
  - eapply wp_spec; [apply IH|]. simpl. intros o s' t [Hp Ho]. split.
    + by repeat constructor.
    + destruct o as [[?|?]|]; [|done..]. exists_event.
Qed.

End ArgoPush.

#[export] Hint Resolve emits_argo emits_sync emits_wait : go.

Section ArgoPushProperties.
Context {X : Externals}.

Lemma spec_sync c n ns :
  spec (TriggerArgoCDSyncWithKubeClient (Some c) n ns) (fun o t =>
    Forall is_app_event t /\ exists r, o = Ret r).
Proof.
  apply spec_of_wp. intros s. unfold TriggerArgoCDSyncWithKubeClient.
  repeat wp_step; simpl; (split; [by repeat constructor|by eexists]).
Qed.

Lemma pushed_commit client u r f p k e : app_pushed client u r f p k e -> app_commit p k e.
Proof. destruct e as [[] res]; simpl; try tauto. destruct res; tauto. Qed.

Lemma Forall_not_pushed client u r f p k t :
  Forall (fun e => ~ app_commit p k e) t -> Forall (fun e => ~ app_pushed client u r f p k e) t.
Proof. intros H. eapply Forall_impl; [exact H|]. eauto using pushed_commit. Qed.

(** Polls, syncs and the push of the restore are not the push of the application. *)
Lemma restore_file_not_app p k h o rp path c m b res :
  m = "Velero restore: " +:+ b ->
  ~ app_commit p k (Ev (GCreateFile h o rp path (MkCreateFileOptions c m "main")) res).
Proof. intros ->. destruct res as [?|?]; simpl; [|tauto]. intros H. discriminate H. Qed.

Lemma Forall_poll_not_app p k t : Forall is_poll t -> Forall (fun e => ~ app_commit p k e) t.
Proof. intros H. eapply Forall_impl; [exact H|]. intros [[] ?]; simpl; tauto. Qed.
Lemma Forall_sync_not_app p k t :
  Forall is_app_event t -> Forall (fun e => ~ app_commit p k e) t.
Proof. intros H. eapply Forall_impl; [exact H|]. intros [[] ?]; simpl; tauto. Qed.

End ArgoPushProperties.

#[export] Hint Resolve Forall_poll_not_app Forall_sync_not_app restore_file_not_app : go.

Section ArgoPushTheorems.
Context {X : Externals}.

Lemma spec_velero client u r f p k b c n :
  spec (CreateAndPushVeleroRestore client u r f p k b c n) (fun o t =>
    precedes (restore_completed c "velero" (vr_Metadata_Name (velero_restore p k b)))
             (app_commit p k) t /\
    match o with
    | Ret (Ok name) => (exists ts, name = velero_file f ts) /\
        Exists (restore_pushed client u r f) t /\ Exists (app_pushed client u r f p k) t
    | Ret (Err _) => Forall (fun e => ~ app_commit p k e) t
    | Crash => False
    end).
Proof.
  apply spec_of_wp. intros s. unfold CreateAndPushVeleroRestore, now_timestamp.
  repeat wp_step.
  all: try (split; [apply precedes_no|]; by forall_events).
  eapply wp_spec; [apply spec_sync|]. intros o s' t [Hsync [res ->]].
  wp_step. eapply wp_spec; [apply spec_wait|]. intros o' s'' t' [Hwait Ho'].
  destruct o' as [[?|?]|]; [| |done].
  - wp_step. eapply wp_spec; [apply spec_argo|]. intros o3 s3 t3 [_ Ho3].
    destruct o3 as [[?|?]|]; [| |done]; wp_step.
    + split; [|split; [by eexists|]; destruct Ho3 as [_ Ho3]; split; exists_event].
      apply precedes_app; [apply precedes_no; by forall_events|left].
      exists_event.
    + split; [apply precedes_no|]; by forall_events.
  - wp_step. split; [apply precedes_no|]; by forall_events.
Qed.

End ArgoPushTheorems.
