(* ===== verification/Capi.v ===== *)
(** * reconcilers/capi/cluster.go

    From the name of a workload cluster to a client for it: the kubeconfig secret,
    the Ready condition of the Cluster object, and the client built from the
    secret. *)
From S2P Require Import Prelude Types Runtime.

Definition kubeConfigSuffix : string := "-kubeconfig".

Record Capi := MkCapi { capi_Client : Client; capi_Secret : option Secret }.

Definition GetClusterName (r : Capi) : string :=
  match capi_Secret r with
  | None => ""
  | Some secret => TrimSuffix (om_Name (sec_Meta secret)) kubeConfigSuffix
  end.

Definition isReady (cs : list Condition) : bool :=
  existsb (fun c => (cond_Type c =? ReadyCondition)%string &&
                    (cond_Status c =? ConditionTrue)%string) cs.

Definition GetCapiCluster (secret : option Secret) (cl : Client) : option Capi :=
  match secret with
  | None => None
  | Some s =>
      if negb (HasSuffix (om_Name (sec_Meta s)) kubeConfigSuffix) then None
      else Some (MkCapi cl (Some s))
  end.

(** The same body under a second name. *)
Definition GetCapiClusterFromSecret (secret : option Secret) (cl : Client) : option Capi :=
  match secret with
  | None => None
  | Some s =>
      if negb (HasSuffix (om_Name (sec_Meta s)) kubeConfigSuffix) then None
      else Some (MkCapi cl (Some s))
  end.

Section Capi.
Context {X : Externals}.

(** A nil secret makes [r.Secret.GetNamespace()] panic. *)
Definition isCapiClusterReady (r : Capi) : M bool :=
  let name := GetClusterName r in
  match capi_Secret r with
  | None => crash
  | Some secret =>
      cl <- do (KGetUnstructuredCluster (capi_Client r)
                  (NN (om_Namespace (sec_Meta secret)) name)) ;;
      match cl with
      | Err _ => ret false
      | Ok cl =>
          b <- do (MarshalUnstructured cl) ;;
          match b with
          | Err _ => ret false
          | Ok b =>
              cluster <- do (UnmarshalCluster b) ;;
              match cluster with
              | Err _ => ret false
              | Ok cluster => ret (isReady (cl_Conditions cluster))
              end
          end
      end
  end.

(** [g.AddToScheme(scheme)]: the scheme, when it succeeds with the group in it. *)
Definition AddToSchemeOf (g : SchemeGroup) (scheme : Scheme) : M (Scheme * option error) :=
  err <- do (AddToScheme scheme g) ;;
  match err with
  | Err e => ret (scheme, Some e)
  | Ok _ => ret (scheme ++ [g], None)
  end.

(** [utilruntime.Must]: a panic on an error. *)
Definition MustAdd (g : SchemeGroup) (scheme : Scheme) : M Scheme :=
  r <- AddToSchemeOf g scheme ;;
  match r.2 with Some _ => crash | None => ret r.1 end.

Fixpoint must_add_all (gs : list SchemeGroup) (scheme : Scheme) : M Scheme :=
  match gs with
  | [] => ret scheme
  | g :: gs' => scheme' <- MustAdd g scheme ;; must_add_all gs' scheme'
  end.

Definition GetSchemeWithVelero : M (result Scheme) :=
  r <- AddToSchemeOf CoreV1 [] ;;
  match r.2 with
  | Some e => ret (Err e)
  | None =>
      r' <- AddToSchemeOf VeleroV1 r.1 ;;
      match r'.2 with
      | Some e => ret (Err e)
      | None => ret (Ok r'.1)
      end
  end.

(** The groups of [GetDefaultKubeScheme]. The last is the scheme of the scale
    client, although the comment speaks of the client-go default scheme. *)
Definition default_groups : list SchemeGroup :=
  [CoreV1; AppsV1; BatchV1; RbacV1; AutoscalingV1; NetworkingV1; PolicyV1; StorageV1;
   ApiextensionsV1; ScaleScheme].

Definition GetDefaultKubeScheme : M Scheme := must_add_all default_groups [].

(** The client, its configuration and the flag [ready]. *)
Definition getCapiClusterClient (secret : Secret) : M (result (Client * RestConfig * bool)) :=
  s <- GetDefaultKubeScheme ;;
  s <- MustAdd VeleroV1 s ;;
  scheme <- AddToSchemeOf ArgoV1alpha1 s ;;
  config <- do (RESTConfigFromKubeConfig (mget (sec_Data secret) "value")) ;;
  match config with
  | Err e => ret (Err e)
  | Ok config =>
      clClient <- do (NewK8sClient config scheme.1) ;;
      match clClient with
      | Err e => ret (Err e)
      | Ok _ => ret (Ok (WorkloadClient config, config, true))
      end
  end.

(** Called on a nil [*Capi], it panics. *)
Definition GetClusterClient (r : option Capi) : M (result (Client * RestConfig * bool)) :=
  match r with
  | None => crash
  | Some r =>
      ready <- isCapiClusterReady r ;;
      if negb ready
      then ret (Err (Errorf ("workload cluster " +:+ quoted (GetClusterName r) +:+ " not Ready yet")))
      else match capi_Secret r with
           | None => crash
           | Some secret => getCapiClusterClient secret
           end
  end.

(** An empty name gives a nil [*Capi] and no error. *)
Definition GetCapiClusterFromName (name namespace : string) (cl : Client)
    : M (result (option Capi)) :=
  if (name =? "")%string then ret (Ok None)
  else
    secret <- do (KGetSecret cl (NN namespace (name +:+ kubeConfigSuffix))) ;;
    match secret with
    | Err e => ret (Err e)
    | Ok secret => ret (Ok (GetCapiCluster (Some secret) cl))
    end.

(** The loop over the listed clusters, which stops at the first match. *)
Fixpoint find_capi (c : Client) (clusterName : string) (clusters : list Cluster)
    : M (result (option Capi)) :=
  match clusters with
  | [] => ret (Ok None)
  | workloadCluster :: clusters' =>
      if (clusterName =? cl_Name workloadCluster)%string
      then GetCapiClusterFromName clusterName "default" c
      else find_capi c clusterName clusters'
  end.

(** The requeue delay and the client; no client and no error when the cluster is
    not ready. *)
Definition GetWorkloadClusterClient (c : Client) (clusterName : string)
    : M (result (Duration * option (Client * RestConfig))) :=
  clusterList <- do (KListClusters c) ;;
  match clusterList with
  | Err e => ret (Err e)
  | Ok clusterList =>
      capiCluster <- find_capi c clusterName clusterList ;;
      match capiCluster with
      | Err e => ret (Err e)
      | Ok None => ret (Err (Errorf ("no matching cluster found for " +:+ clusterName)))
      | Ok (Some r) =>
          res <- GetClusterClient (Some r) ;;
          match res with
          | Err _ => ret (Ok ((10 * Second)%Z, None))
          | Ok (clusterClient, restConfig, ready) =>
              if negb ready then ret (Ok ((10 * Second)%Z, None))
              else ret (Ok (0%Z, Some (clusterClient, restConfig)))
          end
      end
  end.

(** ** Events *)

Definition is_capi_event (e : event) : Prop :=
  match e with
  | Ev (KListClusters _) _ | Ev (KGetSecret _ _) _ | Ev (KGetUnstructuredCluster _ _) _
  | Ev (MarshalUnstructured _) _ | Ev (UnmarshalCluster _) _
  | Ev (RESTConfigFromKubeConfig _) _ | Ev (NewK8sClient _ _) _ | Ev (AddToScheme _ _) _ => True
  | _ => False
  end.

(** The Cluster object was read with a true Ready condition. *)
Definition observed_ready (e : event) : Prop :=
  match e with
  | Ev (UnmarshalCluster _) (Ok cluster) => isReady (cl_Conditions cluster) = true
  | _ => False
  end.

(** A registration that [Must] does not forgive has failed. *)
Definition scheme_failed (e : event) : Prop :=
  match e with Ev (AddToScheme _ g) (Err _) => g ≠ ArgoV1alpha1 | _ => False end.

Lemma scheme_failed_some t :
  Exists scheme_failed t ->
  existsb (fun e => match e with Ev (AddToScheme _ _) (Err _) => true | _ => false end) t = true.
Proof.
  intros (e & Hin & He)%Exists_exists. apply existsb_exists.
  exists e. split; [by apply list_elem_of_In|]. destruct e as [c r]. destruct c; try done.
  by destruct r.
Qed.

(** The scheme of the clients of workload clusters: Argo CD's types are in it
    when their registration, whose error is dropped, succeeded. *)
Definition workload_scheme (argo : bool) : Scheme :=
  default_groups ++ VeleroV1 :: (if argo then [ArgoV1alpha1] else []).

(** The client was built for this configuration with that scheme. *)
Definition client_built (cfg : RestConfig) (e : event) : Prop :=
  match e with
  | Ev (NewK8sClient cfg' scheme) (Ok _) => cfg' = cfg /\ exists argo, scheme = workload_scheme argo
  | _ => False
  end.

Lemma spec_MustAdd g scheme :
  g ≠ ArgoV1alpha1 ->
  spec (MustAdd g scheme) (fun o t =>
    Forall is_capi_event t /\
    match o with
    | Ret scheme' => scheme' = scheme ++ [g]
    | Crash => Exists scheme_failed t
    end).
Proof.
  intros Hg. apply spec_of_wp. intros s. unfold MustAdd, AddToSchemeOf.
  repeat wp_step; simpl in *; simplify_eq; (split; [by forall_events|try done]).
  exists_event.
Qed.

Lemma spec_must_add_all gs scheme :
  ArgoV1alpha1 ∉ gs ->
  spec (must_add_all gs scheme) (fun o t =>
    Forall is_capi_event t /\
    match o with
    | Ret scheme' => scheme' = scheme ++ gs
    | Crash => Exists scheme_failed t
    end).
Proof.
  revert scheme. induction gs as [|g gs IH]; intros scheme Hg; apply spec_of_wp; intros s; simpl.
  - wp_step. by rewrite app_nil_r.
  - apply not_elem_of_cons in Hg as [Hg Hgs]. wp_step.
    eapply wp_spec; [by apply spec_MustAdd|]. intros o s' t [Ht Ho].
    destruct o as [scheme'|]; [subst|done].
    eapply wp_spec; [by apply IH|]. intros o s'' t' [Ht' Ho].
    split; [by forall_events|]. destruct o; [by rewrite Ho, <-(assoc_L (++))|].
    exists_event.
Qed.

Lemma emits_isCapiClusterReady r : emits is_capi_event (isCapiClusterReady r).
Proof. unfold isCapiClusterReady. emits_auto. Qed.

Lemma spec_getCapiClusterClient secret :
  spec (getCapiClusterClient secret) (fun o t =>
    Forall is_capi_event t /\
    match o with
    | Ret (Ok (cl, cfg, ready)) =>
        ready = true /\ cl = WorkloadClient cfg /\ Exists (client_built cfg) t
    | Ret (Err _) => True
    | Crash => Exists scheme_failed t
    end).
Proof.
  apply spec_of_wp. intros s. unfold getCapiClusterClient, AddToSchemeOf. wp_step.
  eapply wp_spec; [apply spec_must_add_all; vm_compute; set_solver|]. intros o s1 t1 [Ht1 Ho1].
  destruct o as [sc1|]; [subst|done]. wp_step.
  eapply wp_spec; [by apply spec_MustAdd|]. intros o s2 t2 [Ht2 Ho2].
  destruct o as [sc2|]; [subst|split; [by forall_events|exists_event]].
  repeat wp_step; (split; [by forall_events|try done]).
  all: split; [done|]; split; [done|]; rewrite !Exists_app, ?Exists_cons.
  all: repeat first [left; split; [done|first [by exists false|by exists true]] | right].
Qed.

Lemma spec_isCapiClusterReady r :
  spec (isCapiClusterReady r) (fun o t =>
    Forall is_capi_event t /\
    match o with
    | Ret ready => is_Some (capi_Secret r) /\ (ready = true -> Exists observed_ready t)
    | Crash => capi_Secret r = None
    end).
Proof.
  apply spec_of_wp. intros s. unfold isCapiClusterReady.
  repeat wp_step; (split; [by forall_events|try done]); (split; [by eexists|intros Hr; try done]).
  exists_event.
Qed.

Lemma spec_GetClusterClient r :
  spec (GetClusterClient (Some r)) (fun o t =>
    Forall is_capi_event t /\
    match o with
    | Ret (Ok (cl, cfg, ready)) =>
        ready = true /\ cl = WorkloadClient cfg /\ Exists observed_ready t /\
        Exists (client_built cfg) t
    | Ret (Err _) => True
    | Crash => capi_Secret r = None \/ Exists scheme_failed t
    end).
Proof.
  apply spec_of_wp. intros s. unfold GetClusterClient. wp_step.
  eapply wp_spec; [apply spec_isCapiClusterReady|]. intros o s1 t1 [Ht1 Ho1].
  destruct o as [ready|]; [|by split; [|left]]. destruct Ho1 as [[secret Hs] Hr].
  rewrite Hs. destruct ready; simpl; [|wp_step; by split].
  eapply wp_spec; [apply spec_getCapiClusterClient|]. intros o s2 t2 [Ht2 Ho2].
  split; [by forall_events|]. destruct o as [[[[cl cfg] ready]|]|]; [|done|right; exists_event].
  destruct Ho2 as (-> & -> & Hb). specialize (Hr eq_refl).
  split; [done|]. split; [done|]. split; exists_event.
Qed.

Lemma spec_GetCapiClusterFromName name ns cl :
  spec (GetCapiClusterFromName name ns cl) (fun o t =>
    Forall is_capi_event t /\
    match o with
    | Ret (Ok (Some r)) => name ≠ "" /\ capi_Client r = cl /\ exists secret,
        capi_Secret r = Some secret /\ HasSuffix (om_Name (sec_Meta secret)) kubeConfigSuffix = true
    | Ret _ => True
    | Crash => False
    end).
Proof.
  apply spec_of_wp. intros s. unfold GetCapiClusterFromName, GetCapiCluster.
  repeat wp_step; (split; [by forall_events|try done]).
  destruct (HasSuffix _ _) eqn:Hs; simpl; [|done]. bool_to_prop. eauto.
Qed.

Lemma emits_GetCapiClusterFromName name ns cl :
  emits is_capi_event (GetCapiClusterFromName name ns cl).
Proof. intros s. apply (spec_GetCapiClusterFromName name ns cl s). Qed.

Lemma emits_GetClusterClient r : emits is_capi_event (GetClusterClient r).
Proof.
  destruct r as [r|]; [|apply emits_crash]. intros s. apply (spec_GetClusterClient r s).
Qed.

Lemma spec_find_capi c name l :
  spec (find_capi c name l) (fun o t =>
    Forall is_capi_event t /\
    match o with
    | Ret (Ok (Some r)) => exists secret, capi_Secret r = Some secret
    | Ret _ => True
    | Crash => False
    end).
Proof.
  induction l as [|w l IH]; simpl.
  - apply spec_of_wp. intros s. by wp_step.
  - destruct (_ =? _)%string; [|done]. intros s.
    destruct (spec_GetCapiClusterFromName name "default" c s) as [Ht Ho].
    split; [done|]. destruct (r_out _) as [[[r|]|]|]; naive_solver.
Qed.

Lemma spec_GetWorkloadClusterClient c name :
  spec (GetWorkloadClusterClient c name) (fun o t =>
    Forall is_capi_event t /\
    match o with
    | Ret (Ok (d, Some (cl, cfg))) =>
        d = 0%Z /\ cl = WorkloadClient cfg /\ Exists observed_ready t /\
        Exists (client_built cfg) t
    | Ret (Ok (d, None)) => d = (10 * Second)%Z
    | Ret (Err _) => True
    | Crash => Exists scheme_failed t
    end).
Proof.
  apply spec_of_wp. intros s. unfold GetWorkloadClusterClient.
  repeat wp_step; [|split; [by forall_events|done]].
  eapply wp_spec; [apply spec_find_capi|]. intros o s' t [Ht Ho].
  destruct o as [[[r'|]|]|]; [| | |done]; try (wp_step; split; [by forall_events|done]).
  wp_step. eapply wp_spec; [apply spec_GetClusterClient|]. intros o s'' t' [Ht' Ho'].
  destruct o as [[[[cl cfg] ready]|]|].
  3:{ split; [by forall_events|]. destruct Ho' as [Hn|He]; [|exists_event].
      destruct Ho as [? Ho]. congruence. }
  - destruct Ho' as (-> & -> & He & Hb). simpl. wp_step. split; [by forall_events|].
    split; [done|]. split; [done|]. split; exists_event.
  - wp_step. split; [by forall_events|done].
Qed.

Lemma emits_GetWorkloadClusterClient c name :
  emits is_capi_event (GetWorkloadClusterClient c name).
Proof. intros s. apply (spec_GetWorkloadClusterClient c name s). Qed.

End Capi.

#[export] Hint Resolve emits_GetCapiClusterFromName emits_GetClusterClient
  emits_GetWorkloadClusterClient : go.
#[global] Arguments GetClusterClient : simpl never.
#[global] Arguments GetWorkloadClusterClient : simpl never.
#[global] Arguments GetCapiClusterFromName : simpl never.

(** ** Properties *)

(** The outcome of [GetWorkloadClusterClient] for every answer of the services:
    a client comes without a delay, only for a cluster whose Ready condition was
    read as true, and is bound to the parsed kubeconfig; no client and no error
    means a requeue after 10 seconds; a returned client knows the API groups of
    [default_groups] and Velero; the function panics only when one of these groups
    cannot be registered. *)
Theorem GetWorkloadClusterClient_outcomes {X : Externals} c name s :
  match r_out (GetWorkloadClusterClient c name s) with
  | Ret (Ok (d, Some (cl, cfg))) =>
      d = 0%Z /\ cl = WorkloadClient cfg /\
      Exists observed_ready (r_trace (GetWorkloadClusterClient c name s)) /\
      Exists (client_built cfg) (r_trace (GetWorkloadClusterClient c name s))
  | Ret (Ok (d, None)) => d = (10 * Second)%Z
  | Ret (Err _) => True
  | Crash => Exists scheme_failed (r_trace (GetWorkloadClusterClient c name s))
  end.
Proof. apply (spec_GetWorkloadClusterClient c name s). Qed.

(** When the API server returns the secret it was asked for, the [Capi] found
    for a cluster name has that cluster name. *)
Theorem GetCapiClusterFromName_roundtrip {X : Externals} name ns cl s r :
  (forall w secret, (respond (KGetSecret cl (NN ns (name +:+ kubeConfigSuffix))) w).1 = Ok secret ->
     om_Name (sec_Meta secret) = name +:+ kubeConfigSuffix) ->
  r_out (GetCapiClusterFromName name ns cl s) = Ret (Ok (Some r)) ->
  GetClusterName r = name.
Proof.
  intros Hname. unfold GetCapiClusterFromName, bind, do, ret.
  destruct (name =? "")%string; simpl; [done|].
  specialize (Hname (ms_world s)). destruct (respond _ _) as [[secret|e] w]; simpl in *; [|done].
  rewrite (Hname secret eq_refl), HasSuffix_app. simpl. intros [= <-].
  unfold GetClusterName. simpl. by rewrite (Hname secret eq_refl), TrimSuffix_app.
Qed.

Definition kubeconfig_answers (c : call) : resp c :=
  match c with
  | KGetSecret _ nn => Ok (MkSecret (named (nn_Namespace nn) (nn_Name nn)) "Opaque" ∅)
  | c => default_resp c
  end.

Lemma GetCapiClusterFromName_roundtrip_witness :
  GetClusterName (MkCapi MgmtClient
    (Some (MkSecret (named "default" ("edge" +:+ kubeConfigSuffix)) "Opaque" ∅))) = "edge".
Proof.
  apply (@GetCapiClusterFromName_roundtrip (ConstExternals kubeconfig_answers)
           "edge" "default" MgmtClient (const_state kubeconfig_answers)).
  - intros w secret. simpl. intros [= <-]. reflexivity.
  - reflexivity.
Defined.
