(* ===== verification/GiteaClient.v ===== *)
(** * reconcilers/gitaclient/giteaclient.go

    The process-wide Gitea client and the credentials read from the git secret. *)
From S2P Require Import Prelude Types Runtime Common.

Definition IsInitialized (r : gc) : bool :=
  match gc_giteaClient r with Some _ => true | None => false end.

Section GiteaClient.
Context {X : Externals}.

(** Name and namespace of the git secret, with their defaults. *)
Definition git_secret_key : M NamespacedName :=
  gitSecretName <- GetEnv "GIT_SECRET_NAME" "git-user-secret" ;;
  ns <- do (Getenv "GIT_SECRET_NAMESPACE") ;;
  if (ns =? "")%string then
    gitSecretNamespace <- GetEnv "POD_NAMESPACE" "default" ;;
    ret (NN gitSecretNamespace gitSecretName)
  else ret (NN ns gitSecretName).

(** [Start] leaves the instance unconnected on every failure. *)
Definition Start (client : Client) (r : gc) : M gc :=
  gitURL <- do (Getenv "GIT_SERVER_URL") ;;
  if (gitURL =? "")%string then ret r
  else
    key <- git_secret_key ;;
    secret <- do (KGetSecret client key) ;;
    match secret with
    | Err _ => ret r
    | Ok secret =>
        let h := MkGiteaHandle gitURL (mget (sec_Data secret) "username")
                   (mget (sec_Data secret) "password") in
        c <- do (GNewClient h) ;;
        match c with
        | Err _ => ret r
        | Ok _ =>
            user <- do (GGetMyUserInfo h) ;;
            match user with
            | Err _ => ret r
            | Ok _ => ret (MkGc (Some h))
            end
        end
    end.

(** The singleton is created, and [Start] run, by the first call only. *)
Definition GetClient (ctx_nil : bool) (client : option Client) : M (result gc) :=
  if ctx_nil then
    ret (Err (Errorf "failed creating gitea client, value of ctx cannot be nil"))
  else
    match client with
    | None =>
        ret (Err (Errorf "failed creating gitea client, value of client.Client cannot be nil"))
    | Some client =>
        single <- get_singleton ;;
        match single with
        | Some g => ret (Ok g)
        | None =>
            instance <- Start client (MkGc None) ;;
            set_singleton instance ;;;
            ret (Ok instance)
        end
    end.

(** [(username, password, giturl)]; without [GIT_SERVER_URL] the bare [return]
    gives three empty strings and a nil error. *)
Definition GetGiteaSecretUserNamePassword (client : Client) : M (result (string * string * string)) :=
  gitURL <- do (Getenv "GIT_SERVER_URL") ;;
  if (gitURL =? "")%string then ret (Ok ("", "", ""))
  else
    key <- git_secret_key ;;
    secret <- do (KGetSecret client key) ;;
    match secret with
    | Err e => ret (Err e)
    | Ok secret =>
        ret (Ok (mget (sec_Data secret) "username", mget (sec_Data secret) "password", gitURL))
    end.

Definition init_timed_out : error :=
  Errorf "timeout waiting for gitea client initialization".

(** The loop of [WaitForInitialization], cut after [rounds] rounds, where it ends
    like a timeout. [r i] is the instance as round [i] finds it: another goroutine
    may be connecting it. *)
Fixpoint wait_init (rounds i : nat) (r : nat -> gc) (start : Time) (timeout : Duration)
    : M (option error) :=
  match rounds with
  | O => ret (Some init_timed_out)
  | S rounds' =>
      if IsInitialized (r i) then ret None
      else
        now <- do Now ;;
        if (timeout <? Sub now start)%Z then ret (Some init_timed_out)
        else
          fired <- do (SelectAfter Second) ;;
          if fired then wait_init rounds' (S i) r start timeout
          else
            err <- do CtxErr ;;
            ret (Some err)
  end.

(** Every round but the last takes a second: see [wait_init_enough]. *)
Definition init_rounds (timeout : Duration) : nat := Z.to_nat (timeout / Second + 2).

Definition WaitForInitialization (r : nat -> gc) (timeout : Duration) : M (option error) :=
  start <- do Now ;;
  wait_init (init_rounds timeout) 0 r start timeout.

(** ** Forwards to the SDK *)

(** A method of the SDK's client; on a nil [*gitea.Client] it panics. *)
Definition forward (r : gc) (method : string) (args : list string) : M (result string) :=
  match gc_giteaClient r with
  | None => crash
  | Some h => do (GForward h method args)
  end.

Definition Get (r : gc) : option GiteaHandle := gc_giteaClient r.

Definition GetMyUserInfo (r : gc) : M (result string) :=
  match gc_giteaClient r with
  | None => crash
  | Some h => do (GGetMyUserInfo h)
  end.

(** Options and results of the SDK are opaque here. *)
Definition DeleteRepo (r : gc) (owner repo : string) : M (result string) :=
  forward r "DeleteRepo" [owner; repo].
Definition GetRepo (r : gc) (userName repoCRName : string) : M (result string) :=
  forward r "GetRepo" [userName; repoCRName].
Definition CreateRepo (r : gc) (createRepoOption : string) : M (result string) :=
  forward r "CreateRepo" [createRepoOption].
Definition EditRepo (r : gc) (userName repoCRName editRepoOption : string) : M (result string) :=
  forward r "EditRepo" [userName; repoCRName; editRepoOption].
Definition DeleteAccessToken (r : gc) (value : string) : M (result string) :=
  forward r "DeleteAccessToken" [value].
Definition ListAccessTokens (r : gc) (opts : string) : M (result string) :=
  forward r "ListAccessTokens" [opts].
Definition CreateAccessToken (r : gc) (opt : string) : M (result string) :=
  forward r "CreateAccessToken" [opt].

(** ** Events *)

Definition is_gitea_setup (e : event) : Prop :=
  match e with
  | Ev (Getenv _) _ | Ev (KGetSecret _ _) _ | Ev (GNewClient _) _ | Ev (GGetMyUserInfo _) _ => True
  | _ => False
  end.

(** Gitea answered an authenticated request of this client. *)
Definition authenticated (h : GiteaHandle) (e : event) : Prop :=
  match e with Ev (GGetMyUserInfo h') (Ok _) => h' = h | _ => False end.

Lemma emits_git_secret_key : emits is_gitea_setup git_secret_key.
Proof. unfold git_secret_key, GetEnv. emits_auto. Qed.

Lemma total_git_secret_key s : exists k, r_out (git_secret_key s) = Ret k.
Proof.
  apply (spec_of_wp git_secret_key (fun o _ => exists k, o = Ret k)).
  intros s'. unfold git_secret_key, GetEnv. repeat wp_step; by eexists.
Qed.

Lemma spec_Start client g :
  spec (Start client g) (fun o t =>
    Forall is_gitea_setup t /\ exists g', o = Ret g' /\
    (g' = g \/ exists h, g' = MkGc (Some h) /\ Exists (authenticated h) t)).
Proof.
  apply spec_of_wp. intros s. unfold Start, git_secret_key, GetEnv.
  repeat wp_step; (split; [by forall_events|eexists; split; [done|]]); auto.
  all: right; eexists; split; [done|]; exists_event.
Qed.

Lemma spec_GetClient n client :
  spec (GetClient n client) (fun o t => Forall is_gitea_setup t /\ exists r, o = Ret r).
Proof.
  apply spec_of_wp. intros s. unfold GetClient. repeat wp_step.
  all: try (split; [by forall_events|by eexists]).
  eapply wp_spec; [apply spec_Start|]. intros o s' t (Ht & g' & -> & _). repeat wp_step.
  split; [by forall_events|by eexists].
Qed.

Lemma emits_GetClient n client : emits is_gitea_setup (GetClient n client).
Proof. intros s. apply (spec_GetClient n client s). Qed.

Lemma emits_credentials client : emits is_gitea_setup (GetGiteaSecretUserNamePassword client).
Proof.
  unfold GetGiteaSecretUserNamePassword. pose proof emits_git_secret_key. emits_auto.
Qed.

End GiteaClient.

#[export] Hint Resolve emits_GetClient emits_credentials : go.
#[global] Arguments Start : simpl never.
#[global] Arguments GetClient : simpl never.
#[global] Arguments GetGiteaSecretUserNamePassword : simpl never.

(** ** Properties *)

(** Once [GetClient] has run, every later call returns the same instance and
    contacts no service, whether or not the first call could connect: an instance
    that failed to initialise is never initialised again. *)
Theorem GetClient_once {X : Externals} c1 c2 s :
  match r_out (GetClient false (Some c1) s) with
  | Ret (Ok g) =>
      GetClient false (Some c2) (r_state (GetClient false (Some c1) s)) =
      MkRun _ (Ret (Ok g)) (r_state (GetClient false (Some c1) s)) []
  | _ => False
  end.
Proof.
  assert (forall g s', ms_singleton s' = Some g ->
    GetClient false (Some c2) s' = MkRun _ (Ret (Ok g)) s' []) as Hagain.
  { intros g s' Hs. unfold GetClient, bind, get_singleton, ret. simpl. by rewrite Hs. }
  unfold GetClient, bind, get_singleton, set_singleton, ret.
  cbn [r_out r_state r_trace]. destruct (ms_singleton s) as [g|] eqn:E; cbn [r_out r_state].
  - by apply Hagain.
  - destruct (spec_Start c1 (MkGc None) s) as (_ & g' & Hg & _). rewrite Hg.
    cbn [r_out r_state]. by apply Hagain.
Qed.

(** The credentials lookup reports no error when the server URL is not
    configured; it then returns empty credentials without reading any secret. *)
Theorem credentials_without_url {X : Externals} client s :
  (respond (Getenv "GIT_SERVER_URL") (ms_world s)).1 = "" ->
  r_out (GetGiteaSecretUserNamePassword client s) = Ret (Ok ("", "", "")) /\
  r_trace (GetGiteaSecretUserNamePassword client s) = [Ev (Getenv "GIT_SERVER_URL") ""].
Proof.
  intros H. unfold GetGiteaSecretUserNamePassword, bind, do, ret. simpl.
  destruct (respond _ _) as [r w]. simpl in *. by subst.
Qed.

Lemma credentials_without_url_witness :
  r_out (GetGiteaSecretUserNamePassword MgmtClient (const_state default_resp)) =
    Ret (Ok ("", "", "")).
Proof.
  apply (@credentials_without_url (ConstExternals default_resp) MgmtClient
           (const_state default_resp)).
  reflexivity.
Defined.

Section WaitInit.
Context {X : Externals} {C : Clock X}.

(** With a clock that never goes back and timers that do not fire early, the rounds
    that the timeout allows are all the loop ever makes. *)
Lemma wait_init_enough k extra i r start timeout s :
  (0 <= timeout < maxInt64)%Z ->
  (timeout < clock (ms_world s) - start + Z.of_nat k * Second)%Z ->
  wait_init (S k + extra) i r start timeout s = wait_init (S k) i r start timeout s.
Proof.
  intros Ht. revert i s. induction k as [|k IH]; intros i s Hc; cbn [wait_init Nat.add];
    destruct (IsInitialized (r i)); try done;
    apply bind_cong; intros now [= <-]; rewrite clock_now;
    pose proof (Sub_gt (clock (ms_world s)) start timeout ltac:(unfold minInt64; lia)) as H2;
    destruct (Z.ltb_spec timeout (Sub (clock (ms_world s)) start)) as [|Hs]; try done.
  - exfalso. apply Z.le_ngt in Hs. apply Hs, H2. lia.
  - apply bind_cong. intros fired Hf. destruct fired; [|done]. apply IH.
    set (w1 := respond Now (ms_world s)) in *.
    pose proof (clock_mono Now (ms_world s)) as Hm.
    assert ((respond (SelectAfter Second) w1.2).1 = true) as Hfire by by injection Hf.
    pose proof (clock_after Second w1.2 Hfire). subst w1. simpl in *.
    rewrite Nat2Z.inj_succ, Z.mul_succ_l in Hc. lia.
Qed.

Lemma WaitForInitialization_ends extra r timeout s :
  (0 <= timeout < maxInt64)%Z ->
  (start <- do Now ;; wait_init (init_rounds timeout + extra) 0 r start timeout) s =
  WaitForInitialization r timeout s.
Proof.
  intros Ht. unfold WaitForInitialization. apply bind_cong. intros start [= <-].
  unfold init_rounds. pose proof (Z.div_pos timeout Second ltac:(lia) ltac:(done)).
  replace (Z.to_nat (timeout / Second + 2)) with (S (Z.to_nat (timeout / Second + 1))) by lia.
  apply wait_init_enough; [done|]. rewrite Z2Nat.id by lia. rewrite clock_now.
  pose proof (clock_mono Now (ms_world s)). simpl in *.
  pose proof (Z.mod_pos_bound timeout Second ltac:(done)).
  pose proof (Z.div_mod timeout Second ltac:(done)). lia.
Qed.

End WaitInit.
