(* ===== verification/Manifests.v ===== *)
(** * Manifest files and the git push

    The YAML edits and the commit of reconcilers/gitaclient/gitea.go. A decoded
    document is a finite map of YAML values; decoding and encoding are calls. *)
From S2P Require Import Prelude Types Runtime.

(** ** Type assertions on decoded values *)

Definition get_map (m : gmap string yval) (k : string) : option (gmap string yval) :=
  match m !! k with Some (YMap m') => Some m' | _ => None end.
Definition get_seq (m : gmap string yval) (k : string) : option (list yval) :=
  match m !! k with Some (YSeq l) => Some l | _ => None end.
(** [s, _ := m[k].(string)]: the empty string when it is not a string. *)
Definition get_str (m : gmap string yval) (k : string) : string :=
  match m !! k with Some (YStr s) => s | _ => "" end.

(** ** Container images *)

Definition isSupportedKind (k : string) : bool :=
  ((k =? "Deployment") || (k =? "ReplicaSet") || (k =? "DaemonSet") || (k =? "StatefulSet"))%string.

(** The body of the loop over one container list, and whether it changed. *)
Definition update_container (imageCheckpoint originalImage : string) (c : yval) : yval * bool :=
  match c with
  | YMap cm =>
      let image := get_str cm "image" in
      if negb (image =? "")%string && (image =? originalImage)%string
      then (YMap (<["image" := YStr imageCheckpoint]> cm), true)
      else (c, false)
  | _ => (c, false)
  end.

Definition update_field (imageCheckpoint originalImage : string)
    (st : gmap string yval * bool) (field : string) : gmap string yval * bool :=
  let '(resourceSpec, changed) := st in
  match get_seq resourceSpec field with
  | Some arr =>
      let upd := update_container imageCheckpoint originalImage <$> arr in
      (<[field := YSeq (fst <$> upd)]> resourceSpec, changed || existsb snd upd)
  | None => (resourceSpec, changed)
  end.

(** The updated pod spec and the flag [changed]. *)
Definition updateContainers (resourceSpec : gmap string yval)
    (imageCheckpoint originalImage : string) : gmap string yval * bool :=
  foldl (update_field imageCheckpoint originalImage) (resourceSpec, false)
    ["containers"; "initContainers"].

(** ** Interface addresses *)

Record IPInfo := MkIPInfo { ip_Address : string; ip_Gateway : string }.

Definition set_ipv4 (info : IPInfo) (ipv4 : gmap string yval) : gmap string yval :=
  let ipv4 := if (ip_Address info =? "")%string then ipv4
              else <["address" := YStr (ip_Address info)]> ipv4 in
  if (ip_Gateway info =? "")%string then ipv4
  else <["gateway" := YStr (ip_Gateway info)]> ipv4.

Definition set_interface (newIPs : gmap string IPInfo) (name : string) (m : gmap string yval)
    : gmap string yval :=
  match newIPs !! name with
  | Some info =>
      match get_map m "ipv4" with
      | Some ipv4 => <["ipv4" := YMap (set_ipv4 info ipv4)]> m
      | None => m
      end
  | None => m
  end.

(** The unchecked assertions of [UpdateInterfaceIPsNFDeployment]: [None] is the
    panic on an interface that is not a map with a string name. *)
Fixpoint set_interfaces_unchecked (newIPs : gmap string IPInfo) (ifaces : list yval)
    : option (list yval) :=
  match ifaces with
  | [] => Some []
  | YMap m :: ifaces' =>
      match m !! "name", set_interfaces_unchecked newIPs ifaces' with
      | Some (YStr name), Some l => Some (YMap (set_interface newIPs name m) :: l)
      | _, _ => None
      end
  | _ :: _ => None
  end.

(** The checked loop of [UpdateInterfaceIPsConfigRefs]. *)
Definition set_interfaces_checked (newIPs : gmap string IPInfo) (ifaces : list yval) : list yval :=
  (fun iface =>
     match iface with
     | YMap m =>
         match m !! "name" with
         | Some (YStr name) => YMap (set_interface newIPs name m)
         | _ => iface
         end
     | _ => iface
     end) <$> ifaces.

Section Manifests.
Context {X : Externals}.

Definition write_doc (path : string) (doc : gmap string yval) : M (result unit) :=
  out <- do (YMarshalDoc doc) ;;
  match out with
  | Err e => ret (Err e)
  | Ok out => do (WriteFile path out)
  end.

Definition UpdateInterfaceIPsNFDeployment (path : string) (newIPs : gmap string IPInfo)
    : M (result unit) :=
  data <- do (ReadFile path) ;;
  match data with
  | Err e => ret (Err e)
  | Ok data =>
      doc <- do (YUnmarshalDoc data) ;;
      match doc with
      | Err e => ret (Err e)
      | Ok doc =>
          match get_map doc "spec" with
          | None => ret (Ok tt)
          | Some spec =>
              match get_seq spec "interfaces" with
              | None => ret (Ok tt)
              | Some ifaces =>
                  match set_interfaces_unchecked newIPs ifaces with
                  | None => crash
                  | Some ifaces' =>
                      write_doc path
                        (<["spec" := YMap (<["interfaces" := YSeq ifaces']> spec)]> doc)
                  end
              end
          end
      end
  end.

Definition UpdateInterfaceIPsConfigRefs (path : string) (newIPs : gmap string IPInfo)
    : M (result unit) :=
  data <- do (ReadFile path) ;;
  match data with
  | Err e => ret (Err e)
  | Ok data =>
      doc <- do (YUnmarshalDoc data) ;;
      match doc with
      | Err e => ret (Err e)
      | Ok doc =>
          match get_map doc "spec" with
          | None => ret (Ok tt)
          | Some spec =>
              match get_map spec "config" with
              | None => ret (Ok tt)
              | Some config =>
                  match get_map config "spec" with
                  | None => ret (Ok tt)
                  | Some nfSpec =>
                      match get_seq nfSpec "interfaces" with
                      | None => ret (Ok tt)
                      | Some ifaces =>
                          let nfSpec' :=
                            <["interfaces" := YSeq (set_interfaces_checked newIPs ifaces)]> nfSpec in
                          let config' := <["spec" := YMap nfSpec']> config in
                          let spec' := <["config" := YMap config']> spec in
                          write_doc path (<["spec" := YMap spec']> doc)
                      end
                  end
              end
          end
      end
  end.

Definition UpdateResourceContainers (path imageCheckpoint originalImage : string)
    : M (result unit) :=
  data <- do (ReadFile path) ;;
  match data with
  | Err e => ret (Err (Wrapf "read file: " e))
  | Ok data =>
      doc <- do (YUnmarshalDoc data) ;;
      match doc with
      | Err e => ret (Err (Wrapf "unmarshal yaml: " e))
      | Ok doc =>
          let kind := get_str doc "kind" in
          if negb (isSupportedKind kind)
          then ret (Err (Errorf (path +:+ ": unsupported Kind " +:+ quoted kind)))
          else
            match get_map doc "spec" with
            | None => ret (Err (Errorf (path +:+ ": missing spec")))
            | Some spec =>
                match get_map spec "template" with
                | None => ret (Err (Errorf (path +:+ ": missing spec.template")))
                | Some tpl =>
                    match get_map tpl "spec" with
                    | None => ret (Err (Errorf (path +:+ ": missing spec.template.spec")))
                    | Some resourceSpec =>
                        let '(resourceSpec', changed) :=
                          updateContainers resourceSpec imageCheckpoint originalImage in
                        if negb changed then ret (Ok tt)
                        else
                          let tpl' := <["spec" := YMap resourceSpec']> tpl in
                          let spec' := <["template" := YMap tpl']> spec in
                          out <- do (YMarshalDoc (<["spec" := YMap spec']> doc)) ;;
                          match out with
                          | Err e => ret (Err (Wrapf "marshal yaml: " e))
                          | Ok out => do (WriteFile path out)
                          end
                    end
                end
            end
      end
  end.

Definition CommitAndPush (cloneDir branch repoURL userName password commitMsg : string)
    : M (result unit) :=
  r <- do (GitOpen cloneDir) ;;
  match r with
  | Err e => ret (Err (Wrapf "open repo: " e))
  | Ok _ =>
      w <- do (GitWorktree cloneDir) ;;
      match w with
      | Err e => ret (Err (Wrapf "get worktree: " e))
      | Ok _ =>
          a <- do (GitAddAll cloneDir) ;;
          match a with
          | Err e => ret (Err (Wrapf "git add: " e))
          | Ok _ =>
              c <- do (GitCommit cloneDir commitMsg userName (userName +:+ "@example.com")) ;;
              match c with
              | Err e => ret (Err (Wrapf "git commit: " e))
              | Ok _ =>
                  p <- do (GitPush cloneDir "origin"
                         ("refs/heads/" +:+ branch +:+ ":refs/heads/" +:+ branch)
                         userName password) ;;
                  match p with
                  | Err e => ret (Err (Wrapf "git push: " e))
                  | Ok _ => ret (Ok tt)
                  end
              end
          end
      end
  end.

(** ** Events *)

Definition is_file_event (e : event) : Prop :=
  match e with
  | Ev (ReadFile _) _ | Ev (YUnmarshalDoc _) _ | Ev (YMarshalDoc _) _ | Ev (WriteFile _ _) _ => True
  | _ => False
  end.

Definition is_write (e : event) : Prop :=
  match e with Ev (WriteFile _ _) _ => True | _ => False end.

Definition is_git_event (e : event) : Prop :=
  match e with
  | Ev (GitOpen _) _ | Ev (GitWorktree _) _ | Ev (GitAddAll _) _ | Ev (GitCommit _ _ _ _) _
  | Ev (GitPush _ _ _ _ _) _ => True
  | _ => False
  end.

(** The branch was pushed from the clone. *)
Definition pushed (dir : string) (e : event) : Prop :=
  match e with Ev (GitPush d _ _ _ _) (Ok _) => d = dir | _ => False end.

Lemma emits_UpdateResourceContainers path ck orig :
  emits is_file_event (UpdateResourceContainers path ck orig).
Proof. unfold UpdateResourceContainers. emits_auto. Qed.

Lemma spec_UpdateResourceContainers path ck orig :
  spec (UpdateResourceContainers path ck orig) (fun o t =>
    Forall is_file_event t /\ exists r, o = Ret r).
Proof.
  apply spec_of_wp. intros s. unfold UpdateResourceContainers.
  repeat wp_step; (split; [by forall_events|by eexists]).
Qed.

Lemma spec_CommitAndPush dir branch url u p msg :
  spec (CommitAndPush dir branch url u p msg) (fun o t =>
    Forall is_git_event t /\
    match o with
    | Ret (Ok _) => Exists (pushed dir) t
    | Ret (Err _) => Forall (fun e => ~ pushed dir e) t
    | Crash => False
    end).
Proof.
  apply spec_of_wp. intros s. unfold CommitAndPush.
  repeat wp_step; (split; [by forall_events|]); try by forall_events.
  exists_event.
Qed.

End Manifests.

#[export] Hint Resolve emits_UpdateResourceContainers : go.
#[global] Arguments UpdateResourceContainers : simpl never.
#[global] Arguments CommitAndPush : simpl never.

(** ** Lemmas on the image update *)

Definition image_of (c : yval) : string :=
  match c with YMap m => get_str m "image" | _ => "" end.

Definition container_fields : list string := ["containers"; "initContainers"].

(** The containers a pod spec lists under a field. *)
Definition containers_of (spec : gmap string yval) (field : string) : list yval :=
  default [] (get_seq spec field).

(** A container without its image. *)
Definition erase_image (c : yval) : yval :=
  match c with YMap m => YMap (delete "image" m) | c => c end.

Definition update_value (ck orig : string) (v : option yval) : option yval :=
  match v with
  | Some (YSeq l) => Some (YSeq ((fun c => (update_container ck orig c).1) <$> l))
  | v => v
  end.

Lemma update_field_lookup ck orig spec b field k :
  (update_field ck orig (spec, b) field).1 !! k =
  if decide (k = field) then update_value ck orig (spec !! k) else spec !! k.
Proof.
  unfold update_field, get_seq. case_decide as Hk.
  - subst. destruct (spec !! field) as [[]|] eqn:E; simpl; rewrite ?E; try done.
    rewrite lookup_insert_eq. simpl. by rewrite <- list_fmap_compose.
  - destruct (spec !! field) as [[]|] eqn:E; simpl; try done. by rewrite lookup_insert_ne.
Qed.

Lemma updateContainers_lookup spec ck orig k :
  (updateContainers spec ck orig).1 !! k =
  if decide (k ∈ container_fields) then update_value ck orig (spec !! k) else spec !! k.
Proof.
  change (updateContainers spec ck orig) with
    (update_field ck orig (update_field ck orig (spec, false) "containers") "initContainers").
  unfold container_fields.
  destruct (update_field ck orig (spec, false) "containers") as [s1 b1] eqn:E1.
  rewrite update_field_lookup. pose proof (update_field_lookup ck orig spec false "containers") as H1.
  rewrite E1 in H1. simpl in H1. rewrite H1.
  repeat case_decide; subst; set_solver.
Qed.

Lemma containers_of_update spec ck orig field :
  field ∈ container_fields ->
  containers_of (updateContainers spec ck orig).1 field =
  (fun c => (update_container ck orig c).1) <$> containers_of spec field.
Proof.
  intros Hf. unfold containers_of, get_seq. rewrite updateContainers_lookup.
  rewrite decide_True by done. by destruct (spec !! field) as [[]|].
Qed.

Lemma updateContainers_changed spec ck orig :
  (updateContainers spec ck orig).2 = true <->
  exists field c, field ∈ container_fields /\ c ∈ containers_of spec field /\
    (update_container ck orig c).2 = true.
Proof.
  assert (forall s b f, (update_field ck orig (s, b) f).2 =
    b || existsb snd (update_container ck orig <$> containers_of s f)) as Hf.
  { intros s b f. unfold update_field, containers_of.
    destruct (get_seq s f); simpl; [done|]. by rewrite orb_false_r. }
  assert (forall l, existsb snd (update_container ck orig <$> l) = true <->
    exists c, c ∈ l /\ (update_container ck orig c).2 = true) as He.
  { intros l. rewrite existsb_exists. split.
    - intros (x & Hin & Hx). apply list_elem_of_In, list_elem_of_fmap in Hin as (c & -> & ?). eauto.
    - intros (c & Hin & Hc). exists (update_container ck orig c). split; [|done].
      apply list_elem_of_In, list_elem_of_fmap. eauto. }
  change (updateContainers spec ck orig) with
    (update_field ck orig (update_field ck orig (spec, false) "containers") "initContainers").
  destruct (update_field ck orig (spec, false) "containers") as [s1 b1] eqn:E1.
  rewrite Hf, orb_true_iff, He.
  pose proof (Hf spec false "containers") as Hb. rewrite E1 in Hb. simpl in Hb. subst b1.
  assert (containers_of s1 "initContainers" = containers_of spec "initContainers") as ->.
  { unfold containers_of, get_seq.
    pose proof (update_field_lookup ck orig spec false "containers" "initContainers") as H.
    rewrite E1 in H. simpl in H. by rewrite H. }
  rewrite He. unfold container_fields. split.
  - intros [(c & ? & ?)|(c & ? & ?)]; eexists _, c; (split; [|done]); set_solver.
  - intros (f & c & Hin & ? & ?). apply elem_of_cons in Hin as [->|Hin]; [by left; exists c|].
    apply list_elem_of_singleton in Hin as ->. right. by exists c.
Qed.

Lemma image_of_set ck m : image_of (YMap (<["image" := YStr ck]> m)) = ck.
Proof. unfold image_of, get_str. by rewrite lookup_insert_eq. Qed.

Lemma update_container_cases ck orig c :
  (update_container ck orig c = (c, false) /\ (image_of c = "" \/ image_of c ≠ orig)) \/
  (exists m, c = YMap m /\ image_of c = orig /\ orig ≠ "" /\
     update_container ck orig c = (YMap (<["image" := YStr ck]> m), true)).
Proof.
  unfold update_container, image_of.
  destruct c as [| | | | | |m]; try (left; split; [done|by left]).
  destruct (get_str m "image" =? "")%string eqn:E; simpl; bool_to_prop.
  - left. split; [done|by left].
  - destruct (get_str m "image" =? orig)%string eqn:E'; bool_to_prop.
    + right. exists m. subst. done.
    + left. split; [done|by right].
Qed.

Lemma image_of_update ck orig c :
  orig ≠ "" ->
  image_of (update_container ck orig c).1 = if decide (image_of c = orig) then ck else image_of c.
Proof.
  intros Ho. destruct (update_container_cases ck orig c) as [[-> H]|(m & -> & Hi & _ & ->)]; simpl.
  - case_decide; [|done]. by destruct H; subst.
  - rewrite decide_True by done. apply image_of_set.
Qed.

Lemma erase_image_update ck orig c :
  erase_image (update_container ck orig c).1 = erase_image c.
Proof.
  destruct (update_container_cases ck orig c) as [[-> _]|(m & -> & _ & _ & ->)]; simpl; [done|].
  by rewrite delete_insert_eq.
Qed.

Lemma update_container_back ck orig c :
  ck ≠ "" -> image_of c ≠ ck ->
  (update_container orig ck (update_container ck orig c).1).1 = c.
Proof.
  intros Hck Hc. destruct (update_container_cases ck orig c) as [[-> _]|(m & -> & Hi & Ho & ->)].
  - simpl. destruct (update_container_cases orig ck c) as [[-> _]|(m & _ & ? & _)]; [done|congruence].
  - unfold update_container. simpl. unfold get_str at 1 2. rewrite !lookup_insert_eq.
    rewrite String.eqb_refl. destruct (ck =? "")%string eqn:E; bool_to_prop; [done|]. simpl.
    f_equal. rewrite insert_insert_eq. apply insert_id. revert Hi Ho. unfold image_of, get_str.
    destruct (m !! "image") as [[]|]; intros; subst; done.
Qed.

(** ** Properties *)

(** C26: The image update: every container of both lists that ran the original image
    now has the checkpoint image and every other image is kept; nothing but images
    changes, in the containers and in the rest of the pod spec; and the flag
    reports exactly whether some container ran the original image. *)
Theorem updateContainers_correct spec ck orig :
  orig ≠ "" ->
  let '(spec', changed) := updateContainers spec ck orig in
  (forall field, field ∈ container_fields ->
     image_of <$> containers_of spec' field =
       (fun i => if decide (i = orig) then ck else i) <$> (image_of <$> containers_of spec field) /\
     erase_image <$> containers_of spec' field = erase_image <$> containers_of spec field) /\
  (forall field, field ∉ container_fields -> spec' !! field = spec !! field) /\
  (changed = true <->
     exists field c, field ∈ container_fields /\ c ∈ containers_of spec field /\
       image_of c = orig).
Proof.
  intros Ho. destruct (updateContainers spec ck orig) as [spec' changed] eqn:E.
  assert (spec' = (updateContainers spec ck orig).1) as -> by by rewrite E.
  assert (changed = (updateContainers spec ck orig).2) as -> by by rewrite E.
  split; [|split].
  - intros field Hf. rewrite containers_of_update by done. rewrite <- !list_fmap_compose.
    split; apply list_fmap_ext; intros i c _; simpl;
      [by apply image_of_update|apply erase_image_update].
  - intros field Hf. rewrite updateContainers_lookup. by rewrite decide_False.
  - rewrite updateContainers_changed.
    split; intros (f & c & Hf & Hc & H); exists f, c; (split; [done|]); (split; [done|]).
    + destruct (update_container_cases ck orig c) as [[Hu _]|(m & _ & ? & _)]; [|done].
      by rewrite Hu in H.
    + destruct (update_container_cases ck orig c) as [[_ [?|?]]|(m & _ & _ & _ & ->)];
        [congruence..|done].
Qed.

Definition example_spec : gmap string yval :=
  {[ "containers" := YSeq [YMap {[ "name" := YStr "app"; "image" := YStr "nginx" ]};
                           YMap {[ "name" := YStr "log"; "image" := YStr "fluentd" ]}] ]}.

Lemma updateContainers_correct_witness :
  "nginx" ≠ "" /\ (updateContainers example_spec "reg/ckpt" "nginx").2 = true.
Proof.
  split; [done|].
  pose proof (updateContainers_correct example_spec "reg/ckpt" "nginx") as H.
  destruct (updateContainers example_spec "reg/ckpt" "nginx") as [s b].
  apply H; [done|]. exists "containers".
  exists (YMap {[ "name" := YStr "app"; "image" := YStr "nginx" ]}).
  split; [unfold container_fields; set_solver|]. split; [|reflexivity].
  change (containers_of example_spec "containers") with
    [YMap {[ "name" := YStr "app"; "image" := YStr "nginx" ]};
     YMap {[ "name" := YStr "log"; "image" := YStr "fluentd" ]}]. left.
Defined.

(** C27: The update can be undone: when no container runs the checkpoint image,
    replacing original by checkpoint and then checkpoint by original gives the
    pod spec back. *)
Theorem updateContainers_rollback spec ck orig :
  ck ≠ "" ->
  (forall field c, field ∈ container_fields -> c ∈ containers_of spec field -> image_of c ≠ ck) ->
  (updateContainers (updateContainers spec ck orig).1 orig ck).1 = spec.
Proof.
  intros Hck Hfree. apply map_eq. intros k. rewrite updateContainers_lookup.
  rewrite updateContainers_lookup. case_decide as Hk; [|done].
  specialize (Hfree k). unfold containers_of, get_seq in Hfree.
  destruct (spec !! k) as [[| | | | |l|]|] eqn:E; simpl; try done.
  do 2 f_equal. rewrite <- list_fmap_compose. rewrite <- (list_fmap_id l) at 2.
  apply list_fmap_ext. intros i c Hi. simpl. apply update_container_back; [done|].
  apply Hfree; [done|]. simpl. by eapply list_elem_of_lookup_2.
Qed.

Lemma updateContainers_rollback_witness :
  (updateContainers (updateContainers example_spec "reg/ckpt" "nginx").1 "nginx" "reg/ckpt").1 =
  example_spec.
Proof.
  apply updateContainers_rollback; [done|].
  intros field c Hf Hc. unfold container_fields in Hf.
  apply elem_of_cons in Hf as [->|Hf]; [|apply list_elem_of_singleton in Hf as ->].
  - change (containers_of example_spec "containers") with
      [YMap {[ "name" := YStr "app"; "image" := YStr "nginx" ]};
       YMap {[ "name" := YStr "log"; "image" := YStr "fluentd" ]}] in Hc.
    apply elem_of_cons in Hc as [->|Hc]; [done|]. by apply list_elem_of_singleton in Hc as ->.
  - change (containers_of example_spec "initContainers") with (@nil yval) in Hc.
    by apply not_elem_of_nil in Hc.
Defined.

(** The runs of [UpdateResourceContainers]: nothing is written, or the four calls
    that decode, encode and write the updated document are the whole run. *)
Definition rewrite_run {X : Externals} (path ck orig : string) (res : result unit) (t : trace)
    : Prop :=
  exists data doc spec tpl podspec out,
    t = [Ev (ReadFile path) (Ok data); Ev (YUnmarshalDoc data) (Ok doc);
         Ev (YMarshalDoc (<["spec" := YMap (<["template" := YMap (<["spec" :=
              YMap (updateContainers podspec ck orig).1]> tpl)]> spec)]> doc)) (Ok out);
         Ev (WriteFile path out) res] /\
    isSupportedKind (get_str doc "kind") = true /\ get_map doc "spec" = Some spec /\
    get_map spec "template" = Some tpl /\ get_map tpl "spec" = Some podspec /\
    (updateContainers podspec ck orig).2 = true.

Lemma spec_rewrite {X : Externals} path ck orig :
  spec (UpdateResourceContainers path ck orig) (fun o t =>
    match o with
    | Ret res => Forall (fun e => ~ is_write e) t \/ rewrite_run path ck orig res t
    | Crash => False
    end).
Proof.
  apply spec_of_wp. intros s. unfold UpdateResourceContainers, rewrite_run.
  repeat wp_step; try (left; by forall_events).
  right. subst. simpl. bool_to_prop.
  match goal with H : updateContainers ?r _ _ = _ |- _ =>
    eexists _, _, _, _, r, _; rewrite H end.
  repeat split; try done.
Qed.

(** What [UpdateResourceContainers] does to the file system, for every answer of
    the services: it always returns; when it reports success the file holds the
    decoded document with only its pod spec updated and encoded again, or was not
    written because no container ran the original image; when it fails before the
    write the file is not written. *)
Theorem UpdateResourceContainers_writes {X : Externals} path ck orig s :
  match r_out (UpdateResourceContainers path ck orig s) with
  | Ret res =>
      Forall (fun e => ~ is_write e) (r_trace (UpdateResourceContainers path ck orig s)) \/
      exists data doc spec tpl podspec out,
        r_trace (UpdateResourceContainers path ck orig s) =
          [Ev (ReadFile path) (Ok data); Ev (YUnmarshalDoc data) (Ok doc);
           Ev (YMarshalDoc (<["spec" := YMap (<["template" := YMap (<["spec" :=
                YMap (updateContainers podspec ck orig).1]> tpl)]> spec)]> doc)) (Ok out);
           Ev (WriteFile path out) res] /\
        isSupportedKind (get_str doc "kind") = true /\ get_map doc "spec" = Some spec /\
        get_map spec "template" = Some tpl /\ get_map tpl "spec" = Some podspec /\
        (updateContainers podspec ck orig).2 = true
  | Crash => False
  end.
Proof. apply (spec_rewrite path ck orig s). Qed.
