(* ===== verification/Scanner.v ===== *)
(** * The concurrent manifest scan

    CheckRepoForMatchingManifests of reconcilers/gitaclient/gitea.go: a directory
    walker, a pool of workers, a closer and the collecting [select] loop, connected
    by the channels [fileCh], [matchCh], [errCh] and [done]. The Go scheduler's and
    the [select] statement's choices are an explicit list of numbers, and every
    finite interleaving is the run of some list. *)
From S2P Require Import Prelude Types Runtime.

Definition normalize_ns (ns : string) : string := if (ns =? "")%string then "default" else ns.

(** The match test on one decoded document. *)
Definition head_matches (resourceRef : ResourceRef) (obj : ManifestHead) : bool :=
  ((mh_Kind obj =? rr_Kind resourceRef) && (mh_Name obj =? rr_Name resourceRef) &&
   (normalize_ns (mh_Namespace obj) =? normalize_ns (rr_Namespace resourceRef)))%string.

Definition is_yaml (path : string) : bool :=
  let ext := ToLower (Ext path) in (ext =? ".yaml")%string || (ext =? ".yml")%string.

Definition chan_cap : nat := 100.

(** A worker waits on [fileCh], decodes the documents of a file, or has returned. *)
Inductive worker :=
| WRange
| WDecode (path : string) (docs : list ManifestHead) (err : option error)
| WExited.

Record scan := MkScan {
  sc_walk : list string;
  sc_walkErr : option error;
  sc_fileCh : list string;
  sc_fileClosed : bool;
  sc_workers : list worker;
  sc_matchCh : list string;
  sc_matchClosed : bool;
  sc_errCh : option error;
  sc_done : bool;
  sc_matching : list string;
  sc_ret : option (result (list string)) }.

(** A non-blocking send on [errCh], whose capacity is 1. *)
Definition offer (errCh : option error) (e : error) : option error :=
  match errCh with None => Some e | Some _ => errCh end.

Section Machine.
Context (cancelled : bool) (ref : ResourceRef).
Context (content : string -> list ManifestHead * option error).

Definition init_scan (n : nat) (walk : list string) (walkErr : option error) : scan :=
  MkScan walk walkErr [] false (replicate n WRange) [] false None false [] None.

(** The goroutine of the directory walk. *)
Definition walker_step (st : scan) : list scan :=
  let '(MkScan walk werr fch fcl ws mch mcl ech dn mt rt) := st in
  if fcl then []
  else match walk with
       | p :: walk' =>
           if (length fch <? chan_cap)%nat
           then [MkScan walk' werr (fch ++ [p]) fcl ws mch mcl ech dn mt rt] else []
       | [] =>
           match werr with
           | Some e => [MkScan walk None fch fcl ws mch mcl (offer ech e) dn mt rt]
           | None => [MkScan walk werr fch true ws mch mcl ech dn mt rt]
           end
       end.

(** One step of the worker with index [i]. *)
Definition worker_step (st : scan) (i : nat) : list scan :=
  let '(MkScan walk werr fch fcl ws mch mcl ech dn mt rt) := st in
  match ws !! i with
  | None | Some WExited => []
  | Some WRange =>
      match fch with
      | p :: fch' =>
          if cancelled then [MkScan walk werr fch' fcl (<[i := WExited]> ws) mch mcl ech dn mt rt]
          else let '(docs, err) := content p in
          [MkScan walk werr fch' fcl (<[i := WDecode p docs err]> ws) mch mcl ech dn mt rt]
      | [] =>
          if fcl then [MkScan walk werr fch fcl (<[i := WExited]> ws) mch mcl ech dn mt rt] else []
      end
  | Some (WDecode p (d :: docs) err) =>
      if head_matches ref d then
        if (length mch <? chan_cap)%nat
        then [MkScan walk werr fch fcl (<[i := WDecode p docs err]> ws) (mch ++ [p]) mcl ech dn mt rt]
        else []
      else [MkScan walk werr fch fcl (<[i := WDecode p docs err]> ws) mch mcl ech dn mt rt]
  | Some (WDecode p [] None) =>
      [MkScan walk werr fch fcl (<[i := WRange]> ws) mch mcl ech dn mt rt]
  | Some (WDecode p [] (Some e)) =>
      [MkScan walk werr fch fcl (<[i := WExited]> ws) mch mcl (offer ech e) dn mt rt]
  end.

Definition exited (w : worker) : bool := match w with WExited => true | _ => false end.

(** The goroutine that waits for the workers and closes [matchCh], then [done]. *)
Definition closer_step (st : scan) : list scan :=
  let '(MkScan walk werr fch fcl ws mch mcl ech dn mt rt) := st in
  if forallb exited ws then
    if negb mcl then [MkScan walk werr fch fcl ws mch true ech dn mt rt]
    else if negb dn then [MkScan walk werr fch fcl ws mch mcl ech true mt rt]
    else []
  else [].

(** The ready cases of the collecting [select]. *)
Definition collector_step (st : scan) : list scan :=
  let '(MkScan walk werr fch fcl ws mch mcl ech dn mt rt) := st in
  (match ech with
   | Some e => [MkScan walk werr fch fcl ws mch mcl None dn mt (Some (Err e))]
   | None => []
   end) ++
  (match mch with
   | p :: mch' => [MkScan walk werr fch fcl ws mch' mcl ech dn (mt ++ [p]) rt]
   | [] => if mcl then [MkScan walk werr fch fcl ws mch mcl ech dn mt (Some (Ok mt))] else []
   end) ++
  (if dn then [MkScan walk werr fch fcl ws mch mcl ech dn mt (Some (Ok mt))] else []) ++
  (if cancelled
   then [MkScan walk werr fch fcl ws mch mcl ech dn mt (Some (Err (Errorf "context canceled")))]
   else []).

Definition successors (st : scan) : list scan :=
  collector_step st ++ walker_step st ++
  flat_map (worker_step st) (seq 0 (length (sc_workers st))) ++ closer_step st.

(** One step of the whole program, until the collector has returned. *)
Inductive scan_step : scan -> scan -> Prop :=
| do_step st st' : sc_ret st = None -> st' ∈ successors st -> scan_step st st'.

(** Runs the machine with the given choices (the first ready step once they are
    used up). *)
Fixpoint run_scan (fuel : nat) (choices : list nat) (st : scan) : option (result (list string)) :=
  match sc_ret st with
  | Some r => Some r
  | None =>
      match fuel with
      | O => None
      | S fuel' =>
          match successors st !! (hd 0 choices mod length (successors st))%nat with
          | Some st' => run_scan fuel' (tl choices) st'
          | None => None
          end
      end
  end.

(** The sum of a weight over a list. *)
Definition total {A} (f : A -> nat) (l : list A) : nat := sum_list_with f l.

(** An upper bound on the number of steps left. *)
Definition file_cost (p : string) : nat := 3 + 3 * length (content p).1.
Definition worker_cost (w : worker) : nat :=
  match w with WRange => 2 | WDecode _ docs _ => 3 + 3 * length docs | WExited => 0 end.
Definition measure (st : scan) : nat :=
  total (fun p => file_cost p + 2) (sc_walk st) +
  total (fun p => file_cost p + 1) (sc_fileCh st) +
  total worker_cost (sc_workers st) + length (sc_matchCh st) +
  match sc_walkErr st with Some _ => 2 | None => 0 end +
  match sc_errCh st with Some _ => 1 | None => 0 end +
  match sc_ret st with Some _ => 0 | None => 1 end +
  (if sc_fileClosed st then 0 else 1) + (if sc_matchClosed st then 0 else 1) +
  (if sc_done st then 0 else 1).

(** How many documents of a list match, and how many times the machine still can
    report, or has reported, the path [x]. *)
Definition matching_docs (docs : list ManifestHead) : nat :=
  length (List.filter (head_matches ref) docs).
Definition file_matches (x p : string) : nat :=
  if decide (p = x) then matching_docs (content p).1 else 0.
Definition worker_matches (x : string) (w : worker) : nat :=
  match w with
  | WDecode p docs _ => if decide (p = x) then matching_docs docs else 0
  | _ => 0
  end.
Definition pending (x : string) (st : scan) : nat :=
  total (file_matches x) (sc_walk st) + total (file_matches x) (sc_fileCh st) +
  total (worker_matches x) (sc_workers st).
Definition reported (x : string) (st : scan) : nat :=
  count_occ string_dec (sc_matching st) x + count_occ string_dec (sc_matchCh st) x.

End Machine.

Section Scanner.
Context {X : Externals}.

(** The documents of one file, and the error that ends the reading. *)
Definition read_heads (path : string) : M (list ManifestHead * option error) :=
  data <- do (ReadFile path) ;;
  match data with
  | Err e => ret ([], Some e)
  | Ok data => do (YDecodeHeads data)
  end.

Fixpoint read_all (paths : list string)
    : M (gmap string (list ManifestHead * option error)) :=
  match paths with
  | [] => ret ∅
  | p :: paths' =>
      h <- read_heads p ;;
      m <- read_all paths' ;;
      ret (<[p := h]> m)
  end.

(** The clone directory and the matching files. *)
Definition CheckRepoForMatchingManifests (cancelled : bool) (repoURL branch : string) (resourceRef : ResourceRef)
    : M (result (string * list string)) :=
  tmpDir <- do (MkdirTemp "" "transition-manifests-*") ;;
  match tmpDir with
  | Err e => ret (Err e)
  | Ok tmpDir =>
      cl <- ctx_do cancelled (GitClone tmpDir repoURL ("refs/heads/" +:+ branch) 1) ;;
      match cl with
      | Err e => ret (Err (Wrapf "git clone failed: " e))
      | Ok _ =>
          workerCount <- do NumCPU ;;
          entries <- do (WalkDir tmpDir) ;;
          let paths := List.filter is_yaml entries.1 in
          files <- read_all paths ;;
          choices <- do Schedule ;;
          let content p := default ([], None) (files !! p) in
          let st := init_scan (Pos.to_nat workerCount) paths entries.2 in
          match run_scan cancelled resourceRef content (measure content st) choices st with
          | Some (Ok matchingFiles) => ret (Ok (tmpDir, matchingFiles))
          | Some (Err e) => ret (Err e)
          | None => crash
          end
      end
  end.

Definition is_scan_event (e : event) : Prop :=
  match e with
  | Ev (MkdirTemp _ _) _ | Ev (GitClone _ _ _ _) _ | Ev NumCPU _ | Ev (WalkDir _) _
  | Ev (ReadFile _) _ | Ev (YDecodeHeads _) _ | Ev Schedule _
  | Ev (WithCancelled (GitClone _ _ _ _)) _ => True
  | _ => False
  end.

Lemma emits_read_all paths : emits is_scan_event (read_all paths).
Proof. induction paths as [|p l IH]; simpl; unfold read_heads; emits_auto. Qed.

Lemma emits_CheckRepo cancelled url branch ref :
  emits is_scan_event (CheckRepoForMatchingManifests cancelled url branch ref).
Proof.
  unfold CheckRepoForMatchingManifests. pose proof emits_read_all. emits_auto.
Qed.

End Scanner.

#[export] Hint Resolve emits_CheckRepo : go.
#[global] Arguments CheckRepoForMatchingManifests : simpl never.

(** ** The machine, step by step *)

Lemma total_nil {A} (f : A -> nat) : total f [] = 0.
Proof. reflexivity. Qed.
Lemma total_cons {A} (f : A -> nat) x l : total f (x :: l) = f x + total f l.
Proof. reflexivity. Qed.
Lemma total_app {A} (f : A -> nat) l1 l2 : total f (l1 ++ l2) = total f l1 + total f l2.
Proof. apply sum_list_with_app. Qed.
Lemma total_insert {A} (f : A -> nat) (l : list A) i a a' :
  l !! i = Some a -> total f (<[i := a']> l) + f a = total f l + f a'.
Proof.
  revert i. induction l as [|x l IH]; intros [|i] H; simplify_eq/=; rewrite ?total_cons; [lia|].
  specialize (IH _ H). lia.
Qed.

Lemma forallb_false_lookup {A} (f : A -> bool) l :
  forallb f l = false -> exists i x, l !! i = Some x /\ f x = false.
Proof.
  induction l as [|x l IH]; simpl; [done|]. destruct (f x) eqn:E; simpl.
  - intros (i & y & Hi & Hy)%IH. by exists (S i), y.
  - intros _. by exists 0, x.
Qed.

Lemma forallb_lookup {A} (f : A -> bool) l i x :
  forallb f l = true -> l !! i = Some x -> f x = true.
Proof.
  intros H Hi. rewrite forallb_forall in H. apply H, list_elem_of_In.
  by eapply list_elem_of_lookup_2.
Qed.

#[global] Arguments total : simpl never.
#[local] Arguments count_occ : simpl never.
#[global] Arguments file_cost : simpl never.
#[global] Arguments file_matches : simpl never.
#[global] Arguments matching_docs : simpl never.
#[export] Hint Rewrite @total_nil @total_cons @total_app @length_app : go_rw.

Lemma count_occ_snoc (l : list string) y x :
  count_occ string_dec (l ++ [y]) x =
  count_occ string_dec l x + (if decide (y = x) then 1 else 0).
Proof.
  rewrite count_occ_app. unfold count_occ at 2. destruct (string_dec y x), (decide (y = x)); congruence.
Qed.

Lemma count_occ_cons_if (l : list string) y x :
  count_occ string_dec (y :: l) x =
  (if decide (y = x) then 1 else 0) + count_occ string_dec l x.
Proof.
  unfold count_occ; fold (count_occ string_dec).
  destruct (string_dec y x), (decide (y = x)); simpl; congruence.
Qed.

Section MachineLemmas.
Context (cancelled : bool) (ref : ResourceRef).
Context (content : string -> list ManifestHead * option error).

(** The four kinds of step of an unfinished machine. *)
Lemma successors_cases st st' :
  st' ∈ successors cancelled ref content st ->
  st' ∈ collector_step cancelled st \/ st' ∈ walker_step st \/
  (exists i, st' ∈ worker_step cancelled ref content st i) \/ st' ∈ closer_step st.
Proof.
  unfold successors. rewrite !elem_of_app. intros [?|[?|[H|?]]]; auto.
  apply list_elem_of_In, in_flat_map in H as (i & _ & H). right; right; left.
  exists i. by apply list_elem_of_In.
Qed.

Lemma successors_worker st st' i :
  st' ∈ worker_step cancelled ref content st i -> st' ∈ successors cancelled ref content st.
Proof.
  intros H. unfold successors. rewrite !elem_of_app. right; right; left.
  apply list_elem_of_In, in_flat_map. exists i. split; [|by apply list_elem_of_In].
  apply in_seq. destruct st; simpl in *. destruct (sc_workers0 !! i) eqn:E; simpl in *.
  - apply lookup_lt_Some in E. lia.
  - by apply not_elem_of_nil in H.
Qed.

End MachineLemmas.

(** Case analysis on a step: the state's fields and the step taken. *)
Ltac scan_cases H :=
  repeat match type of H with
  | _ ∈ [] => by apply not_elem_of_nil in H
  | _ ∈ [_] => apply list_elem_of_singleton in H; subst
  | _ ∈ _ ++ _ => apply elem_of_app in H as [H|H]
  | _ ∈ match ?x with _ => _ end => destruct x eqn:?
  end; simplify_eq/=.

Ltac scan_steps H :=
  apply successors_cases in H as [H|[H|[[? H]|H]]];
  [unfold collector_step in H|unfold walker_step in H|unfold worker_step in H
  |unfold closer_step in H]; scan_cases H.

(** The arithmetic of one step, with the sums over the workers related. *)
Ltac worker_sums f :=
  repeat match goal with
  | E : ?ws !! ?i = Some ?w |- context [total f (<[?i := ?w']> ?ws)] =>
      pose proof (total_insert f ws i w w' E);
      generalize dependent (total f (<[i := w']> ws)); intros
  end; simpl in *.

Section MachineProofs.
Context (cancelled : bool) (ref : ResourceRef).
Context (content : string -> list ManifestHead * option error).

(** Every step takes the measure down. *)
Lemma measure_step st st' :
  sc_ret st = None -> st' ∈ successors cancelled ref content st ->
  measure content st' < measure content st.
Proof.
  destruct st as [walk werr fch fcl ws mch mcl ech dn mt rt]. intros Hr H. simpl in Hr. subst rt.
  scan_steps H; unfold measure, offer; simpl; autorewrite with go_rw; worker_sums worker_cost;
    unfold file_cost;
    repeat match goal with E : content _ = _ |- _ => rewrite E; clear E end; simpl;
    repeat case_match; lia.
Qed.

(** An unfinished machine can always take a step. *)
Lemma progress st :
  sc_ret st = None -> exists st', st' ∈ successors cancelled ref content st.
Proof.
  destruct st as [walk werr fch fcl ws mch mcl ech dn mt rt]. simpl. intros ->.
  destruct (decide (successors cancelled ref content
    (MkScan walk werr fch fcl ws mch mcl ech dn mt None) = [])) as [Hn|Hn].
  2:{ destruct (successors _ _ _ _) as [|st' l]; [done|]. exists st'. left. }
  exfalso. pose proof Hn as Hno. unfold successors in Hn. rewrite !app_nil in Hn.
  destruct Hn as (Hc & Hw & _ & Hcl). simpl in Hc, Hw, Hcl.
  destruct ech; [done|]. destruct mch as [|p mch]; [|done]. destruct mcl; [done|].
  destruct dn; [done|].
  destruct (forallb exited ws) eqn:Hex; [done|]. clear Hcl Hc.
  apply forallb_false_lookup in Hex as (i & w & Hi & Hx).
  assert (worker_step cancelled ref content (MkScan walk werr fch fcl ws [] false None false mt None) i = [])
    as Hstep.
  { destruct (worker_step _ _ _ _ i) as [|st' l] eqn:E; [done|].
    exfalso. eapply not_elem_of_nil. rewrite <- Hno. eapply (successors_worker _ _ _ _ st' i).
    rewrite E. left. }
  simpl in Hstep. rewrite Hi in Hstep.
  destruct w as [|p [|d docs] [e|]|]; simpl in Hx; try done.
  - destruct fch as [|p fch]; [|by destruct cancelled, (content p)].
    destruct fcl; [done|]. destruct walk; [by destruct werr|done].
  - by destruct (head_matches ref d).
  - by destruct (head_matches ref d).
Qed.

(** Enough fuel always gives a result. *)
Lemma run_scan_total fuel choices st :
  measure content st <= fuel -> exists r, run_scan cancelled ref content fuel choices st = Some r.
Proof.
  revert choices st. induction fuel as [|fuel IH]; intros choices st Hm; simpl.
  - destruct (sc_ret st) eqn:E; [by eexists|]. exfalso. unfold measure in Hm. rewrite E in Hm. lia.
  - destruct (sc_ret st) as [r|] eqn:E; [by exists r|].
    destruct (progress st E) as [st1 Hin].
    destruct (successors cancelled ref content st !! _) as [st'|] eqn:Hst.
    + apply IH. apply list_elem_of_lookup_2 in Hst. pose proof (measure_step _ _ E Hst). lia.
    + exfalso. apply lookup_ge_None in Hst.
      assert (length (successors cancelled ref content st) <> 0)
        by (intros E0%nil_length_inv; rewrite E0 in Hin; by apply not_elem_of_nil in Hin).
      pose proof (Nat.mod_upper_bound (hd 0 choices) (length (successors cancelled ref content st))). lia.
Qed.

(** What a run computes is the return value of a reachable state. *)
Lemma run_scan_reachable fuel choices st r :
  run_scan cancelled ref content fuel choices st = Some r ->
  exists st', rtc (scan_step cancelled ref content) st st' /\ sc_ret st' = Some r.
Proof.
  revert choices st. induction fuel as [|fuel IH]; intros choices st; simpl;
    destruct (sc_ret st) as [r'|] eqn:E; try done; try (intros [= <-]; by exists st).
  destruct (_ !! _) as [st1|] eqn:Hst; [|done]. intros (st' & Hr & He)%IH.
  exists st'. split; [|done]. eapply rtc_l; [|done]. constructor; [done|].
  by eapply list_elem_of_lookup_2.
Qed.

(** Every execution that returns is the run of some choices. *)
Lemma reachable_run_scan st st' r :
  rtc (scan_step cancelled ref content) st st' -> sc_ret st' = Some r ->
  exists choices, forall fuel, measure content st <= fuel ->
    run_scan cancelled ref content fuel choices st = Some r.
Proof.
  intros H Hr. induction H as [st|st st1 st' [? ? E Hin] _ IH].
  - exists []. intros [|fuel] _; simpl; by rewrite Hr.
  - destruct (IH Hr) as [choices Hc]. pose proof Hin as Hm.
    apply measure_step in Hm; [|done].
    apply list_elem_of_lookup in Hin as [i Hi]. exists (i :: choices).
    intros [|fuel] Hf; [lia|]. simpl. rewrite E.
    rewrite Nat.mod_small by by eapply lookup_lt_Some. rewrite Hi. apply Hc. lia.
Qed.

Lemma matching_docs_cons d docs :
  matching_docs ref (d :: docs) =
  (if head_matches ref d then 1 else 0) + matching_docs ref docs.
Proof. unfold matching_docs. simpl. by destruct (head_matches ref d). Qed.

(** No step creates or drops a match, except by returning. *)
Lemma conserved_step x st st' :
  st' ∈ successors false ref content st ->
  reported x st' + pending ref content x st' = reported x st + pending ref content x st.
Proof.
  destruct st as [walk werr fch fcl ws mch mcl ech dn mt rt]. intros H.
  scan_steps H; unfold reported, pending; simpl; autorewrite with go_rw;
    worker_sums (worker_matches ref x); rewrite ?count_occ_snoc, ?count_occ_cons_if;
    unfold file_matches, worker_matches in *;
    repeat match goal with
    | E : content _ = _ |- _ => rewrite E; clear E
    | E : head_matches ref _ = _, H : context [matching_docs ref (_ :: _)] |- _ =>
        rewrite matching_docs_cons, E in H
    end; simpl; repeat case_decide; try lia.
  all: rewrite ?matching_docs_cons in *; unfold matching_docs in *; simpl in *; try lia.
Qed.

Lemma conserved x st st' :
  rtc (scan_step false ref content) st st' ->
  reported x st' + pending ref content x st' = reported x st + pending ref content x st.
Proof.
  induction 1 as [|st st1 st' [? ? _ Hs] _ IH]; [done|]. rewrite IH. by apply conserved_step.
Qed.

(** The list a machine returns is the one it collected. *)
Lemma returned_matching st st' :
  rtc (scan_step cancelled ref content) st st' -> sc_ret st = None ->
  forall l, sc_ret st' = Some (Ok l) -> sc_matching st' = l.
Proof.
  intros H. apply rtc_inv_r in H as [->|(st1 & _ & [st2 st3 Hr Hs])]; [congruence|].
  intros _ l. destruct st2 as [walk werr fch fcl ws mch mcl ech dn mt rt].
  simpl in Hr. subst rt. scan_steps Hs; congruence.
Qed.

End MachineProofs.

(** ** The scan when no file, document or directory fails *)

Section ErrorFree.
Context (ref : ResourceRef) (content : string -> list ManifestHead * option error).
Context (no_error : forall p, (content p).2 = None).

Definition worker_clean (w : worker) : Prop :=
  match w with WDecode _ _ (Some _) => False | _ => True end.

Record clean (st : scan) : Prop := MkClean {
  clean_walk : sc_walkErr st = None;
  clean_err : sc_errCh st = None;
  clean_some : sc_workers st <> [];
  clean_workers : forall i w, sc_workers st !! i = Some w -> worker_clean w;
  clean_closed : sc_fileClosed st = true -> sc_walk st = [];
  clean_exited : forall i, sc_workers st !! i = Some WExited ->
    sc_fileClosed st = true /\ sc_fileCh st = [];
  clean_matchClosed : sc_matchClosed st = true -> forallb exited (sc_workers st) = true;
  clean_done : sc_done st = true -> sc_matchClosed st = true;
  clean_ret : forall r, sc_ret st = Some r -> sc_matchClosed st = true }.

Lemma insert_not_nil {A} i (x : A) l : l <> [] -> <[i := x]> l <> [].
Proof. by destruct l, i. Qed.

Lemma insert_lookup_cases {A} (l : list A) i j x y :
  <[i := x]> l !! j = Some y -> (i = j /\ y = x) \/ l !! j = Some y.
Proof. intros [(-> & -> & _)|[_ H]]%list_lookup_insert_Some; auto. Qed.

Lemma clean_step st st' :
  sc_ret st = None -> st' ∈ successors false ref content st -> clean st -> clean st'.
Proof.
  destruct st as [walk werr fch fcl ws mch mcl ech dn mt rt]. simpl. intros -> H.
  intros [? ? Hs Hw Hc He Hm Hd Hr]; simpl in *; simplify_eq.
  assert (forall i w, ws !! i = Some w -> mcl = true -> w = WExited) as Hall.
  { intros i w Hi E. pose proof (forallb_lookup _ _ _ _ (Hm E) Hi) as Hx. by destruct w. }
  scan_steps H; split; simpl; try done; auto using insert_not_nil.
  all: intros; repeat match goal with
    | E : <[_ := _]> _ !! _ = Some _ |- _ => apply insert_lookup_cases in E as [[? ?]|E]; simplify_eq
    end; try done; eauto 2.
  all: try (match goal with E : _ !! _ = Some WExited |- _ => destruct (He _ E) end; done).
  all: match goal with
    | E : _ !! _ = Some ?w, Hx : ?mcl = true, Hall : context [WExited] |- forallb _ _ = true =>
        discriminate (Hall _ _ E Hx)
    | E : content ?p = _ |- _ => pose proof (no_error p) as Hp; rewrite E in Hp; simpl in Hp;
        by subst
    | E : _ !! _ = Some (WDecode _ _ ?err), Hw : context [worker_clean] |- _ =>
        pose proof (Hw _ _ E); by destruct err
    | _ => idtac
    end.
  all: try (match goal with E : _ !! _ = Some (WDecode _ _ (Some _)) |- _ => destruct (Hw _ _ E) end).
  all: bool_to_prop; auto.
Qed.

Lemma clean_reachable st st' : rtc (scan_step false ref content) st st' -> clean st -> clean st'.
Proof.
  induction 1 as [|st st1 st' [? ? Hr Hs] _ IH]; [done|]. intros Hc.
  apply IH. by eapply clean_step.
Qed.

Lemma clean_init n walk : n <> 0 -> clean (init_scan n walk None).
Proof.
  intros Hn. split; simpl; try done.
  - by destruct n.
  - intros i w [-> _]%lookup_replicate. done.
  - intros i [[=] _]%lookup_replicate.
Qed.

(** Once [matchCh] is closed nothing is left to find. *)
Lemma clean_pending x st : clean st -> sc_matchClosed st = true -> pending ref content x st = 0.
Proof.
  intros Hc Hm. pose proof (clean_matchClosed _ Hc Hm) as Hex.
  destruct (sc_workers st) as [|w ws] eqn:E; [by destruct (clean_some _ Hc)|].
  assert (sc_workers st !! 0 = Some WExited) as H0.
  { rewrite E. simpl in *. by destruct w. }
  destruct (clean_exited _ Hc 0 H0) as [Hf Hch]. unfold pending.
  rewrite (clean_closed _ Hc Hf), Hch, E, !total_nil. simpl.
  revert Hex. generalize (w :: ws). intros l. clear. simpl.
  induction l as [|w' l IH]; autorewrite with go_rw; simpl; [done|].
  intros [Hw Hl]%andb_prop. apply IH in Hl. destruct w'; simpl in *; try done; lia.
Qed.

End ErrorFree.

(** ** Properties *)

(** How many documents of the walked files with path [x] match the reference. *)
Definition matches_of (ref : ResourceRef) (content : string -> list ManifestHead * option error)
    (walk : list string) (x : string) : nat := total (file_matches ref content x) walk.

Lemma scan_counts ref content n walk werr x st :
  rtc (scan_step false ref content) (init_scan n walk werr) st ->
  reported x st + pending ref content x st = matches_of ref content walk x.
Proof.
  intros H. apply (conserved ref content x) in H. rewrite H. unfold reported, pending, matches_of.
  simpl. autorewrite with go_rw.
  assert (total (worker_matches ref x) (replicate n WRange) = 0) as ->.
  { clear. induction n; simpl; autorewrite with go_rw; done. }
  unfold count_occ. lia.
Qed.

(** C30: What any interleaving of the concurrent scan returns: a path is listed at most
    as many times as it has matching documents, and when no file, document or
    directory fails, the matches that are missing from the list are exactly those
    still buffered in [matchCh] when the collector returned. *)
Theorem scan_returns ref content n walk werr st l :
  rtc (scan_step false ref content) (init_scan n walk werr) st -> sc_ret st = Some (Ok l) ->
  (forall x, count_occ string_dec l x <= matches_of ref content walk x) /\
  (n <> 0 -> werr = None -> (forall p, (content p).2 = None) ->
     forall x, count_occ string_dec l x + count_occ string_dec (sc_matchCh st) x =
       matches_of ref content walk x).
Proof.
  intros H Hr. pose proof (returned_matching false ref content _ _ H eq_refl _ Hr) as <-.
  split; [|intros Hn -> Hp]; intros x; pose proof (scan_counts _ _ _ _ _ x _ H) as Hc;
    unfold reported in Hc; [lia|].
  pose proof (clean_reachable ref content Hp _ _ H (clean_init n walk Hn)) as Hcl.
  rewrite (clean_pending ref content x _ Hcl) in Hc; [lia|]. by eapply clean_ret.
Qed.

Definition race_ref : ResourceRef := MkResourceRef "apps/v1" "Deployment" "" "web" ∅.
Definition race_content (p : string) : list ManifestHead * option error :=
  ([MkManifestHead "Deployment" "web" "default"], None).

(** The run of the machine by a list of choices, state by state. *)
Fixpoint run_state (content : string -> list ManifestHead * option error) (ref : ResourceRef)
    (choices : list nat) (st : scan) : option scan :=
  match choices with
  | [] => Some st
  | c :: choices' =>
      match sc_ret st, successors false ref content st !! c with
      | None, Some st' => run_state content ref choices' st'
      | _, _ => None
      end
  end.

Lemma run_state_rtc content ref choices st st' :
  run_state content ref choices st = Some st' -> rtc (scan_step false ref content) st st'.
Proof.
  revert st. induction choices as [|c l IH]; simpl; intros st; [intros [= ->]; done|].
  destruct (sc_ret st) eqn:E; [done|]. destruct (_ !! c) as [st1|] eqn:Hc; [|done].
  intros H%IH. eapply rtc_l; [|done]. constructor; [done|]. by eapply list_elem_of_lookup_2.
Qed.

(** One worker and one file whose document matches: the walker sends the file and
    closes [fileCh]; the worker sends the match and exits; the closer closes
    [matchCh] and [done]; the [select] takes [done]. *)
Definition race_schedule : list nat := [0; 0; 0; 0; 1; 1; 1; 1; 1].

(** C31: The scan can report that nothing matches although a file matches: one file
    with one matching document, no error anywhere, and an execution that returns
    the empty list, because the [select] chose [done] while the match was still
    buffered in [matchCh]. *)
Theorem scan_loses_match :
  exists st, rtc (scan_step false race_ref race_content) (init_scan 1 ["a.yaml"] None) st /\
    sc_ret st = Some (Ok []) /\ sc_matchCh st = ["a.yaml"] /\
    matches_of race_ref race_content ["a.yaml"] "a.yaml" = 1.
Proof.
  eexists. split; [apply (run_state_rtc _ _ race_schedule); vm_compute; reflexivity|].
  repeat split.
Qed.

(** C29: The scan always returns: for every number of workers, directory listing,
    file content and scheduling, the concurrent part ends after at most [measure]
    steps with a list or an error, and never deadlocks. *)
Theorem scan_terminates cancelled ref content n walk werr choices :
  exists r, run_scan cancelled ref content (measure content (init_scan n walk werr)) choices
              (init_scan n walk werr) = Some r.
Proof. by apply run_scan_total. Qed.

Lemma scan_returns_witness :
  count_occ string_dec ["a.yaml"] "a.yaml" <= matches_of race_ref race_content ["a.yaml"] "a.yaml".
Proof.
  eapply (scan_returns race_ref race_content 1 ["a.yaml"] None).
  - apply (run_state_rtc _ _ [0; 0; 0; 0; 0; 0; 0; 0; 0]). vm_compute. reflexivity.
  - reflexivity.
Defined.
