(* ===== verification/Resources.v ===== *)
(** * The rest of reconcilers/gitaclient/gitea.go

    The sequential search for network attachments, the second copy of the Argo CD
    functions, and what the rewriting of a manifest does to a file that holds
    several documents. *)
From S2P Require Import Prelude Types Runtime ArgoPush Manifests Scanner.
From Stdlib Require Import Lia.

(** The match test of [FindMatchingResource]: the namespaces must be equal as text. *)
Definition nad_matches (ref : ResourceRef) (obj : ManifestHead) : bool :=
  EqualFold (mh_Kind obj) "NetworkAttachmentDefinition" &&
  ((mh_Name obj =? rr_Name ref) && (mh_Namespace obj =? rr_Namespace ref))%string.

Section Resources.
Context {X : Externals}.

(** The documents of one file, after which decoding may have failed. *)
Definition find_in_docs (checkpoint : Checkpoint) (path : string)
    (docs : list ManifestHead * option error) (matching : list string)
    : M (flow (list string) error) :=
  let st := ck_Status checkpoint in
  r <- forEach docs.1 matching (fun obj matching =>
    if nad_matches (cks_ResourceRef (ck_Spec checkpoint)) obj then
      err <- UpdateResourceContainers path (ckst_LastCheckpointImage st) (ckst_OriginalImage st) ;;
      match err with
      | Err e => ret (Return e)
      | Ok _ => ret (Next (matching ++ [path]))
      end
    else ret (Next matching)) ;;
  match r with
  | Return e => ret (Return e)
  | Next matching =>
      match docs.2 with
      | Some e => ret (Return e)
      | None => ret (Next matching)
      end
  end.

(** The walk function on one path that is not a directory. *)
Definition walkFn (checkpoint : Checkpoint) (path : string) (matching : list string)
    : M (flow (list string) error) :=
  if negb (is_yaml path) then ret (Next matching)
  else
    data <- do (ReadFile path) ;;
    match data with
    | Err e => ret (Return e)
    | Ok data =>
        docs <- do (YDecodeHeads data) ;;
        find_in_docs checkpoint path docs matching
    end.

(** The walk visits the files in order and stops at the first error. *)
Definition FindMatchingResource (baseDir : string) (checkpoint : Checkpoint)
    : M (result (list string)) :=
  walk <- do (WalkDir baseDir) ;;
  r <- forEach walk.1 [] (walkFn checkpoint) ;;
  match r with
  | Return e => ret (Err e)
  | Next matching =>
      match walk.2 with
      | Some e => ret (Err e)
      | None => ret (Ok matching)
      end
  end.

(** The copy of the function of clusterpolicy_helpers.go. *)
Definition gitea_TriggerArgoCDSyncWithKubeClient (k8sClient : option Client)
    (appName namespace : string) : M (result unit) :=
  match k8sClient with
  | None => crash
  | Some k8sClient =>
      app <- do (KGetApplication k8sClient (NN namespace appName)) ;;
      match app with
      | Err e => ret (Err (Wrapf "failed to get Argo CD application: " e))
      | Ok app =>
          err <- do (KUpdateApplication k8sClient
                   (MkApplication (app_Name app) (app_Namespace app) (Some sync_operation))) ;;
          match err with
          | Err e => ret (Err (Wrapf "failed to update application with sync operation: " e))
          | Ok _ => ret (Ok tt)
          end
      end
  end.

(** The listed applications are only logged. *)
Definition ListArgoApplications (k8sClient : Client) : M (option error) :=
  appList <- do (KListApplications k8sClient "argocd") ;;
  match appList with
  | Err e => ret (Some e)
  | Ok _ => ret None
  end.

(** ** The search *)

(** A file was changed. *)
Definition wrote (path : string) (e : event) : Prop :=
  match e with Ev (WriteFile p _) _ => p = path | _ => False end.

Definition is_search_event (e : event) : Prop :=
  match e with
  | Ev (ReadFile _) _ | Ev (YDecodeHeads _) _ | Ev (YUnmarshalDoc _) _ | Ev (YMarshalDoc _) _
  | Ev (WriteFile _ _) _ | Ev (WalkDir _) _ => True
  | _ => False
  end.

Lemma emits_update_search path ck orig :
  emits is_search_event (UpdateResourceContainers path ck orig).
Proof.
  eapply emits_mono; [|apply emits_UpdateResourceContainers]. intros [[] ?]; simpl; tauto.
Qed.

End Resources.

(** ** The type of a workload manifest *)

(** A container with a name and an image. *)
Definition container_ok (c : yval) : Prop :=
  exists m name image, c = YMap m /\ m !! "name" = Some (YStr name) /\
    m !! "image" = Some (YStr image) /\ image ≠ "".

Definition pod_spec_ok (podspec : gmap string yval) : Prop :=
  forall field v, field ∈ container_fields -> podspec !! field = Some v ->
    exists l, v = YSeq l /\ Forall container_ok l.

Definition pod_spec_of (doc : gmap string yval) : option (gmap string yval) :=
  spec ← get_map doc "spec"; tpl ← get_map spec "template"; get_map tpl "spec".

(** A manifest of a supported kind with a well-formed pod template. *)
Definition workload_ok (doc : gmap string yval) : Prop :=
  isSupportedKind (get_str doc "kind") = true /\
  exists podspec, pod_spec_of doc = Some podspec /\ pod_spec_ok podspec.

(** The document with another pod spec. *)
Definition with_pod_spec (doc spec tpl podspec : gmap string yval) : gmap string yval :=
  <["spec" := YMap (<["template" := YMap (<["spec" := YMap podspec]> tpl)]> spec)]> doc.

Lemma get_map_insert m k v : get_map (<[k := YMap v]> m) k = Some v.
Proof. unfold get_map. by rewrite lookup_insert_eq. Qed.

Lemma pod_spec_at doc spec tpl podspec :
  get_map doc "spec" = Some spec -> get_map spec "template" = Some tpl ->
  get_map tpl "spec" = Some podspec -> pod_spec_of doc = Some podspec.
Proof. intros H1 H2 H3. unfold pod_spec_of. rewrite H1. cbn. rewrite H2. cbn. done. Qed.

Lemma with_pod_spec_of doc spec tpl podspec :
  pod_spec_of (with_pod_spec doc spec tpl podspec) = Some podspec.
Proof.
  unfold pod_spec_of, with_pod_spec. rewrite get_map_insert. cbn.
  rewrite get_map_insert. cbn. by rewrite get_map_insert.
Qed.

Lemma with_pod_spec_other doc spec tpl podspec k :
  k ≠ "spec" -> with_pod_spec doc spec tpl podspec !! k = doc !! k.
Proof. intros Hk. unfold with_pod_spec. by rewrite lookup_insert_ne. Qed.

Lemma container_ok_update ck orig c :
  ck ≠ "" -> container_ok c -> container_ok (update_container ck orig c).1.
Proof.
  intros Hck (m & name & image & -> & Hn & Hi & Hne).
  destruct (update_container_cases ck orig (YMap m)) as [[-> _]|(m' & [= <-] & _ & _ & ->)]; simpl.
  - by exists m, name, image.
  - exists (<["image" := YStr ck]> m), name, ck. split; [done|].
    by rewrite lookup_insert_ne, lookup_insert_eq by done.
Qed.

Lemma pod_spec_ok_update podspec ck orig :
  ck ≠ "" -> pod_spec_ok podspec -> pod_spec_ok (updateContainers podspec ck orig).1.
Proof.
  intros Hck Hok field v Hf. rewrite updateContainers_lookup, decide_True by done.
  destruct (podspec !! field) as [w|] eqn:E; [|done].
  destruct (Hok field w Hf E) as (l & -> & Hl). simpl. intros [= <-].
  eexists. split; [done|]. apply Forall_fmap. eapply Forall_impl; [exact Hl|].
  intros c. by apply container_ok_update.
Qed.

(** After an update there is nothing left to update. *)
Lemma updateContainers_idle podspec ck orig :
  ck ≠ orig -> (updateContainers (updateContainers podspec ck orig).1 ck orig).2 = false.
Proof.
  intros Hne. apply not_true_iff_false. rewrite updateContainers_changed.
  intros (field & c & Hf & Hc & Hu). rewrite containers_of_update in Hc by done.
  apply list_elem_of_fmap in Hc as (c' & -> & _).
  destruct (update_container_cases ck orig (update_container ck orig c').1)
    as [[H _]|(m & _ & Hi & Ho & _)]; [by rewrite H in Hu|].
  rewrite image_of_update in Hi by done. case_decide; congruence.
Qed.

(** ** Several documents in a file *)

(** What yaml.v3 promises: [Unmarshal] decodes the first document of a text, and
    the text that [Marshal] writes holds the encoded document and no other. *)
Class YamlCodec (X : Externals) := {
  docs_of : string -> list (gmap string yval);
  codec_unmarshal : forall data w doc, (respond (YUnmarshalDoc data) w).1 = Ok doc ->
    doc = hd ∅ (docs_of data);
  codec_marshal : forall doc w out, (respond (YMarshalDoc doc) w).1 = Ok out ->
    docs_of out = [doc] }.

(** The answer in an event is an answer of the outside world. *)
Definition answered {X : Externals} (e : event) : Prop :=
  let 'Ev c r := e in exists w, (respond c w).1 = r.

Lemma answered_UpdateResourceContainers {X : Externals} path ck orig :
  emits answered (UpdateResourceContainers path ck orig).
Proof. unfold UpdateResourceContainers. emits_auto; by eexists. Qed.

(** ** Properties *)

(** C19: The rewriting of a manifest keeps its type: when the document read from the
    file is a workload (a supported kind whose containers have names and images)
    so is the one written, with the same kind and the same content outside
    [spec]; and rewriting the written document once more would change nothing. *)
Theorem UpdateResourceContainers_workload {X : Externals} path ck orig s out res :
  ck ≠ "" ->
  let t := r_trace (UpdateResourceContainers path ck orig s) in
  Ev (WriteFile path out) res ∈ t ->
  exists data doc doc' podspec,
    Ev (YUnmarshalDoc data) (Ok doc) ∈ t /\ Ev (YMarshalDoc doc') (Ok out) ∈ t /\
    (workload_ok doc -> workload_ok doc') /\
    (forall k, k ≠ "spec" -> doc' !! k = doc !! k) /\
    pod_spec_of doc' = Some podspec /\
    (ck ≠ orig -> (updateContainers podspec ck orig).2 = false).
Proof.
  intros Hck. cbn zeta. intros Hin. pose proof (spec_rewrite path ck orig s) as H.
  destruct (r_out _) as [r|]; [|done].
  destruct H as [Hn|(data & doc & spec & tpl & podspec & out' & Ht & Hk & Hs & Hp & Hps & _)].
  { rewrite Forall_forall in Hn. exfalso. by apply (Hn _ Hin). }
  rewrite Ht in Hin |- *. rewrite !elem_of_cons in Hin.
  destruct Hin as [[=]|[[=]|[[=]|[[= <- _]|Hin]]]]; [|by apply not_elem_of_nil in Hin].
  exists data, doc, (with_pod_spec doc spec tpl (updateContainers podspec ck orig).1).
  eexists. rewrite with_pod_spec_of. split; [set_solver|]. split; [set_solver|].
  split; [|split; [|split; [done|]]].
  - intros [_ (ps & Hps' & Hok)]. split.
    + unfold get_str. by rewrite with_pod_spec_other.
    + eexists. rewrite with_pod_spec_of. split; [done|]. apply pod_spec_ok_update; [done|].
      rewrite (pod_spec_at doc spec tpl podspec) in Hps' by done. by injection Hps' as ->.
  - intros k Hne. by apply with_pod_spec_other.
  - intros Hne. by apply updateContainers_idle.
Qed.

(** C39: A manifest is rewritten by its first document only. Whatever the file held,
    the written file holds a single document, the first one of the file: every
    other document is lost, the one that the search matched included when it was
    not the first. *)
Theorem rewrite_drops_documents {X : Externals} {C : YamlCodec X} path ck orig s out res :
  let t := r_trace (UpdateResourceContainers path ck orig s) in
  Ev (WriteFile path out) res ∈ t ->
  exists data first others podspec first',
    Ev (ReadFile path) (Ok data) ∈ t /\
    docs_of data = first :: others /\ docs_of out = [first'] /\
    pod_spec_of first = Some podspec /\
    pod_spec_of first' = Some (updateContainers podspec ck orig).1 /\
    (forall k, k ≠ "spec" -> first' !! k = first !! k).
Proof.
  cbn zeta. intros Hin. pose proof (spec_rewrite path ck orig s) as H.
  pose proof (answered_UpdateResourceContainers path ck orig s) as Ha.
  destruct (r_out _) as [r|]; [|done].
  destruct H as [Hn|(data & doc & spec & tpl & podspec & out' & Ht & Hk & Hs & Hp & Hps & _)].
  { rewrite Forall_forall in Hn. exfalso. by apply (Hn _ Hin). }
  rewrite Ht in Hin, Ha |- *. rewrite !elem_of_cons in Hin.
  destruct Hin as [[=]|[[=]|[[=]|[[= <- _]|Hin]]]]; [|by apply not_elem_of_nil in Hin].
  apply Forall_cons in Ha as [_ Ha]. apply Forall_cons in Ha as [(w1 & H1) Ha].
  apply Forall_cons in Ha as [(w2 & H2) _].
  apply codec_unmarshal in H1. apply codec_marshal in H2.
  destruct (docs_of data) as [|first others] eqn:Ed; simpl in H1; subst doc.
  { exfalso. clear -Hk. vm_compute in Hk. done. }
  exists data, first, others, podspec, (with_pod_spec first spec tpl (updateContainers podspec ck orig).1).
  split; [set_solver|]. split; [done|]. split; [done|].
  rewrite with_pod_spec_of. split; [|split; [done|apply with_pod_spec_other]].
  by eapply pod_spec_at.
Qed.

(** The search for network attachments fails on every file whose first document
    is one: the rewriting that it calls refuses that kind. *)
Lemma nad_update_fails {X : Externals} {C : YamlCodec X} path ck orig s :
  (forall data w, (respond (ReadFile path) w).1 = Ok data ->
     isSupportedKind (get_str (hd ∅ (docs_of data)) "kind") = false) ->
  exists e, r_out (UpdateResourceContainers path ck orig s) = Ret (Err e).
Proof.
  intros Hnad. unfold UpdateResourceContainers, bind, do. cbn [r_out r_state ms_world].
  destruct (respond (ReadFile path) (ms_world s)) as [[data|e] w] eqn:E1; cbn; [|by eexists].
  destruct (respond (YUnmarshalDoc data) w) as [[doc|e] w2] eqn:E2; cbn; [|by eexists].
  assert (doc = hd ∅ (docs_of data)) as ->.
  { apply (codec_unmarshal data w). by rewrite E2. }
  rewrite (Hnad data (ms_world s)) by by rewrite E1. simpl. by eexists.
Qed.

(** ** A file of two documents *)

Definition deployment (image : string) : gmap string yval :=
  {[ "kind" := YStr "Deployment";
     "spec" := YMap {[ "template" := YMap {[ "spec" := YMap {[ "containers" :=
       YSeq [YMap {[ "name" := YStr "app"; "image" := YStr image ]}] ]} ]} ]} ]}.

Definition attachment : gmap string yval := {[ "kind" := YStr "NetworkAttachmentDefinition" ]}.

Definition two_docs_of (data : string) : list (gmap string yval) :=
  if (data =? "deployment --- attachment")%string then [deployment "nginx"; attachment]
  else if (data =? "deployment")%string then [deployment "reg/ckpt"]
  else [].

Definition two_docs (c : call) : resp c :=
  match c with
  | ReadFile _ => Ok "deployment --- attachment"
  | YUnmarshalDoc data => Ok (hd ∅ (two_docs_of data))
  | YMarshalDoc doc => if decide (doc = deployment "reg/ckpt") then Ok "deployment"
                       else Err no_service
  | c => default_resp c
  end.

#[export] Instance two_docs_codec : YamlCodec (ConstExternals two_docs).
Proof.
  exists two_docs_of.
  - intros data w doc. cbn. by intros [= <-].
  - intros doc w out. cbn. destruct (decide _) as [->|]; [|done]. by intros [= <-].
Defined.

Abbreviation two_docs_run :=
  (@UpdateResourceContainers (ConstExternals two_docs) "app.yaml" "reg/ckpt" "nginx"
     (const_state two_docs)).

Lemma two_docs_trace : r_trace two_docs_run = [
  Ev (ReadFile "app.yaml") (Ok "deployment --- attachment");
  Ev (YUnmarshalDoc "deployment --- attachment") (Ok (deployment "nginx"));
  Ev (YMarshalDoc (deployment "reg/ckpt")) (Ok "deployment");
  Ev (WriteFile "app.yaml" "deployment") (Err no_service)].
Proof. vm_compute. reflexivity. Qed.

Lemma two_docs_writes : Ev (WriteFile "app.yaml" "deployment") (Err no_service) ∈ r_trace two_docs_run.
Proof. rewrite two_docs_trace. set_solver. Qed.

Lemma UpdateResourceContainers_workload_witness :
  exists doc', workload_ok (deployment "nginx") /\ workload_ok doc' /\
    Ev (YMarshalDoc doc') (Ok "deployment") ∈ r_trace two_docs_run.
Proof.
  assert (workload_ok (deployment "nginx")) as Hok.
  { split; [reflexivity|]. eexists. split; [reflexivity|].
    intros field v Hf Hv. unfold container_fields in Hf.
    apply elem_of_cons in Hf as [->|Hf]; [|apply list_elem_of_singleton in Hf as ->; discriminate Hv].
    vm_compute in Hv. injection Hv as <-. eexists. split; [reflexivity|].
    repeat constructor. eexists _, _, _. split; [reflexivity|]. repeat split. discriminate. }
  destruct (@UpdateResourceContainers_workload (ConstExternals two_docs) "app.yaml" "reg/ckpt" "nginx"
    (const_state two_docs) "deployment" (Err no_service) ltac:(discriminate) two_docs_writes)
    as (data & doc & doc' & podspec & Hin & Hout & Hw & _).
  exists doc'. split; [exact Hok|]. split; [|exact Hout]. apply Hw.
  replace doc with (deployment "nginx"); [exact Hok|].
  rewrite two_docs_trace, !elem_of_cons in Hin.
  destruct Hin as [[=]|[Hin|[[=]|[[=]|Hin]]]]; [|by apply not_elem_of_nil in Hin].
  symmetry. exact (f_equal (fun e => match e with Ev (YUnmarshalDoc _) (Ok d) => d | _ => ∅ end) Hin).
Defined.

Lemma rewrite_drops_documents_witness :
  length (two_docs_of "deployment --- attachment") = 2%nat /\
  exists first', two_docs_of "deployment" = [first'].
Proof.
  split; [reflexivity|].
  destruct (@rewrite_drops_documents (ConstExternals two_docs) two_docs_codec "app.yaml" "reg/ckpt"
    "nginx" (const_state two_docs) "deployment" (Err no_service) two_docs_writes)
    as (data & first & others & podspec & first' & _ & _ & H & _).
  exists first'. exact H.
Defined.
