(* ===== verification/CheckpointCR.v ===== *)
(** * Checkpoint resources for live packages

    reconcilers/checkpoint_transition/checkpoint_transition.go: the Checkpoint
    resources that the operator creates for the pods of a live-state package. *)
From S2P Require Import Prelude Types Runtime Common Policy Capi.

Definition cluster_policy_annotation : string := "transition.dcnlab.ssu.ac.kr/cluster-policy".
Definition package_annotation : string := "transition.dcnlab.ssu.ac.kr/packageName".

(** The annotations select a package for transition. *)
Definition annotated (annotations : gmap string string) (pkg : PackageSelector) : bool :=
  ((mget annotations cluster_policy_annotation =? "true") &&
   (mget annotations package_annotation =? ps_Name pkg))%string.

(** ** The Checkpoint resource *)

(** The loop that stops at the first backup of type [Schedule]. *)
Fixpoint schedule_of (bs : list BackupInformation) : string :=
  match bs with
  | [] => ""
  | b :: bs' =>
      if (bi_BackupType b =? BackupTypeSchedule)%string then bi_SchedulePeriod b
      else schedule_of bs'
  end.

Definition lowest_step (st : Z * option ClusterRef) (cluster : PreferredCluster)
    : Z * option ClusterRef :=
  let '(lowestWeight, targetCluster) := st in
  if (int32 (pc_Weight cluster) <? lowestWeight)%Z
  then (int32 (pc_Weight cluster), Some (MkClusterRef (pc_Name cluster) "" ""))
  else st.

Definition lowest_target (clusters : list PreferredCluster) : option ClusterRef :=
  (foldl lowest_step (maxInt32, None) clusters).2.

Definition checkpoint_name (clusterPolicy : ClusterPolicy) (pod : Pod) (pkg : PackageSelector)
    : string :=
  "checkpoint-" +:+ cp_Name clusterPolicy +:+ "-" +:+ pod_Name pod +:+ "-" +:+ ps_Name pkg.

Definition parent_ref (parentObject : option PartialObjectMetadata) : ResourceRef :=
  match parentObject with
  | Some p => MkResourceRef (pom_APIVersion p) (pom_Kind p) (om_Namespace (pom_Meta p))
                (om_Name (pom_Meta p)) (om_Annotations (pom_Meta p))
  | None => zero_ResourceRef
  end.

(** The fields of the new object that do not come from the environment. *)
Definition new_checkpoint (pod : Pod) (pkg : PackageSelector) (clusterPolicy : ClusterPolicy)
    (parentObject : option PartialObjectMetadata) (targetCluster : ClusterRef) (registry : Registry)
    : Checkpoint :=
  let sel := cps_ClusterSelector (cp_Spec clusterPolicy) in
  MkCheckpoint (named "default" (checkpoint_name clusterPolicy pod pkg))
    {| cks_Schedule := schedule_of (ps_BackupInformation pkg);
       cks_ClusterRef := Some (MkClusterRef (cs_Name sel) (cs_Repo sel) "");
       cks_TargetClusterRef := Some (MkClusterRef (clr_Name targetCluster) "" "");
       cks_PodRef := MkPodRef (pod_Namespace pod) (pod_Name pod)
                       (MkContainerRef (pod_Containers pod));
       cks_ResourceRef := parent_ref parentObject;
       cks_Registry := registry;
       cks_Containers := [] |}
    zero_CheckpointStatus.

Section CheckpointCR.
Context {X : Externals}.

Definition env_registry : M Registry :=
  url <- GetEnv "REGISTRY_URL" "docker.io" ;;
  repository <- GetEnv "REPOSITORY" "vitu1" ;;
  name <- GetEnv "SECRET_NAME_REF" " reg-credentials" ;;
  ns <- GetEnv "SECRET_NAMESPACE_REF" "default" ;;
  ret (MkRegistry url repository (Some (MkSecretRef name ns))).

(** [targetCluster.Name] panics when no preferred cluster was chosen. *)
Definition CreateCheckpointCR (client : Client) (pod : Pod) (pkg : PackageSelector)
    (clusterPolicy : ClusterPolicy) (parentObject : option PartialObjectMetadata)
    : M (result unit) :=
  match lowest_target (tcp_PreferClusters (cps_TargetClusterPolicy (cp_Spec clusterPolicy))) with
  | None => crash
  | Some targetCluster =>
      registry <- env_registry ;;
      err <- do (KCreateCheckpoint client
               (new_checkpoint pod pkg clusterPolicy parentObject targetCluster registry)) ;;
      match err with
      | Err e => if IsAlreadyExists e then ret (Ok tt) else ret (Err e)
      | Ok _ => ret (Ok tt)
      end
  end.

(** The body of the loop over the pods; the state is the set [processedPods]. *)
Definition checkpoint_pod (mgmtClient workloadClusterClient : Client) (pkg : PackageSelector)
    (clusterPolicy : ClusterPolicy) (pod : Pod) (processedPods : gset string)
    : M (flow (gset string) (result unit)) :=
  match GetWorkloadOwnerControllerInfo pod with
  | None => ret (Next processedPods)
  | Some (workloadKind, workloadName) =>
      let workloadID := pod_Namespace pod +:+ "/" +:+ workloadName +:+ "/" +:+ workloadKind in
      parent <- GetParentAnnotations workloadClusterClient workloadKind workloadName
                  (pod_Namespace pod) ;;
      match parent with
      | Err _ => ret (Next processedPods)
      | Ok (None, _) => ret (Next processedPods)
      | Ok (Some parentAnnotations, parentKind) =>
          if negb (annotated (om_Annotations parentAnnotations) pkg) then ret (Next processedPods)
          else if IsPackageTransitioned clusterPolicy pkg then ret (Next processedPods)
          else
            let key := workloadID +:+ "/" +:+ ps_Name pkg in
            if decide (key ∈ processedPods) then ret (Next processedPods)
            else
              let parentObject := MkPartial "" parentKind
                (MkObjectMeta (om_Name parentAnnotations) (om_Namespace parentAnnotations) ∅
                   (om_Annotations parentAnnotations) [] [] ZeroTime None) in
              err <- CreateCheckpointCR mgmtClient pod pkg clusterPolicy (Some parentObject) ;;
              match err with
              | Err e => ret (Return (Err e))
              | Ok _ => ret (Next ({[key]} ∪ processedPods))
              end
      end
  end.

Definition package_checkpoint (pkg : PackageSelector) (c : Checkpoint) : bool :=
  (mget (rr_Annotations (cks_ResourceRef (ck_Spec c))) package_annotation =? ps_Name pkg)%string.

(** The first loop over the checkpoints only fills a local set and is left out. *)
Definition PerformWorkloadClusterCheckpointAction (mgmtClient : Client) (pkg : PackageSelector)
    (clusterPolicy : ClusterPolicy) (workloadCluster : Cluster) : M (result unit) :=
  checkpoints <- do (KListCheckpoints mgmtClient) ;;
  match checkpoints with
  | Err e => ret (Err e)
  | Ok checkpoints =>
      let packageCheckpointsExist := existsb (package_checkpoint pkg) checkpoints in
      if packageCheckpointsExist then ret (Ok tt)
      else
        cl <- GetWorkloadClusterClient mgmtClient (cl_Name workloadCluster) ;;
        match cl with
        | Err e => ret (Err e)
        | Ok (_, None) =>
            ret (Err (Errorf ("workload cluster " +:+ quoted (cl_Name workloadCluster) +:+
                                " client not available yet")))
        | Ok (_, Some (workloadClusterClient, _)) =>
            podList <- do (KListPods workloadClusterClient AllPods) ;;
            match podList with
            | Err e => ret (Err e)
            | Ok podList =>
                r <- forEach podList ∅
                       (checkpoint_pod mgmtClient workloadClusterClient pkg clusterPolicy) ;;
                match r with
                | Next _ => ret (Ok tt)
                | Return r => ret r
                end
            end
        end
  end.

(** ** Events *)

Definition is_create_checkpoint (e : event) : Prop :=
  match e with Ev (KCreateCheckpoint _ _) _ => True | _ => False end.

(** The events of the loop over the pods. *)
Definition is_action_event (e : event) : Prop :=
  is_getenv e \/ is_get_workload e \/ is_create_checkpoint e.

End CheckpointCR.

(** The checkpoints whose creation a trace requested. *)
Definition created (e : event) : option Checkpoint :=
  match e with Ev (KCreateCheckpoint _ c) _ => Some c | _ => None end.
Definition creates (t : trace) : list Checkpoint := omap created t.

Lemma creates_app t1 t2 : creates (t1 ++ t2) = creates t1 ++ creates t2.
Proof. apply omap_app. Qed.

Lemma creates_none (P : event -> Prop) t :
  (forall e, P e -> created e = None) -> Forall P t -> creates t = [].
Proof.
  intros HP Ht. induction Ht as [|e t He _ IH]; [done|]. unfold creates. simpl.
  by rewrite (HP e He).
Qed.

Lemma creates_getenv t : Forall is_getenv t -> creates t = [].
Proof. apply creates_none. by intros [[] ?]. Qed.
Lemma creates_get_workload t : Forall is_get_workload t -> creates t = [].
Proof. apply creates_none. by intros [[] ?]. Qed.
Lemma creates_capi t : Forall is_capi_event t -> creates t = [].
Proof. apply creates_none. by intros [[] ?]. Qed.

(** The clusters that the weight loop can choose. *)
Definition usable (c : PreferredCluster) : bool := (int32 (pc_Weight c) <? maxInt32)%Z.
Definition usable_targets (p : ClusterPolicy) : list PreferredCluster :=
  List.filter usable (tcp_PreferClusters (cps_TargetClusterPolicy (cp_Spec p))).
Definition lightness (c : PreferredCluster) : Z := (- int32 (pc_Weight c))%Z.
Definition target_ref (c : PreferredCluster) : ClusterRef := MkClusterRef (pc_Name c) "" "".

Lemma int32_max z : (int32 z <= maxInt32)%Z.
Proof. unfold int32, maxInt32. pose proof (Z.mod_pos_bound (z + 2 ^ 31) (2 ^ 32)). lia. Qed.

Lemma lowest_fold_scan l :
  foldl lowest_step (maxInt32, None) l =
  match scan_max lightness (List.filter usable l) with
  | Some c => (int32 (pc_Weight c), Some (target_ref c))
  | None => (maxInt32, None)
  end.
Proof.
  induction l as [|c l IH] using rev_ind; [done|].
  rewrite foldl_app, IH, List.filter_app. simpl. unfold usable at 3.
  pose proof (int32_max (pc_Weight c)).
  destruct (int32 (pc_Weight c) <? maxInt32)%Z eqn:Hc; bool_to_prop.
  - rewrite scan_snoc. destruct (scan_max _ _) as [b|]; simpl.
    + unfold lightness.
      replace (- int32 (pc_Weight b) <? - int32 (pc_Weight c))%Z
        with (int32 (pc_Weight c) <? int32 (pc_Weight b))%Z
        by (apply eq_true_iff_eq; rewrite !Z.ltb_lt; lia).
      by destruct (_ <? _)%Z.
    + by replace (int32 (pc_Weight c) <? maxInt32)%Z with true
        by (symmetry; apply Z.ltb_lt; lia).
  - rewrite app_nil_r. destruct (scan_max _ _) as [b|] eqn:E; simpl.
    + pose proof (int32_max (pc_Weight b)).
      by replace (int32 (pc_Weight c) <? int32 (pc_Weight b))%Z with false
        by (symmetry; apply Z.ltb_ge; lia).
    + by replace (int32 (pc_Weight c) <? maxInt32)%Z with false
        by (symmetry; apply Z.ltb_ge; lia).
Qed.

Lemma lowest_target_scan p :
  lowest_target (tcp_PreferClusters (cps_TargetClusterPolicy (cp_Spec p))) =
  target_ref <$> scan_max lightness (usable_targets p).
Proof. unfold lowest_target, usable_targets. rewrite lowest_fold_scan. by destruct (scan_max _ _). Qed.

(** ** Runs *)

Section CheckpointRuns.
Context {X : Externals}.

Lemma emits_env_registry : emits is_getenv env_registry.
Proof. unfold env_registry. emits_auto. Qed.

Lemma spec_env_registry :
  spec env_registry (fun o t => Forall is_getenv t /\ exists r, o = Ret r).
Proof.
  apply spec_of_wp. intros s. unfold env_registry, GetEnv. repeat wp_step.
  all: split; [by forall_events|by eexists].
Qed.

(** One creation, of the checkpoint built from the first lightest target. *)
Definition created_for (client : Client) (pod : Pod) (pkg : PackageSelector) (p : ClusterPolicy)
    (parent : option PartialObjectMetadata) (o : outcome (result unit)) (t : trace) : Prop :=
  exists c reg res envs,
    scan_max lightness (usable_targets p) = Some c /\ Forall is_getenv envs /\
    t = envs ++ [Ev (KCreateCheckpoint client (new_checkpoint pod pkg p parent (target_ref c) reg))
                  res] /\
    o = Ret (match res with
             | Ok _ => Ok tt
             | Err e => if IsAlreadyExists e then Ok tt else Err e
             end).

Lemma spec_CreateCheckpointCR client pod pkg p parent :
  spec (CreateCheckpointCR client pod pkg p parent) (fun o t =>
    (usable_targets p = [] /\ o = Crash /\ t = []) \/ created_for client pod pkg p parent o t).
Proof.
  apply spec_of_wp. intros s. unfold CreateCheckpointCR. rewrite lowest_target_scan.
  destruct (scan_max _ _) as [c|] eqn:E; simpl.
  - wp_step. eapply wp_spec; [apply spec_env_registry|]. intros o s' t [Ht [reg ->]].
    repeat wp_step; right; exists c, reg, r, t; subst; repeat split; try done.
    + simpl. by rewrite Heqb.
    + simpl. by rewrite Heqb.
  - wp_step. left. by apply scan_max_none in E.
Qed.

Lemma spec_CreateCheckpointCR_creates client pod pkg p parent :
  spec (CreateCheckpointCR client pod pkg p parent) (fun o t =>
    Forall is_action_event t /\
    (creates t = [] /\ o = Crash \/
     exists target reg r, creates t = [new_checkpoint pod pkg p parent target reg] /\ o = Ret r)).
Proof.
  intros s. destruct (spec_CreateCheckpointCR client pod pkg p parent s)
    as [(_ & -> & ->)|(c & reg & res & envs & _ & He & -> & ->)]; [by auto|].
  split.
  - apply Forall_app; split; [|by repeat constructor; unfold is_action_event; simpl; tauto].
    eapply Forall_impl; [exact He|]. unfold is_action_event. tauto.
  - right. eexists _, _, _. rewrite creates_app, (creates_getenv envs He). done.
Qed.

(** The key under which a pod's workload is deduplicated. *)
Definition workload_key (pkg : PackageSelector) (pod : Pod) : option string :=
  match GetWorkloadOwnerControllerInfo pod with
  | None => None
  | Some (kind, name) =>
      Some ((pod_Namespace pod +:+ "/" +:+ name +:+ "/" +:+ kind) +:+ "/" +:+ ps_Name pkg)
  end.

(** A checkpoint that the action may create for a package. *)
Definition legitimate (pkg : PackageSelector) (p : ClusterPolicy) (c : Checkpoint) : Prop :=
  annotated (rr_Annotations (cks_ResourceRef (ck_Spec c))) pkg = true /\
  IsPackageTransitioned p pkg = false.

Lemma spec_checkpoint_pod mgmt wl pkg p pod done :
  spec (checkpoint_pod mgmt wl pkg p pod done) (fun o t =>
    Forall is_action_event t /\
    ((creates t = [] /\ (o = Ret (Next done) \/ o = Crash)) \/
     (exists key c, workload_key pkg pod = Some key /\ (key ∉ done) /\ creates t = [c] /\
       legitimate pkg p c /\
       (o = Ret (Next ({[key]} ∪ done)) \/ exists e, o = Ret (Return (Err e)))))).
Proof.
  apply spec_of_wp. intros s. unfold checkpoint_pod, workload_key.
  destruct (GetWorkloadOwnerControllerInfo pod) as [[kind name]|].
  2:{ wp_step. split; [by forall_events|]. by left; auto. }
  wp_step. eapply wp_emits; [apply emits_GetParentAnnotations|]. intros o s' t Ht.
  pose proof (creates_get_workload t Ht) as Hn.
  assert (Forall is_action_event t) as Ha.
  { eapply Forall_impl; [exact Ht|]. unfold is_action_event. tauto. }
  repeat wp_step; try (split; [done|]; left; by auto).
  eapply wp_spec; [apply spec_CreateCheckpointCR_creates|].
  cbn [app]. intros o' s'' t' [Ht' [[Hc ->]|(target & reg & r & Hc & ->)]];
    [split; [by apply Forall_app|]; left; rewrite creates_app, Hn, Hc; by auto|].
  wp_step; wp_step; (split; [by apply Forall_app|right]); eexists _, _;
    rewrite creates_app, Hn, Hc; (split; [done|]); (split; [done|]); (split; [done|]); split;
    [split; [by bool_to_prop|done]|by left|split; [by bool_to_prop|done]|right; by eexists].
Qed.

(** The keys of the workloads of a list of pods. *)
Definition workload_keys (pkg : PackageSelector) (pods : list Pod) : gset string :=
  list_to_set (omap (workload_key pkg) pods).

Lemma spec_checkpoint_pods mgmt wl pkg p pods :
  spec (forEach pods ∅ (checkpoint_pod mgmt wl pkg p)) (fun o t =>
    Forall is_action_event t /\ Forall (legitimate pkg p) (creates t) /\
    length (creates t) <= size (workload_keys pkg pods)).
Proof.
  apply spec_of_wp. intros s.
  apply (wp_forEach (fun rest (done : gset string) _ t =>
    Forall is_action_event t /\ Forall (legitimate pkg p) (creates t) /\
    length (creates t) = size done /\
    exists seen, pods = seen ++ rest /\ done ⊆ workload_keys pkg seen)).
  - split; [done|]. split; [done|]. split; [by rewrite size_empty|]. by exists [].
  - intros pod rest done s' tr (Ha & Hl & Hlen & seen & -> & Hsub).
    eapply wp_spec; [apply spec_checkpoint_pod|]. cbn beta.
    intros o s'' t [Ht [[Hc Ho]|(key & c & Hk & Hnew & Hc & Hleg & Ho)]].
    + assert (size done <= size (workload_keys pkg (seen ++ pod :: rest))).
      { apply subseteq_size. unfold workload_keys in *. rewrite omap_app, list_to_set_app_L.
        set_solver. }
      destruct Ho as [-> | ->].
      * rewrite creates_app, Hc, app_nil_r. split; [by apply Forall_app|]. split; [done|].
        split; [done|]. exists (seen ++ [pod]). split; [by rewrite <- app_assoc|].
        unfold workload_keys in *. rewrite omap_app, list_to_set_app_L. set_solver.
      * rewrite creates_app, Hc, app_nil_r. split; [by apply Forall_app|]. split; [done|lia].
    + assert (size ({[key]} ∪ done) = S (size done)) as Hsize.
      { rewrite size_union by set_solver. by rewrite size_singleton. }
      assert (({[key]} ∪ done) ⊆ workload_keys pkg (seen ++ [pod])) as Hsub'.
      { unfold workload_keys in *. rewrite omap_app, list_to_set_app_L. simpl. rewrite Hk.
        simpl. set_solver. }
      destruct Ho as [->|[e ->]]; rewrite creates_app, Hc; (split; [by apply Forall_app|]);
        (split; [apply Forall_app; by auto|]); rewrite length_app; simpl.
      * split; [lia|]. exists (seen ++ [pod]). split; [by rewrite <- app_assoc|done].
      * rewrite Hlen, Nat.add_1_r, <- Hsize. apply subseteq_size.
        etrans; [exact Hsub'|]. unfold workload_keys.
        rewrite !omap_app, !list_to_set_app_L. simpl. rewrite Hk. simpl. set_solver.
  - intros done s' tr (Ha & Hl & Hlen & seen & Heq & Hsub). rewrite app_nil_r in Heq. subst.
    split; [done|]. split; [done|]. rewrite Hlen. by apply subseteq_size.
Qed.

End CheckpointRuns.

(** ** Properties *)

(** The checkpoints and the pods that a trace read. *)
Definition listed_checkpoints (e : event) : option (list Checkpoint) :=
  match e with Ev (KListCheckpoints _) (Ok l) => Some l | _ => None end.
Definition listed_pods (e : event) : option (list Pod) :=
  match e with Ev (KListPods _ _) (Ok l) => Some l | _ => None end.

(** What a run of the action for a package must satisfy. *)
Definition action_ok (pkg : PackageSelector) (p : ClusterPolicy) (t : trace) : Prop :=
  Forall (legitimate pkg p) (creates t) /\
  (forall cks, cks ∈ omap listed_checkpoints t -> existsb (package_checkpoint pkg) cks = true ->
     creates t = []) /\
  (forall pods, pods ∈ omap listed_pods t -> length (creates t) <= size (workload_keys pkg pods)).

Lemma action_ok_none pkg p t : creates t = [] -> action_ok pkg p t.
Proof. intros H. unfold action_ok. rewrite H. split; [done|]. split; [done|]. intros; simpl; lia. Qed.

Lemma action_ok_loop pkg p t0 t cks pods c :
  creates t0 = [] -> omap listed_pods t0 = [] -> omap listed_checkpoints t0 = [cks] ->
  existsb (package_checkpoint pkg) cks = false ->
  Forall is_action_event t -> Forall (legitimate pkg p) (creates t) ->
  length (creates t) <= size (workload_keys pkg pods) ->
  action_ok pkg p ((t0 ++ [Ev (KListPods c AllPods) (Ok pods)]) ++ t).
Proof.
  intros Hc Hp Hk Hno Ha Hl Hlen.
  assert (omap listed_pods t = [] /\ omap listed_checkpoints t = []) as [Hp2 Hk2].
  { split; (eapply omap_none; [|exact Ha]); intros [[] ?]; unfold is_action_event; simpl; tauto. }
  unfold action_ok. rewrite !creates_app, !omap_app, Hc, Hp, Hk, Hp2, Hk2. simpl.
  split; [done|]. split.
  - intros cks' ->%list_elem_of_singleton. congruence.
  - intros pods' ->%list_elem_of_singleton. done.
Qed.

(** C32: The checkpoint action for a package only creates checkpoints whose resource
    carries the package's annotations, creates none for a package that was already
    transitioned or that already has a checkpoint, and creates at most one per
    workload of the pods it listed. *)
Theorem PerformWorkloadClusterCheckpointAction_safe {X : Externals} mgmt pkg p wc s :
  action_ok pkg p (r_trace (PerformWorkloadClusterCheckpointAction mgmt pkg p wc s)).
Proof.
  apply (spec_of_wp (PerformWorkloadClusterCheckpointAction mgmt pkg p wc)
    (fun _ t => action_ok pkg p t)).
  clear s. intros s. unfold PerformWorkloadClusterCheckpointAction. repeat wp_step.
  1, 3: by apply action_ok_none.
  eapply wp_emits; [apply emits_GetWorkloadClusterClient|]. intros o s' t Ht.
  pose proof (creates_capi t Ht) as Hc.
  assert (omap listed_pods t = [] /\ omap listed_checkpoints t = []) as [Hp Hk]
    by (split; (eapply omap_none; [|exact Ht]); by intros [[] ?]).
  repeat wp_step; cycle 1;
    try (apply action_ok_none; rewrite ?creates_app; simpl; by rewrite ?Hc).
  eapply wp_spec; [apply spec_checkpoint_pods|]. intros o2 s2 t2 (Ha & Hl & Hlen).
  repeat wp_step; (eapply action_ok_loop; rewrite ?creates_app, ?omap_app, ?Hc, ?Hp, ?Hk; done).
Qed.

(** C33: [CreateCheckpointCR] panics, without creating anything, exactly when no
    preferred cluster has a weight below the largest 32-bit integer, which includes
    the empty list; otherwise it creates one checkpoint, named after the policy,
    the pod and the package, that targets the first cluster with the lowest
    weight, and an existing checkpoint of that name counts as success. *)
Theorem CreateCheckpointCR_outcome {X : Externals} client pod pkg p parent s :
  let r := CreateCheckpointCR client pod pkg p parent s in
  (usable_targets p = [] /\ r_out r = Crash /\ r_trace r = []) \/
  (exists c reg res envs,
     first_max lightness (usable_targets p) c /\ Forall is_getenv envs /\
     r_trace r = envs ++
       [Ev (KCreateCheckpoint client (new_checkpoint pod pkg p parent (target_ref c) reg)) res] /\
     r_out r = Ret (match res with
                    | Ok _ => Ok tt
                    | Err e => if IsAlreadyExists e then Ok tt else Err e
                    end)).
Proof.
  destruct (spec_CreateCheckpointCR client pod pkg p parent s)
    as [?|(c & reg & res & envs & Hc & ?)]; [by left|].
  right. exists c, reg, res, envs. split; [by apply scan_max_some|done].
Qed.

(** The checkpoint of a package and its transition disagree about the target:
    whenever the preferred clusters are git clusters with non-negative 32-bit
    weights that are not all equal, checkpoints target a cluster of the lowest
    weight and transitions a cluster of the highest, which is another one. *)
Theorem checkpoint_target_not_transition_target p :
  let l := tcp_PreferClusters (cps_TargetClusterPolicy (cp_Spec p)) in
  Forall (fun c => pc_RepoType c = "git" /\ (0 <= pc_Weight c < maxInt32)%Z) l ->
  (exists a b, a ∈ l /\ b ∈ l /\ pc_Weight a <> pc_Weight b) ->
  exists low high,
    low ∈ l /\ high ∈ l /\ (pc_Weight low < pc_Weight high)%Z /\
    lowest_target l = Some (target_ref low) /\
    DetermineTargetRepo p = (pc_Name high +:+ "-dr", pc_Name high, true).
Proof.
  intros l Hl (a & b & Ha & Hb & Hab). rewrite Forall_forall in Hl.
  assert (forall c, c ∈ l -> int32 (pc_Weight c) = pc_Weight c) as Hint.
  { intros c Hc. destruct (Hl c Hc) as [_ ?]. unfold int32, maxInt32 in *.
    rewrite Z.mod_small; lia. }
  assert (usable_targets p = l) as Hu.
  { unfold usable_targets. fold l. apply forallb_filter_id, forallb_forall.
    intros c Hc%list_elem_of_In. unfold usable. rewrite Hint by done. apply Z.ltb_lt.
    by apply Hl. }
  assert (eligible_targets p = l) as He.
  { unfold eligible_targets. fold l. apply forallb_filter_id, forallb_forall.
    intros c Hc%list_elem_of_In. unfold eligible. destruct (Hl c Hc) as [-> ?]. simpl.
    apply Z.leb_le. lia. }
  destruct (scan_max lightness l) as [low|] eqn:Elow;
    [|apply scan_max_none in Elow; rewrite Elow in Ha; set_solver].
  destruct (scan_max pc_Weight l) as [high|] eqn:Ehigh;
    [|apply scan_max_none in Ehigh; rewrite Ehigh in Ha; set_solver].
  exists low, high. pose proof (scan_max_some _ _ _ Elow) as Hlow.
  pose proof (scan_max_some _ _ _ Ehigh) as Hhigh.
  pose proof (first_max_in _ _ _ Hlow) as Hlin. pose proof (first_max_in _ _ _ Hhigh) as Hhin.
  split; [done|]. split; [done|]. split; [|split].
  - pose proof (first_max_ge _ _ _ _ Hlow Ha). pose proof (first_max_ge _ _ _ _ Hlow Hb).
    pose proof (first_max_ge _ _ _ _ Hhigh Ha). pose proof (first_max_ge _ _ _ _ Hhigh Hb).
    unfold lightness in *. rewrite !Hint in * by done. lia.
  - unfold l at 1. rewrite lowest_target_scan, Hu. fold l. by rewrite Elow.
  - rewrite DetermineTargetRepo_scan, He, Ehigh. done.
Qed.

Definition two_targets : ClusterPolicy :=
  MkClusterPolicy (named "default" "policy")
    (MkClusterPolicySpec (MkClusterSelector "edge" "" "git" "") []
       (MkTargetClusterPolicy
          [MkPreferredCluster "site-a" "git" 10; MkPreferredCluster "site-b" "git" 50] []))
    (MkClusterPolicyStatus []).

Lemma checkpoint_target_not_transition_target_witness :
  exists low high,
    low ∈ tcp_PreferClusters (cps_TargetClusterPolicy (cp_Spec two_targets)) /\
    high ∈ tcp_PreferClusters (cps_TargetClusterPolicy (cp_Spec two_targets)) /\
    (pc_Weight low < pc_Weight high)%Z /\
    lowest_target (tcp_PreferClusters (cps_TargetClusterPolicy (cp_Spec two_targets))) =
      Some (target_ref low) /\
    DetermineTargetRepo two_targets = (pc_Name high +:+ "-dr", pc_Name high, true).
Proof.
  apply (checkpoint_target_not_transition_target two_targets).
  - apply Forall_cons_2; [split; [reflexivity|unfold maxInt32; simpl; lia]|].
    apply Forall_cons_2; [split; [reflexivity|unfold maxInt32; simpl; lia]|apply Forall_nil_2].
  - exists (MkPreferredCluster "site-a" "git" 10), (MkPreferredCluster "site-b" "git" 50).
    split; [left|]. split; [right; left|]. discriminate.
Defined.

#[export] Hint Resolve emits_env_registry : go.
#[global] Arguments CreateCheckpointCR : simpl never.
#[global] Arguments PerformWorkloadClusterCheckpointAction : simpl never.
