(* ===== verification/Records.v ===== *)
(** * Transition records

    What a transition leaves behind: the push of the recovery manifest, the sync
    request and the record appended to the policy's status. The transition
    functions of both controllers end in the same way; the property that every
    [Completed] record is backed by a pushed manifest is stated on traces and is
    closed under sequencing, so that it carries over to whole reconciliations. *)
From S2P Require Import Prelude Types Runtime Policy ArgoPush.

(** ** Trace properties closed under sequencing *)

Section Traces.
Context {X : Externals}.

(** Every run of [m] has a trace in [P]. *)
Definition traces {A} (P : trace -> Prop) (m : M A) : Prop := forall s, P (r_trace (m s)).

Class Closed (P : trace -> Prop) := {
  closed_nil : P [];
  closed_app : forall t1 t2, P t1 -> P t2 -> P (t1 ++ t2) }.

Context (P : trace -> Prop) {HP : Closed P}.

Lemma traces_ret {A} (a : A) : traces P (ret a).
Proof. intros s. apply closed_nil. Qed.
Lemma traces_crash {A} : traces P (@crash X A).
Proof. intros s. apply closed_nil. Qed.
Lemma traces_bind {A B} (m : M A) (f : A -> M B) :
  traces P m -> (forall a, traces P (f a)) -> traces P (bind m f).
Proof.
  intros Hm Hf s. unfold bind. specialize (Hm s).
  destruct (r_out (m s)); simpl; [|done]. apply closed_app; [done|apply Hf].
Qed.
Lemma traces_do (c : call) : (forall w, P [Ev c (respond c w).1]) -> traces P (do c).
Proof. intros H s. apply H. Qed.
Lemma traces_forEach {A B R} (l : list A) (b : B) (body : A -> B -> M (flow B R)) :
  (forall a b, traces P (body a b)) -> traces P (forEach l b body).
Proof.
  intros Hb. revert b. induction l as [|x l IH]; intros b; simpl; [apply traces_ret|].
  apply traces_bind; [apply Hb|]. intros [b'|r]; [apply IH|apply traces_ret].
Qed.
Lemma traces_emits {A} (Q : event -> Prop) (m : M A) :
  (forall t, Forall Q t -> P t) -> emits Q m -> traces P m.
Proof. intros HQ Hm s. apply HQ, Hm. Qed.

End Traces.

#[global] Arguments traces : simpl never.

Ltac traces_step :=
  match goal with
  | |- traces _ (bind _ _) => apply traces_bind; [apply _| |intros ?]
  | |- traces _ (ret _) => apply traces_ret, _
  | |- traces _ crash => apply traces_crash, _
  | |- traces _ (do ?c) => apply (traces_do _ c); intros ?
  | |- traces _ (forEach _ _ _) => apply traces_forEach; [apply _|intros ? ?]
  | |- traces _ (match ?x with _ => _ end) => destruct x eqn:?
  | |- traces _ _ => solve [eauto with go]
  | |- _ [Ev _ _] => solve [auto with go]
  end.
Ltac traces_auto := repeat (traces_step; try done); try done.

(** ** Status updates *)

(** The policy of a request to update a policy's status. *)
Definition status_update (e : event) : option ClusterPolicy :=
  match e with
  | Ev (KUpdateClusterPolicyStatus _ p) _ => Some p
  | Ev (WithCancelled (KUpdateClusterPolicyStatus _ p)) _ => Some p
  | _ => None
  end.
Definition updates (t : trace) : list ClusterPolicy := omap status_update t.

Lemma updates_app t1 t2 : updates (t1 ++ t2) = updates t1 ++ updates t2.
Proof. apply omap_app. Qed.

Lemma updates_none (Q : event -> Prop) t :
  (forall e, Q e -> status_update e = None) -> Forall Q t -> updates t = [].
Proof.
  intros HQ Ht. induction Ht as [|e t He _ IH]; [done|]. unfold updates. simpl.
  by rewrite (HQ e He).
Qed.

(** The application manifest of the package was committed to the [dr] repository,
    in the folder of the policy's target. *)
Definition app_for (p : ClusterPolicy) (pkg : PackageSelector) (e : event) : Prop :=
  match e with
  | Ev (GCreateFile _ _ repo path opts) (Ok _) =>
      repo = "dr" /\
      (exists folder name ts, DetermineTargetRepo p = (folder, name, true) /\
         path = argo_file folder ts) /\
      cfo_Message opts = "ArgoCD app: " +:+ transition_subject p pkg
  | _ => False
  end.

(** Every status update whose newest record is [Completed] comes after the push
    of the manifest of the package of that record. *)
Definition backed (t : trace) : Prop :=
  forall i e p rec,
    t !! i = Some e -> status_update e = Some p ->
    last (cpst_TransitionedPackages (cp_Status p)) = Some rec ->
    tp_PackageTransitionCondition rec = PackageTransitionConditionCompleted ->
    exists pkg j e', tp_PackageSelectors rec = [pkg] /\ (j < i)%nat /\ t !! j = Some e' /\
      app_for p pkg e'.

#[export] Instance backed_closed : Closed backed.
Proof.
  split; [intros i e p rec H; by rewrite lookup_nil in H|].
  intros t1 t2 H1 H2 i e p rec Hi He Hl Hc. apply lookup_app_Some in Hi as [Hi|[Hlen Hi]].
  - destruct (H1 i e p rec Hi He Hl Hc) as (pkg & j & e' & ? & ? & Hj & ?).
    exists pkg, j, e'. repeat split; try done. by apply lookup_app_l_Some.
  - destruct (H2 _ e p rec Hi He Hl Hc) as (pkg & j & e' & ? & ? & Hj & ?).
    exists pkg, (length t1 + j)%nat, e'. repeat split; try done; [lia|].
    rewrite lookup_app_r by lia. by replace (length t1 + j - length t1)%nat with j by lia.
Qed.

Lemma backed_quiet t : updates t = [] -> backed t.
Proof.
  intros H i e p rec Hi He. exfalso. apply list_elem_of_lookup_2 in Hi.
  assert (p ∈ updates t) as Hp by (apply list_elem_of_omap; eauto).
  rewrite H in Hp. set_solver.
Qed.

Lemma backed_class (Q : event -> Prop) :
  (forall e, Q e -> status_update e = None) -> forall t, Forall Q t -> backed t.
Proof. intros HQ t Ht. by apply backed_quiet, (updates_none Q). Qed.

Lemma backed_one (c : call) r : status_update (Ev c r) = None -> backed [Ev c r].
Proof. intros H. apply (backed_class (fun e => status_update e = None)); auto. Qed.

(** A last update on top of a trace without updates. *)
Lemma backed_update t p e rec pkg :
  updates t = [] -> status_update e = Some (append_record p rec) ->
  tp_PackageSelectors rec = [pkg] ->
  (tp_PackageTransitionCondition rec = PackageTransitionConditionCompleted ->
     Exists (app_for p pkg) t) ->
  backed (t ++ [e]).
Proof.
  intros Ht He Hsel Happ i e' p' rec' Hi He' Hl Hc.
  apply lookup_app_Some in Hi as [Hi|[Hlen Hi]].
  - destruct (backed_quiet t Ht i e' p' rec' Hi He' Hl Hc) as (pk & j & e1 & ? & ? & Hj & ?).
    exists pk, j, e1. repeat split; try done. by apply lookup_app_l_Some.
  - apply list_lookup_singleton_Some in Hi as [Hi <-]. simplify_eq.
    unfold append_record in Hl. simpl in Hl. rewrite last_snoc in Hl. simplify_eq.
    apply Exists_exists in Happ as (e1 & Hin & Hfor); [|done].
    apply list_elem_of_lookup in Hin as [j Hj]. exists pkg, j, e1.
    split; [done|]. split; [apply lookup_lt_Some in Hj; lia|].
    split; [by apply lookup_app_l_Some|]. done.
Qed.

(** ** The end of a transition *)

Section Conclude.
Context {X : Externals}.

(** The record is appended to the policy in memory before the update; a successful
    update overwrites it with the server's answer. *)
Definition append_and_update (cancelled : bool) (mgmtClient : Client) (clusterPolicy : ClusterPolicy)
    (pkg : PackageSelector) (message condition : string) : M ClusterPolicy :=
  now <- do Now ;;
  let clusterPolicy :=
    append_record clusterPolicy (MkTransitionedPackages [pkg] now condition message) in
  r <- ctx_do cancelled (KUpdateClusterPolicyStatus mgmtClient clusterPolicy) ;;
  ret (match r with Ok answer => answer | Err _ => clusterPolicy end).

(** The push; then either a [Failed] record, or the sync and a [Completed] one. *)
Definition conclude (record : error -> string -> M ClusterPolicy) (push : M (result string))
    (target : option Client) (appName message syncMessage : string) : M ClusterPolicy :=
  r <- push ;;
  match r with
  | Err e => record e PackageTransitionConditionFailed
  | Ok _ =>
      s <- TriggerArgoCDSyncWithKubeClient target appName "argocd" ;;
      record (Errorf (if is_ok s then message else message +:+ syncMessage))
        PackageTransitionConditionCompleted
  end.

Lemma spec_append_and_update cancelled mgmt p pkg msg cond :
  spec (append_and_update cancelled mgmt p pkg msg cond) (fun o t => exists now e p',
    t = [Ev Now now; e] /\
    status_update e = Some (append_record p (MkTransitionedPackages [pkg] now cond msg)) /\
    o = Ret p').
Proof.
  apply spec_of_wp. intros s. unfold append_and_update. do 2 wp_step. wp_step. wp_step.
  wp_step. eexists _, _, _. split; [done|]. split; [|done].
  destruct H as [-> | ->]; done.
Qed.

(** How a transition of a package can end: the panic on a missing client, after the
    manifest was pushed; or one record, [Completed] when the manifest was pushed and
    [Failed] when it was not. *)
Definition concluded (p : ClusterPolicy) (pkg : PackageSelector) (no_client : Prop)
    (o : outcome ClusterPolicy) (t : trace) : Prop :=
  match o with
  | Crash => no_client /\ updates t = [] /\ Exists (app_for p pkg) t
  | Ret _ => exists now cond msg,
      updates t = [append_record p (MkTransitionedPackages [pkg] now cond msg)] /\
      ((cond = PackageTransitionConditionCompleted /\ Exists (app_for p pkg) t) \/
       (cond = PackageTransitionConditionFailed /\ Forall (fun e => ~ app_commit p pkg e) t))
  end /\ backed t.

Lemma updates_app_event t : Forall is_app_event t -> updates t = [].
Proof. apply updates_none. by intros [[] ?]. Qed.

Lemma spec_conclude cancelled mgmt p pkg push target appName m1 m2 :
  spec push (fun o t => updates t = [] /\
    match o with
    | Ret (Ok _) => Exists (app_for p pkg) t
    | Ret (Err _) => Forall (fun e => ~ app_commit p pkg e) t
    | Crash => False
    end) ->
  spec (conclude (fun e => append_and_update cancelled mgmt p pkg (err_msg e)) push target
          appName m1 m2)
    (concluded p pkg (target = None)).
Proof.
  intros Hpush. apply spec_of_wp. intros s. unfold conclude. wp_step.
  eapply wp_spec; [apply Hpush|]. cbn beta. cbn [app]. intros o s' t [Hu Ho].
  destruct o as [[name|e]|]; [| |done].
  - wp_step. destruct target as [c|].
    2:{ unfold TriggerArgoCDSyncWithKubeClient. wp_step. split; [done|]. by apply backed_quiet. }
    eapply wp_spec; [apply spec_sync|]. cbn beta. intros o s'' t' [Hs [r ->]].
    eapply wp_spec; [apply spec_append_and_update|]. cbn beta.
    intros o s3 t3 (now & e & p' & -> & He & ->). split.
    + eexists now, _, _. rewrite !updates_app, Hu, (updates_app_event t' Hs).
      unfold updates at 1. simpl. rewrite He. split; [reflexivity|]. left.
      split; [done|]. exists_event.
    + change ([Ev Now now; e]) with ([Ev Now now] ++ [e]). rewrite app_assoc.
      eapply backed_update; [|exact He|done|].
      * by rewrite !updates_app, Hu, (updates_app_event t' Hs).
      * intros _. exists_event.
  - eapply wp_spec; [apply spec_append_and_update|]. cbn beta.
    intros o s3 t3 (now & e' & p' & -> & He & ->). split.
    + eexists now, _, _. rewrite !updates_app, Hu.
      unfold updates at 1. simpl. rewrite He. split; [reflexivity|]. right.
      split; [done|]. apply Forall_app; split; [done|]. constructor; [simpl; tauto|].
      constructor; [|done]. destruct e' as [[] ?]; simpl in He |- *; try tauto; done.
    + change ([Ev Now now; e']) with ([Ev Now now] ++ [e']). rewrite app_assoc.
      eapply backed_update; [|exact He|done|done]. by rewrite !updates_app, Hu.
Qed.

Lemma app_for_commit p pkg e : app_for p pkg e -> app_commit p pkg e.
Proof. destruct e as [[] res]; simpl; try tauto. destruct res; tauto. Qed.

Lemma concluded_mono p pkg (c1 c2 : Prop) o t :
  (c1 -> c2) -> concluded p pkg c1 o t -> concluded p pkg c2 o t.
Proof. intros Hc [H Hb]. split; [|done]. destruct o; [done|]. naive_solver. Qed.

(** After the push, a conclusion commits nothing. *)
Lemma conclude_precedes (R : event -> Prop) cancelled mgmt p pkg push target appName m1 m2 s :
  spec push (fun _ t => precedes R (app_for p pkg) t) ->
  precedes R (app_for p pkg)
    (r_trace (conclude (fun e => append_and_update cancelled mgmt p pkg (err_msg e)) push target
                appName m1 m2 s)).
Proof.
  intros Hp.
  assert (forall e c, emits (fun e => ~ app_for p pkg e)
    (append_and_update cancelled mgmt p pkg (err_msg e) c)).
  { intros e c. unfold append_and_update. emits_auto; simpl; tauto. }
  assert (forall c n ns, emits (fun e => ~ app_for p pkg e)
    (TriggerArgoCDSyncWithKubeClient c n ns)).
  { intros c n ns. eapply emits_mono; [|apply emits_sync]. intros [[] ?]; simpl; tauto. }
  apply (spec_of_wp (conclude (fun e => append_and_update cancelled mgmt p pkg (err_msg e)) push
    target appName m1 m2) (fun _ t => precedes R (app_for p pkg) t)). clear s. intros s.
  unfold conclude. wp_step. eapply wp_spec; [apply Hp|]. cbn beta. cbn [app]. intros o s' t Ht.
  destruct o as [[n|e]|]; [| |done]; (eapply wp_emits; [emits_auto|]); intros o s'' t' Ht';
    apply precedes_app; auto using precedes_no.
Qed.

(** The push of the application is such a push. *)
Lemma app_pushed_for client u folder name p pkg e :
  DetermineTargetRepo p = (folder, name, true) ->
  app_pushed client u "dr" folder p pkg e -> app_for p pkg e.
Proof.
  intros Hd. destruct e as [[] res]; simpl; try tauto. destruct res; [|tauto].
  intros (_ & _ & -> & (ts & ->) & _ & Hm). split; [done|]. split; [|done]. by exists folder, name, ts.
Qed.

Lemma updates_push_event t : Forall is_push_event t -> updates t = [].
Proof. apply updates_none. by intros [[] ?]. Qed.

Lemma spec_argo_for client u folder name p pkg i :
  DetermineTargetRepo p = (folder, name, true) ->
  spec (CreateAndPushArgoApp client u "dr" folder p pkg i) (fun o t => updates t = [] /\
    match o with
    | Ret (Ok _) => Exists (app_for p pkg) t
    | Ret (Err _) => Forall (fun e => ~ app_commit p pkg e) t
    | Crash => False
    end).
Proof.
  intros Hd. apply spec_of_wp. intros s. unfold CreateAndPushArgoApp, now_timestamp.
  repeat wp_step; simpl; (split; [done|]); try by repeat constructor; simpl; tauto.
  apply Exists_cons_tl, Exists_cons_tl, Exists_cons_tl, Exists_cons_hd. simpl.
  split; [done|]. split; [|done]. by eexists _, _, _.
Qed.

Lemma emits_no_update {A} (Q : event -> Prop) (m : M A) :
  (forall e, Q e -> status_update e = None) -> emits Q m ->
  emits (fun e => status_update e = None) m.
Proof. apply emits_mono. Qed.

Lemma no_update_updates t : Forall (fun e => status_update e = None) t -> updates t = [].
Proof. by apply updates_none. Qed.

Lemma emits_velero_no_update client u r f p k b c n :
  emits (fun e => status_update e = None) (CreateAndPushVeleroRestore client u r f p k b c n).
Proof.
  unfold CreateAndPushVeleroRestore, waitForVeleroRestoreCompletion, now_timestamp. emits_auto.
  - eapply emits_no_update; [|apply emits_sync]. by intros [[] ?].
  - eapply emits_no_update; [|apply emits_wait]. by intros [[] ?].
  - eapply emits_no_update; [|apply emits_argo]. by intros [[] ?].
Qed.

(** The Velero restore of the package was seen completed. *)
Definition restored (p : ClusterPolicy) (pkg : PackageSelector) (e : event) : Prop :=
  match e with
  | Ev (KGetRestore _ nn) (Ok phase) =>
      nn = NN "velero" ("velero-" +:+ cs_Name (cps_ClusterSelector (cp_Spec p)) +:+ "-" +:+
                          ps_Name pkg) /\ phase = RestorePhaseCompleted
  | _ => False
  end.

Lemma velero_precedes h u f p pkg b c n :
  spec (CreateAndPushVeleroRestore h u "dr" f p pkg b c n)
    (fun _ t => precedes (restored p pkg) (app_for p pkg) t).
Proof.
  intros s. destruct (spec_velero h u "dr" f p pkg b c n s) as [Hp _].
  intros i e Hi He. destruct (Hp i e Hi (app_for_commit _ _ _ He)) as (j & e' & Hj & He' & Hr).
  exists j, e'. split; [done|]. split; [done|].
  destruct e' as [[] res]; simpl in Hr |- *; try tauto. destruct res; tauto.
Qed.

Lemma spec_velero_for client u folder name p pkg b c n :
  DetermineTargetRepo p = (folder, name, true) ->
  spec (CreateAndPushVeleroRestore client u "dr" folder p pkg b c n) (fun o t => updates t = [] /\
    match o with
    | Ret (Ok _) => Exists (app_for p pkg) t
    | Ret (Err _) => Forall (fun e => ~ app_commit p pkg e) t
    | Crash => False
    end).
Proof.
  intros Hd s. split; [apply no_update_updates, emits_velero_no_update|].
  destruct (spec_velero client u "dr" folder p pkg b c n s) as [_ Ho].
  destruct (r_out _) as [[?|?]|]; [|done..]. destruct Ho as (_ & _ & Ho).
  eapply Exists_impl; [exact Ho|]. intros e. by eapply app_pushed_for.
Qed.

End Conclude.

#[export] Hint Extern 2 (backed [Ev _ _]) => (apply backed_one; reflexivity) : go.
#[global] Arguments append_and_update : simpl never.
#[global] Arguments conclude : simpl never.
