(* ===== verification/Pool.v ===== *)
(** * Bounded goroutine pools

    The pattern of HandlePodsOnNodeForPolicy and TriggerTransitionOnMissedNodeHealth:
    a dispatching loop acquires a slot of a semaphore channel before each [go]
    statement, the goroutines share the caller's state, and [wg.Wait] ends the
    loop. Which goroutine finishes when is the scheduler's choice; a goroutine's
    body runs as one step, so that only whole bodies are interleaved. *)
From S2P Require Import Prelude Types Runtime Records.

(** A list in the order of the scheduler's choices. *)
Fixpoint reorder {A} (n : nat) (choices : list nat) (l : list A) : list A :=
  match n with
  | O => []
  | S n' =>
      let i := (hd 0 choices mod length l)%nat in
      match l !! i with
      | Some x => x :: reorder n' (tl choices) (delete i l)
      | None => []
      end
  end.

Lemma reorder_perm {A} choices (l : list A) : reorder (length l) choices l ≡ₚ l.
Proof.
  remember (length l) as n eqn:Hn. revert choices l Hn.
  induction n as [|n IH]; intros choices l Hn; simpl.
  - symmetry in Hn. by apply nil_length_inv in Hn as ->.
  - destruct (l !! (hd 0 choices mod length l)%nat) as [x|] eqn:E.
    + rewrite IH; [symmetry; by apply delete_Permutation|].
      rewrite length_delete by by eexists. lia.
    + exfalso. apply lookup_ge_None in E.
      pose proof (Nat.mod_upper_bound (hd 0 choices) (length l)). lia.
Qed.

Section Pool.
Context {X : Externals} {J S : Type}.
Context (job : J -> S -> M S) (cap : nat).

Record pool := MkPool { pool_running : list J; pool_shared : S }.

(** A running goroutine ends. *)
Definition finish (i : nat) (p : pool) : M pool :=
  match pool_running p !! i with
  | None => ret p
  | Some j =>
      s <- job j (pool_shared p) ;;
      ret (MkPool (delete i (pool_running p)) s)
  end.

Fixpoint finish_some (choices : list nat) (p : pool) : M pool :=
  match choices with
  | [] => ret p
  | c :: choices' =>
      p' <- finish c p ;;
      finish_some choices' p'
  end.

(** The goroutines that end while the dispatcher does something else. *)
Definition progress_some (p : pool) : M pool :=
  choices <- do Schedule ;;
  finish_some choices p.

Definition any_running (p : pool) (choices : list nat) : nat :=
  (hd 0 choices mod length (pool_running p))%nat.

(** [sem <- struct{}{}]: waits for one goroutine to end when the pool is full. *)
Definition acquire (p : pool) : M pool :=
  if (length (pool_running p) <? cap)%nat then ret p
  else
    choices <- do Schedule ;;
    finish (any_running p choices) p.

Definition spawn (j : J) (p : pool) : M pool :=
  p <- acquire p ;;
  ret (MkPool (pool_running p ++ [j]) (pool_shared p)).

Fixpoint wait_n (n : nat) (p : pool) : M pool :=
  match n with
  | O => ret p
  | Datatypes.S n' =>
      choices <- do Schedule ;;
      p <- finish (any_running p choices) p ;;
      wait_n n' p
  end.

(** [wg.Wait()]. *)
Definition wait (p : pool) : M pool := wait_n (length (pool_running p)) p.

Context (P : trace -> Prop) {HP : Closed P}.
Context (Hsched : forall r, P [Ev Schedule r]).
Context (Hjob : forall j s, traces P (job j s)).

Lemma traces_finish i p : traces P (finish i p).
Proof.
  unfold finish. destruct (_ !! _); [|by apply traces_ret].
  apply traces_bind; [done|apply Hjob|intros; by apply traces_ret].
Qed.

Lemma traces_finish_some choices p : traces P (finish_some choices p).
Proof.
  revert p. induction choices as [|c l IH]; intros p; simpl; [by apply traces_ret|].
  apply traces_bind; [done|apply traces_finish|done].
Qed.

Lemma traces_progress_some p : traces P (progress_some p).
Proof. apply traces_bind; [done|by apply traces_do|intros; apply traces_finish_some]. Qed.

Lemma traces_spawn j p : traces P (spawn j p).
Proof.
  apply traces_bind; [done| |intros; by apply traces_ret]. unfold acquire.
  destruct (_ <? _)%nat; [by apply traces_ret|].
  apply traces_bind; [done|by apply traces_do|intros; apply traces_finish].
Qed.

Lemma traces_wait p : traces P (wait p).
Proof.
  unfold wait. generalize (length (pool_running p)). intros n. revert p.
  induction n as [|n IH]; intros p; simpl; [by apply traces_ret|].
  apply traces_bind; [done|by apply traces_do|]. intros choices.
  apply traces_bind; [done|apply traces_finish|done].
Qed.

End Pool.

Arguments MkPool {J S} pool_running pool_shared.
Arguments pool_running {J S} p.
Arguments pool_shared {J S} p.
