(* ===== verification/NodeHealthTransition.v ===== *)
(** * Transitions triggered by missed heartbeats and failed control planes

    reconcilers/checkpoint_transition/nodehealth_transition.go. *)
From S2P Require Import Prelude Types Runtime Common Policy ArgoPush Capi GiteaClient Manifests.
From S2P Require Import Scanner CheckpointCR Records Pool.

Section NodeHealthTransition.
Context {X : Externals}.

Definition find_dr (repos : list Repository) : option Repository :=
  List.find (fun r => repo_Name r =? "dr")%string repos.

(** What a transition needs from Gitea and from the policy. *)
Record setup := MkSetup {
  su_client : GiteaHandle;
  su_user : string;
  su_drRepo : string;
  su_sourceRepo : string;
  su_targetRepoName : string;
  su_targetClusterName : string }.

(** The common beginning of the transition functions; [None] is an early return. *)
Definition transition_setup (mgmtClient : Client) (clusterPolicy : ClusterPolicy)
    : M (option setup) :=
  giteaClient <- GetClient false (Some mgmtClient) ;;
  match giteaClient with
  | Err _ => ret None
  | Ok giteaClient =>
      match gc_giteaClient giteaClient with
      | None => ret None
      | Some h =>
          user <- do (GGetMyUserInfo h) ;;
          match user with
          | Err _ => ret None
          | Ok user =>
              let sourceRepo := cs_Repo (cps_ClusterSelector (cp_Spec clusterPolicy)) in
              if (sourceRepo =? "")%string then ret None
              else
                repos <- do (GListMyRepos h) ;;
                match repos with
                | Err _ => ret None
                | Ok repos =>
                    match find_dr repos with
                    | None => ret None
                    | Some drRepo =>
                        let '(targetRepoName, targetClusterName, found) :=
                          DetermineTargetRepo clusterPolicy in
                        if negb found then ret None
                        else ret (Some (MkSetup h user (repo_Name drRepo) sourceRepo
                                          targetRepoName targetClusterName))
                    end
                end
          end
      end
  end.

(** The loop over the backups: every scheduled one reads the same checkpoint. *)
Definition checkpoint_step (mgmtClient : Client) (clusterPolicy : ClusterPolicy)
    (podName pkgName : string) (backup : BackupInformation) (associated : Checkpoint)
    : M (flow Checkpoint unit) :=
  if (bi_BackupType backup =? BackupTypeSchedule)%string then
    let checkpointName :=
      "checkpoint-" +:+ cp_Name clusterPolicy +:+ "-" +:+ podName +:+ "-" +:+ pkgName in
    checkpoint <- do (KGetCheckpoint mgmtClient (NN "default" checkpointName)) ;;
    match checkpoint with
    | Err _ => ret (Return tt)
    | Ok checkpoint =>
        if (ckst_LastCheckpointImage (ck_Status checkpoint) =? "")%string then ret (Return tt)
        else ret (Next checkpoint)
    end
  else ret (Next associated).

(** The goroutines that update the manifests, and their errors in order of arrival. *)
Fixpoint update_manifests (wrap : string -> error -> error) (files : list string)
    (status : CheckpointStatus) : M (list error) :=
  match files with
  | [] => ret []
  | file :: files' =>
      r <- UpdateResourceContainers file (ckst_LastCheckpointImage status)
             (ckst_OriginalImage status) ;;
      errs <- update_manifests wrap files' status ;;
      ret (match r with
           | Err e => wrap file e :: errs
           | Ok _ => errs
           end)
  end.

Definition UpdateClusterPolicyStatus (mgmtClient : Client) (clusterPolicy : ClusterPolicy)
    (transitionPackage : PackageSelector) (updateErr : option error) (condition : string)
    : M ClusterPolicy :=
  let message := match updateErr with Some e => err_msg e | None => "" end in
  append_and_update false mgmtClient clusterPolicy transitionPackage message condition.

(** From the checkpoint to the pushed commit; [None] is an early return. *)
Definition push_checkpoint_image (mgmtClient : Client) (su : setup) (checkpoint : Checkpoint)
    : M (option unit) :=
  found <- CheckRepoForMatchingManifests false (su_sourceRepo su) "main"
             (cks_ResourceRef (ck_Spec checkpoint)) ;;
  match found with
  | Err _ => ret None
  | Ok (_, []) => ret None
  | Ok (tmpDir, matches) =>
      order <- do Schedule ;;
      errs <- update_manifests
                (fun file => Wrapf ("failed to update manifest " +:+ file +:+ ": ")) (reorder (length matches) order matches)
                (ck_Status checkpoint) ;;
      match errs with
      | _ :: _ => ret None
      | [] =>
          cred <- GetGiteaSecretUserNamePassword mgmtClient ;;
          match cred with
          | Err _ => ret None
          | Ok (username, password, _) =>
              let commitMsg :=
                "Update container image " +:+ ckst_LastCheckpointImage (ck_Status checkpoint) +:+
                "/" +:+ ckst_OriginalImage (ck_Status checkpoint) in
              err <- CommitAndPush tmpDir "main" (su_sourceRepo su) username password commitMsg ;;
              match err with
              | Err _ => ret None
              | Ok _ => ret (Some tt)
              end
          end
      end
  end.

(** The policy in memory when the function returns. *)
Definition TransitionOnMissedNodeHealth (mgmtClient : Client) (podName : string)
    (transitionPackage : PackageSelector) (clusterPolicy : ClusterPolicy)
    (workloadClusterName : string) : M ClusterPolicy :=
  su <- transition_setup mgmtClient clusterPolicy ;;
  match su with
  | None => ret clusterPolicy
  | Some su =>
      cl <- GetWorkloadClusterClient mgmtClient (su_targetClusterName su) ;;
      match cl with
      | Err _ => ret clusterPolicy
      | Ok (_, target) =>
          let targetClusterClient := fst <$> target in
          let record e :=
            UpdateClusterPolicyStatus mgmtClient clusterPolicy transitionPackage (Some e) in
          let appName := su_targetClusterName su +:+ "-dr" in
          if (ps_PackageType transitionPackage =? PackageTypeStateful)%string then
            ck <- forEach (ps_BackupInformation transitionPackage) zero_Checkpoint
                    (checkpoint_step mgmtClient clusterPolicy podName (ps_Name transitionPackage)) ;;
            match ck with
            | Return _ => ret clusterPolicy
            | Next associatedCheckpoint =>
                if (ck_Name associatedCheckpoint =? "")%string then ret clusterPolicy
                else
                  pushed <- push_checkpoint_image mgmtClient su associatedCheckpoint ;;
                  match pushed with
                  | None => ret clusterPolicy
                  | Some _ =>
                      conclude record
                        (CreateAndPushLiveStateBackupRestore (su_client su) (su_user su)
                           (su_drRepo su) (su_targetRepoName su) clusterPolicy transitionPackage
                           associatedCheckpoint)
                        targetClusterClient appName
                        "Transitioned stateful package successfully" "; ArgoCD sync failed"
                  end
            end
          else if (ps_PackageType transitionPackage =? PackageTypeStateless)%string then
            conclude record
              (CreateAndPushArgoApp (su_client su) (su_user su) (su_drRepo su)
                 (su_targetRepoName su) clusterPolicy transitionPackage [])
              targetClusterClient appName
              "Transitioned stateless package successfully" "; ArgoCD sync failed"
          else ret clusterPolicy
      end
  end.

(** ** The dispatcher *)

(** A checkpoint whose transition goroutine was started. *)
Definition nh_job (mgmtClient : Client) (pkg : PackageSelector) (cp : Checkpoint)
    (clusterPolicy : ClusterPolicy) : M ClusterPolicy :=
  match cks_ClusterRef (ck_Spec cp) with
  | None => crash
  | Some ref => TransitionOnMissedNodeHealth mgmtClient (pr_Name (cks_PodRef (ck_Spec cp))) pkg
                  clusterPolicy (clr_Name ref)
  end.

Definition nh_cap : nat := 2.

Fixpoint nh_dispatch (mgmtClient : Client) (pkg : PackageSelector) (checkpoints : list Checkpoint)
    (processed : gset string) (p : pool (J := Checkpoint) (S := ClusterPolicy))
    : M (pool (J := Checkpoint) (S := ClusterPolicy)) :=
  match checkpoints with
  | [] => ret p
  | checkpoint :: checkpoints' =>
      if negb (annotated (rr_Annotations (cks_ResourceRef (ck_Spec checkpoint))) pkg)
      then nh_dispatch mgmtClient pkg checkpoints' processed p
      else
        p <- progress_some (nh_job mgmtClient pkg) p ;;
        if IsPackageTransitioned (pool_shared p) pkg
        then nh_dispatch mgmtClient pkg checkpoints' processed p
        else
          let key := pr_Name (cks_PodRef (ck_Spec checkpoint)) +:+ "/" +:+ ps_Name pkg in
          if decide (key ∈ processed) then nh_dispatch mgmtClient pkg checkpoints' processed p
          else
            p <- spawn (nh_job mgmtClient pkg) nh_cap checkpoint p ;;
            nh_dispatch mgmtClient pkg checkpoints' ({[key]} ∪ processed) p
  end.

(** The fallback that creates checkpoints: it does not look at the cluster-policy
    annotation, and its key leaves the kind of the workload out. *)
Definition nh_checkpoint_pod (mgmtClient workloadClusterClient : Client) (pkg : PackageSelector)
    (clusterPolicy : ClusterPolicy) (pod : Pod) (processedPods : gset string)
    : M (flow (gset string) (result unit)) :=
  match GetWorkloadOwnerControllerInfo pod with
  | None => ret (Next processedPods)
  | Some (workloadKind, workloadName) =>
      parent <- GetParentAnnotations workloadClusterClient workloadKind workloadName
                  (pod_Namespace pod) ;;
      match parent with
      | Err _ => ret (Next processedPods)
      | Ok (None, _) => ret (Next processedPods)
      | Ok (Some parentAnnotations, parentKind) =>
          if negb (mget (om_Annotations parentAnnotations) package_annotation =? ps_Name pkg)%string
          then ret (Next processedPods)
          else if IsPackageTransitioned clusterPolicy pkg then ret (Next processedPods)
          else
            let key := pod_Namespace pod +:+ "/" +:+ workloadName +:+ "/" +:+ ps_Name pkg in
            if decide (key ∈ processedPods) then ret (Next processedPods)
            else
              let parentObject := MkPartial "" parentKind
                (MkObjectMeta (om_Name parentAnnotations) (om_Namespace parentAnnotations) ∅
                   (om_Annotations parentAnnotations) [] [] ZeroTime None) in
              err <- CreateCheckpointCR mgmtClient pod pkg clusterPolicy (Some parentObject) ;;
              match err with
              | Err e => ret (Return (Err e))
              | Ok _ => ret (Next ({[key]} ∪ processedPods))
              end
      end
  end.

(** The error of the function, and the policy in memory. *)
Definition TriggerTransitionOnMissedNodeHealth (mgmtClient : Client) (pkg : PackageSelector)
    (clusterPolicy : ClusterPolicy) (workloadClusterName : string)
    : M (result unit * ClusterPolicy) :=
  checkpoints <- do (KListCheckpoints mgmtClient) ;;
  match checkpoints with
  | Err e => ret (Err e, clusterPolicy)
  | Ok checkpoints =>
      p <- nh_dispatch mgmtClient pkg checkpoints ∅ (MkPool [] clusterPolicy) ;;
      p <- wait (nh_job mgmtClient pkg) p ;;
      let clusterPolicy := pool_shared p in
      if existsb (package_checkpoint pkg) checkpoints then ret (Ok tt, clusterPolicy)
      else
        cl <- GetWorkloadClusterClient mgmtClient workloadClusterName ;;
        match cl with
        | Err e => ret (Err e, clusterPolicy)
        | Ok (_, None) =>
            ret (Err (Errorf ("workload cluster " +:+ quoted workloadClusterName +:+
                                " client not available yet")), clusterPolicy)
        | Ok (_, Some (workloadClusterClient, _)) =>
            podList <- do (KListPods workloadClusterClient AllPods) ;;
            match podList with
            | Err e => ret (Err e, clusterPolicy)
            | Ok podList =>
                r <- forEach podList ∅
                       (nh_checkpoint_pod mgmtClient workloadClusterClient pkg clusterPolicy) ;;
                match r with
                | Next _ => ret (Ok tt, clusterPolicy)
                | Return r => ret (r, clusterPolicy)
                end
            end
        end
  end.

End NodeHealthTransition.

(** ** Events *)

(** Neither a status update nor a commit to a Gitea repository. *)
Definition inert (e : event) : Prop :=
  match e with
  | Ev (KUpdateClusterPolicyStatus _ _) _ | Ev (GCreateFile _ _ _ _ _) _
  | Ev (WithCancelled (KUpdateClusterPolicyStatus _ _)) _ => False
  | _ => True
  end.

(** The source repository was pushed. *)
Definition push_ok (e : event) : Prop :=
  match e with Ev (GitPush _ _ _ _ _) (Ok _) => True | _ => False end.

(** A manifest could not be decoded, encoded or written. *)
Definition write_failed (e : event) : Prop :=
  match e with
  | Ev (YUnmarshalDoc _) (Err _) | Ev (YMarshalDoc _) (Err _) | Ev (WriteFile _ _) (Err _) => True
  | _ => False
  end.

(** Nothing that matters to the order of a transition. *)
Definition calm (e : event) : Prop := inert e /\ ~ push_ok e /\ ~ write_failed e.

Lemma inert_no_update t : Forall inert t -> updates t = [].
Proof. apply updates_none. intros [[] ?]; simpl; try tauto. by destruct c. Qed.

Lemma inert_no_app p pkg t : Forall inert t -> Forall (fun e => ~ app_for p pkg e) t.
Proof. intros H. eapply Forall_impl; [exact H|]. intros [[] ?]; simpl; tauto. Qed.

Lemma Forall_class {Q R : event -> Prop} t : (forall e, Q e -> R e) -> Forall Q t -> Forall R t.
Proof. intros H Ht. by eapply Forall_impl. Qed.

(** Discharges [Forall calm] on known sub-traces and literal events. *)
Ltac calm_events :=
  repeat first
    [ assumption
    | apply Forall_nil_2
    | apply Forall_app_2
    | apply Forall_cons_2; [unfold calm; simpl; tauto|] ].

(** ** Runs *)

Section NodeHealthRuns.
Context {X : Externals}.

Lemma find_dr_name l r : find_dr l = Some r -> repo_Name r = "dr".
Proof. intros H%List.find_some. destruct H as [_ H]. by bool_to_prop. Qed.

Lemma calm_of (Q : event -> Prop) t : (forall e, Q e -> calm e) -> Forall Q t -> Forall calm t.
Proof. apply Forall_class. Qed.

Lemma calm_gitea t : Forall is_gitea_setup t -> Forall calm t.
Proof. apply calm_of. intros [[] ?]; unfold calm; simpl; tauto. Qed.
Lemma calm_capi t : Forall is_capi_event t -> Forall calm t.
Proof. apply calm_of. intros [[] ?]; unfold calm; simpl; tauto. Qed.
Lemma inert_file t : Forall is_file_event t -> Forall (fun e => inert e /\ ~ push_ok e) t.
Proof. apply Forall_class. intros [[] ?]; simpl; tauto. Qed.
Lemma calm_inert t : Forall calm t -> Forall inert t.
Proof. apply Forall_class. by intros e [? _]. Qed.

Lemma spec_transition_setup mgmt p :
  spec (transition_setup mgmt p) (fun o t =>
    Forall calm t /\
    match o with
    | Ret (Some su) => su_drRepo su = "dr" /\
        DetermineTargetRepo p = (su_targetRepoName su, su_targetClusterName su, true)
    | Ret None => True
    | Crash => False
    end).
Proof.
  apply spec_of_wp. intros s. unfold transition_setup. wp_step.
  eapply wp_spec; [apply spec_GetClient|]. cbn beta. cbn [app].
  intros o s' t [Ht%calm_gitea [g ->]].
  repeat wp_step; (split; [by calm_events|]); try done.
  simpl. split; [by eapply find_dr_name|]. by bool_to_prop; subst.
Qed.

Lemma spec_manifest_update f a b :
  spec (UpdateResourceContainers f a b) (fun o t =>
    Forall (fun e => inert e /\ ~ push_ok e) t /\
    match o with
    | Ret (Ok _) => Forall calm t
    | Ret (Err _) => True
    | Crash => False
    end).
Proof.
  intros s. destruct (spec_UpdateResourceContainers f a b s) as [Ht _].
  split; [by apply inert_file|]. clear Ht. revert s.
  apply (spec_of_wp (UpdateResourceContainers f a b) (fun o t => match o with
    | Ret (Ok _) => Forall calm t | Ret (Err _) => True | Crash => False end)).
  intros s. unfold UpdateResourceContainers. repeat wp_step; try done; cbn [app]; calm_events.
Qed.

Lemma spec_update_manifests wrap files status :
  spec (update_manifests wrap files status) (fun o t =>
    Forall (fun e => inert e /\ ~ push_ok e) t /\
    exists errs, o = Ret errs /\ (errs = [] -> Forall calm t)).
Proof.
  induction files as [|f files IH]; apply spec_of_wp; intros s; simpl.
  - wp_step. split; [done|]. by exists [].
  - wp_step. eapply wp_spec; [apply spec_manifest_update|]. cbn beta. cbn [app].
    intros o s' t [Ht Ho]. destruct o as [r|]; [|done]. wp_step.
    eapply wp_spec; [apply IH|]. cbn beta. intros o s'' t' [Ht' (errs & -> & Herrs)].
    wp_step. split; [by apply Forall_app|]. eexists. split; [reflexivity|].
    destruct r; [|done]. intros He. apply Forall_app; auto.
Qed.

Lemma spec_read_all paths :
  spec (read_all paths) (fun o t => Forall calm t /\ exists m, o = Ret m).
Proof.
  induction paths as [|f l IH]; apply spec_of_wp; intros s; simpl; unfold read_heads.
  - wp_step. split; [done|by eexists].
  - repeat wp_step; (eapply wp_spec; [apply IH|]); cbn beta; intros o s'' t' [Ht [m ->]];
      wp_step; (split; [cbn [app]; by calm_events|by eexists]).
Qed.

(** A clone that succeeded although its context was cancelled. *)
Definition clone_despite_cancel (e : event) : Prop :=
  match e with Ev (WithCancelled (GitClone _ _ _ _)) (Ok _) => True | _ => False end.

Lemma spec_scan cancelled url branch ref :
  spec (CheckRepoForMatchingManifests cancelled url branch ref) (fun o t =>
    Forall calm t /\ exists r, o = Ret r /\
    (cancelled = true -> is_ok r = true -> Exists clone_despite_cancel t)).
Proof.
  apply spec_of_wp. intros s. unfold CheckRepoForMatchingManifests, ctx_do.
  wp_step. wp_step. wp_step;
    [|repeat wp_step; (split; [cbn [app]; by calm_events|by eexists])].
  wp_step. destruct cancelled.
  all: wp_step; wp_step;
    [|repeat wp_step; (split; [cbn [app]; by calm_events|by eexists])].
  all: do 4 wp_step; wp_step; (eapply wp_spec; [apply spec_read_all|]); cbn beta;
    intros o s' t [Ht [m ->]]; do 2 wp_step.
  all: match goal with |- context [run_scan ?c ?r ?content (measure ?content ?st) ?ch ?st] =>
    destruct (run_scan_total c r content (measure content st) ch st (le_n _)) as [res ->] end.
  all: destruct res; wp_step; (split; [cbn [app]; by calm_events|]);
    (eexists; split; [reflexivity|]); intros; try done; exists_event.
Qed.

Lemma spec_commit dir branch url u pw msg :
  spec (CommitAndPush dir branch url u pw msg) (fun o t =>
    Forall (fun e => inert e /\ ~ write_failed e) t /\
    match o with
    | Ret (Ok _) => Exists push_ok t
    | Ret (Err _) => Forall (fun e => ~ push_ok e) t
    | Crash => False
    end).
Proof.
  apply spec_of_wp. intros s. unfold CommitAndPush. repeat wp_step; simpl;
    (split; [by repeat constructor; simpl; auto|]); try by repeat constructor; simpl; auto.
Qed.

Lemma spec_credentials mgmt :
  spec (GetGiteaSecretUserNamePassword mgmt) (fun o t =>
    Forall calm t /\ exists r, o = Ret r).
Proof.
  intros s. split; [apply calm_gitea, emits_credentials|]. revert s.
  apply (spec_of_wp (GetGiteaSecretUserNamePassword mgmt) (fun o _ => exists r, o = Ret r)).
  intros s. unfold GetGiteaSecretUserNamePassword, git_secret_key, GetEnv.
  repeat wp_step; by eexists.
Qed.

Lemma calm_split t : Forall calm t ->
  Forall inert t /\ Forall (fun e => ~ push_ok e) t /\ Forall (fun e => ~ write_failed e) t.
Proof. intros Ht. repeat split; (eapply Forall_class; [|exact Ht]); by intros e (? & ? & ?). Qed.

Lemma spec_push_checkpoint_image mgmt su ck :
  spec (push_checkpoint_image mgmt su ck) (fun o t =>
    Forall inert t /\
    match o with
    | Ret (Some _) => Exists push_ok t /\ Forall (fun e => ~ write_failed e) t
    | Ret None => Forall (fun e => ~ push_ok e) t
    | Crash => False
    end).
Proof.
  apply spec_of_wp. intros s. unfold push_checkpoint_image. wp_step.
  eapply wp_spec; [apply spec_scan|]. cbn beta. cbn [app].
  intros o s' t [Ht [r [-> _]]]. repeat wp_step; try (by apply calm_split in Ht as (? & ? & ?)).
  eapply wp_spec; [apply spec_update_manifests|]. cbn beta.
  intros o2 s2 t2 [Ht2 (errs & -> & Herrs)]. destruct errs as [|e errs].
  2:{ wp_step. assert (Forall calm (t ++ [Ev Schedule r0])) as (? & ? & ?)%calm_split
        by calm_events.
      split; (apply Forall_app; split; [done|]); (eapply Forall_class; [|exact Ht2]);
        by intros ? [? ?]. }
  specialize (Herrs eq_refl). clear Ht2.
  assert (Forall calm ((t ++ [Ev Schedule r0]) ++ t2)) as Hcalm by calm_events.
  wp_step. eapply wp_spec; [apply spec_credentials|]. cbn beta.
  intros o3 s3 t3 [Ht3 [cred ->]].
  assert (Forall calm (((t ++ [Ev Schedule r0]) ++ t2) ++ t3)) as Hall by calm_events.
  apply calm_split in Hall as (Hi & Hp & Hw).
  repeat wp_step; try done.
  eapply wp_spec; [apply spec_commit|]. cbn beta. intros o4 sx t4 [Ht4 Ho4].
  destruct o4 as [[[]|e]|]; [| |done]; wp_step;
    (split; [apply Forall_app; split; [done|]; (eapply Forall_class; [|exact Ht4]); by intros ? [? _]|]).
  - split; [exists_event|]. apply Forall_app; split; [done|].
    eapply Forall_class; [|exact Ht4]. by intros ? [_ ?].
  - apply Forall_app; split; done.
Qed.

(** The loop over the backups is quiet and never panics. *)
Lemma spec_checkpoint_loop mgmt p pod pkg bs ck :
  spec (forEach bs ck (checkpoint_step mgmt p pod pkg)) (fun o t =>
    Forall calm t /\ exists r, o = Ret r).
Proof.
  revert ck. induction bs as [|b bs IH]; intros ck; apply spec_of_wp; intros s; simpl.
  - wp_step. split; [done|by eexists].
  - unfold checkpoint_step at 1. wp_step.
    repeat wp_step; try (split; [by calm_events|by eexists]);
      (eapply wp_spec; [apply IH|]); cbn beta; intros o s' t [Ht [r' ->]];
      (split; [cbn [app]; by calm_events|by eexists]).
Qed.

(** The push of a transition. *)
Definition pushes (p : ClusterPolicy) (pkg : PackageSelector) (push : M (result string)) : Prop :=
  spec push (fun o t => updates t = [] /\
    match o with
    | Ret (Ok _) => Exists (app_for p pkg) t
    | Ret (Err _) => Forall (fun e => ~ app_commit p pkg e) t
    | Crash => False
    end).

Lemma pushes_live h u folder name p pkg ck :
  DetermineTargetRepo p = (folder, name, true) ->
  pushes p pkg (CreateAndPushLiveStateBackupRestore h u "dr" folder p pkg ck).
Proof.
  intros Hd. apply spec_of_wp. intros s. unfold CreateAndPushLiveStateBackupRestore. wp_step.
  eapply wp_spec; [by eapply spec_argo_for|]. cbn beta. intros o s' t [Hu Ho].
  destruct o as [[?|?]|]; [| |done]; wp_step; done.
Qed.

Lemma pushes_argo h u folder name p pkg i :
  DetermineTargetRepo p = (folder, name, true) ->
  pushes p pkg (CreateAndPushArgoApp h u "dr" folder p pkg i).
Proof. intros Hd. by eapply spec_argo_for. Qed.

(** The two ways a transition function ends: an early return that leaves no trace
    (or the panic of a failed registration of API types, which leaves none either),
    or a conclusion, which for a package type in [guarded] comes after a push of
    the source repository and without a failed manifest update. *)
Definition transition_result (guarded no_client : Prop) (p : ClusterPolicy) (pkg : PackageSelector)
    (o : outcome ClusterPolicy) (t : trace) : Prop :=
  (Forall inert t /\ (o = Ret p \/ o = Crash /\ Exists scheme_failed t) /\
     (Exists write_failed t -> Forall (fun e => ~ push_ok e) t)) \/
  (exists t1 t2, t = t1 ++ t2 /\ Forall inert t1 /\
     Forall (fun e => ~ write_failed e) t /\ (guarded -> Exists push_ok t1) /\
     concluded p pkg no_client o t2).

Lemma early_return guarded nc p pkg t :
  Forall inert t -> Forall (fun e => ~ push_ok e) t -> transition_result guarded nc p pkg (Ret p) t.
Proof. intros Hi Hp. left. auto. Qed.

Lemma early_calm guarded nc p pkg t : Forall calm t -> transition_result guarded nc p pkg (Ret p) t.
Proof. intros (? & ? & ?)%calm_split. by apply early_return. Qed.

Lemma early_crash guarded nc p pkg t :
  Forall calm t -> Exists scheme_failed t -> transition_result guarded nc p pkg Crash t.
Proof. intros (? & ? & ?)%calm_split He. left. auto. Qed.

Definition conclude_event (e : event) : Prop :=
  is_push_event e \/ is_app_event e \/
  match e with
  | Ev Now _ | Ev (KUpdateClusterPolicyStatus _ _) _
  | Ev (WithCancelled (KUpdateClusterPolicyStatus _ _)) _ => True
  | _ => False
  end.

Lemma emits_conclude cancelled mgmt p pkg push target appName m1 m2 :
  emits is_push_event push ->
  emits conclude_event (conclude (fun e => append_and_update cancelled mgmt p pkg (err_msg e)) push
                          target appName m1 m2).
Proof.
  intros Hp. unfold conclude, append_and_update, ctx_do.
  assert (emits conclude_event push) by (eapply emits_mono; [|exact Hp]; unfold conclude_event; auto).
  assert (forall c n ns, emits conclude_event (TriggerArgoCDSyncWithKubeClient c n ns)).
  { intros c n ns. eapply emits_mono; [|apply emits_sync]. unfold conclude_event; auto. }
  emits_auto; unfold conclude_event; simpl; auto.
Qed.

Lemma emits_live h u r f p k ck :
  emits is_push_event (CreateAndPushLiveStateBackupRestore h u r f p k ck).
Proof. unfold CreateAndPushLiveStateBackupRestore. emits_auto. Qed.

Lemma conclude_no_failed_write t :
  Forall conclude_event t -> Forall (fun e => ~ write_failed e) t.
Proof. apply Forall_class. intros [[] ?]; unfold conclude_event; simpl; tauto. Qed.

Lemma result_conclude (guarded nc : Prop) cancelled mgmt p pkg push target appName m1 m2 s tr :
  (target = None -> nc) -> pushes p pkg push -> emits is_push_event push ->
  Forall inert tr -> Forall (fun e => ~ write_failed e) tr -> (guarded -> Exists push_ok tr) ->
  wp (conclude (fun e => append_and_update cancelled mgmt p pkg (err_msg e)) push target
        appName m1 m2)
    (fun o _ t => transition_result guarded nc p pkg o t) s tr.
Proof.
  intros Hnc Hp He Hi Hw Hg. unfold wp. right. eexists tr, _. split; [reflexivity|].
  split; [done|]. split; [|split; [done|]].
  - apply Forall_app; split; [done|]. apply conclude_no_failed_write, (emits_conclude _ _ _ _ _ _ _ _ _ He).
  - eapply concluded_mono; [exact Hnc|]. apply (spec_conclude cancelled mgmt p pkg push target appName m1 m2 Hp s).
Qed.

Lemma spec_TransitionOnMissedNodeHealth mgmt pod pkg p wc :
  spec (TransitionOnMissedNodeHealth mgmt pod pkg p wc)
    (transition_result (ps_PackageType pkg = PackageTypeStateful) True p pkg).
Proof.
  apply spec_of_wp. intros s. unfold TransitionOnMissedNodeHealth. wp_step.
  eapply wp_spec; [apply spec_transition_setup|]. cbn beta. cbn [app].
  intros o s1 t1 [Ht1 Ho]. destruct o as [[su|]|]; [|wp_step; by apply early_calm|done].
  destruct Ho as [Hdr Hd]. wp_step.
  eapply wp_spec; [apply spec_GetWorkloadClusterClient|]. cbn beta.
  intros o s2 t2 [Ht2%calm_capi Ho]. destruct o as [[[d target]|e]|].
  3:{ apply early_crash; [by calm_events|exists_event]. }
  2:{ wp_step. apply early_calm. by calm_events. }
  clear Ho. assert (Forall calm (t1 ++ t2)) as Hc by calm_events. clear Ht1 Ht2.
  generalize dependent (t1 ++ t2). intros tr Hc. cbn beta iota zeta.
  destruct (ps_PackageType pkg =? PackageTypeStateful)%string eqn:Hty; bool_to_prop.
  - wp_step. eapply wp_spec; [apply spec_checkpoint_loop|]. cbn beta.
    intros o s3 t3 [Ht3 [[ck|[]] ->]].
    2:{ wp_step. apply early_calm. by calm_events. }
    wp_step; [wp_step; apply early_calm; by calm_events|].
    assert (Forall calm (tr ++ t3)) as (Hi & Hp & Hw)%calm_split by calm_events.
    wp_step. eapply wp_spec; [apply spec_push_checkpoint_image|]. cbn beta.
    intros o s4 t4 [Ht4 Ho]. destruct o as [[[]|]|]; [| |done].
    2:{ wp_step. apply early_return; by apply Forall_app. }
    destruct Ho as [Hpush Hnw]. rewrite Hdr. apply result_conclude; [done|..].
    + by eapply pushes_live.
    + apply emits_live.
    + by apply Forall_app.
    + by apply Forall_app.
    + intros _. exists_event.
  - wp_step; [|wp_step; by apply early_calm].
    apply calm_split in Hc as (Hi & Hp & Hw). rewrite Hdr.
    apply result_conclude; try done; [by eapply pushes_argo|apply emits_argo].
Qed.

(** What a transition that returns leaves behind: nothing (no commit of any file to a
    Gitea repository and no status update was even attempted), or exactly one record. *)
Definition one_record (p : ClusterPolicy) (pkg : PackageSelector) (p' : ClusterPolicy) (t : trace)
    : Prop :=
  (Forall inert t /\ p' = p) \/
  exists now cond msg,
    updates t = [append_record p (MkTransitionedPackages [pkg] now cond msg)] /\
    ((cond = PackageTransitionConditionCompleted /\ Exists (app_for p pkg) t) \/
     (cond = PackageTransitionConditionFailed /\ Forall (fun e => ~ app_for p pkg e) t)).

Lemma result_one_record guarded nc p pkg p' t :
  transition_result guarded nc p pkg (Ret p') t -> one_record p pkg p' t.
Proof.
  intros [(Hi & [[= ->]|[[=] _]] & _)|(t1 & t2 & -> & Hi & _ & _ & Hc & _)].
  - by left.
  - right. unfold concluded in Hc. rewrite updates_app, (inert_no_update _ Hi). cbn [app].
    destruct Hc as (now & cond & msg & -> & Hc). exists now, cond, msg.
    split; [done|]. destruct Hc as [[-> Hc]|[-> Hc]]; [left|right]; (split; [done|]).
    + exists_event.
    + apply Forall_app; split; [by apply inert_no_app|].
      eapply Forall_class; [|exact Hc]. eauto using app_for_commit.
Qed.

Lemma result_crash guarded nc p pkg t :
  transition_result guarded nc p pkg Crash t ->
  updates t = [] /\
  (Exists scheme_failed t /\ Forall (fun e => ~ app_for p pkg e) t \/
   nc /\ Exists (app_for p pkg) t).
Proof.
  intros [(Hi & [[=]|[_ He]] & _)|(t1 & t2 & -> & Hi & _ & _ & Hc & _)].
  - split; [by apply inert_no_update|]. left. auto using inert_no_app.
  - destruct Hc as (? & Hu & Hc). rewrite updates_app, (inert_no_update _ Hi), Hu.
    split; [done|]. right. split; [done|]. exists_event.
Qed.

(** Every run of the dispatcher backs its [Completed] records. *)
Lemma backed_result guarded nc p pkg o t : transition_result guarded nc p pkg o t -> backed t.
Proof.
  intros [(Hi & _)|(t1 & t2 & -> & Hi & _ & _ & [_ Hb])].
  - by apply backed_quiet, inert_no_update.
  - apply closed_app; [by apply backed_quiet, inert_no_update|done].
Qed.

Lemma backed_nh_job mgmt pkg cp p : traces backed (nh_job mgmt pkg cp p).
Proof.
  unfold nh_job. traces_auto. intros s. eapply backed_result, spec_TransitionOnMissedNodeHealth.
Qed.

Lemma backed_nh_dispatch mgmt pkg cks processed p :
  traces backed (nh_dispatch mgmt pkg cks processed p).
Proof.
  assert (forall r, backed [Ev Schedule r]) by auto with go.
  revert processed p. induction cks as [|ck cks IH]; intros processed p; simpl; traces_auto.
  - apply traces_progress_some; try done; [apply _|apply backed_nh_job].
  - apply traces_spawn; try done; [apply _|apply backed_nh_job].
Qed.

Lemma backed_capi {A} (m : M A) : emits is_capi_event m -> traces backed m.
Proof. apply traces_emits, backed_class. by intros [[] ?]. Qed.

Lemma emits_CreateCheckpointCR client pod pkg p parent :
  emits is_action_event (CreateCheckpointCR client pod pkg p parent).
Proof. intros s. apply (spec_CreateCheckpointCR_creates client pod pkg p parent s). Qed.

Lemma backed_action {A} (m : M A) : emits is_action_event m -> traces backed m.
Proof. apply traces_emits, backed_class. intros [[] ?]; unfold is_action_event; simpl; tauto. Qed.

Lemma backed_nh_checkpoint_pod mgmt wl pkg p pod processed :
  traces backed (nh_checkpoint_pod mgmt wl pkg p pod processed).
Proof.
  assert (forall c k n ns, traces backed (GetParentAnnotations c k n ns)).
  { intros c k n ns. eapply traces_emits, emits_GetParentAnnotations.
    apply backed_class. by intros [[] ?]. }
  assert (forall par, traces backed (CreateCheckpointCR mgmt pod pkg p par)).
  { intros par. apply backed_action, emits_CreateCheckpointCR. }
  unfold nh_checkpoint_pod. traces_auto.
Qed.

Lemma backed_TriggerTransition mgmt pkg p wc :
  traces backed (TriggerTransitionOnMissedNodeHealth mgmt pkg p wc).
Proof.
  assert (forall r, backed [Ev Schedule r]) by auto with go.
  pose proof (backed_capi _ (emits_GetWorkloadClusterClient mgmt wc)).
  pose proof backed_nh_dispatch. pose proof backed_nh_checkpoint_pod.
  unfold TriggerTransitionOnMissedNodeHealth. traces_auto; auto with go.
  apply traces_wait; try done; [apply _|apply backed_nh_job].
Qed.

End NodeHealthRuns.

#[global] Arguments TransitionOnMissedNodeHealth : simpl never.

(** ** Properties *)

(** C20: A transition on missed heartbeats leaves exactly one of three results: nothing
    (no file committed to Gitea, no status update, the policy unchanged); one new
    record, [Completed] when the manifest was committed to the [dr] repository and
    [Failed] when it was not; or a panic without a record, which comes after the
    manifest was committed, or before it when API types cannot be registered. *)
Theorem TransitionOnMissedNodeHealth_outcome {X : Externals} mgmt pod pkg p wc s :
  let r := TransitionOnMissedNodeHealth mgmt pod pkg p wc s in
  let t := r_trace r in
  match r_out r with
  | Crash =>
      updates t = [] /\
      (Exists scheme_failed t /\ Forall (fun e => ~ app_for p pkg e) t \/
       Exists (app_for p pkg) t)
  | Ret p' => one_record p pkg p' t
  end.
Proof.
  cbn zeta. pose proof (spec_TransitionOnMissedNodeHealth mgmt pod pkg p wc s) as H.
  destruct (r_out _) as [p'|]; [by eapply result_one_record|].
  apply result_crash in H. tauto.
Qed.

(** C18: A stateful transition on missed heartbeats commits the recovery manifest only
    after the source repository, with the checkpoint images, was pushed; and after
    a manifest that could not be decoded, encoded or written, nothing is pushed,
    committed or recorded. *)
Theorem TransitionOnMissedNodeHealth_ordered {X : Externals} mgmt pod pkg p wc s :
  let t := r_trace (TransitionOnMissedNodeHealth mgmt pod pkg p wc s) in
  (ps_PackageType pkg = PackageTypeStateful -> precedes push_ok (app_for p pkg) t) /\
  (Exists write_failed t ->
     Forall (fun e => ~ push_ok e) t /\ Forall (fun e => ~ app_for p pkg e) t /\ updates t = []).
Proof.
  cbn zeta. destruct (spec_TransitionOnMissedNodeHealth mgmt pod pkg p wc s)
    as [(Hi & _ & Hp)|(t1 & t2 & -> & Hi & Hw & Hg & Hc)].
  - split; [intros _; by apply precedes_no, inert_no_app|].
    intros He. split; [auto|]. auto using inert_no_update, inert_no_app.
  - split.
    + intros Hty. apply precedes_app; [by apply precedes_no, inert_no_app|left; auto].
    + intros He. exfalso. apply Exists_exists in He as (e & Hin & He).
      rewrite Forall_forall in Hw. by apply (Hw e).
Qed.
