(* ===== verification/Backups.v ===== *)
(** * Choice of the Velero backup

    The loops of TransitionSelectedWorkloads (internal/controller/
    clusterpolicy_controller.go) that look for the latest successful backup of a
    schedule, or for a backup by its name. *)
From S2P Require Import Prelude Types.

Definition velero_completed : string := "Completed".

(** The loop state: [latestTime] and [backupMatching]. *)
Definition select_latest (backupType : string) (st : Time * BackupInformation)
    (veleroBackup : VeleroBackup) : Time * BackupInformation :=
  let '(latestTime, backupMatching) := st in
  let created := vb_CreationTimestamp veleroBackup in
  if IsZero latestTime || After created latestTime
  then (created, MkBackupInformation (vb_Name veleroBackup) backupType
                   (bi_SchedulePeriod backupMatching))
  else st.

Definition schedule_step (backup : BackupInformation) (st : Time * BackupInformation)
    (veleroBackup : VeleroBackup) : Time * BackupInformation :=
  match vb_Labels veleroBackup !! "velero.io/schedule-name" with
  | None => st
  | Some scheduleName =>
      if negb (scheduleName =? bi_Name backup)%string then st
      else if negb (vb_Phase veleroBackup =? velero_completed)%string then st
      else select_latest (bi_BackupType backup) st veleroBackup
  end.

Definition manual_step (backup : BackupInformation) (st : Time * BackupInformation)
    (veleroBackup : VeleroBackup) : Time * BackupInformation :=
  if negb (vb_Name veleroBackup =? bi_Name backup)%string then st
  else if negb (vb_Phase veleroBackup =? velero_completed)%string then st
  else select_latest (bi_BackupType backup) st veleroBackup.

(** The two cases of the [switch] on the backup type. *)
Definition select_schedule (backup : BackupInformation) (backups : list VeleroBackup)
    (backupMatching : BackupInformation) : BackupInformation :=
  (foldl (schedule_step backup) (ZeroTime, backupMatching) backups).2.
Definition select_manual (backup : BackupInformation) (backups : list VeleroBackup)
    (backupMatching : BackupInformation) : BackupInformation :=
  (foldl (manual_step backup) (ZeroTime, backupMatching) backups).2.

(** The backups each loop accepts. *)
Definition of_schedule (backup : BackupInformation) (v : VeleroBackup) : bool :=
  match vb_Labels v !! "velero.io/schedule-name" with
  | None => false
  | Some n => (n =? bi_Name backup)%string && (vb_Phase v =? velero_completed)%string
  end.
Definition of_name (backup : BackupInformation) (v : VeleroBackup) : bool :=
  (vb_Name v =? bi_Name backup)%string && (vb_Phase v =? velero_completed)%string.

(** ** Lemmas *)

Section Select.
Context (accept : VeleroBackup -> bool) (ty : string) (init : BackupInformation).

Definition step (st : Time * BackupInformation) (v : VeleroBackup) : Time * BackupInformation :=
  if accept v then select_latest ty st v else st.

Definition selected (o : option VeleroBackup) : Time * BackupInformation :=
  match o with
  | None => (ZeroTime, init)
  | Some v => (vb_CreationTimestamp v,
               MkBackupInformation (vb_Name v) ty (bi_SchedulePeriod init))
  end.

Lemma select_fold l :
  Forall (fun v => accept v = true -> 0 < vb_CreationTimestamp v)%Z l ->
  foldl step (ZeroTime, init) l =
  selected (scan_max vb_CreationTimestamp (List.filter accept l)).
Proof.
  induction l as [|v l IH] using rev_ind; [done|]. rewrite Forall_app, Forall_singleton.
  intros [Hl Hv]. rewrite foldl_app, (IH Hl), List.filter_app. simpl. unfold step.
  destruct (accept v) eqn:Ha; [|by rewrite app_nil_r].
  unfold scan_max at 2. rewrite foldl_app. fold (scan_max vb_CreationTimestamp (List.filter accept l)).
  destruct (scan_max _ _) as [b|] eqn:E; simpl; [|done].
  assert (0 < vb_CreationTimestamp b)%Z as Hb.
  { apply scan_max_some, first_max_in, list_elem_of_In, List.filter_In in E as [Hin Hacc].
    rewrite Forall_forall in Hl. apply Hl; [by apply list_elem_of_In|done]. }
  unfold IsZero, After. replace (vb_CreationTimestamp b =? 0)%Z with false
    by (symmetry; apply Z.eqb_neq; lia).
  simpl. by destruct (_ <? _)%Z.
Qed.

End Select.

Lemma foldl_ext {A B} (f g : A -> B -> A) a l :
  (forall x y, f x y = g x y) -> foldl f a l = foldl g a l.
Proof. intros H. revert a. induction l as [|y l IH]; intros a; simpl; [done|]. by rewrite H, IH. Qed.

Lemma schedule_step_eq b st v : schedule_step b st v = step (of_schedule b) (bi_BackupType b) st v.
Proof.
  unfold schedule_step, step, of_schedule. destruct (_ !! _); [|done].
  destruct (_ =? bi_Name b)%string; [|done]. by destruct (vb_Phase v =? _)%string.
Qed.

Lemma manual_step_eq b st v : manual_step b st v = step (of_name b) (bi_BackupType b) st v.
Proof.
  unfold manual_step, step, of_name. destruct (_ =? bi_Name b)%string; [|done].
  by destruct (vb_Phase v =? _)%string.
Qed.

(** ** Properties *)

(** C16: For a scheduled backup the restore uses the latest completed Velero backup of
    that schedule, the first one listed when several are equally recent, and
    leaves the choice as it was when the schedule has no completed backup. *)
Theorem select_schedule_latest backup backups current :
  Forall (fun v => 0 < vb_CreationTimestamp v)%Z backups ->
  (List.filter (of_schedule backup) backups = [] /\
     select_schedule backup backups current = current) \/
  (exists v, first_max vb_CreationTimestamp (List.filter (of_schedule backup) backups) v /\
     select_schedule backup backups current =
       MkBackupInformation (vb_Name v) (bi_BackupType backup) (bi_SchedulePeriod current)).
Proof.
  intros Hpos. unfold select_schedule. rewrite (foldl_ext _ _ _ _ (schedule_step_eq backup)).
  rewrite select_fold by (eapply Forall_impl; [exact Hpos|]; auto).
  destruct (scan_max _ _) as [v|] eqn:E; simpl.
  - right. exists v. split; [by apply scan_max_some|done].
  - left. by apply scan_max_none in E.
Qed.

Definition nightly (n : string) (phase : string) (t : Time) : VeleroBackup :=
  MkVeleroBackup n {[ "velero.io/schedule-name" := "nightly" ]} phase t.

Lemma select_schedule_latest_witness :
  exists v, first_max vb_CreationTimestamp
      (List.filter (of_schedule (MkBackupInformation "nightly" BackupTypeSchedule ""))
         [nightly "n1" "Completed" 5; nightly "n2" "Completed" 9; nightly "n3" "Failed" 12]) v /\
    vb_Name v = "n2".
Proof.
  destruct (select_schedule_latest (MkBackupInformation "nightly" BackupTypeSchedule "")
    [nightly "n1" "Completed" 5; nightly "n2" "Completed" 9; nightly "n3" "Failed" 12]
    zero_BackupInformation) as [[H _]|(v & Hv & Hs)].
  - repeat (apply Forall_cons_2; [reflexivity|]). apply Forall_nil_2.
  - vm_compute in H. discriminate H.
  - exists v. split; [exact Hv|]. vm_compute in Hs. by injection Hs.
Defined.

(** A manual backup is only used when it is completed and has exactly the name
    that the policy gives. *)
Theorem select_manual_sound backup backups :
  Forall (fun v => 0 < vb_CreationTimestamp v)%Z backups ->
  let b := select_manual backup backups zero_BackupInformation in
  (bi_Name b = "" /\ List.filter (of_name backup) backups = []) \/
  (bi_Name b = bi_Name backup /\
     exists v, v ∈ backups /\ vb_Name v = bi_Name backup /\ vb_Phase v = velero_completed).
Proof.
  intros Hpos b. unfold b, select_manual. rewrite (foldl_ext _ _ _ _ (manual_step_eq backup)).
  rewrite select_fold by (eapply Forall_impl; [exact Hpos|]; auto).
  destruct (scan_max _ _) as [v|] eqn:E; simpl.
  - right. apply scan_max_some, first_max_in, list_elem_of_In, List.filter_In in E as [Hin Ha].
    unfold of_name in Ha. bool_to_prop. split; [done|]. exists v.
    split; [by apply list_elem_of_In|done].
  - left. by apply scan_max_none in E.
Qed.

Lemma select_manual_sound_witness :
  bi_Name (select_manual (MkBackupInformation "n1" BackupTypeManual "")
    [nightly "n1" "Completed" 5; nightly "n2" "Completed" 9] zero_BackupInformation) = "n1".
Proof.
  destruct (select_manual_sound (MkBackupInformation "n1" BackupTypeManual "")
    [nightly "n1" "Completed" 5; nightly "n2" "Completed" 9]) as [[_ H]|[H _]].
  - repeat (apply Forall_cons_2; [reflexivity|]). apply Forall_nil_2.
  - vm_compute in H. discriminate H.
  - exact H.
Defined.
