(* ===== verification/Transition.v ===== *)
(** * Transitions of the ClusterPolicy controller

    TransitionSelectedWorkloads, TransitionSelectedLiveWorkloads and
    HandlePodsOnNodeForPolicy of internal/controller/clusterpolicy_controller.go. *)
From S2P Require Import Prelude Types Runtime Common Policy ArgoPush Capi GiteaClient Manifests.
From S2P Require Import Scanner CheckpointCR Records Pool NodeHealthTransition Backups.

Section Transition.
Context {X : Externals}.

Definition GetWorkloadClusterClientByName (mgmt : Client) (clusterName : string)
    : M (result Client) :=
  capiCluster <- GetCapiClusterFromName clusterName "default" mgmt ;;
  match capiCluster with
  | Err e => ret (Err e)
  | Ok capiCluster =>
      res <- GetClusterClient capiCluster ;;
      match res with
      | Err e => ret (Err e)
      | Ok (clusterClient, _, ready) =>
          if negb ready then ret (Err (Errorf "cluster is not ready")) else ret (Ok clusterClient)
      end
  end.

(** helper for concise status updates *)
Definition updateClusterPolicyStatus (cancelled : bool) (mgmt : Client)
    (clusterPolicy : ClusterPolicy) (pkg : PackageSelector) (err : option error)
    (condition : string) : M ClusterPolicy :=
  let msg := match err with Some e => err_msg e | None => "" end in
  append_and_update cancelled mgmt clusterPolicy pkg msg condition.

(** The beginning of [TransitionSelectedWorkloads], the same code as in the
    heartbeat-driven transition. *)
Definition selected_setup (mgmt : Client) (clusterPolicy : ClusterPolicy) : M (option setup) :=
  transition_setup mgmt clusterPolicy.

(** One backup selector: an error or an empty list of Velero backups ends the
    function. *)
Definition backup_step (clusterClient : Client) (backup backupMatching : BackupInformation)
    : M (flow BackupInformation unit) :=
  if (bi_BackupType backup =? BackupTypeSchedule)%string ||
     (bi_BackupType backup =? BackupTypeManual)%string then
    backupList <- do (KListBackups clusterClient "velero") ;;
    match backupList with
    | Err _ => ret (Return tt)
    | Ok [] => ret (Return tt)
    | Ok backups =>
        if (bi_BackupType backup =? BackupTypeSchedule)%string
        then ret (Next (select_schedule backup backups backupMatching))
        else ret (Next (select_manual backup backups backupMatching))
    end
  else ret (Next backupMatching).

Definition sync_failed_suffix : string :=
  "; but the ArgoCD sync was not triggered successfully".

(** The case of a stateless package. *)
Definition selected_stateless (record : error -> string -> M ClusterPolicy) (su : setup)
    (targetClusterClient : Client) (appName : string) (clusterPolicy : ClusterPolicy)
    (transitionPackage : PackageSelector) : M ClusterPolicy :=
  conclude record
    (CreateAndPushArgoApp (su_client su) (su_user su) (su_drRepo su)
       (su_targetRepoName su) clusterPolicy transitionPackage [])
    (Some targetClusterClient) appName
    "Transitioned stateless package successfully" sync_failed_suffix.

Definition TransitionSelectedWorkloads (mgmt clusterClient : Client) (pod : Pod)
    (transitionPackage : PackageSelector) (clusterPolicy : ClusterPolicy) : M ClusterPolicy :=
  su <- selected_setup mgmt clusterPolicy ;;
  match su with
  | None => ret clusterPolicy
  | Some su =>
      cl <- GetWorkloadClusterClientByName mgmt (su_targetClusterName su) ;;
      match cl with
      | Err _ => ret clusterPolicy
      | Ok targetClusterClient =>
          let appName := su_targetClusterName su +:+ "-dr" in
          let record e := append_and_update false mgmt clusterPolicy transitionPackage (err_msg e) in
          if (ps_PackageType transitionPackage =? PackageTypeStateful)%string then
            b <- forEach (ps_BackupInformation transitionPackage) zero_BackupInformation
                   (backup_step clusterClient) ;;
            match b with
            | Return _ => ret clusterPolicy
            | Next backupMatching =>
                if (bi_Name backupMatching =? "")%string then ret clusterPolicy
                else
                  conclude record
                    (CreateAndPushVeleroRestore (su_client su) (su_user su) (su_drRepo su)
                       (su_targetRepoName su) clusterPolicy transitionPackage backupMatching
                       targetClusterClient appName)
                    (Some targetClusterClient) appName
                    "Transitioned stateful package successfully" sync_failed_suffix
            end
          else if (ps_PackageType transitionPackage =? PackageTypeStateless)%string then
            selected_stateless record su targetClusterClient appName clusterPolicy transitionPackage
          else ret clusterPolicy
      end
  end.

(** The three initialisation tasks of the first errgroup. [g.Wait] returns an error
    when one of them fails, and cancels the group's context in any case; the
    function goes on with that context. *)
Definition live_setup (mgmt : Client) (clusterPolicy : ClusterPolicy)
    : M (option (setup * Client)) :=
  giteaClient <- GetClient false (Some mgmt) ;;
  match giteaClient with
  | Err _ => ret None
  | Ok giteaClient =>
      match gc_giteaClient giteaClient with
      | None => ret None
      | Some h =>
          let sourceRepo := cs_Repo (cps_ClusterSelector (cp_Spec clusterPolicy)) in
          if (sourceRepo =? "")%string then ret None
          else
            user <- do (GGetMyUserInfo h) ;;
            repos <- do (GListMyRepos h) ;;
            let '(targetRepoName, targetClusterName, found) := DetermineTargetRepo clusterPolicy in
            if negb found then ret None
            else
              cl <- GetWorkloadClusterClientByName mgmt targetClusterName ;;
              match user, repos, cl with
              | Ok user, Ok repos, Ok cl =>
                  match find_dr repos with
                  | None => ret None
                  | Some drRepo =>
                      ret (Some (MkSetup h user (repo_Name drRepo) sourceRepo targetRepoName
                                   targetClusterName, cl))
                  end
              | _, _, _ => ret None
              end
      end
  end.

(** The loop stops at the first scheduled backup. *)
Fixpoint live_checkpoint (mgmt : Client) (clusterPolicy : ClusterPolicy) (pod : Pod)
    (pkgName : string) (backups : list BackupInformation) : M (option Checkpoint) :=
  match backups with
  | [] => ret (Some zero_Checkpoint)
  | backup :: backups' =>
      if negb (bi_BackupType backup =? BackupTypeSchedule)%string
      then live_checkpoint mgmt clusterPolicy pod pkgName backups'
      else
        let checkpointName :=
          "checkpoint-" +:+ cp_Name clusterPolicy +:+ "-" +:+ pod_Name pod +:+ "-" +:+ pkgName in
        checkpoint <- ctx_do true (KGetCheckpoint mgmt (NN "default" checkpointName)) ;;
        match checkpoint with
        | Err _ => ret None
        | Ok checkpoint =>
            if (ckst_LastCheckpointImage (ck_Status checkpoint) =? "")%string then ret None
            else ret (Some checkpoint)
        end
  end.

(** The manifests, and the commit that is left to a goroutine. *)
Definition live_manifests (su : setup) (checkpoint : Checkpoint) : M (option unit) :=
  found <- CheckRepoForMatchingManifests true (su_sourceRepo su) "main"
             (cks_ResourceRef (ck_Spec checkpoint)) ;;
  match found with
  | Err _ => ret None
  | Ok (_, []) => ret None
  | Ok (tmpDir, matches) =>
      order <- do Schedule ;;
      errs <- update_manifests (fun _ e => e) (reorder (length matches) order matches)
                (ck_Status checkpoint) ;;
      match errs with
      | _ :: _ => ret None
      | [] =>
          let commitMsg := "Update image " +:+ ckst_OriginalImage (ck_Status checkpoint) +:+ " → " +:+
                             ckst_LastCheckpointImage (ck_Status checkpoint) in
          do (Go (BgCommitAndPush tmpDir "main" (su_sourceRepo su) commitMsg)) ;;;
          ret (Some tt)
      end
  end.

(** The body of that goroutine. *)
Definition commit_job (mgmt : Client) (tmpDir branch sourceRepo commitMsg : string) : M unit :=
  cred <- GetGiteaSecretUserNamePassword mgmt ;;
  match cred with
  | Err _ => ret tt
  | Ok (username, password, _) =>
      CommitAndPush tmpDir branch sourceRepo username password commitMsg ;;;
      ret tt
  end.

Definition TransitionSelectedLiveWorkloads (mgmt clusterClient : Client) (pod : Pod)
    (transitionPackage : PackageSelector) (clusterPolicy : ClusterPolicy) : M ClusterPolicy :=
  su <- live_setup mgmt clusterPolicy ;;
  match su with
  | None => ret clusterPolicy
  | Some (su, targetClusterClient) =>
      let appName := su_targetClusterName su +:+ "-dr" in
      let record e :=
        updateClusterPolicyStatus true mgmt clusterPolicy transitionPackage (Some e) in
      let suffix := "; ArgoCD sync not triggered successfully" in
      if (ps_PackageType transitionPackage =? PackageTypeStateful)%string then
        ck <- live_checkpoint mgmt clusterPolicy pod (ps_Name transitionPackage)
                (ps_BackupInformation transitionPackage) ;;
        match ck with
        | None => ret clusterPolicy
        | Some associatedCheckpoint =>
            if (ck_Name associatedCheckpoint =? "")%string then ret clusterPolicy
            else
              m <- live_manifests su associatedCheckpoint ;;
              match m with
              | None => ret clusterPolicy
              | Some _ =>
                  conclude record
                    (CreateAndPushLiveStateBackupRestore (su_client su) (su_user su)
                       (su_drRepo su) (su_targetRepoName su) clusterPolicy transitionPackage
                       associatedCheckpoint)
                    (Some targetClusterClient) appName
                    "Transitioned stateful package successfully" suffix
              end
        end
      else if (ps_PackageType transitionPackage =? PackageTypeStateless)%string then
        conclude record
          (CreateAndPushArgoApp (su_client su) (su_user su) (su_drRepo su)
             (su_targetRepoName su) clusterPolicy transitionPackage [])
          (Some targetClusterClient) appName
          "Transitioned stateless package successfully" suffix
      else ret clusterPolicy
  end.

(** ** The pods of a failed node *)

(** The goroutine started for a pod and a package. *)
Definition hp_job (mgmt clusterClient : Client) (j : Pod * PackageSelector) (p : ClusterPolicy)
    : M ClusterPolicy :=
  let '(pod, pkg) := j in
  if ps_LiveStatePackage pkg
  then TransitionSelectedLiveWorkloads mgmt clusterClient pod pkg p
  else TransitionSelectedWorkloads mgmt clusterClient pod pkg p.

Definition hp_cap : nat := 4.

Abbreviation hp_pool := (pool (J := Pod * PackageSelector) (S := ClusterPolicy)).

(** The loop over the package selectors; [processed] is the shared set. *)
Fixpoint hp_packages (mgmt clusterClient : Client) (pod : Pod) (workloadID : string)
    (annotations : gmap string string) (pkgs : list PackageSelector)
    (processed : gset string) (p : hp_pool) : M (gset string * hp_pool) :=
  match pkgs with
  | [] => ret (processed, p)
  | transitionPackage :: pkgs' =>
      if negb (annotated annotations transitionPackage)
      then hp_packages mgmt clusterClient pod workloadID annotations pkgs' processed p
      else if IsPackageTransitioned (pool_shared p) transitionPackage
      then hp_packages mgmt clusterClient pod workloadID annotations pkgs' processed p
      else
        let key := workloadID +:+ "/" +:+ ps_Name transitionPackage in
        if decide (key ∈ processed)
        then hp_packages mgmt clusterClient pod workloadID annotations pkgs' processed p
        else
          p <- spawn (hp_job mgmt clusterClient) hp_cap (pod, transitionPackage) p ;;
          p <- progress_some (hp_job mgmt clusterClient) p ;;
          hp_packages mgmt clusterClient pod workloadID annotations pkgs' ({[key]} ∪ processed) p
  end.

Fixpoint hp_pods (mgmt clusterClient : Client) (pods : list Pod) (processed : gset string)
    (p : hp_pool) : M hp_pool :=
  match pods with
  | [] => ret p
  | pod :: pods' =>
      match GetWorkloadOwnerControllerInfo pod with
      | None => hp_pods mgmt clusterClient pods' processed p
      | Some (workloadKind, workloadName) =>
          let workloadID := pod_Namespace pod +:+ "/" +:+ workloadName +:+ "/" +:+ workloadKind in
          parent <- GetParentAnnotations clusterClient workloadKind workloadName
                      (pod_Namespace pod) ;;
          p <- progress_some (hp_job mgmt clusterClient) p ;;
          match parent with
          | Ok (Some parentAnnotations, _) =>
              pp <- hp_packages mgmt clusterClient pod workloadID
                      (om_Annotations parentAnnotations)
                      (cps_PackageSelectors (cp_Spec (pool_shared p))) processed p ;;
              hp_pods mgmt clusterClient pods' pp.1 pp.2
          | _ => hp_pods mgmt clusterClient pods' processed p
          end
      end
  end.

(** The policy in memory when every goroutine has ended. *)
Definition HandlePodsOnNodeForPolicy (mgmt clusterClient : Client) (node : Node)
    (podList : list Pod) (clusterPolicy : ClusterPolicy) : M ClusterPolicy :=
  p <- hp_pods mgmt clusterClient podList ∅ (MkPool [] clusterPolicy) ;;
  p <- wait (hp_job mgmt clusterClient) p ;;
  ret (pool_shared p).

End Transition.

(** ** Runs *)

Section TransitionRuns.
Context {X : Externals}.

Lemma emits_ClientByName mgmt name :
  emits is_capi_event (GetWorkloadClusterClientByName mgmt name).
Proof. unfold GetWorkloadClusterClientByName. emits_auto. Qed.

Lemma spec_backup_loop cl bs b :
  spec (forEach bs b (backup_step cl)) (fun o t => Forall calm t /\ exists r, o = Ret r).
Proof.
  revert b. induction bs as [|x bs IH]; intros b; apply spec_of_wp; intros s; simpl.
  - wp_step. split; [done|by eexists].
  - unfold backup_step at 1. wp_step.
    repeat wp_step; try (split; [by calm_events|by eexists]);
      (eapply wp_spec; [apply IH|]); cbn beta; intros o s' t [Ht [r' ->]];
      (split; [cbn [app]; by calm_events|by eexists]).
Qed.

(** A panic before anything was pushed, or the result of a transition. *)
Definition selected_result (p : ClusterPolicy) (pkg : PackageSelector)
    (o : outcome ClusterPolicy) (t : trace) : Prop :=
  (o = Crash /\ Forall calm t) \/
  (transition_result False False p pkg o t /\
   (ps_PackageType pkg = PackageTypeStateful -> precedes (restored p pkg) (app_for p pkg) t)).

Lemma selected_calm p pkg t : Forall calm t -> selected_result p pkg (Ret p) t.
Proof.
  intros H. right. split; [by apply early_calm|]. intros _.
  by apply precedes_no, inert_no_app, calm_inert.
Qed.

Lemma pushes_velero h u folder name p pkg b c n :
  DetermineTargetRepo p = (folder, name, true) ->
  pushes p pkg (CreateAndPushVeleroRestore h u "dr" folder p pkg b c n).
Proof. intros Hd. by eapply spec_velero_for. Qed.

Lemma result_conclude_any (guarded nc : Prop) (Q : event -> Prop) cancelled mgmt p pkg push target
    appName m1 m2 s tr :
  (target = None -> nc) -> pushes p pkg push -> emits Q push -> (forall e, Q e -> ~ write_failed e) ->
  Forall inert tr -> Forall (fun e => ~ write_failed e) tr -> (guarded -> Exists push_ok tr) ->
  wp (conclude (fun e => append_and_update cancelled mgmt p pkg (err_msg e)) push target
        appName m1 m2)
    (fun o _ t => transition_result guarded nc p pkg o t) s tr.
Proof.
  intros Hnc Hp He HQ Hi Hw Hg. unfold wp. right. eexists tr, _. split; [reflexivity|].
  split; [done|]. split; [|split; [done|]].
  - apply Forall_app; split; [done|].
    assert (emits (fun e => ~ write_failed e) push) by (by eapply emits_mono).
    assert (forall c n ns, emits (fun e => ~ write_failed e)
      (TriggerArgoCDSyncWithKubeClient c n ns)).
    { intros c n ns. eapply emits_mono; [|apply emits_sync]. intros [[] ?]; simpl; tauto. }
    revert s. change (emits (fun e => ~ write_failed e)
      (conclude (fun e => append_and_update cancelled mgmt p pkg (err_msg e)) push target
         appName m1 m2)).
    unfold conclude, append_and_update. emits_auto; simpl; tauto.
  - eapply concluded_mono; [exact Hnc|].
    apply (spec_conclude cancelled mgmt p pkg push target appName m1 m2 Hp s).
Qed.

Lemma emits_velero h u r f p k b c n :
  emits (fun e => ~ write_failed e) (CreateAndPushVeleroRestore h u r f p k b c n).
Proof.
  unfold CreateAndPushVeleroRestore, waitForVeleroRestoreCompletion, now_timestamp.
  emits_auto; try (simpl; tauto).
  - eapply emits_mono; [|apply emits_sync]. intros [[] ?]; simpl; tauto.
  - eapply emits_mono; [|apply emits_wait]. intros [[] ?]; simpl; tauto.
  - eapply emits_mono; [|apply emits_argo]. intros [[] ?]; simpl; tauto.
Qed.

Lemma spec_TransitionSelectedWorkloads mgmt cl pod pkg p :
  spec (TransitionSelectedWorkloads mgmt cl pod pkg p) (selected_result p pkg).
Proof.
  apply spec_of_wp. intros s. unfold TransitionSelectedWorkloads, selected_setup. wp_step.
  eapply wp_spec; [apply spec_transition_setup|]. cbn beta. cbn [app].
  intros o s1 t1 [Ht1 Ho].
  destruct o as [[su|]|]; [|wp_step; by apply selected_calm|done].
  destruct Ho as [Hdr Hd]. wp_step.
  eapply wp_emits; [apply emits_ClientByName|]. intros o s2 t2 Ht2%calm_capi.
  assert (Forall calm (t1 ++ t2)) as Hc by calm_events. clear Ht1 Ht2.
  destruct o as [[target|e]|]; [| |by left].
  2:{ wp_step. by apply selected_calm. }
  generalize dependent (t1 ++ t2). intros tr Hc. cbn beta iota zeta.
  destruct (ps_PackageType pkg =? PackageTypeStateful)%string eqn:Hty; bool_to_prop.
  - wp_step. eapply wp_spec; [apply spec_backup_loop|]. cbn beta.
    intros o s3 t3 [Ht3 [[b|[]] ->]].
    2:{ wp_step. apply selected_calm. by calm_events. }
    assert (Forall calm (tr ++ t3)) as Hc3 by calm_events.
    wp_step; [wp_step; by apply selected_calm|].
    apply calm_split in Hc3 as (Hi & Hp & Hw). rewrite Hdr. unfold wp. right. split.
    + eapply (result_conclude_any False False); try done;
        [by eapply pushes_velero|apply emits_velero|done].
    + intros _. apply precedes_app; [by apply precedes_no, inert_no_app|right].
      apply conclude_precedes, velero_precedes.
  - wp_step; [|wp_step; by apply selected_calm].
    apply calm_split in Hc as (Hi & Hp & Hw). unfold selected_stateless. rewrite Hdr. unfold wp. right. split; [|done].
    apply (result_conclude False False); try done; [by eapply pushes_argo|apply emits_argo].
Qed.

Lemma spec_live_setup mgmt p :
  spec (live_setup mgmt p) (fun o t =>
    Forall calm t /\
    match o with
    | Ret (Some (su, _)) => su_drRepo su = "dr" /\
        DetermineTargetRepo p = (su_targetRepoName su, su_targetClusterName su, true)
    | _ => True
    end).
Proof.
  apply spec_of_wp. intros s. unfold live_setup. wp_step.
  eapply wp_spec; [apply spec_GetClient|]. cbn beta. cbn [app].
  intros o s' t [Ht%calm_gitea [g ->]].
  repeat wp_step; try (split; [by calm_events|done]).
  eapply wp_emits; [apply emits_ClientByName|]. intros o s2 t2 Ht2%calm_capi.
  repeat wp_step; (split; [by calm_events|]); try done.
  simpl. split; [by eapply find_dr_name|]. by bool_to_prop; subst.
Qed.

Lemma spec_live_checkpoint mgmt p pod n bs :
  spec (live_checkpoint mgmt p pod n bs) (fun o t => Forall calm t /\ exists r, o = Ret r).
Proof.
  induction bs as [|b bs IH]; simpl; [apply spec_of_wp; intros s; wp_step; split; [done|by eexists]|].
  destruct (negb _); [done|]. apply spec_of_wp. intros s. unfold ctx_do.
  repeat wp_step; (split; [cbn [app]; by calm_events|by eexists]).
Qed.

Lemma spec_live_manifests su ck :
  spec (live_manifests su ck) (fun o t =>
    Forall (fun e => inert e /\ ~ push_ok e) t /\
    exists r, o = Ret r /\
      (r <> None -> Exists clone_despite_cancel t /\ Forall (fun e => ~ write_failed e) t)).
Proof.
  assert (forall t, Forall calm t -> Forall (fun e => inert e /\ ~ push_ok e) t) as Hcalm.
  { intros t. apply Forall_class. by intros e (? & ? & ?). }
  apply spec_of_wp. intros s. unfold live_manifests. wp_step.
  eapply wp_spec; [apply spec_scan|]. cbn beta. cbn [app].
  intros o s' t [Ht (r & -> & Hr)].
  repeat wp_step; try (split; [by apply Hcalm|by exists None]).
  eapply wp_spec; [apply spec_update_manifests|]. cbn beta.
  intros o2 s2 t2 [Ht2 (errs & -> & Herrs)].
  assert (Forall calm (t ++ [Ev Schedule r0])) as Hc by calm_events.
  destruct errs as [|e errs].
  2:{ wp_step. split; [apply Forall_app; auto|by exists None]. }
  specialize (Herrs eq_refl). do 2 wp_step. wp_step.
  match goal with |- Forall _ ?tr /\ _ => assert (Forall calm tr) as Hall by calm_events end.
  split; [by apply Hcalm|]. eexists. split; [reflexivity|]. intros _.
  split; [specialize (Hr eq_refl eq_refl); exists_event|apply calm_split in Hall; tauto].
Qed.

(** A live transition: as the others, and a stateful one only concludes after a clone
    that succeeded although its context was cancelled. *)
Lemma spec_TransitionSelectedLiveWorkloads mgmt cl pod pkg p :
  spec (TransitionSelectedLiveWorkloads mgmt cl pod pkg p) (fun o t =>
    (o = Crash /\ Forall calm t) \/
    (Forall (fun e => inert e /\ ~ push_ok e) t /\ o = Ret p) \/
    (transition_result False False p pkg o t /\
     (ps_PackageType pkg = PackageTypeStateful -> Exists clone_despite_cancel t))).
Proof.
  apply spec_of_wp. intros s. unfold TransitionSelectedLiveWorkloads. wp_step.
  eapply wp_spec; [apply spec_live_setup|]. cbn beta. cbn [app].
  intros o s1 t1 [Ht1 Ho].
  assert (Forall (fun e => inert e /\ ~ push_ok e) t1) as Hq.
  { eapply Forall_class; [|exact Ht1]. by intros e (? & ? & ?). }
  destruct o as [[[su target]|]|]; [|wp_step; auto|auto].
  destruct Ho as [Hdr Hd]. cbn beta iota zeta.
  destruct (ps_PackageType pkg =? PackageTypeStateful)%string eqn:Hty; bool_to_prop.
  - wp_step. eapply wp_spec; [apply spec_live_checkpoint|]. cbn beta.
    intros o s3 t3 [Ht3 [ck ->]].
    assert (Forall (fun e => inert e /\ ~ push_ok e) (t1 ++ t3)) as Hq3.
    { eapply Forall_class; [|apply Forall_app; split; [exact Ht1|exact Ht3]]. by intros e (? & ? & ?). }
    assert (Forall (fun e => ~ write_failed e) (t1 ++ t3)) as Hw3.
    { eapply Forall_class; [|apply Forall_app; split; [exact Ht1|exact Ht3]]. by intros e (? & ? & ?). }
    destruct ck as [ck|]; [|wp_step; auto].
    wp_step; [wp_step; auto|]. wp_step.
    eapply wp_spec; [apply spec_live_manifests|]. cbn beta. intros o s4 t4 [Ht4 (r & -> & Hr)].
    assert (Forall (fun e => inert e /\ ~ push_ok e) ((t1 ++ t3) ++ t4)) as Hq4
      by (apply Forall_app; auto).
    destruct r as [[]|]; [|wp_step; auto]. destruct (Hr ltac:(done)) as [Hcl Hw4].
    rewrite Hdr. unfold wp. right; right. split; [|intros _; exists_event].
    apply (result_conclude False False true); [done|..].
    + by eapply pushes_live.
    + apply emits_live.
    + eapply Forall_class; [|exact Hq4]. by intros e [? _].
    + by apply Forall_app.
    + done.
  - wp_step; [|wp_step; auto]. rewrite Hdr. unfold wp. right; right. split; [|done].
    apply calm_split in Ht1 as (Hi & Hp & Hw).
    apply (result_conclude False False true); try done; [by eapply pushes_argo|apply emits_argo].
Qed.

Lemma backed_calm t : Forall calm t -> backed t.
Proof. intros H. by apply backed_quiet, inert_no_update, calm_inert. Qed.

Lemma backed_hp_job mgmt cl j p : traces backed (hp_job mgmt cl j p).
Proof.
  destruct j as [pod pkg]. unfold hp_job. destruct (ps_LiveStatePackage pkg); intros s.
  - destruct (spec_TransitionSelectedLiveWorkloads mgmt cl pod pkg p s)
      as [[_ H]|[[H _]|[H _]]]; [by apply backed_calm| |by eapply backed_result].
    apply backed_quiet, inert_no_update. eapply Forall_class; [|exact H]. by intros e [? _].
  - destruct (spec_TransitionSelectedWorkloads mgmt cl pod pkg p s)
      as [[_ H]|[H _]]; [by apply backed_calm|by eapply backed_result].
Qed.

Lemma backed_hp_packages mgmt cl pod id ann pkgs processed p :
  traces backed (hp_packages mgmt cl pod id ann pkgs processed p).
Proof.
  assert (forall r, backed [Ev Schedule r]) by auto with go.
  revert processed p. induction pkgs as [|pkg pkgs IH]; intros processed p; simpl; traces_auto.
  - apply traces_spawn; try done; [apply _|apply backed_hp_job].
  - apply traces_progress_some; try done; [apply _|apply backed_hp_job].
Qed.

Lemma backed_HandlePods mgmt cl node pods p :
  traces backed (HandlePodsOnNodeForPolicy mgmt cl node pods p).
Proof.
  assert (forall r, backed [Ev Schedule r]) by auto with go.
  assert (forall c k n ns, traces backed (GetParentAnnotations c k n ns)).
  { intros c k n ns. eapply traces_emits, emits_GetParentAnnotations.
    apply backed_class. by intros [[] ?]. }
  assert (forall pool, traces backed (progress_some (hp_job mgmt cl) pool)).
  { intros q. apply traces_progress_some; try done; [apply _|apply backed_hp_job]. }
  pose proof backed_hp_packages. unfold HandlePodsOnNodeForPolicy.
  apply traces_bind; [apply _| |intros q; apply traces_bind; [apply _| |intros; apply traces_ret, _];
    apply traces_wait; try done; [apply _|apply backed_hp_job]].
  generalize (MkPool [] p : pool (J := Pod * PackageSelector) (S := ClusterPolicy)) as q.
  generalize (∅ : gset string). induction pods as [|pod pods IH]; intros pr q; simpl; traces_auto.
Qed.

End TransitionRuns.

#[global] Arguments HandlePodsOnNodeForPolicy : simpl never.

(** ** Properties *)

(** C11: A transition of a package on a failed node leaves exactly one of two results:
    nothing, with the policy unchanged, or one new record, [Completed] when the
    application manifest was committed to the [dr] repository and [Failed] when it
    was not. In the first case, and when it panics, no file was committed to a Gitea
    repository, the Velero restore manifest included, and no status updated: no such
    request was even made. *)
Theorem TransitionSelectedWorkloads_outcome {X : Externals} mgmt cl pod pkg p s :
  let r := TransitionSelectedWorkloads mgmt cl pod pkg p s in
  match r_out r with
  | Crash => Forall inert (r_trace r)
  | Ret p' => one_record p pkg p' (r_trace r)
  end.
Proof.
  cbn zeta. destruct (spec_TransitionSelectedWorkloads mgmt cl pod pkg p s) as [[-> Hc]|[H _]].
  - by apply calm_inert.
  - destruct (r_out _) as [p'|]; [by eapply result_one_record|].
    destruct H as [(Hi & _)|(t1 & t2 & _ & _ & _ & _ & [[] _] & _)]. done.
Qed.

(** C12: A stateful package is only handed to Argo CD after its Velero restore was
    seen completed on the target cluster. *)
Theorem TransitionSelectedWorkloads_restores_first {X : Externals} mgmt cl pod pkg p s :
  ps_PackageType pkg = PackageTypeStateful ->
  precedes (restored p pkg) (app_for p pkg)
    (r_trace (TransitionSelectedWorkloads mgmt cl pod pkg p s)).
Proof.
  intros Hty. destruct (spec_TransitionSelectedWorkloads mgmt cl pod pkg p s)
    as [[_ Hc]|[_ H]]; [|auto]. by apply precedes_no, inert_no_app, calm_inert.
Qed.

Definition stateful_pkg : PackageSelector :=
  MkPackageSelector "db" "db" PackageTypeStateful false [MkBackupInformation "b" BackupTypeManual ""].

Lemma TransitionSelectedWorkloads_restores_first_witness :
  precedes (restored two_targets stateful_pkg) (app_for two_targets stateful_pkg)
    (r_trace (TransitionSelectedWorkloads MgmtClient MgmtClient
       (MkPod (named "default" "db-0") "n" [] [] "" false "" "" []) stateful_pkg two_targets
       (const_state default_resp))).
Proof. apply TransitionSelectedWorkloads_restores_first. reflexivity. Defined.

Section Cancelled.
Context {X : Externals}.

(** The documented behaviour of a call with a cancelled context. *)
Context (clone_cancelled : forall dir url ref depth w,
  is_ok (respond (WithCancelled (GitClone dir url ref depth)) w).1 = false).
Context (update_cancelled : forall cl p w,
  is_ok (respond (WithCancelled (KUpdateClusterPolicyStatus cl p)) w).1 = false).

Definition update_accepted (e : event) : Prop :=
  match e with
  | Ev (KUpdateClusterPolicyStatus _ _) r | Ev (WithCancelled (KUpdateClusterPolicyStatus _ _)) r =>
      is_ok r = true
  | _ => False
  end.

(** Neither a status update nor a clone succeeds against its context. *)
Definition refused (e : event) : Prop := ~ update_accepted e /\ ~ clone_despite_cancel e.

Lemma refused_class (Q : event -> Prop) :
  (forall e, Q e -> match e with
    | Ev (KUpdateClusterPolicyStatus _ _) _ | Ev (WithCancelled _) _ => False | _ => True end) ->
  forall e, Q e -> refused e.
Proof. intros H e HQ. specialize (H e HQ). destruct e as [[] ?]; unfold refused; simpl; tauto. Qed.

Lemma refused_emits {A} (Q : event -> Prop) (m : M A) :
  (forall e, Q e -> match e with
    | Ev (KUpdateClusterPolicyStatus _ _) _ | Ev (WithCancelled _) _ => False | _ => True end) ->
  emits Q m -> emits refused m.
Proof. intros H. by apply emits_mono, refused_class. Qed.

Lemma not_ok {A} (r : result A) :
  is_ok r = false -> match r with Ok _ => True | Err _ => False end -> False.
Proof. by destruct r. Qed.

Ltac refused_auto := emits_auto; unfold refused; simpl; try tauto.

Lemma refused_read_all paths : emits refused (read_all paths).
Proof. induction paths as [|f l IH]; simpl; unfold read_heads; refused_auto. Qed.

Lemma refused_scan url branch ref :
  emits refused (CheckRepoForMatchingManifests true url branch ref).
Proof.
  unfold CheckRepoForMatchingManifests, ctx_do. pose proof refused_read_all. refused_auto.
  split; [tauto|]. intros H'. exact (not_ok _ (clone_cancelled _ _ _ _ _) H').
Qed.

Lemma refused_record mgmt p pkg e c :
  emits refused (updateClusterPolicyStatus true mgmt p pkg (Some e) c).
Proof.
  unfold updateClusterPolicyStatus, append_and_update, ctx_do. refused_auto.
  split; [|tauto]. intros Hok. exact (eq_true_false_abs _ Hok (update_cancelled _ _ _)).
Qed.

Lemma refused_conclude mgmt p pkg push target appName m1 m2 :
  emits is_push_event push ->
  emits refused (conclude (fun e => updateClusterPolicyStatus true mgmt p pkg (Some e)) push
                   target appName m1 m2).
Proof.
  intros Hp. pose proof (refused_record mgmt p pkg).
  assert (emits refused push) by (eapply refused_emits; [|exact Hp]; by intros [[] ?]).
  assert (forall c n ns, emits refused (TriggerArgoCDSyncWithKubeClient c n ns)).
  { intros c n ns. eapply refused_emits; [|apply emits_sync]. by intros [[] ?]. }
  unfold conclude. refused_auto.
Qed.

Lemma refused_live_manifests su ck : emits refused (live_manifests su ck).
Proof.
  assert (forall f a b, emits refused (UpdateResourceContainers f a b)).
  { intros f a b. eapply refused_emits; [|apply emits_UpdateResourceContainers]. by intros [[] ?]. }
  assert (forall w fs st, emits refused (update_manifests w fs st)).
  { intros w fs st. induction fs as [|f fs IH]; simpl; refused_auto. }
  pose proof refused_scan. unfold live_manifests. refused_auto.
Qed.

Lemma refused_live mgmt cl pod pkg p :
  emits refused (TransitionSelectedLiveWorkloads mgmt cl pod pkg p).
Proof.
  assert (emits refused (live_setup mgmt p)) as H1.
  { assert (forall n c, emits refused (GetClient n c)).
    { intros n c. eapply refused_emits; [|apply emits_GetClient]. by intros [[] ?]. }
    assert (forall n, emits refused (GetWorkloadClusterClientByName mgmt n)).
    { intros n. eapply refused_emits; [|apply emits_ClientByName]. by intros [[] ?]. }
    unfold live_setup. refused_auto. }
  assert (forall n bs, emits refused (live_checkpoint mgmt p pod n bs)) as H2.
  { intros n bs. induction bs as [|b bs IH]; simpl; unfold ctx_do; refused_auto. }
  pose proof refused_live_manifests. unfold TransitionSelectedLiveWorkloads. cbn zeta.
  refused_auto; apply refused_conclude; auto using emits_live, emits_argo.
Qed.

(** C21: Live transitions do not work: the function goes on with the context of an
    errgroup that its [Wait] has cancelled. For a stateful package it never commits
    a manifest and never records anything; for every package no status update is
    accepted, so that the cluster never learns of a transition that did happen. *)
Theorem live_transition_never_recorded mgmt cl pod pkg p s :
  let r := TransitionSelectedLiveWorkloads mgmt cl pod pkg p s in
  Forall (fun e => ~ update_accepted e) (r_trace r) /\
  (ps_PackageType pkg = PackageTypeStateful ->
     updates (r_trace r) = [] /\ Forall (fun e => ~ app_for p pkg e) (r_trace r)).
Proof.
  cbn zeta. pose proof (refused_live mgmt cl pod pkg p s) as Href. split.
  { eapply Forall_class; [|exact Href]. by intros e [? _]. }
  intros Hty. destruct (spec_TransitionSelectedLiveWorkloads mgmt cl pod pkg p s)
    as [[_ Hc%calm_inert]|[[Hc _]|[_ Hc]]].
  - auto using inert_no_update, inert_no_app.
  - assert (Forall inert (r_trace (TransitionSelectedLiveWorkloads mgmt cl pod pkg p s)))
      by (eapply Forall_class; [|exact Hc]; by intros e [? _]).
    auto using inert_no_update, inert_no_app.
  - exfalso. specialize (Hc Hty). apply Exists_exists in Hc as (e & Hin & He).
    rewrite Forall_forall in Href. by destruct (Href e Hin).
Qed.

End Cancelled.

(** A world in which every service answers, and calls with a cancelled context fail. *)
Definition demo_answers (c : call) : resp c :=
  match c with
  | Getenv key => if (key =? "GIT_SERVER_URL")%string then "http://gitea" else ""
  | KListClusters _ => Ok [MkCluster "site-b" "default" "Provisioned" []]
  | KGetSecret _ nn => Ok (MkSecret (named (nn_Namespace nn) (nn_Name nn)) "Opaque" ∅)
  | KGetUnstructuredCluster _ _ => Ok "cluster"
  | MarshalUnstructured _ => Ok "cluster"
  | UnmarshalCluster _ =>
      Ok (MkCluster "site-b" "default" "Provisioned" [MkCondition ReadyCondition ConditionTrue "" "" 0])
  | RESTConfigFromKubeConfig d => Ok (MkRestConfig "https://site-b" d)
  | NewK8sClient _ _ => Ok tt
  | GNewClient _ => Ok tt
  | GGetMyUserInfo _ => Ok "admin"
  | GListMyRepos _ => Ok [MkRepository "edge" "admin/edge"; MkRepository "dr" "admin/dr"]
  | GCreateFile _ _ _ _ _ => Ok tt
  | YMarshalArgo _ => Ok "app"
  | KGetApplication _ nn => Ok (MkApplication (nn_Name nn) (nn_Namespace nn) None)
  | KUpdateApplication _ _ => Ok tt
  | KUpdateClusterPolicyStatus _ p => Ok p
  | c => default_resp c
  end.

(** The same world, but the Cluster object of the target cannot be read. *)
Definition unready_answers (c : call) : resp c :=
  match c with
  | KGetUnstructuredCluster _ _ => Err no_service
  | c => demo_answers c
  end.

Definition demo_policy : ClusterPolicy :=
  MkClusterPolicy (named "default" "policy")
    (MkClusterPolicySpec (MkClusterSelector "edge" "http://gitea/admin/edge.git" "git" "")
       [example_pkg]
       (MkTargetClusterPolicy
          [MkPreferredCluster "site-a" "git" 10; MkPreferredCluster "site-b" "git" 50] []))
    (MkClusterPolicyStatus []).

Definition demo_pod : Pod := MkPod (named "default" "web-0") "n" [] [] "" false "" "" [].

Lemma live_transition_never_recorded_witness :
  Forall (fun e => ~ update_accepted e)
    (r_trace (@TransitionSelectedLiveWorkloads (ConstExternals demo_answers) MgmtClient MgmtClient
       demo_pod example_pkg demo_policy (const_state demo_answers))).
Proof.
  apply (@live_transition_never_recorded (ConstExternals demo_answers)).
  - intros dir url ref depth w. reflexivity.
  - intros cl p w. reflexivity.
Defined.

(** In that world the live transition of a stateless package does push the manifest. *)
Example live_demo_pushes :
  updates (r_trace (@TransitionSelectedLiveWorkloads (ConstExternals demo_answers) MgmtClient
    MgmtClient demo_pod example_pkg demo_policy (const_state demo_answers))) =
  [append_record demo_policy (MkTransitionedPackages [example_pkg] 0
     PackageTransitionConditionCompleted "Transitioned stateless package successfully")].
Proof. vm_compute. reflexivity. Qed.

(** When the target cluster is not ready, a transition on missed heartbeats
    commits the recovery manifest and then panics on the missing client, so that
    the operator stops before it records the transition. *)
Theorem unready_target_panics :
  let r := @TransitionOnMissedNodeHealth (ConstExternals unready_answers) MgmtClient "web-0"
             example_pkg demo_policy "edge" (const_state unready_answers) in
  r_out r = Crash /\ updates (r_trace r) = [] /\
  Exists (app_for demo_policy example_pkg) (r_trace r).
Proof.
  pose proof (spec_TransitionOnMissedNodeHealth (X := ConstExternals unready_answers) MgmtClient
    "web-0" example_pkg demo_policy "edge" (const_state unready_answers)) as H.
  assert (r_out (@TransitionOnMissedNodeHealth (ConstExternals unready_answers) MgmtClient "web-0"
    example_pkg demo_policy "edge" (const_state unready_answers)) = Crash) as Hc
    by (vm_compute; reflexivity).
  cbn zeta. rewrite Hc in H |- *. split; [done|].
  apply result_crash in H as [Hu [[He%scheme_failed_some _]|[_ ?]]]; [|done].
  exfalso. revert He. vm_compute. discriminate.
Qed.
