(* ===== verification/Reconcile.v ===== *)
(** * Reconciliation of cluster policies

    The Reconcile method of internal/controller/clusterpolicy_controller.go and
    the functions through which it, the monitors and the heartbeat server reach
    the transitions. *)
From S2P Require Import Prelude Types Runtime Common Policy ArgoPush Capi GiteaClient Manifests.
From S2P Require Import Scanner CheckpointCR Records Pool NodeHealthTransition Backups Transition.

Definition isClusterPolicyStatusEmpty (status : ClusterPolicyStatus) : bool :=
  (length (cpst_TransitionedPackages status) =? 0)%nat.

Definition mapClusterToClusterPolicy (obj : ObjectMeta) : list NamespacedName := [].

Definition cluster_name_label : string := "cluster.x-k8s.io/cluster-name".
Definition control_plane_label : string := "node-role.kubernetes.io/control-plane".

(** The conditions that count as bad for the node of a machine. *)
Definition bad_condition (cond : Condition) : bool :=
  if (cond_Type cond =? NodeReady)%string then negb (cond_Status cond =? ConditionTrue)%string
  else if (cond_Type cond =? NodeMemoryPressure)%string || (cond_Type cond =? NodeDiskPressure)%string
       || (cond_Type cond =? NodePIDPressure)%string
       || (cond_Type cond =? NodeNetworkUnavailable)%string
  then (cond_Status cond =? ConditionTrue)%string
  else false.

Definition net_test_pod (node : Node) : Pod :=
  MkPod (MkObjectMeta ("net-test-" +:+ node_Name node) "default" {[ "app" := "net-test" ]} ∅ [] []
           ZeroTime None)
    (node_Name node)
    [MkContainer "busybox" "busybox:1.35" ["sh"; "-c"; "while true; do sleep 3600; done"] [] [] ""]
    [MkToleration control_plane_label "NoSchedule" "Exists"] "Never" false "" "" [].

Section Reconcile.
Context {X : Externals}.

(** The first error stops the loop over the clusters. *)
Definition CreateCheckpointForLiveStatePackage (mgmt : Client) (clusterList : list Cluster)
    (pkg : PackageSelector) (clusterPolicy : ClusterPolicy) : M (result unit) :=
  r <- forEach clusterList tt (fun workload_cluster _ =>
    if (cs_Name (cps_ClusterSelector (cp_Spec clusterPolicy)) =? cl_Name workload_cluster)%string
    then
      err <- PerformWorkloadClusterCheckpointAction mgmt pkg clusterPolicy workload_cluster ;;
      match err with
      | Err e => ret (Return (Err e))
      | Ok _ => ret (Next tt)
      end
    else ret (Next tt)) ;;
  match r with
  | Next _ => ret (Ok tt)
  | Return e => ret e
  end.

(** The error, and the policy in memory. *)
Definition handleNodesInWorkloadCluster (mgmt : Client) (clusterPolicy : ClusterPolicy)
    (capiCluster : option Capi) (cluster : Cluster) : M (option error * ClusterPolicy) :=
  res <- GetClusterClient capiCluster ;;
  match res with
  | Err e => ret (Some e, clusterPolicy)
  | Ok (clusterClient, _, ready) =>
      if negb ready then ret (None, clusterPolicy)
      else
        nodeList <- do (KListNodes clusterClient ∅) ;;
        match nodeList with
        | Err e => ret (Some e, clusterPolicy)
        | Ok nodeList =>
            r <- forEach nodeList clusterPolicy (fun node clusterPolicy =>
              if (GetNodeStatusSummary node =? "Ready")%string then ret (Next clusterPolicy)
              else
                podList <- do (KListPods clusterClient (PodsOnNode (node_Name node))) ;;
                match podList with
                | Err e => ret (Return (Some e, clusterPolicy))
                | Ok podList =>
                    p <- HandlePodsOnNodeForPolicy mgmt clusterClient node podList clusterPolicy ;;
                    ret (Next p)
                end) ;;
            match r with
            | Next p => ret (None, p)
            | Return r => ret r
            end
        end
  end.

(** The node of a machine, looked up by name and then by address. The outer
    [option] is [None] when the function returns, the inner one the nil [node]. *)
Definition machine_node (clusterClient : Client) (machine : Machine) : M (option (option Node)) :=
  node <- do (KGetNode clusterClient (NN "" (m_Name machine))) ;;
  match node with
  | Ok node => ret (Some (Some node))
  | Err err =>
      match m_Addresses machine with
      | address :: _ =>
          if IsNotFound err then
            node <- do (KGetNode clusterClient (NN "" address)) ;;
            match node with
            | Ok node => ret (Some (Some node))
            | Err err => if IsNotFound err then ret (Some None) else ret None
            end
          else ret None
      | [] => ret None
      end
  end.

Definition handleWorkloadClusterMachine (mgmt : Client) (clusterPolicy : ClusterPolicy)
    (capiCluster : option Capi) (machine : Machine) : M ClusterPolicy :=
  res <- GetClusterClient capiCluster ;;
  match res with
  | Err _ => ret clusterPolicy
  | Ok (clusterClient, _, ready) =>
      if negb ready then ret clusterPolicy
      else
        node <- machine_node clusterClient machine ;;
        match node with
        | None => ret clusterPolicy
        | Some node =>
            if (mget (m_Labels machine) cluster_name_label =?
                  cs_Name (cps_ClusterSelector (cp_Spec clusterPolicy)))%string
            then ret clusterPolicy
            else
              let hasBadConditions :=
                match node with
                | Some node => existsb bad_condition (node_Conditions node)
                | None => false
                end in
              match node with
              | None => crash
              | Some node =>
                  let status := GetNodeStatusSummary node in
                  let isMachineFailed :=
                    ((m_Phase machine =? "Failed") || (m_Phase machine =? "Unknown"))%string in
                  if isMachineFailed || negb (status =? "Ready")%string || hasBadConditions then
                    podList <- do (KListPods clusterClient (PodsOnNode (m_Name machine))) ;;
                    match podList with
                    | Err _ => ret clusterPolicy
                    | Ok podList =>
                        HandlePodsOnNodeForPolicy mgmt clusterClient node podList clusterPolicy
                    end
                  else ret clusterPolicy
              end
        end
  end.

(** The loop over the machines that are not running. *)
Fixpoint handle_machines (mgmt : Client) (capiCluster : option Capi) (machines : list Machine)
    (clusterPolicy : ClusterPolicy) : M ClusterPolicy :=
  match machines with
  | [] => ret clusterPolicy
  | machine :: machines' =>
      if (m_Phase machine =? "Running")%string
      then handle_machines mgmt capiCluster machines' clusterPolicy
      else
        p <- handleWorkloadClusterMachine mgmt clusterPolicy capiCluster machine ;;
        handle_machines mgmt capiCluster machines' p
  end.

Definition performWorkloadClusterPolicyActions (mgmt : Client) (clusterPolicy : ClusterPolicy)
    (cluster : Cluster) : M ClusterPolicy :=
  capiCluster <- GetCapiClusterFromName (cl_Name cluster) (cl_Namespace cluster) mgmt ;;
  match capiCluster with
  | Err _ => ret clusterPolicy
  | Ok capiCluster =>
      if negb (cl_Phase cluster =? "Provisioned")%string then ret clusterPolicy
      else
        machineList <- do (KListMachines mgmt (cl_Namespace cluster)
                             {[ cluster_name_label := cl_Name cluster ]}) ;;
        match machineList with
        | Err _ => ret clusterPolicy
        | Ok machineList =>
            p <- handle_machines mgmt capiCluster machineList clusterPolicy ;;
            r <- handleNodesInWorkloadCluster mgmt p capiCluster cluster ;;
            ret r.2
        end
  end.

(** The requeue delay and the error. *)
Definition Reconcile (mgmt : Client) (req : NamespacedName) : M (Duration * option error) :=
  clusterList <- do (KListClusters mgmt) ;;
  match clusterList with
  | Err e => ret (0%Z, Some e)
  | Ok clusterList =>
      clusterPolicy <- do (KGetClusterPolicy mgmt req) ;;
      match clusterPolicy with
      | Err e => ret ((5 * Second)%Z, Some e)
      | Ok clusterPolicy =>
          do (Go (BgControlPlaneMonitor clusterPolicy)) ;;;
          do (Go (BgCNIMonitor clusterPolicy)) ;;;
          forDo (cps_PackageSelectors (cp_Spec clusterPolicy)) (fun pkg =>
            if ps_LiveStatePackage pkg then
              CreateCheckpointForLiveStatePackage mgmt clusterList pkg clusterPolicy ;;; ret tt
            else ret tt) ;;;
          forEach clusterList clusterPolicy (fun workload_cluster clusterPolicy =>
            if (cs_Name (cps_ClusterSelector (cp_Spec clusterPolicy)) =?
                  cl_Name workload_cluster)%string
            then
              p <- performWorkloadClusterPolicyActions mgmt clusterPolicy workload_cluster ;;
              ret (Next (R := unit) p)
            else ret (Next clusterPolicy)) ;;;
          ret ((5 * Second)%Z, None)
      end
  end.

(** The loop over the live packages; errors are logged. *)
Fixpoint trigger_packages (mgmt : Client) (clusterName : string) (pkgs : list PackageSelector)
    (clusterPolicy : ClusterPolicy) : M ClusterPolicy :=
  match pkgs with
  | [] => ret clusterPolicy
  | pkg :: pkgs' =>
      if ps_LiveStatePackage pkg then
        r <- TriggerTransitionOnMissedNodeHealth mgmt pkg clusterPolicy clusterName ;;
        trigger_packages mgmt clusterName pkgs' r.2
      else trigger_packages mgmt clusterName pkgs' clusterPolicy
  end.

Definition find_policy (clusterName : string) (policies : list ClusterPolicy) : ClusterPolicy :=
  default zero_ClusterPolicy
    (List.find (fun cp => cs_Name (cps_ClusterSelector (cp_Spec cp)) =? clusterName)%string policies).

Definition triggerMigrationNodeCP (mgmt : Client) (clusterName migrationType : string)
    : M (result unit) :=
  clusterPolicyList <- do (KListClusterPolicies mgmt) ;;
  match clusterPolicyList with
  | Err e => ret (Err e)
  | Ok clusterPolicyList =>
      let clusterPolicy := find_policy clusterName clusterPolicyList in
      if (cp_Name clusterPolicy =? "")%string
      then ret (Err (Errorf ("no ClusterPolicy found for cluster " +:+ clusterName)))
      else
        trigger_packages mgmt clusterName (cps_PackageSelectors (cp_Spec clusterPolicy))
          clusterPolicy ;;;
        ret (Ok tt)
  end.

Definition ReconcileClusterPoliciesForNode (mgmt : Client) (nodeName clusterName : string)
    : M (result unit) :=
  err <- triggerMigrationNodeCP mgmt clusterName "heartbeat node unhealthy" ;;
  match err with
  | Err e => ret (Err e)
  | Ok _ => ret (Ok tt)
  end.

(** The loop body: creation errors are printed. *)
Definition ensure_net_test_pod (workloadClusterClient : Client) (node : Node) : M unit :=
  match om_Labels (node_Meta node) !! control_plane_label with
  | None => ret tt
  | Some _ =>
      existing <- do (KGetPod workloadClusterClient
                        (NN "default" ("net-test-" +:+ node_Name node))) ;;
      match existing with
      | Ok _ => ret tt
      | Err _ =>
          do (KCreatePod workloadClusterClient (net_test_pod node)) ;;;
          ret tt
      end
  end.

Definition ensureNetTestPodsOnce (mgmt : Client) (clusterName : string) : M (result unit) :=
  capiCluster <- GetCapiClusterFromName clusterName "default" mgmt ;;
  match capiCluster with
  | Err e => ret (Err (Wrapf "failed to get CAPI cluster: " e))
  | Ok capiCluster =>
      res <- GetClusterClient capiCluster ;;
      match res with
      | Err e => ret (Err (Wrapf "cluster not ready: " e))
      | Ok (workloadClusterClient, _, ready) =>
          if negb ready then ret (Err (Errorf "cluster not ready: %!w(<nil>)"))
          else
            nodeList <- do (KListNodes workloadClusterClient ∅) ;;
            match nodeList with
            | Err e => ret (Err (Wrapf "failed to list nodes: " e))
            | Ok nodeList =>
                forDo nodeList (ensure_net_test_pod workloadClusterClient) ;;;
                ret (Ok tt)
            end
      end
  end.

End Reconcile.

#[global] Arguments Reconcile : simpl never.
#[global] Arguments triggerMigrationNodeCP : simpl never.
#[global] Arguments handleWorkloadClusterMachine : simpl never.

(** ** Runs *)

Section ReconcileRuns.
Context {X : Externals}.

Lemma traces_forDo {A} (P : trace -> Prop) {HP : Closed P} (l : list A) (body : A -> M unit) :
  (forall a, traces P (body a)) -> traces P (forDo l body).
Proof.
  intros Hb. induction l as [|x l IH]; simpl; [by apply traces_ret|].
  apply traces_bind; [done|apply Hb|done].
Qed.

Lemma backed_perform mgmt p c : traces backed (performWorkloadClusterPolicyActions mgmt p c).
Proof.
  assert (forall r, traces backed (GetClusterClient r)) as H1.
  { intros r. apply backed_capi, emits_GetClusterClient. }
  assert (forall a b c, traces backed (GetCapiClusterFromName a b c)) as H2.
  { intros a b d. apply backed_capi, emits_GetCapiClusterFromName. }
  pose proof (backed_HandlePods mgmt) as H3.
  assert (forall q r m, traces backed (handleWorkloadClusterMachine mgmt q r m)) as H4.
  { intros q r m. unfold handleWorkloadClusterMachine, machine_node. traces_auto. }
  assert (forall ms r q, traces backed (handle_machines mgmt r ms q)) as H5.
  { induction ms as [|m ms IH]; intros r q; simpl; traces_auto. }
  unfold performWorkloadClusterPolicyActions, handleNodesInWorkloadCluster. traces_auto.
Qed.

Lemma backed_checkpoint_action mgmt pkg p c :
  traces backed (PerformWorkloadClusterCheckpointAction mgmt pkg p c).
Proof.
  pose proof (backed_capi _ (emits_GetWorkloadClusterClient mgmt (cl_Name c))).
  assert (forall wl pods, traces backed (forEach pods ∅ (checkpoint_pod mgmt wl pkg p))).
  { intros wl pods. apply backed_action. intros s. apply (spec_checkpoint_pods mgmt wl pkg p pods s). }
  unfold PerformWorkloadClusterCheckpointAction. traces_auto.
Qed.

Lemma backed_triggerMigration mgmt name ty : traces backed (triggerMigrationNodeCP mgmt name ty).
Proof.
  pose proof backed_TriggerTransition.
  assert (forall pkgs p, traces backed (trigger_packages mgmt name pkgs p)).
  { induction pkgs as [|pkg pkgs IH]; intros p; simpl; traces_auto. }
  unfold triggerMigrationNodeCP. traces_auto.
Qed.

End ReconcileRuns.

(** ** Properties *)

(** C1: In every run of [Reconcile], whatever the services answer, each status update
    whose newest record is [Completed] comes after the commit of the recovery
    manifest of the recorded package to the [dr] repository. *)
Theorem Reconcile_backed {X : Externals} mgmt req s : backed (r_trace (Reconcile mgmt req s)).
Proof.
  pose proof backed_perform. pose proof backed_checkpoint_action. revert s.
  change (traces backed (Reconcile mgmt req)).
  unfold Reconcile, CreateCheckpointForLiveStatePackage. traces_auto.
  apply traces_forDo; [apply _|]. intros pkg. traces_auto.
Qed.

Section Machines.
Context {X : Externals}.

(** Reading the cluster, its client and the node of a machine. *)
Definition is_lookup (e : event) : Prop :=
  is_capi_event e \/ match e with Ev (KGetNode _ _) _ => True | _ => False end.

(** The machine carries the label that the list of machines was selected by. *)
Definition labelled (clusterPolicy : ClusterPolicy) (machine : Machine) : Prop :=
  mget (m_Labels machine) cluster_name_label =
  cs_Name (cps_ClusterSelector (cp_Spec clusterPolicy)).

Lemma spec_labelled_machine mgmt p r machine :
  labelled p machine ->
  spec (handleWorkloadClusterMachine mgmt p r machine) (fun o t =>
    Forall is_lookup t /\ (o = Ret p \/ o = Crash)).
Proof.
  intros Hl. apply spec_of_wp. intros s. unfold handleWorkloadClusterMachine, machine_node. wp_step.
  eapply wp_emits; [apply emits_GetClusterClient|]. cbn [app]. intros o s' t Ht.
  assert (Forall is_lookup t) as Hk
    by (eapply Forall_class; [|exact Ht]; unfold is_lookup; auto).
  assert (forall c nn r, is_lookup (Ev (KGetNode c nn) r)) as Hn by (by right).
  unfold labelled in Hl. rewrite Hl, String.eqb_refl.
  repeat wp_step; (split; [|auto]); repeat (apply Forall_app; split); try done;
    (apply Forall_singleton; apply Hn).
Qed.

(** C34: Unhealthy machines never trigger a transition. The machines are listed by the
    cluster-name label, and Reconcile only handles the cluster that the policy
    selects; on a list of machines with that label the loop reads nodes and
    returns the policy as it was, whatever the phases and conditions are. *)
Theorem labelled_machines_ignored mgmt r machines p s :
  Forall (labelled p) machines ->
  let res := handle_machines mgmt r machines p s in
  Forall is_lookup (r_trace res) /\ (r_out res = Ret p \/ r_out res = Crash).
Proof.
  intros Hl. cbn zeta. revert s.
  change (spec (handle_machines mgmt r machines p) (fun o t =>
    Forall is_lookup t /\ (o = Ret p \/ o = Crash))).
  induction Hl as [|m ms Hm _ IH]; simpl.
  - apply spec_of_wp. intros s. wp_step. auto.
  - destruct (_ =? _)%string; [done|]. apply spec_of_wp. intros s. wp_step.
    eapply wp_spec; [by apply spec_labelled_machine|]. cbn beta. cbn [app].
    intros o s' t [Ht [-> | ->]]; [|auto].
    eapply wp_spec; [apply IH|]. cbn beta. intros o s'' t' [Ht' Ho].
    split; [by apply Forall_app|done].
Qed.

(** The pod whose creation an event requests, and the nodes a trace listed. *)
Definition created_pod (e : event) : option Pod :=
  match e with Ev (KCreatePod _ p) _ => Some p | _ => None end.
Definition listed_nodes (e : event) : option (list Node) :=
  match e with Ev (KListNodes _ _) (Ok l) => Some l | _ => None end.

Definition net_test_pods_of (nodes : list Node) (pods : list Pod) : Prop :=
  Forall (fun p => exists node, node ∈ nodes /\
    is_Some (om_Labels (node_Meta node) !! control_plane_label) /\ p = net_test_pod node) pods.

Lemma spec_ensure_loop cl nodes :
  spec (forDo nodes (ensure_net_test_pod cl)) (fun _ t =>
    net_test_pods_of nodes (omap created_pod t) /\ omap listed_nodes t = []).
Proof.
  induction nodes as [|n nodes IH]; apply spec_of_wp; intros s; simpl;
    [wp_step; split; [constructor|done]|].
  assert (forall ps, net_test_pods_of nodes ps -> net_test_pods_of (n :: nodes) ps) as Hmono.
  { intros ps H. eapply Forall_impl; [exact H|]. cbn beta. intros p (node & ? & ?). exists node. split; [by right|done]. }
  unfold ensure_net_test_pod at 1. repeat wp_step; (eapply wp_spec; [apply IH|]); cbn beta;
    intros o s' t [Ht Hl]; simpl; (split; [|done]); auto.
  constructor; [|by apply Hmono]. exists n. split; [left|]. split; [by eexists|done].
Qed.

(** The network test pods are created on control-plane nodes only, although the
    comment of the function says worker nodes: every created pod is the test pod
    of a listed node with the control-plane label, pinned to that node. *)
Theorem ensureNetTestPods_control_plane mgmt name s :
  let t := r_trace (ensureNetTestPodsOnce mgmt name s) in
  net_test_pods_of (concat (omap listed_nodes t)) (omap created_pod t).
Proof.
  apply (spec_of_wp (ensureNetTestPodsOnce mgmt name) (fun _ t =>
    net_test_pods_of (concat (omap listed_nodes t)) (omap created_pod t))).
  clear s. intros s. unfold ensureNetTestPodsOnce. wp_step.
  eapply wp_emits; [apply emits_GetCapiClusterFromName|]. cbn [app]. intros o s1 t1 Ht1.
  assert (forall t, omap created_pod t = [] ->
    net_test_pods_of (concat (omap listed_nodes t)) (omap created_pod t)) as Hnone
    by (intros t ->; constructor).
  assert (forall t, Forall is_capi_event t -> omap created_pod t = [] /\ omap listed_nodes t = [])
    as Hcapi by (intros t Ht; split; (eapply omap_none; [|exact Ht]); by intros [[] ?]).
  destruct o as [[c|e]|]; [|wp_step; by apply Hnone, Hcapi|by apply Hnone, Hcapi].
  wp_step. eapply wp_emits; [apply emits_GetClusterClient|]. intros o s2 t2 Ht2.
  destruct (Hcapi (t1 ++ t2)) as [Hc Hn]; [by apply Forall_app|].
  destruct o as [[[[cl cfg] ready]|e]|]; [|wp_step; by apply Hnone|by apply Hnone].
  wp_step; [wp_step; by apply Hnone|]. do 3 wp_step.
  2:{ wp_step. apply Hnone. by rewrite omap_app, Hc. }
  wp_step. eapply wp_spec; [apply spec_ensure_loop|]. cbn beta. intros o s3 t3 [Ht3 Hl3].
  assert (net_test_pods_of (concat (omap listed_nodes (((t1 ++ t2) ++
      [Ev (KListNodes cl ∅) (Ok a)]) ++ t3)))
    (omap created_pod (((t1 ++ t2) ++ [Ev (KListNodes cl ∅) (Ok a)]) ++ t3))) as Hfin.
  { rewrite !omap_app in *. rewrite Hc, Hn, Hl3. simpl. by rewrite app_nil_r. }
  destruct o; [by wp_step|done].
Qed.

End Machines.

(** A failed machine of the selected cluster. *)
Definition failed_machine : Machine :=
  MkMachine "edge-md-0" {[ cluster_name_label := "edge" ]} "edge" "Failed" None [].

Lemma labelled_machines_ignored_witness :
  Forall is_lookup (r_trace (@handle_machines (ConstExternals demo_answers) MgmtClient
    (Some (MkCapi MgmtClient (Some (MkSecret (named "default" "edge-kubeconfig") "Opaque" ∅))))
    [failed_machine] demo_policy (const_state demo_answers))).
Proof.
  apply (@labelled_machines_ignored (ConstExternals demo_answers)).
  apply Forall_cons_2; [reflexivity|apply Forall_nil_2].
Defined.
