(* ===== verification/Probes.v ===== *)
(** * Health probes

    reconcilers/controlplane/control-plane.go and reconcilers/cnifault/cni.go:
    the health of a workload cluster's control plane and of its pod network. *)
From S2P Require Import Prelude Types Runtime Capi.

Definition message_unreachable (e : error) : bool :=
  let msg := ToLower (err_msg e) in
  Contains msg "connection refused" || Contains msg "no such host" ||
  Contains msg "context deadline exceeded" ||
  Contains msg "server is currently unable to handle the request".

Module controlplane.

Definition ControlPlaneReady : string := "Ready".
Definition ControlPlaneNotReady : string := "NotReady".
Definition ControlPlaneUnreachable : string := "Unreachable".
Definition ControlPlaneError : string := "Error".

Definition isNetworkOrTimeoutError (e : error) : bool :=
  match err_reason e with
  | ReasonNetError timeout temporary => timeout || negb temporary || message_unreachable e
  | _ => message_unreachable e
  end.

(** The first condition of the type [ty] that is not true. *)
Definition not_true (ty : string) (cs : list Condition) : option Condition :=
  List.find (fun c => (cond_Type c =? ty)%string && negb (cond_Status c =? ConditionTrue)%string) cs.

Fixpoint find_not_ready {A B} (f : A -> option B) (l : list A) : option (A * B) :=
  match l with
  | [] => None
  | x :: l' => match f x with Some y => Some (x, y) | None => find_not_ready f l' end
  end.

Section Check.
Context {X : Externals}.

(** The status and the error. *)
Definition CheckControlPlaneStatus (c : Client) : M (string * option error) :=
  nodeList <- do (KListNodes c {[ "node-role.kubernetes.io/control-plane" := "" ]}) ;;
  match nodeList with
  | Err err =>
      if isNetworkOrTimeoutError err
      then ret (ControlPlaneUnreachable, Some (Wrapf "API server unreachable: " err))
      else ret (ControlPlaneError, Some (Wrapf "failed to list control-plane nodes: " err))
  | Ok [] => ret (ControlPlaneError, Some (Errorf "no control-plane nodes found"))
  | Ok nodeList =>
      match find_not_ready (fun n => not_true NodeReady (node_Conditions n)) nodeList with
      | Some (node, cond) =>
          ret (ControlPlaneNotReady, Some (Errorf ("control-plane node " +:+ node_Name node
                +:+ " not ready (" +:+ cond_Reason cond +:+ ": " +:+ cond_Message cond +:+ ")")))
      | None =>
          podList <- do (KListPods c (PodsMatching "kube-system"
                                        {[ "component" := "kube-apiserver" ]})) ;;
          match podList with
          | Ok podList =>
              match find_not_ready (fun p => not_true PodReady (pod_Conditions p)) podList with
              | Some (pod, _) =>
                  ret (ControlPlaneNotReady,
                       Some (Errorf ("kube-apiserver pod " +:+ pod_Name pod +:+ " not ready")))
              | None => ret (ControlPlaneReady, None)
              end
          | Err _ => ret (ControlPlaneReady, None)
          end
      end
  end.

End Check.

End controlplane.

Module cnifault.

Definition CNIReady : string := "Ready".
Definition CNINotReady : string := "NotReady".
Definition CNIUnreachable : string := "Unreachable".
Definition CNIError : string := "Error".

Definition isNetworkOrTimeoutError (e : error) : bool := message_unreachable e.

Definition ping (target : string) : list string := ["ping"; "-c"; "1"; "-W"; "1"; target].

(** The output of a ping that got its answer. *)
Definition ping_answered (out : string) : bool :=
  Contains out "1 packets received" || Contains out "1 received" ||
  Contains out ", 0% packet loss".

Definition pod_nn (p : Pod) : NamespacedName := NN (pod_Namespace p) (pod_Name p).

Definition is_net_test (p : Pod) : bool :=
  HasPrefix (pod_Name p) "net-test-" && (pod_Phase p =? PodRunning)%string.

(** The first pod that runs on another node than [src]. *)
Definition probe_target (src : Pod) (allPods : list Pod) : option Pod :=
  List.find (fun p => negb (pod_NodeName p =? pod_NodeName src)%string) allPods.

Definition exec_timeout_text : string := "exec failed: context deadline exceeded".

Definition cniNamespaces : list string :=
  ["kube-system"; "kube-flannel"; "cilium-system"; "calico-system"].
Definition cniLabels : list (gmap string string) :=
  [{[ "app" := "calico-node" ]}; {[ "k8s-app" := "cilium" ]};
   {[ "app" := "flannel" ]}; {[ "app" := "weave" ]}].

(** The pods kept by the loop of sampleAppPods, which breaks at the limit. *)
Fixpoint sample (limit : Z) (items pods : list Pod) : list Pod :=
  match items with
  | [] => pods
  | p :: items' =>
      if (pod_Phase p =? PodRunning)%string && negb (pod_HostNetwork p) &&
         negb (pod_PodIP p =? "")%string
      then
        let pods := pods ++ [p] in
        if (limit <=? Z.of_nat (length pods))%Z then pods else sample limit items' pods
      else sample limit items' pods
  end.

Section Check.
Context {X : Externals}.

Definition listNetTestPods (c : Client) : M (result (list Pod)) :=
  podList <- do (KListPods c AllPods) ;;
  match podList with
  | Err e => ret (Err e)
  | Ok items => ret (Ok (List.filter is_net_test items))
  end.

Definition listAllPods (c : Client) : M (result (list Pod)) := do (KListPods c AllPods).

(** Not called: the use in CheckCNIStatus is commented out. *)
Definition listCNIPods (c : Client) : M (list Pod) :=
  pods <- forEach (B := list Pod) (R := unit) (list_prod cniNamespaces cniLabels) []
    (fun nl pods =>
      podList <- do (KListPods c (PodsMatching nl.1 nl.2)) ;;
      match podList with
      | Err _ => ret (Next pods)
      | Ok items => ret (Next (pods ++ items))
      end) ;;
  match pods with Next pods => ret pods | Return _ => ret [] end.

Definition sampleAppPods (c : Client) (limit : Z) : M (result (list Pod)) :=
  podList <- do (KListPods c (PodsLimit limit)) ;;
  match podList with
  | Err e => ret (Err e)
  | Ok items => ret (Ok (sample limit items []))
  end.

(** The loop over the targets. A pod without containers makes
    [pod.Spec.Containers[0]] panic. *)
Fixpoint probe_targets (cfg : RestConfig) (pod : Pod) (targets : list string) : M (option error) :=
  match targets with
  | [] => ret (Some (Errorf ("all network probes failed for pod " +:+ pod_Namespace pod
                             +:+ "/" +:+ pod_Name pod)))
  | target :: targets' =>
      match pod_Containers pod with
      | [] => crash
      | container :: _ =>
          exec <- do (NewSPDYExecutor cfg (pod_nn pod) (c_Name container) (ping target)) ;;
          match exec with
          | Err err => ret (Some (Wrapf "failed to create SPDY executor: " err))
          | Ok _ =>
              r <- do (ExecStream cfg (pod_nn pod) (c_Name container) (ping target)) ;;
              if er_Deadline r then probe_targets cfg pod targets'
              else match er_Err r with
                   | Some _ => probe_targets cfg pod targets'
                   | None =>
                       if ping_answered (er_Stdout r) then ret None
                       else probe_targets cfg pod targets'
                   end
          end
      end
  end.

Definition probePodNetwork (cfg : RestConfig) (pod : Pod) (targets : list string)
    : M (option error) :=
  clientset <- do (NewClientset cfg) ;;
  match clientset with
  | Err err => ret (Some (Wrapf "failed to create kubernetes clientset: " err))
  | Ok _ => probe_targets cfg pod targets
  end.

(** One round of the loop over the test pods; [Return] leaves the function. *)
Definition probe_from (cfg : RestConfig) (allPods : list Pod) (src : Pod) (_ : unit)
    : M (flow unit (string * option error)) :=
  match probe_target src allPods with
  | None => ret (Next tt)
  | Some targetPod =>
      err <- probePodNetwork cfg src [pod_PodIP targetPod] ;;
      match err with
      | None => ret (Next tt)
      | Some err =>
          if Contains (err_msg err) exec_timeout_text then ret (Return (CNIReady, None))
          else ret (Return (CNINotReady,
                 Some (Wrapf ("network probe failed from pod " +:+ pod_Namespace src +:+ "/" +:+
                   pod_Name src +:+ " to pod " +:+ pod_Namespace targetPod +:+ "/" +:+
                   pod_Name targetPod +:+ ": ") err)))
      end
  end.

Definition CheckCNIStatus (c : Client) (cfg : RestConfig) : M (string * option error) :=
  netTestPods <- listNetTestPods c ;;
  match netTestPods with
  | Err _ | Ok [] => ret (CNINotReady, Some (Errorf "no net-test pods found"))
  | Ok netTestPods =>
      allPods <- listAllPods c ;;
      match allPods with
      | Err _ | Ok [] => ret (CNINotReady, Some (Errorf "no target pods found"))
      | Ok allPods =>
          r <- forEach netTestPods tt (probe_from cfg allPods) ;;
          match r with
          | Next _ => ret (CNIReady, None)
          | Return r => ret r
          end
      end
  end.

End Check.

End cnifault.

(** ** Lemmas *)

Lemma prefix_spec pre s : String.prefix pre s = true -> exists t, s = pre +:+ t.
Proof.
  revert s. induction pre as [|a pre IH]; intros s; [by exists s|].
  destruct s as [|b s]; simpl; [done|]. destruct (ascii_dec a b) as [->|]; [|done].
  intros [t ->]%IH. by exists t.
Qed.

(** A character occurs in a string. *)
Definition has_char (a : ascii) (s : string) : bool := Contains s (String a EmptyString).

Lemma has_char_app a s t : has_char a (s +:+ t) = has_char a s || has_char a t.
Proof.
  unfold has_char. induction s as [|b s IH]; [by destruct t|].
  rewrite app_cons. simpl. rewrite IH. destruct (ascii_dec a b); simpl; [|done].
  destruct (s +:+ t), s; reflexivity.
Qed.

Lemma Contains_char a s sub :
  Contains s sub = true -> has_char a sub = true -> has_char a s = true.
Proof.
  revert sub. induction s as [|b s IH]; intros sub.
  - destruct sub; [done|]. done.
  - intros H Hs. simpl in H. apply orb_true_iff in H as [H|H].
    + change (String.prefix sub (String b s) = true) in H.
      apply prefix_spec in H as [t ->]. by rewrite has_char_app, Hs.
    + unfold has_char. cbn [Contains]. apply orb_true_iff. right. by apply IH in H.
Qed.

Module ControlPlaneProbe.
Import controlplane.

Lemma find_not_ready_none {A B} (f : A -> option B) l :
  find_not_ready f l = None <-> Forall (fun x => f x = None) l.
Proof.
  induction l as [|x l IH]; simpl; [by split; constructor|].
  rewrite Forall_cons. destruct (f x); naive_solver.
Qed.

Lemma not_true_none ty cs :
  not_true ty cs = None <->
  Forall (fun c => cond_Type c = ty -> cond_Status c = ConditionTrue) cs.
Proof.
  unfold not_true. induction cs as [|c cs IH]; simpl; [by split; constructor|].
  rewrite Forall_cons. destruct (cond_Type c =? ty)%string eqn:Ht; bool_to_prop; simpl.
  - destruct (cond_Status c =? ConditionTrue)%string eqn:Hs; bool_to_prop; simpl; naive_solver.
  - naive_solver.
Qed.

(** No Ready condition says anything else than true. *)
Definition node_ok (n : Node) : Prop :=
  Forall (fun c => cond_Type c = NodeReady -> cond_Status c = ConditionTrue) (node_Conditions n).
Definition pod_ok (p : Pod) : Prop :=
  Forall (fun c => cond_Type c = PodReady -> cond_Status c = ConditionTrue) (pod_Conditions p).

Definition nodes_ok (e : event) : Prop :=
  match e with Ev (KListNodes _ _) (Ok l) => l ≠ [] /\ Forall node_ok l | _ => False end.
Definition apiserver_ok (e : event) : Prop :=
  match e with
  | Ev (KListPods _ _) (Ok l) => Forall pod_ok l
  | Ev (KListPods _ _) (Err _) => True
  | _ => False
  end.

Definition probe_healthy (t : trace) : Prop :=
  match t with
  | [e1; e2] => nodes_ok e1 /\ apiserver_ok e2
  | _ => False
  end.

Lemma all_not_true {A} ty (f : A -> list Condition) l :
  Forall (fun x => not_true ty (f x) = None) l <->
  Forall (fun x => Forall (fun c => cond_Type c = ty -> cond_Status c = ConditionTrue) (f x)) l.
Proof. apply Forall_proper; [|done]. intros x. apply not_true_none. Qed.

Lemma node_found (l : list Node) :
  find_not_ready (fun n => not_true NodeReady (node_Conditions n)) l = None <-> Forall node_ok l.
Proof. rewrite find_not_ready_none. apply (all_not_true NodeReady node_Conditions). Qed.

Lemma pod_found (l : list Pod) :
  find_not_ready (fun n => not_true PodReady (pod_Conditions n)) l = None <-> Forall pod_ok l.
Proof. rewrite find_not_ready_none. apply (all_not_true PodReady pod_Conditions). Qed.

(** C35: The control-plane probe reports [Ready] exactly when there are
    control-plane nodes, every Ready condition of every one of them is true, and
    so is every Ready condition of the kube-apiserver pods, where these can be
    listed; it returns an error exactly when the status is not [Ready]; it never
    panics. *)
Theorem CheckControlPlaneStatus_ready_iff {X : Externals} c s :
  exists status err, r_out (CheckControlPlaneStatus c s) = Ret (status, err) /\
    (err = None <-> status = ControlPlaneReady) /\
    (status = ControlPlaneReady <-> probe_healthy (r_trace (CheckControlPlaneStatus c s))).
Proof.
  revert s. apply (spec_of_wp (CheckControlPlaneStatus c) (fun o t =>
    exists status err, o = Ret (status, err) /\ (err = None <-> status = ControlPlaneReady) /\
      (status = ControlPlaneReady <-> probe_healthy t))).
  intros s. unfold CheckControlPlaneStatus.
  repeat wp_step; (eexists _, _; split; [reflexivity|]; split; [split; discriminate || done|]);
    unfold probe_healthy; simpl;
    repeat match goal with
    | H : find_not_ready (fun n => not_true NodeReady _) _ = None |- _ => apply node_found in H
    | H : find_not_ready (fun n => not_true PodReady _) _ = None |- _ => apply pod_found in H
    | H : find_not_ready (fun n => not_true NodeReady _) ?l = Some _ |- _ =>
        assert (~ Forall node_ok l) by (rewrite <- node_found; congruence); clear H
    | H : find_not_ready (fun n => not_true PodReady _) ?l = Some _ |- _ =>
        assert (~ Forall pod_ok l) by (rewrite <- pod_found; congruence); clear H
    end;
    split; try discriminate; try done; tauto.
Qed.

End ControlPlaneProbe.

Module CniProbe.
Import cnifault.

Section Runs.
Context {X : Externals}.

(** A ping from [src] to [target] was answered. *)
Definition answered (src : Pod) (target : string) (e : event) : Prop :=
  match e with
  | Ev (ExecStream _ nn _ cmd) r =>
      nn = pod_nn src /\ cmd = ping target /\
      er_Deadline r = false /\ er_Err r = None /\ ping_answered (er_Stdout r) = true
  | _ => False
  end.

(** The exec request could not be built. *)
Definition not_built (e : event) : Prop :=
  match e with
  | Ev (NewClientset _) (Err _) | Ev (NewSPDYExecutor _ _ _ _) (Err _) => True
  | _ => False
  end.

Definition colon : ascii := ":".
Definition plain_pod (p : Pod) : Prop :=
  has_char colon (pod_Namespace p) = false /\ has_char colon (pod_Name p) = false.

(** A probe that fails after its request was built fails with a message that the
    caller does not take for a timeout. *)
Lemma spec_probePodNetwork cfg src target :
  plain_pod src ->
  spec (probePodNetwork cfg src [target]) (fun o t =>
    match o with
    | Ret None => Exists (answered src target) t
    | Ret (Some err) =>
        Exists not_built t \/ Contains (err_msg err) exec_timeout_text = false
    | Crash => pod_Containers src = []
    end).
Proof.
  intros [Hns Hn]. apply spec_of_wp. intros s. unfold probePodNetwork, probe_targets.
  assert (Contains (err_msg (Errorf ("all network probes failed for pod " +:+ pod_Namespace src
    +:+ "/" +:+ pod_Name src))) exec_timeout_text = false) as Hmsg.
  { apply not_true_iff_false. intros H. apply (Contains_char colon) in H; [|reflexivity].
    simpl in H. rewrite !has_char_app, Hns, Hn in H. vm_compute in H. discriminate. }
  repeat wp_step; try (right; exact Hmsg); try solve [left; exists_event]; try done.
  rewrite !Exists_app, !Exists_cons. right. left. simpl. auto.
Qed.

Definition probed (allPods : list Pod) (t : trace) (src : Pod) : Prop :=
  forall target, probe_target src allPods = Some target ->
    Exists (answered src (pod_PodIP target)) t.

Lemma probed_app allPods t1 t2 src : probed allPods t1 src -> probed allPods (t1 ++ t2) src.
Proof. intros H target Ht. apply Exists_app. left. by apply H. Qed.

Lemma spec_probe_from cfg allPods src :
  plain_pod src ->
  spec (probe_from cfg allPods src tt) (fun o t =>
    match o with
    | Ret (Next _) => probed allPods t src
    | Ret (Return (status, _)) => status = CNIReady -> Exists not_built t
    | Crash => True
    end).
Proof.
  intros Hp. apply spec_of_wp. intros s. unfold probe_from.
  destruct (probe_target src allPods) as [target|] eqn:Ht.
  - wp_step. eapply wp_spec; [by apply spec_probePodNetwork|]. cbn beta. cbn [app].
    intros [[err|]|] s' t Ho; [| |done].
    + destruct Ho as [Hb|Hc].
      * wp_step; wp_step; auto.
      * rewrite Hc. wp_step. done.
    + wp_step. intros target' Ht'. by simplify_eq.
  - wp_step. intros target' Ht'. congruence.
Qed.

Lemma spec_probe_all cfg allPods srcs :
  Forall plain_pod srcs ->
  spec (forEach srcs tt (probe_from cfg allPods)) (fun o t =>
    match o with
    | Ret (Next _) => Forall (probed allPods t) srcs
    | Ret (Return (status, _)) => status = CNIReady -> Exists not_built t
    | Crash => True
    end).
Proof.
  intros Hp. induction Hp as [|src srcs Hsrc _ IH]; apply spec_of_wp; intros s; cbn [forEach];
    [wp_step; constructor|].
  wp_step. eapply wp_spec; [by apply spec_probe_from|]. cbn beta. cbn [app].
  intros [[[]|[status err]]|] s' t Ho; [|by wp_step|done].
  eapply wp_spec; [exact IH|]. cbn beta. intros [[[]|[status err]]|] s'' t' Ho'; [| |done].
  - constructor; [by apply probed_app|]. eapply Forall_impl; [exact Ho'|].
    intros x Hx target Ht. apply Exists_app. right. by apply Hx.
  - intros Hr. apply Exists_app. right. by apply Ho'.
Qed.

(** The pods of the first and the second listing. *)
Definition cni_healthy (t : trace) : Prop :=
  match t with
  | Ev (KListPods _ _) (Ok l1) :: Ev (KListPods _ _) (Ok l2) :: t' =>
      List.filter is_net_test l1 ≠ [] /\ Forall (probed l2 t') (List.filter is_net_test l1)
  | _ => False
  end.

(** C36: The network probe reports [Ready] only when every running test pod that has
    a pod on another node got an answer from it, or when an exec request could
    not even be built. In particular an exec that times out makes the probe
    report [NotReady]: the branch of [CheckCNIStatus] that treats a timeout as
    healthy looks for a text that [probePodNetwork] never returns. The names of
    pods contain no colon. *)
Theorem CheckCNIStatus_ready c cfg s :
  (forall sel w l, (respond (KListPods c sel) w).1 = Ok l -> Forall plain_pod l) ->
  forall err, r_out (CheckCNIStatus c cfg s) = Ret (CNIReady, err) ->
  Exists not_built (r_trace (CheckCNIStatus c cfg s)) \/
  cni_healthy (r_trace (CheckCNIStatus c cfg s)).
Proof.
  intros Hplain.
  change (wp (CheckCNIStatus c cfg) (fun o _ t => forall err, o = Ret (CNIReady, err) ->
    Exists not_built t \/ cni_healthy t) s []).
  unfold CheckCNIStatus, listNetTestPods, listAllPods. do 2 apply wp_bind.
  apply wp_do_at. intros [l1|e1] w1 Hl1; simpl in Hl1; [|by repeat wp_step]. wp_step.
  destruct (List.filter is_net_test l1) as [|p ps] eqn:Hf; [by repeat wp_step|].
  do 3 wp_step; [|by wp_step]. destruct a as [|q qs]; [by wp_step|].
  assert (Forall plain_pod (p :: ps)) as Hps.
  { rewrite <- Hf. apply Forall_forall. intros x Hx. apply list_elem_of_In, filter_In in Hx as [Hx _].
    eapply Forall_forall; [by eapply Hplain|]. by apply list_elem_of_In. }
  wp_step. eapply wp_spec; [by apply spec_probe_all|]. cbn beta.
  intros [[[]|[status err']]|] s' t Ho; [| |done]; wp_step; intros err Herr; simplify_eq.
  - right. simpl. rewrite Hf. by split.
  - left. apply Exists_app. right. by apply Ho.
Qed.

End Runs.

(** ** A cluster in which every exec times out *)

Definition probe_pods : list Pod :=
  [MkPod (named "default" "net-test-a") "a" [MkContainer "busybox" "" [] [] [] ""] [] ""
     false "Running" "10.0.0.1" [];
   MkPod (named "default" "web") "b" [] [] "" false "Running" "10.0.0.2" []].

(** The answers of a cluster whose pods reach each other, or not. *)
Definition probe_answers (ok : bool) (c : call) : resp c :=
  match c with
  | KListPods _ _ => Ok probe_pods
  | NewClientset _ => Ok tt
  | NewSPDYExecutor _ _ _ _ => Ok tt
  | ExecStream _ _ _ _ =>
      if ok then MkExecResult false None "1 packets transmitted, 1 packets received, 0% packet loss"
      else MkExecResult true (Some (Errorf "context deadline exceeded")) ""
  | c => default_resp c
  end.

Example exec_timeout_is_not_ready :
  exists err, r_out (@CheckCNIStatus (ConstExternals (probe_answers false)) MgmtClient
    (MkRestConfig "" "") (const_state (probe_answers false))) = Ret (CNINotReady, Some err).
Proof. eexists. vm_compute. reflexivity. Qed.

Lemma CheckCNIStatus_ready_witness :
  let t := r_trace (@CheckCNIStatus (ConstExternals (probe_answers true)) MgmtClient
    (MkRestConfig "" "") (const_state (probe_answers true))) in
  Exists not_built t \/ cni_healthy t.
Proof.
  eapply (@CheckCNIStatus_ready (ConstExternals (probe_answers true))).
  - simpl. intros _ _ l [= <-]. repeat constructor.
  - vm_compute. reflexivity.
Defined.

End CniProbe.
