(* ===== verification/Monitors.v ===== *)
(** * Health monitors

    The background monitors of internal/controller/clusterpolicy_controller.go:
    the registry that keeps one goroutine per key, the fault detectors, and the
    loops that probe a workload cluster at every tick and trigger a migration. *)
From S2P Require Import Prelude Types Runtime Capi Records Reconcile Probes.

(** ** The registry of monitors *)

Inductive monitor := ControlPlane (clusterName : string) | CNI (clusterName : string).

#[export] Instance monitor_eq_dec : EqDecision monitor.
Proof. solve_decision. Defined.

Definition monitor_key (m : monitor) : string :=
  match m with
  | ControlPlane clusterName => clusterName
  | CNI clusterName => clusterName +:+ "-cni"
  end.

(** [monitorRegistry] and the goroutines that run. *)
Record registry := MkRegistryState {
  monitorRegistry : gset string; running : list monitor }.

Definition empty_registry : registry := MkRegistryState ∅ [].

(** Under the lock: return when the key is there, else insert it and start. *)
Definition start_monitor (m : monitor) (r : registry) : registry :=
  if decide (monitor_key m ∈ monitorRegistry r) then r
  else MkRegistryState ({[ monitor_key m ]} ∪ monitorRegistry r) (m :: running r).

(** The deferred deletion of the key when the goroutine returns. *)
Definition exit_monitor (m : monitor) (r : registry) : registry :=
  MkRegistryState (monitorRegistry r ∖ {[ monitor_key m ]})
    (List.filter (fun m' => negb (bool_decide (m' = m))) (running r)).

Inductive registry_step : registry -> registry -> Prop :=
| step_start m r : registry_step r (start_monitor m r)
| step_exit m r : m ∈ running r -> registry_step r (exit_monitor m r).

(** ** The detectors *)

(** State that is kept between ticks by the control-plane monitor. *)
Record CPState := MkCPState {
  cp_TLastHeartbeat : Time; cp_TDetected : Time; cp_IsTriggered : bool; cp_MissCount : Z }.

Definition cp_init (startupTime : Time) : CPState := MkCPState startupTime ZeroTime false 0.

Definition cp_ready (now : Time) : CPState := MkCPState now ZeroTime false 0.

(** The new state, and whether the outage is reported at this tick. *)
Definition cp_missed (now : Time) (st : CPState) : CPState * bool :=
  let MissCount := (cp_MissCount st + 1)%Z in
  let TDetected := if IsZero (cp_TDetected st) then now else cp_TDetected st in
  if negb (cp_IsTriggered st) && (2 <? MissCount)%Z
  then (MkCPState (cp_TLastHeartbeat st) now true MissCount, true)
  else (MkCPState (cp_TLastHeartbeat st) TDetected (cp_IsTriggered st) MissCount, false).

(** One observation: the time and whether the probe was [Ready]. *)
Definition cp_observe (st : CPState) (o : Time * bool) : CPState * bool :=
  if o.2 then (cp_ready o.1, false) else cp_missed o.1 st.

Record CNIState := MkCNIState {
  cni_TLastHeartbeat : Time; cni_TDetected : Time; cni_IsTriggered : bool }.

Definition cni_init (startupTime : Time) : CNIState := MkCNIState startupTime ZeroTime false.

Definition cni_ready (now : Time) : CNIState := MkCNIState now ZeroTime false.

Definition cni_timeoutWindow : Duration := (3 * Second)%Z.

Definition cni_missed (now : Time) (st : CNIState) : CNIState * bool :=
  let silence := Sub now (cni_TLastHeartbeat st) in
  let TDetected := if IsZero (cni_TDetected st) then now else cni_TDetected st in
  if negb (cni_IsTriggered st) && (cni_timeoutWindow <? silence)%Z
  then (MkCNIState (cni_TLastHeartbeat st) TDetected true, true)
  else (MkCNIState (cni_TLastHeartbeat st) TDetected (cni_IsTriggered st), false).

Definition cni_observe (st : CNIState) (o : Time * bool) : CNIState * bool :=
  if o.2 then (cni_ready o.1, false) else cni_missed o.1 st.

(** ** The loops *)

Section Loops.
Context {X : Externals}.

(** [for { select { case <-ticker.C: tick; case <-ctx.Done(): return } }], cut
    after [n] rounds. *)
Fixpoint monitor_loop {St} (n : nat) (interval : Duration) (tick : St -> M St) (st : St) : M St :=
  match n with
  | O => ret st
  | S n' =>
      ticked <- do (AwaitTick interval) ;;
      if ticked then st' <- tick st ;; monitor_loop n' interval tick st' else ret st
  end.

(** A reported outage: the policy is read again, and a migration is triggered
    only when no transition is on record. *)
Definition recover (mgmt : Client) (clusterPolicy : ClusterPolicy) (migrationType : string)
    : M unit :=
  refreshedPolicy <- do (KGetClusterPolicy mgmt
    (NN (om_Namespace (cp_Meta clusterPolicy)) (cp_Name clusterPolicy))) ;;
  match refreshedPolicy with
  | Err _ => ret tt
  | Ok refreshedPolicy =>
      if isClusterPolicyStatusEmpty (cp_Status refreshedPolicy) then
        triggerMigrationNodeCP mgmt (cs_Name (cps_ClusterSelector (cp_Spec clusterPolicy)))
          migrationType ;;;
        ret tt
      else ret tt
  end.

Definition cp_checkInterval : Duration := (300 * Millisecond)%Z.
Definition cp_warmupPeriod : Duration := (5 * Second)%Z.

(** What a tick of the control-plane monitor does; a [continue] ends it. *)
Definition cp_tick (mgmt : Client) (clusterPolicy : ClusterPolicy) (startupTime : Time)
    (st : CPState) : M CPState :=
  now <- do Now ;;
  if (Sub now startupTime <? cp_warmupPeriod)%Z then ret st
  else
    capiCluster <- GetCapiClusterFromName
      (cs_Name (cps_ClusterSelector (cp_Spec clusterPolicy))) "default" mgmt ;;
    match capiCluster with
    | Err _ => ret st
    | Ok capiCluster =>
        res <- GetClusterClient capiCluster ;;
        match res with
        | Err _ | Ok (_, _, false) => ret st
        | Ok (clusterClient, _, true) =>
            check <- controlplane.CheckControlPlaneStatus clusterClient ;;
            let status := match check.2 with
                          | Some _ => controlplane.ControlPlaneUnreachable
                          | None => check.1
                          end in
            if (status =? controlplane.ControlPlaneReady)%string then
              t <- do Now ;; ret (cp_ready t)
            else
              let '(st, detected) := cp_missed now st in
              if detected then
                recover mgmt clusterPolicy "control-plane unhealthy or fault" ;;; ret st
              else ret st
        end
    end.

(** The goroutine of StartWorkloadClusterControlPlaneHealthMonitor. *)
Definition cp_monitor (n : nat) (mgmt : Client) (clusterPolicy : ClusterPolicy) : M CPState :=
  startupTime <- do Now ;;
  monitor_loop n cp_checkInterval (cp_tick mgmt clusterPolicy startupTime) (cp_init startupTime).

Definition cni_checkInterval : Duration := (1 * Second)%Z.
Definition cni_warmupPeriod : Duration := (2 * Second)%Z.

Definition cni_tick (mgmt : Client) (clusterPolicy : ClusterPolicy) (startupTime : Time)
    (st : CNIState) : M CNIState :=
  now <- do Now ;;
  if (Sub now startupTime <? cni_warmupPeriod)%Z then ret st
  else
    capiCluster <- GetCapiClusterFromName
      (cs_Name (cps_ClusterSelector (cp_Spec clusterPolicy))) "default" mgmt ;;
    match capiCluster with
    | Err _ => ret st
    | Ok capiCluster =>
        res <- GetClusterClient capiCluster ;;
        match res with
        | Err _ | Ok (_, _, false) => ret st
        | Ok (clusterClient, restConfig, true) =>
            check <- cnifault.CheckCNIStatus clusterClient restConfig ;;
            let status := match check.2 with
                          | Some _ => cnifault.CNINotReady
                          | None => check.1
                          end in
            if (status =? cnifault.CNIReady)%string then ret (cni_ready now)
            else
              let '(st, detected) := cni_missed now st in
              if detected then
                recover mgmt clusterPolicy "CNI unhealthy or fault" ;;; ret st
              else ret st
        end
    end.

(** The loop that prepares the test pods, cut after [n] attempts; [false] when
    the monitor is stopped (or cut) while it waits to retry. *)
Fixpoint prepare_pods (n : nat) (mgmt : Client) (clusterName : string) : M bool :=
  match n with
  | O => ret false
  | S n' =>
      err <- ensureNetTestPodsOnce mgmt clusterName ;;
      match err with
      | Ok _ => ret true
      | Err _ =>
          ticked <- do (AwaitTick (5 * Second)) ;;
          if ticked then prepare_pods n' mgmt clusterName else ret false
      end
  end.

(** The goroutine of StartWorkloadClusterCNIHealthMonitor. *)
Definition cni_monitor (attempts n : nat) (mgmt : Client) (clusterPolicy : ClusterPolicy)
    : M CNIState :=
  startupTime <- do Now ;;
  prepared <- prepare_pods attempts mgmt (cs_Name (cps_ClusterSelector (cp_Spec clusterPolicy))) ;;
  if prepared then
    monitor_loop n cni_checkInterval (cni_tick mgmt clusterPolicy startupTime)
      (cni_init startupTime)
  else ret (cni_init startupTime).

End Loops.

#[global] Arguments recover : simpl never.
#[global] Arguments controlplane.CheckControlPlaneStatus : simpl never.
#[global] Arguments cnifault.CheckCNIStatus : simpl never.

(** ** The registry *)

Lemma append_suffix_inj s t suf : s +:+ suf = t +:+ suf -> s = t.
Proof. intros H. by rewrite <- (TrimSuffix_app s suf), H, TrimSuffix_app. Qed.

(** The keys in the registry are those of the goroutines that run, and no two of
    these have the same key. *)
Definition registry_ok (r : registry) : Prop :=
  NoDup (monitor_key <$> running r) /\
  forall k, k ∈ monitorRegistry r <-> k ∈ monitor_key <$> running r.

Lemma start_monitor_ok m r : registry_ok r -> registry_ok (start_monitor m r).
Proof.
  intros [Hn Hk]. unfold start_monitor. case_decide as Hm; [done|]. split; simpl.
  - constructor; [by rewrite <- Hk|done].
  - intros k. rewrite elem_of_union, elem_of_singleton, elem_of_cons. by rewrite Hk.
Qed.

Lemma exit_running m r m' : m' ∈ running (exit_monitor m r) <-> m' ∈ running r /\ m' ≠ m.
Proof.
  simpl. rewrite !list_elem_of_In, filter_In, negb_true_iff, bool_decide_eq_false. done.
Qed.

Lemma nodup_keys_inj l m m' :
  NoDup (monitor_key <$> l) -> m ∈ l -> m' ∈ l -> monitor_key m = monitor_key m' -> m = m'.
Proof.
  intros Hn Hm Hm' Hk. induction l as [|x l IH]; [set_solver|].
  simpl in Hn. apply NoDup_cons in Hn as [Hx Hn].
  apply elem_of_cons in Hm as [->|Hm]; apply elem_of_cons in Hm' as [->|Hm']; [done| | |by auto];
    exfalso; apply Hx; rewrite list_elem_of_fmap; eauto.
Qed.

Lemma exit_monitor_ok m r : m ∈ running r -> registry_ok r -> registry_ok (exit_monitor m r).
Proof.
  intros Hm [Hn Hk]. split.
  - simpl. clear Hk Hm. induction (running r) as [|x l IH]; simpl in *; [constructor|].
    apply NoDup_cons in Hn as [Hx Hn]. destruct (negb _); simpl; [|by apply IH].
    constructor; [|by apply IH]. intros (y & Hy & Hin)%list_elem_of_fmap.
    apply Hx, list_elem_of_fmap. exists y. split; [done|].
    apply list_elem_of_In, filter_In in Hin as [Hin _]. by apply list_elem_of_In.
  - intros k. rewrite list_elem_of_fmap. setoid_rewrite exit_running. simpl.
    rewrite elem_of_difference, elem_of_singleton, Hk, list_elem_of_fmap. split.
    + intros [(m' & -> & Hin) Hne]. exists m'. split; [done|]. split; [done|]. by intros ->.
    + intros (m' & -> & Hin & Hne). split; [by exists m'|]. intros He.
      by apply Hne, (nodup_keys_inj (running r)).
Qed.

Lemma registry_invariant r : rtc registry_step empty_registry r -> registry_ok r.
Proof.
  assert (forall r1 r2, rtc registry_step r1 r2 -> registry_ok r1 -> registry_ok r2) as H.
  { induction 1 as [|r1 r2 r3 Hs _ IH]; [done|]. intros Hok. apply IH.
    destruct Hs; [by apply start_monitor_ok|by apply exit_monitor_ok]. }
  intros Hr. eapply H; [exact Hr|]. split; [constructor|]. set_solver.
Qed.

(** C38: Whatever monitors are started and return, in whatever order, no two
    goroutines with the same key run at the same time, and the registry holds
    exactly the keys of those that run, so that a monitor that has returned can
    be started again. *)
Theorem registry_reachable r :
  rtc registry_step empty_registry r ->
  NoDup (monitor_key <$> running r) /\
  (forall k, k ∈ monitorRegistry r <-> k ∈ monitor_key <$> running r) /\
  (forall m, m ∈ running r -> m ∈ running (start_monitor m (exit_monitor m r))).
Proof.
  intros [Hn Hk]%registry_invariant. split; [done|]. split; [done|]. intros m _.
  unfold start_monitor. rewrite decide_False; [left|]. simpl. set_solver.
Qed.

Lemma registry_reachable_witness :
  let r := start_monitor (CNI "edge") (start_monitor (ControlPlane "edge") empty_registry) in
  CNI "edge" ∈ running (start_monitor (CNI "edge") (exit_monitor (CNI "edge") r)).
Proof.
  cbv zeta. apply registry_reachable; [|left]. eapply rtc_l; [apply step_start|]. eapply rtc_l; [apply step_start|].
  apply rtc_refl.
Defined.

Lemma monitor_key_clash m m' :
  monitor_key m = monitor_key m' <->
  m = m' \/
  exists x, (m = CNI x /\ m' = ControlPlane (x +:+ "-cni")) \/
            (m = ControlPlane (x +:+ "-cni") /\ m' = CNI x).
Proof.
  split.
  - destruct m as [x|x], m' as [y|y]; simpl; intros H.
    + left. congruence.
    + right. exists y. right. by subst.
    + right. exists x. left. by subst.
    + left. f_equal. by apply append_suffix_inj in H.
  - intros [->|(x & [[-> ->]|[-> ->]])]; done.
Qed.

(** In a reachable registry a monitor is not started exactly when it runs
    already, or when the key of a monitor of the other kind is in its way: the
    control-plane monitor of a cluster called ["x-cni"] is never started while
    the network monitor of cluster ["x"] runs, and the other way round. *)
Theorem start_monitor_blocked m r :
  rtc registry_step empty_registry r ->
  m ∉ running r ->
  (m ∉ running (start_monitor m r) <->
   exists x, (m = CNI x /\ ControlPlane (x +:+ "-cni") ∈ running r) \/
             (m = ControlPlane (x +:+ "-cni") /\ CNI x ∈ running r)).
Proof.
  intros Hr Hm.
  apply registry_invariant in Hr as [Hn Hk].
  assert (m ∉ running (start_monitor m r) <-> monitor_key m ∈ monitorRegistry r) as ->.
  { unfold start_monitor. case_decide; simpl; [tauto|]. set_solver. }
  rewrite Hk, list_elem_of_fmap. split.
  - intros (m' & [->|(x & H)]%monitor_key_clash & Hin); [done|]. exists x. naive_solver.
  - intros (x & [[-> H]|[-> H]]); eexists; (split; [|exact H]); done.
Qed.

Lemma start_monitor_blocked_witness :
  ControlPlane ("edge" +:+ "-cni") ∉
    running (start_monitor (ControlPlane ("edge" +:+ "-cni"))
               (start_monitor (CNI "edge") empty_registry)).
Proof.
  apply start_monitor_blocked.
  - eapply rtc_l; [apply step_start|]. apply rtc_refl.
  - apply (bool_decide_unpack _). vm_compute. exact I.
  - exists "edge". right. split; [reflexivity|left].
Defined.

(** ** The detectors *)

(** Observations are [(time, ready)], oldest first. The number of misses since
    the last ready observation: *)
Definition misses (obs : list (Time * bool)) : nat :=
  foldl (fun n (o : Time * bool) => if o.2 then O else S n) O obs.

Lemma misses_snoc obs o : misses (obs ++ [o]) = if o.2 then O else S (misses obs).
Proof. unfold misses. by rewrite foldl_app. Qed.

(** The state after the observations [obs], and whether the next one is reported. *)
Definition run_detector {St} (observe : St -> Time * bool -> St * bool) (st : St)
    (obs : list (Time * bool)) : St := foldl (fun st o => (observe st o).1) st obs.

Lemma run_detector_snoc {St} (observe : St -> Time * bool -> St * bool) st obs o :
  run_detector observe st (obs ++ [o]) = (observe (run_detector observe st obs) o).1.
Proof. unfold run_detector. by rewrite foldl_app. Qed.

Lemma cp_state t0 obs :
  let st := run_detector cp_observe (cp_init t0) obs in
  cp_MissCount st = Z.of_nat (misses obs) /\ cp_IsTriggered st = (2 <? misses obs)%nat.
Proof.
  induction obs as [|o obs IH] using rev_ind; [done|]. cbn zeta in *.
  rewrite run_detector_snoc, misses_snoc. destruct IH as [Hm Ht].
  set (st := run_detector _ _ _) in *. unfold cp_observe. destruct o as [now []]; simpl; [done|].
  unfold cp_missed. rewrite Hm, Ht. destruct (Nat.ltb_spec 2 (misses obs)) as [H|H]; simpl.
  - split; [lia|]. symmetry. apply Nat.ltb_lt. lia.
  - destruct (Z.ltb_spec 2 (Z.of_nat (misses obs) + 1)); simpl;
      (split; [lia|]); symmetry; [apply Nat.ltb_lt|apply Nat.ltb_ge]; lia.
Qed.

(** C5: The control-plane monitor reports an outage at the third failed probe in a
    row since the last successful one (or since the start), and at no other:
    never earlier, and never again before a probe succeeds. *)
Theorem cp_reports_third_miss t0 obs now ready :
  (cp_observe (run_detector cp_observe (cp_init t0) obs) (now, ready)).2 =
  negb ready && (misses obs =? 2)%nat.
Proof.
  destruct (cp_state t0 obs) as [Hm Ht]. set (st := run_detector _ _ _) in *.
  unfold cp_observe. destruct ready; simpl; [done|]. unfold cp_missed. rewrite Hm, Ht.
  destruct (Nat.eqb_spec (misses obs) 2) as [->|Hne]; [done|].
  destruct (Nat.ltb_spec 2 (misses obs)); simpl; [done|].
  destruct (Z.ltb_spec 2 (Z.of_nat (misses obs) + 1)); [lia|done].
Qed.

(** The time of the last ready observation (or of the start), and whether a miss
    after it was more than the window away from it. *)
Definition last_ready (t0 : Time) (obs : list (Time * bool)) : Time :=
  foldl (fun t (o : Time * bool) => if o.2 then o.1 else t) t0 obs.
Definition overdue_step (a o : Time * bool) : Time * bool :=
  if o.2 then (o.1, false) else (a.1, a.2 || (cni_timeoutWindow <? o.1 - a.1)%Z).
Definition overdue (t0 : Time) (obs : list (Time * bool)) : bool :=
  (foldl overdue_step (t0, false) obs).2.

Lemma cni_state t0 obs :
  let st := run_detector cni_observe (cni_init t0) obs in
  cni_TLastHeartbeat st = last_ready t0 obs /\ cni_IsTriggered st = overdue t0 obs.
Proof.
  cbn zeta. unfold overdue, last_ready.
  enough (forall st a, cni_TLastHeartbeat st = a.1 -> cni_IsTriggered st = a.2 ->
    let st' := run_detector cni_observe st obs in
    let a' := foldl overdue_step a obs in
    cni_TLastHeartbeat st' = foldl (fun t (o : Time * bool) => if o.2 then o.1 else t) a.1 obs /\
    cni_IsTriggered st' = a'.2) as H by by apply (H _ (t0, false)).
  induction obs as [|[now ready] obs IH]; intros st a H1 H2; [done|]. cbn [foldl run_detector].
  set (a' := overdue_step a (now, ready)). specialize (IH (cni_observe st (now, ready)).1 a').
  replace (if (now, ready).2 then (now, ready).1 else a.1) with a'.1 by (by destruct ready).
  apply IH; subst a'; unfold overdue_step, cni_observe; destruct ready; simpl; try done; unfold cni_missed;
    destruct (negb _ && _) eqn:Hc; simpl; try done.
  - apply andb_true_iff in Hc as [_ Hc]. rewrite H1 in Hc. apply Z.ltb_lt, Sub_gt in Hc; [|done].
    symmetry. apply orb_true_iff. right. by apply Z.ltb_lt.
  - rewrite H2 in *. destruct a.2; [done|]. simpl in *. rewrite H1 in Hc.
    symmetry. apply Z.ltb_ge. apply Z.ltb_ge in Hc. unfold Sub, cni_timeoutWindow in *.
    assert (minInt64 < 3 * Second < maxInt64)%Z by done. lia.
Qed.

(** C10: The network monitor reports an outage at the first failed probe that comes
    more than three seconds after the last successful one (or after the start),
    and not again before a probe succeeds. *)
Theorem cni_reports_first_overdue t0 obs now ready :
  (cni_observe (run_detector cni_observe (cni_init t0) obs) (now, ready)).2 =
  negb ready && negb (overdue t0 obs) && (cni_timeoutWindow <? now - last_ready t0 obs)%Z.
Proof.
  destruct (cni_state t0 obs) as [Hl Ht]. set (st := run_detector _ _ _) in *.
  unfold cni_observe. destruct ready; simpl; [done|]. unfold cni_missed. rewrite Hl, Ht.
  destruct (overdue t0 obs); simpl; [done|].
  assert (minInt64 <= cni_timeoutWindow < maxInt64)%Z as Hb by done.
  pose proof (Sub_gt now (last_ready t0 obs) _ Hb) as Hs.
  destruct (Z.ltb_spec cni_timeoutWindow (Sub now (last_ready t0 obs)));
    destruct (Z.ltb_spec cni_timeoutWindow (now - last_ready t0 obs)); simpl; (done || lia).
Qed.

(** ** The loops implement the detectors *)

Section Monitored.
Context {X : Externals} {St : Type}.
Context (observe : St -> Time * bool -> St * bool).
Context (check : Client -> RestConfig -> M (string * option error)) (recovery : M unit).

(** What a finished probe says. *)
Definition verdict (r : string * option error) : bool :=
  match r.2 with Some _ => false | None => (r.1 =? "Ready")%string end.

Definition quiet (e : event) : Prop :=
  is_capi_event e \/ match e with Ev Now _ | Ev (AwaitTick _) _ => True | _ => False end.

(** The abstract monitor: from the detector state [st], the observations and the
    events of a run. A tick is quiet, or it reads the clock, builds the client,
    probes, feeds the detector, and recovers exactly when the detector reports.
    A run may stop after any tick, and in a panic of the probe. *)
Inductive monitored : St -> list (Time * bool) -> trace -> Prop :=
| mon_stop st : monitored st [] []
| mon_quiet st obs t t' :
    Forall quiet t -> monitored st obs t' -> monitored st obs (t ++ t')
| mon_panic st cl cfg s :
    r_out (check cl cfg s) = Crash -> monitored st [] (r_trace (check cl cfg s))
| mon_ready st obs now0 now pre cl cfg s r post t' :
    Forall is_capi_event pre ->
    r_out (check cl cfg s) = Ret r -> verdict r = true ->
    (post = [] /\ now = now0) \/ post = [Ev Now now] ->
    monitored (observe st (now, true)).1 obs t' ->
    monitored st ((now, true) :: obs)
      (Ev Now now0 :: pre ++ r_trace (check cl cfg s) ++ post ++ t')
| mon_missed st obs now pre cl cfg s r s' t' :
    Forall is_capi_event pre ->
    r_out (check cl cfg s) = Ret r -> verdict r = false ->
    monitored (observe st (now, false)).1 obs t' ->
    monitored st ((now, false) :: obs)
      (Ev Now now :: pre ++ r_trace (check cl cfg s) ++
       (if (observe st (now, false)).2 then r_trace (recovery s') else []) ++ t').

(** A tick, followed by whatever comes next. *)
Definition tick_refines (tick : St -> M St) : Prop :=
  forall st s, exists obs1,
    match r_out (tick st s) with
    | Ret st' => st' = run_detector observe st obs1 /\
        forall obs t', monitored st' obs t' ->
          monitored st (obs1 ++ obs) (r_trace (tick st s) ++ t')
    | Crash => monitored st obs1 (r_trace (tick st s))
    end.

Lemma run_detector_app st o1 o2 :
  run_detector observe st (o1 ++ o2) = run_detector observe (run_detector observe st o1) o2.
Proof. unfold run_detector. by rewrite foldl_app. Qed.

Lemma monitor_loop_refines n interval tick st :
  tick_refines tick ->
  spec (monitor_loop n interval tick st) (fun o t => exists obs, monitored st obs t /\
    forall st', o = Ret st' -> st' = run_detector observe st obs).
Proof.
  intros Htick. revert st. induction n as [|n IH]; intros st; apply spec_of_wp; intros s;
    cbn [monitor_loop].
  { wp_step. exists []. split; [constructor|]. naive_solver. }
  wp_step. wp_step.
  assert (forall obs t, monitored st obs t ->
    monitored st obs (Ev (AwaitTick interval) r :: t)) as Hq.
  { intros obs t H. apply (mon_quiet _ _ [_]); [|done]. constructor; [by right|done]. }
  destruct r.
  2:{ wp_step. exists []. split; [apply Hq; constructor|]. naive_solver. }
  wp_step. unfold wp at 1. destruct (Htick st (MkState w (ms_singleton s))) as (obs1 & H1).
  destruct (r_out (tick st _)) as [st'|].
  2:{ exists obs1. split; [by apply Hq|]. naive_solver. }
  destruct H1 as [-> H1]. eapply wp_spec; [apply IH|]. cbn beta.
  intros o s' t (obs2 & H2 & H3). exists (obs1 ++ obs2). split.
  - rewrite <- app_assoc. simpl. by apply Hq, H1.
  - intros st' ->. rewrite (H3 st' eq_refl). by rewrite run_detector_app.
Qed.

End Monitored.

Section Refinement.
Context {X : Externals}.

Definition cp_check (cl : Client) (_ : RestConfig) : M (string * option error) :=
  controlplane.CheckControlPlaneStatus cl.

Lemma quiet_capi t : Forall is_capi_event t -> Forall quiet t.
Proof. intros H. eapply Forall_impl; [exact H|]. intros e He. by left. Qed.

(** Building the client of a workload cluster, and going on without it. *)
Lemma wp_client {A} mgmt name (d : M A) (k : Client -> RestConfig -> M A) Q s tr :
  (forall s' t, Forall is_capi_event t -> wp d Q s' (tr ++ t)) ->
  (forall s' t cl cfg, Forall is_capi_event t -> wp (k cl cfg) Q s' (tr ++ t)) ->
  (forall s' t, Forall is_capi_event t -> Q Crash s' (tr ++ t)) ->
  wp (capiCluster <- GetCapiClusterFromName name "default" mgmt ;;
      match capiCluster with
      | Err _ => d
      | Ok capiCluster =>
          res <- GetClusterClient capiCluster ;;
          match res with
          | Err _ | Ok (_, _, false) => d
          | Ok (cl, cfg, true) => k cl cfg
          end
      end) Q s tr.
Proof.
  intros Hd Hk Hc. wp_step. eapply wp_emits; [apply emits_GetCapiClusterFromName|].
  intros [[c|e]|] s1 t1 H1; [|by apply Hd|by apply Hc].
  wp_step. eapply wp_emits; [apply emits_GetClusterClient|].
  assert (forall t2, Forall is_capi_event t2 -> Forall is_capi_event (t1 ++ t2)) as Ht
    by (intros t2 H2; by apply Forall_app).
  intros [[[[cl cfg] [|]]|e]|] s2 t2 H2; rewrite <- app_assoc; auto.
Qed.

Lemma quiet_tick {St} observe check recovery (st : St) now t :
  Forall is_capi_event t ->
  forall obs t', monitored observe check recovery st obs t' ->
    monitored observe check recovery st obs ((Ev Now now :: t) ++ t').
Proof.
  intros Ht obs t' H. apply mon_quiet; [|done]. constructor; [by right|by apply quiet_capi].
Qed.

Section Tick.
Context {St : Type} (observe : St -> Time * bool -> St * bool).
Context (check : Client -> RestConfig -> M (string * option error)) (recovery : M unit).

(** What [tick_refines] says of a run. *)
Definition refined (st : St) (o : outcome St) (t : trace) : Prop :=
  exists obs1,
    match o with
    | Ret st' => st' = run_detector observe st obs1 /\
        forall obs t', monitored observe check recovery st' obs t' ->
          monitored observe check recovery st (obs1 ++ obs) (t ++ t')
    | Crash => monitored observe check recovery st obs1 t
    end.

Lemma tick_refines_wp (tick : St -> M St) :
  (forall st s, wp (tick st) (fun o _ t => refined st o t) s []) ->
  tick_refines observe check recovery tick.
Proof. intros H st s. exact (H st s). Qed.

Lemma refined_quiet st now t : Forall is_capi_event t -> refined st (Ret st) (Ev Now now :: t).
Proof. intros Ht. exists []. split; [done|]. by apply quiet_tick. Qed.

(** Probing, and acting on the verdict. *)
Lemma refined_probe st now t s' cl cfg (v : string * option error -> bool) (ready : M St) :
  Forall is_capi_event t ->
  (forall r, v r = verdict r) ->
  (forall s2, exists now2, r_out (ready s2) = Ret (observe st (now2, true)).1 /\
     ((r_trace (ready s2) = [] /\ now2 = now) \/ r_trace (ready s2) = [Ev Now now2])) ->
  wp (r <- check cl cfg ;;
      if v r then ready
      else let '(st', detected) := observe st (now, false) in
           if detected then recovery ;;; ret st' else ret st')
    (fun o _ t => refined st o t) s' (Ev Now now :: t).
Proof.
  intros Ht Hv Hready. wp_step. unfold wp at 1.
  destruct (r_out (check cl cfg s')) as [r|] eqn:Hr; cbn beta iota zeta.
  2:{ exists []. apply quiet_tick; [done|]. by apply mon_panic. }
  rewrite Hv. destruct (verdict r) eqn:Hvr.
  { unfold wp. destruct (Hready (r_state (check cl cfg s'))) as (now2 & -> & Hpost).
    exists [(now2, true)]. split; [done|]. intros obs t' H. rewrite <- !app_assoc.
    apply (mon_ready _ _ _ st obs now now2 t cl cfg s' r); auto. }
  pose proof (fun s2 obs t' => mon_missed observe check recovery st obs now t cl cfg s' r s2 t'
    Ht Hr Hvr) as Hmon.
  destruct (observe st (now, false)) as [st' detected] eqn:Ho. simpl in Hmon.
  assert (st' = run_detector observe st [(now, false)]) as Hst
    by (unfold run_detector; simpl; by rewrite Ho).
  destruct detected.
  - wp_step. unfold wp at 1. destruct (r_out (recovery _)); [wp_step|];
      exists [(now, false)]; rewrite <- !app_assoc; simpl.
    + split; [done|]. intros obs t' H. rewrite <- !app_assoc. by apply Hmon.
    + rewrite <- (app_nil_r (r_trace (recovery _))). apply Hmon, mon_stop.
  - wp_step. exists [(now, false)]. split; [done|].
    intros obs t' H. rewrite <- !app_assoc. by apply (Hmon s').
Qed.

End Tick.

Lemma cp_tick_refines mgmt policy startupTime :
  tick_refines cp_observe cp_check
    (recover mgmt policy "control-plane unhealthy or fault") (cp_tick mgmt policy startupTime).
Proof.
  apply tick_refines_wp. intros st s. unfold cp_tick. wp_step. apply wp_do. intros now w. cbn [app].
  destruct (_ <? _)%Z; [wp_step; by apply refined_quiet|].
  apply wp_client; cbn [app]; [intros; wp_step; by apply refined_quiet| |].
  - intros s' t cl cfg Ht.
    apply (refined_probe cp_observe cp_check (recover mgmt policy _) st now t s' cl cfg
      (fun r => match r.2 with Some _ => controlplane.ControlPlaneUnreachable | None => r.1 end =?
        controlplane.ControlPlaneReady)%string (t <- do Now ;; ret (cp_ready t)));
      [done|by intros [? []]|].
    intros s2. eexists. split; [reflexivity|]. by right.
  - intros s' t Ht. exists []. rewrite <- (app_nil_r (_ :: t)). apply quiet_tick; [done|constructor].
Qed.

Lemma cni_tick_refines mgmt policy startupTime :
  tick_refines cni_observe cnifault.CheckCNIStatus
    (recover mgmt policy "CNI unhealthy or fault") (cni_tick mgmt policy startupTime).
Proof.
  apply tick_refines_wp. intros st s. unfold cni_tick. wp_step. apply wp_do. intros now w. cbn [app].
  destruct (_ <? _)%Z; [wp_step; by apply refined_quiet|].
  apply wp_client; cbn [app]; [intros; wp_step; by apply refined_quiet| |].
  - intros s' t cl cfg Ht.
    apply (refined_probe cni_observe cnifault.CheckCNIStatus (recover mgmt policy _) st now t s' cl
      cfg (fun r => match r.2 with Some _ => cnifault.CNINotReady | None => r.1 end =?
        cnifault.CNIReady)%string (ret (cni_ready now)));
      [done|by intros [? []]|].
    intros s2. exists now. split; [reflexivity|]. by left.
  - intros s' t Ht. exists []. rewrite <- (app_nil_r (_ :: t)). apply quiet_tick; [done|constructor].
Qed.

End Refinement.

(** C4: Every run of the control-plane monitor, of any length, is a run of the
    abstract monitor: the detector sees the verdict of each probe made after the
    warm-up with a client of the cluster, and the recovery runs at the ticks
    that the detector reports, and at no others; the state that is kept is the
    detector's. *)
Theorem cp_monitor_refines {X : Externals} n mgmt policy s :
  let r := cp_monitor n mgmt policy s in
  exists t0 obs t, r_trace r = Ev Now t0 :: t /\
    monitored cp_observe cp_check (recover mgmt policy "control-plane unhealthy or fault")
      (cp_init t0) obs t /\
    forall st, r_out r = Ret st -> st = run_detector cp_observe (cp_init t0) obs.
Proof.
  cbn zeta. apply (spec_of_wp (cp_monitor n mgmt policy) (fun o tr => exists t0 obs t,
    tr = Ev Now t0 :: t /\ monitored cp_observe cp_check (recover mgmt policy _) (cp_init t0) obs t /\
    forall st, o = Ret st -> st = run_detector cp_observe (cp_init t0) obs)).
  clear s. intros s. unfold cp_monitor. wp_step. apply wp_do. intros t0 w.
  eapply wp_spec; [apply monitor_loop_refines, cp_tick_refines|]. cbn beta.
  intros o s' t (obs & H1 & H2). by exists t0, obs, t.
Qed.
