(* ===== verification/Heartbeat.v ===== *)
(** * Heartbeats

    reconcilers/heartbeat/heartbeat_server.go: the store of heartbeats, the HTTP
    handler that fills it, and the monitor that reports silent nodes. Requests and
    ticks are the inputs of one system, in the order in which they take the lock. *)
From S2P Require Import Prelude Types Runtime Capi Pool Reconcile Monitors.

Record HeartbeatPayload := MkHeartbeatPayload {
  hb_NodeName : string;
  hb_IPAddress : string;
  hb_OS : string;
  hb_Arch : string;
  hb_CPUCount : Z;
  hb_MemoryMB : Z;
  hb_Extra : gmap string string;
  hb_ReceivedAt : Time;
  hb_ClusterName : string;
  hb_ClusterNS : string;
  hb_Machine : string;
  hb_OwnerKind : string;
  hb_OwnerName : string;
  hb_ProvidedIP : string;
  hb_CRISocket : string;
  hb_MissCount : Z }.

(** ** The store *)

Abbreviation HeartbeatStore := (gmap string HeartbeatPayload).

Definition NewHeartbeatStore : HeartbeatStore := ∅.

(** The payload as the store keeps it. The parameter of [Update] is a copy. *)
Definition received (now : Time) (hb : HeartbeatPayload) : HeartbeatPayload :=
  MkHeartbeatPayload (hb_NodeName hb) (hb_IPAddress hb) (hb_OS hb) (hb_Arch hb) (hb_CPUCount hb)
    (hb_MemoryMB hb) (hb_Extra hb) now (hb_ClusterName hb) (hb_ClusterNS hb) (hb_Machine hb)
    (hb_OwnerKind hb) (hb_OwnerName hb) (hb_ProvidedIP hb) (hb_CRISocket hb) 0.

Definition Get (s : HeartbeatStore) (node : string) : option HeartbeatPayload := s !! node.

(** ** The detector of one node *)

Record NodeState := MkNodeState {
  ns_TLastHeartbeat : Time; ns_TDetected : Time; ns_IsTriggered : bool; ns_MissCount : Z }.

Definition new_NodeState (hb : HeartbeatPayload) : NodeState :=
  MkNodeState (hb_ReceivedAt hb) ZeroTime false 0.

Definition node_alive (receivedAt : Time) : NodeState := MkNodeState receivedAt ZeroTime false 0.

(** A tick without a newer heartbeat: the new state, and whether the node is
    reported; [TDetected] is set again when it is. *)
Definition node_missed (now : Time) (st : NodeState) : NodeState * bool :=
  let MissCount := (ns_MissCount st + 1)%Z in
  let TDetected := if IsZero (ns_TDetected st) then now else ns_TDetected st in
  if negb (ns_IsTriggered st) && (12 <? MissCount)%Z
  then (MkNodeState (ns_TLastHeartbeat st) TDetected true MissCount, true)
  else (MkNodeState (ns_TLastHeartbeat st) TDetected (ns_IsTriggered st) MissCount, false).

Definition node_observe (now : Time) (hb : HeartbeatPayload) (st : NodeState) : NodeState * bool :=
  if After (hb_ReceivedAt hb) (ns_TLastHeartbeat st) then (node_alive (hb_ReceivedAt hb), false)
  else node_missed now st.

(** The machine of an AWS node: the last one whose node reference matches. *)
Definition aws_machine (nodeName : string) (machines : list Machine) : string :=
  foldl (fun machineName m =>
    match m_NodeRef m with
    | Some ref =>
        if negb (ref =? "")%string && (nodeName =? ref)%string then m_Name m else machineName
    | None => machineName
    end) "" machines.

Record HttpRequest := MkHttpRequest {
  rq_Path : string;
  rq_Method : string;
  rq_Body : result HeartbeatPayload  (* what decoding the JSON body gives *) }.

(** The answer: a status, or 200 with a JSON list of payloads. *)
Inductive HttpAnswer := Status (code : Z) | Nodes (nodes : list HeartbeatPayload).

Definition StatusNotFound : Z := 404.
Definition StatusNoContent : Z := 204.
Definition StatusBadRequest : Z := 400.
Definition StatusMethodNotAllowed : Z := 405.

Section Heartbeat.
Context {X : Externals} (mgmt : Client) (namespace : string).

Definition Update (s : HeartbeatStore) (hb : HeartbeatPayload) : M HeartbeatStore :=
  now <- do Now ;;
  ret (<[ hb_NodeName hb := received now hb ]> s).

(** A map has no order: [range] visits it in an arbitrary one. *)
Definition All (s : HeartbeatStore) : M (list HeartbeatPayload) :=
  choices <- do Schedule ;;
  let l := snd <$> map_to_list s in
  ret (reorder (length l) choices l).

Definition new_NodeHealth (hb : HeartbeatPayload) (condition : string) : NodeHealth :=
  MkNodeHealth "nephio.dev/v1" "NodeHealth" (named namespace (hb_NodeName hb))
    (MkNodeHealthSpec (hb_NodeName hb))
    (MkNodeHealthStatus [] (hb_IPAddress hb) (hb_OS hb) (hb_Arch hb) (hb_CPUCount hb) ""
       (hb_MemoryMB hb) 0 (hb_ReceivedAt hb) condition "" "" "" "" "" "" "").

Definition with_heartbeat (nh : NodeHealth) (hb : HeartbeatPayload) (condition : string)
    : NodeHealth :=
  let st := nh_Status nh in
  MkNodeHealth (nh_APIVersion nh) (nh_Kind nh) (nh_Meta nh) (nh_Spec nh)
    (MkNodeHealthStatus (nhst_Conditions st) (hb_IPAddress hb) (hb_OS hb) (hb_Arch hb)
       (hb_CPUCount hb) (nhst_CPUUsage st) (hb_MemoryMB hb) (nhst_MemUsed st) (hb_ReceivedAt hb)
       condition (nhst_ClusterName st) (nhst_ClusterNS st) (nhst_Machine st) (nhst_OwnerKind st)
       (nhst_OwnerName st) (nhst_ProvidedIP st) (nhst_CRISocket st)).

(** Any error of the read, not only NotFound, leads to a creation. *)
Definition UpsertNodeHealth (hb : HeartbeatPayload) (condition : string) : M (result unit) :=
  nh <- do (KGetNodeHealth mgmt (NN namespace (hb_NodeName hb))) ;;
  match nh with
  | Err _ => do (KCreateNodeHealth mgmt (new_NodeHealth hb condition))
  | Ok nh =>
      let nh := with_heartbeat nh hb condition in
      err <- do (KUpdateNodeHealthStatus mgmt nh) ;;
      match err with
      | Err _ => do (KUpdateNodeHealth mgmt nh)
      | Ok _ => ret (Ok tt)
      end
  end.

(** The [/heartbeat] handler: the new store and the HTTP status. *)
Definition handle_heartbeat (rq : HttpRequest) (s : HeartbeatStore) : M (HeartbeatStore * Z) :=
  if negb (rq_Method rq =? "POST")%string then ret (s, StatusMethodNotAllowed)
  else
    match rq_Body rq with
    | Err _ => ret (s, StatusBadRequest)
    | Ok hb =>
        s <- Update s hb ;;
        UpsertNodeHealth hb "Healthy" ;;;
        ret (s, StatusNoContent)
    end.

(** The [/nodes] handler. *)
Definition handle_nodes (s : HeartbeatStore) : M HttpAnswer :=
  nodes <- All s ;; ret (Nodes nodes).

(** The multiplexer of RunHeartbeatServer. *)
Definition RunHeartbeatServer (rq : HttpRequest) (s : HeartbeatStore)
    : M (HeartbeatStore * HttpAnswer) :=
  if (rq_Path rq =? "/heartbeat")%string then
    r <- handle_heartbeat rq s ;; ret (r.1, Status r.2)
  else if (rq_Path rq =? "/nodes")%string then
    a <- handle_nodes s ;; ret (s, a)
  else ret (s, Status StatusNotFound).

(** The name of the cluster of a node; [None] when MonitorNodes returns. When the
    machine cannot be read the name is empty. *)
Definition cluster_of_node (nodeName : string) : M (option string) :=
  let get machineName :=
    machine <- do (KGetMachine mgmt (NN namespace machineName)) ;;
    match machine with
    | Ok machine => ret (Some (m_ClusterName machine))
    | Err _ => ret (Some (m_ClusterName zero_Machine))
    end in
  if Contains nodeName ".compute.internal" then
    machineList <- do (KListMachines mgmt namespace ∅) ;;
    match machineList with
    | Err _ => ret None
    | Ok machineList => get (aws_machine nodeName machineList)
    end
  else get nodeName.

(** One node of a tick. *)
Definition monitor_node (now : Time) (hb : HeartbeatPayload) (state : gmap string NodeState)
    : M (flow (gmap string NodeState) unit) :=
  let st := default (new_NodeState hb) (state !! hb_NodeName hb) in
  let '(st, detected) := node_observe now hb st in
  if detected then
    t <- do Now ;;
    let st := MkNodeState (ns_TLastHeartbeat st) t (ns_IsTriggered st) (ns_MissCount st) in
    let state := <[ hb_NodeName hb := st ]> state in
    clusterName <- cluster_of_node (hb_NodeName hb) ;;
    match clusterName with
    | None => ret (Return tt)
    | Some clusterName =>
        ReconcileClusterPoliciesForNode mgmt (hb_NodeName hb) clusterName ;;;
        UpsertNodeHealth hb "Unhealthy" ;;;
        ret (Next state)
    end
  else ret (Next (<[ hb_NodeName hb := st ]> state)).

Definition hb_warmupPeriod : Duration := (5 * Second)%Z.

(** A tick of MonitorNodes. *)
Definition monitor_tick (startupTime : Time) (s : HeartbeatStore) (state : gmap string NodeState)
    : M (flow (gmap string NodeState) unit) :=
  now <- do Now ;;
  if (Sub now startupTime <? hb_warmupPeriod)%Z then ret (Next state)
  else
    nodes <- All s ;;
    forEach nodes state (monitor_node now).

(** ** The system: the store, the monitor's states, whether it still runs *)

Record hb_system := MkHbSystem {
  sys_store : HeartbeatStore; sys_state : gmap string NodeState; sys_running : bool }.

Inductive hb_input := Request (rq : HttpRequest) | Tick.

Definition hb_step (startupTime : Time) (i : hb_input) (sys : hb_system) : M hb_system :=
  match i with
  | Request rq =>
      r <- RunHeartbeatServer rq (sys_store sys) ;;
      ret (MkHbSystem r.1 (sys_state sys) (sys_running sys))
  | Tick =>
      if sys_running sys then
        r <- monitor_tick startupTime (sys_store sys) (sys_state sys) ;;
        match r with
        | Next state => ret (MkHbSystem (sys_store sys) state true)
        | Return _ => ret (MkHbSystem (sys_store sys) (sys_state sys) false)
        end
      else ret sys
  end.

Fixpoint hb_run (startupTime : Time) (inputs : list hb_input) (sys : hb_system) : M hb_system :=
  match inputs with
  | [] => ret sys
  | i :: inputs' => sys' <- hb_step startupTime i sys ;; hb_run startupTime inputs' sys'
  end.

(** StartServer: an empty store, and the monitor. *)
Definition StartServer (inputs : list hb_input) : M hb_system :=
  startupTime <- do Now ;;
  hb_run startupTime inputs (MkHbSystem NewHeartbeatStore ∅ true).

End Heartbeat.

#[global] Arguments UpsertNodeHealth : simpl never.
#[global] Arguments cluster_of_node : simpl never.
#[global] Arguments ReconcileClusterPoliciesForNode : simpl never.
#[global] Arguments monitor_node : simpl never.
#[global] Arguments All : simpl never.
#[global] Arguments monitor_tick : simpl never.
#[global] Arguments handle_heartbeat : simpl never.

(** ** The detector *)

(** The heartbeats seen at the ticks, oldest first: the newest one, and the number
    of ticks since it was first seen that brought nothing newer. *)
Definition stale_step (a : Time * nat) (o : Time * HeartbeatPayload) : Time * nat :=
  if After (hb_ReceivedAt o.2) a.1 then (hb_ReceivedAt o.2, O) else (a.1, S a.2).
Definition stale (t0 : Time) (obs : list (Time * HeartbeatPayload)) : Time * nat :=
  foldl stale_step (t0, O) obs.

Definition node_run (st : NodeState) (obs : list (Time * HeartbeatPayload)) : NodeState :=
  foldl (fun st o => (node_observe o.1 o.2 st).1) st obs.

(** The detector's fields that follow from a count of stale ticks. *)
Definition node_agrees (st : NodeState) (a : Time * nat) : Prop :=
  ns_TLastHeartbeat st = a.1 /\ ns_MissCount st = Z.of_nat a.2 /\
  ns_IsTriggered st = (12 <? a.2)%nat.

Lemma node_observe_agrees now hb st a :
  node_agrees st a ->
  node_agrees (node_observe now hb st).1 (stale_step a (now, hb)) /\
  (node_observe now hb st).2 = negb (After (hb_ReceivedAt hb) a.1) && (a.2 =? 12)%nat.
Proof.
  intros (Hl & Hm & Ht). unfold node_observe, stale_step. rewrite Hl. cbn [snd].
  destruct (After _ _); simpl; [done|]. unfold node_missed. rewrite Hm, Ht.
  destruct (Nat.ltb_spec 12 a.2), (Nat.eqb_spec a.2 12),
    (Z.ltb_spec 12 (Z.of_nat a.2 + 1)); simpl; try lia; unfold node_agrees; simpl;
    (split; [|done]); (split; [done|]); (split; [lia|]);
    symmetry; (apply Nat.leb_le || apply Nat.leb_gt); lia.
Qed.

Lemma node_run_agrees st a obs :
  node_agrees st a -> node_agrees (node_run st obs) (foldl stale_step a obs).
Proof.
  revert st a. induction obs as [|[now hb] obs IH]; intros st a H; [done|]. simpl.
  by apply IH, node_observe_agrees.
Qed.

(** Which observations of a run are reported. *)
Fixpoint node_reports (st : NodeState) (obs : list (Time * HeartbeatPayload)) : list bool :=
  match obs with
  | [] => []
  | o :: obs' => (node_observe o.1 o.2 st).2 :: node_reports (node_observe o.1 o.2 st).1 obs'
  end.

Definition count (l : list bool) : nat := length (List.filter id l).

Lemma count_app l1 l2 : count (l1 ++ l2) = (count l1 + count l2)%nat.
Proof. unfold count. by rewrite List.filter_app, length_app. Qed.

Lemma node_reports_app st o1 o2 :
  node_reports st (o1 ++ o2) = node_reports st o1 ++ node_reports (node_run st o1) o2.
Proof. revert st. induction o1 as [|o o1 IH]; intros st; [done|]. cbn. by rewrite IH. Qed.

(** Ticks at which the heartbeat of time [t] is still the last one. *)
Definition all_of (t : Time) (obs : list (Time * HeartbeatPayload)) : Prop :=
  Forall (fun o => hb_ReceivedAt o.2 = t) obs.

(** After [j] stale ticks, more of them report once, when the thirteenth comes. *)
Lemma stale_block t obs st j :
  node_agrees st (t, j) -> all_of t obs ->
  node_agrees (node_run st obs) (t, (j + length obs)%nat) /\
  count (node_reports st obs) =
    if ((j <=? 12) && (12 <? j + length obs))%nat then 1%nat else 0%nat.
Proof.
  revert st j. induction obs as [|[now hb] obs IH]; intros st j Hst Hobs.
  { cbn [length]. rewrite Nat.add_0_r. split; [done|]. cbn [node_reports].
    destruct (Nat.leb_spec j 12), (Nat.ltb_spec 12 j); cbn; lia. }
  apply Forall_cons in Hobs as [Ht Hobs]. cbn [snd] in Ht.
  destruct (node_observe_agrees now hb st (t, j) Hst) as [Hst' Hr].
  unfold stale_step in Hst'. cbn [fst snd] in Hst', Hr.
  assert (After (hb_ReceivedAt hb) t = false) as Hno by (rewrite Ht; apply Z.ltb_irrefl).
  rewrite Hno in Hst', Hr. cbn [negb andb] in Hr.
  destruct (IH _ _ Hst' Hobs) as [Hrun Hc]. split.
  - cbn. replace (j + S (length obs))%nat with (S j + length obs)%nat by lia. exact Hrun.
  - change (count (node_reports st ((now, hb) :: obs)))
      with (count ([(node_observe now hb st).2] ++ node_reports (node_observe now hb st).1 obs)).
    rewrite count_app, Hr, Hc. cbn [length].
    destruct (Nat.eqb_spec j 12), (Nat.leb_spec (S j) 12), (Nat.leb_spec j 12),
      (Nat.ltb_spec 12 (S j + length obs)), (Nat.ltb_spec 12 (j + S (length obs)));
      cbn; lia.
Qed.

(** A new heartbeat that is seen at [k] ticks. *)
Lemma fresh_block t now hb obs st t0 j :
  node_agrees st (t0, j) -> After t t0 = true -> hb_ReceivedAt hb = t -> all_of t obs ->
  node_agrees (node_run st ((now, hb) :: obs)) (t, length obs) /\
  count (node_reports st ((now, hb) :: obs)) = if (13 <=? length obs)%nat then 1%nat else 0%nat.
Proof.
  intros Hst Ha Ht Hobs. destruct (node_observe_agrees now hb st (t0, j) Hst) as [Hst' Hr].
  unfold stale_step in Hst'. cbn [fst snd] in Hst', Hr. rewrite Ht, Ha in Hst'.
  rewrite Ht, Ha in Hr. cbn [negb andb] in Hr.
  destruct (stale_block t obs _ 0 Hst' Hobs) as [Hrun Hc]. split; [exact Hrun|].
  change (count (node_reports st ((now, hb) :: obs)))
    with (count ([(node_observe now hb st).2] ++ node_reports (node_observe now hb st).1 obs)).
  rewrite count_app, Hr, Hc. done.
Qed.

(** The agent of a node that is alive: the monitor sees each of its heartbeats, of
    the times [times], at [k] ticks in a row. *)
Inductive steady (k : nat) : list Time -> list (Time * HeartbeatPayload) -> Prop :=
| steady_nil : steady k [] []
| steady_beat t times block obs :
    length block = k -> all_of t block -> steady k times obs ->
    steady k (t :: times) (block ++ obs).

(** Each time is later than the one before it. *)
Fixpoint later_than (t0 : Time) (times : list Time) : Prop :=
  match times with
  | [] => True
  | t :: times' => After t t0 = true /\ later_than t times'
  end.

Lemma steady_zero times obs : steady 0 times obs -> obs = [].
Proof.
  remember 0%nat as k eqn:H0. induction 1 as [|t times block obs Hk _ _ IH]; [done|].
  subst k. apply nil_length_inv in Hk as ->. by apply IH.
Qed.

Lemma steady_reports k times obs st t0 j :
  steady k times obs -> node_agrees st (t0, j) -> later_than t0 times ->
  count (node_reports st obs) = if (14 <=? k)%nat then length times else 0%nat.
Proof.
  intros Hs. revert st t0 j. induction Hs as [|t times block obs Hk Hb Hs IH];
    intros st t0 j Hst Hl; [by destruct (_ <=? _)%nat|].
  destruct Hl as [Ha Hl]. destruct block as [|[now hb] block].
  { cbn in Hk. subst k. by rewrite (steady_zero _ _ Hs). }
  apply Forall_cons in Hb as [Ht Hb]. cbn [snd] in Ht.
  destruct (fresh_block t now hb block st t0 j Hst Ha Ht Hb) as [Hrun Hc].
  rewrite node_reports_app, count_app, Hc, (IH _ _ _ Hrun Hl). cbn [length] in Hk |- *.
  destruct (Nat.leb_spec 13 (length block)), (Nat.leb_spec 14 k); lia.
Qed.

(** C9: From the tick at which a node is first seen, the monitor reports it at the
    thirteenth tick in a row at which no heartbeat is newer than the last one,
    and at no other tick, until a newer heartbeat starts the count again. Hence a
    node that is alive and whose heartbeats are [k] ticks apart is never reported
    when [k] is less than fourteen, and once after each heartbeat when it is not.
    Ticks are 100 milliseconds apart: this is so for the ten seconds that the user
    guide sets as the interval of the agent, and whatever HEARTBEAT_FAULT_DELAY is,
    which the program does not read. *)
Theorem node_reported_at_thirteenth_tick hb0 obs :
  let st := node_run (new_NodeState hb0) obs in
  (forall now hb, (node_observe now hb st).2 =
    negb (After (hb_ReceivedAt hb) (stale (hb_ReceivedAt hb0) obs).1) &&
    ((stale (hb_ReceivedAt hb0) obs).2 =? 12)%nat) /\
  (forall k times beats, steady k times beats -> later_than (ns_TLastHeartbeat st) times ->
    count (node_reports st beats) = if (14 <=? k)%nat then length times else 0%nat).
Proof.
  cbn zeta. assert (node_agrees (node_run (new_NodeState hb0) obs) (stale (hb_ReceivedAt hb0) obs))
    as Hst by by apply node_run_agrees.
  split; [intros now hb; by apply node_observe_agrees|].
  intros k times beats Hs Hl. destruct (stale (hb_ReceivedAt hb0) obs) as [t0 j].
  rewrite (proj1 Hst) in Hl. by eapply steady_reports.
Qed.

Definition hb_checkInterval : Duration := (100 * Millisecond)%Z.

(** What the monitor sees of an agent that sends a heartbeat every [interval], from
    time [t] on. *)
Definition beat (t : Time) : HeartbeatPayload :=
  received t (MkHeartbeatPayload "edge-md-0" "10.0.0.3" "linux" "amd64" 4 8192 ∅ 0 "edge" "default"
    "" "" "" "" "" 0).
Definition beat_ticks (interval : Duration) : nat := Z.to_nat (interval / hb_checkInterval).
Fixpoint agent (interval : Duration) (n : nat) (t : Time) : list (Time * HeartbeatPayload) :=
  match n with
  | O => []
  | S n' =>
      ((fun i => (t + Z.of_nat i * hb_checkInterval, beat t)%Z) <$> seq 0 (beat_ticks interval)) ++
      agent interval n' (t + interval)%Z
  end.

(** Three heartbeats, ten seconds apart: a node that is alive is reported after
    each of them. *)
Lemma node_reported_at_thirteenth_tick_witness :
  steady 100 [10 * Second; 20 * Second; 30 * Second]%Z (agent (10 * Second) 3 (10 * Second)) /\
  count (node_reports (new_NodeState (beat 0)) (agent (10 * Second) 3 (10 * Second))) = 3%nat.
Proof.
  assert (steady 100 [10 * Second; 20 * Second; 30 * Second]%Z
    (agent (10 * Second) 3 (10 * Second))) as Hs.
  { repeat (constructor; [reflexivity|by repeat constructor|]). constructor. }
  split; [exact Hs|].
  apply (proj2 (node_reported_at_thirteenth_tick (beat 0) [])
    100 [10 * Second; 20 * Second; 30 * Second]%Z _ Hs).
  repeat split; reflexivity.
Defined.

(** ** A tick *)

Section Ticks.
Context {X : Externals} (mgmt : Client) (namespace : string).

(** Equal up to the time of detection, which is only logged. *)
Definition same_node (st st' : NodeState) : Prop :=
  ns_TLastHeartbeat st = ns_TLastHeartbeat st' /\ ns_IsTriggered st = ns_IsTriggered st' /\
  ns_MissCount st = ns_MissCount st'.

#[local] Instance same_node_equiv : Equivalence same_node.
Proof. split; [done|by intros ?? (?&?&?)|]. intros ??? (?&?&?) (?&?&?). repeat split; congruence. Qed.

Definition machines_unlisted (t : trace) : Prop :=
  exists e, last t = Some (Ev (KListMachines mgmt namespace ∅) (Err e)).

(** The detector's state of a node, as a tick finds it. *)
Definition state_of (hb : HeartbeatPayload) (state : gmap string NodeState) : NodeState :=
  default (new_NodeState hb) (state !! hb_NodeName hb).

(** The tick reports the node. *)
Definition reports_node (now : Time) (hb : HeartbeatPayload) (state : gmap string NodeState) : bool :=
  (node_observe now hb (state_of hb state)).2.

(** The state of node [n] after it was examined. *)
Definition examined (now : Time) (hb : HeartbeatPayload) (state state' : gmap string NodeState)
    : Prop :=
  exists st', state' !! hb_NodeName hb = Some st' /\
    same_node st' (node_observe now hb (state_of hb state)).1.

(** What the monitor does with a reported node: it finds the node's cluster,
    reconciles the policies of that cluster, and marks the node Unhealthy. [None]:
    the machines could not be listed. *)
Definition recover_node (hb : HeartbeatPayload) : M (option unit) :=
  clusterName <- cluster_of_node mgmt namespace (hb_NodeName hb) ;;
  match clusterName with
  | None => ret None
  | Some clusterName =>
      ReconcileClusterPoliciesForNode mgmt (hb_NodeName hb) clusterName ;;;
      UpsertNodeHealth mgmt namespace hb "Unhealthy" ;;;
      ret (Some tt)
  end.

(** Node [n] was recovered, from the first call to the last. *)
Definition ran_recovery (n : string) (t : trace) : Prop :=
  exists hb s t1 t3, hb_NodeName hb = n /\ r_out (recover_node hb s) = Ret (Some tt) /\
    t = t1 ++ r_trace (recover_node hb s) ++ t3.

(** A node of AWS, whose machine has another name. *)
Definition is_aws (n : string) : bool := Contains n ".compute.internal".

(** The run ended because the machines could not be listed for an AWS node. *)
Definition unlisted_for (hb : HeartbeatPayload) (t : trace) : Prop :=
  is_aws (hb_NodeName hb) = true /\ machines_unlisted t.

(** The run ended in a panic inside the recovery of the node. *)
Definition panicked_for (hb : HeartbeatPayload) (t : trace) : Prop :=
  exists s t1, r_out (recover_node hb s) = Crash /\ t = t1 ++ r_trace (recover_node hb s).

Lemma machines_unlisted_app t1 t2 : machines_unlisted t2 -> machines_unlisted (t1 ++ t2).
Proof. intros [e H]. exists e. by rewrite last_app, H. Qed.
Lemma unlisted_for_app hb t1 t2 : unlisted_for hb t2 -> unlisted_for hb (t1 ++ t2).
Proof. intros [? ?]. split; [done|]. by apply machines_unlisted_app. Qed.
Lemma panicked_for_app hb t1 t2 : panicked_for hb t2 -> panicked_for hb (t1 ++ t2).
Proof. intros (s & t & Hc & ->). exists s, (t1 ++ t). by rewrite <-(assoc_L (++)). Qed.
Lemma ran_recovery_app n t1 t2 :
  ran_recovery n t1 \/ ran_recovery n t2 -> ran_recovery n (t1 ++ t2).
Proof.
  intros [(hb & s & a & b & Hn & Ho & ->)|(hb & s & a & b & Hn & Ho & ->)].
  - exists hb, s, a, (b ++ t2). by rewrite <-!(assoc_L (++)).
  - exists hb, s, (t1 ++ a), b. by rewrite <-!(assoc_L (++)).
Qed.

Lemma spec_cluster_of_node n :
  spec (cluster_of_node mgmt namespace n) (fun o t =>
    match o with
    | Ret None => is_aws n = true /\ machines_unlisted t
    | Ret (Some _) => True
    | Crash => False
    end).
Proof.
  apply spec_of_wp. intros s. unfold cluster_of_node, is_aws.
  destruct (Contains n ".compute.internal"); repeat wp_step; try done. split; [done|]. by eexists.
Qed.

Lemma spec_recover_node hb :
  spec (recover_node hb) (fun o t => match o with Ret None => unlisted_for hb t | _ => True end).
Proof.
  apply spec_of_wp. intros s. unfold recover_node. wp_step.
  eapply wp_spec; [apply spec_cluster_of_node|]. cbn beta. cbn [app].
  intros [[cl|]|] s1 t1 H1; [|by wp_step|done].
  wp_step. eapply (wp_spec _ (fun _ _ => True)); [done|]. intros [?|] ? ? _; [|done].
  wp_step. eapply (wp_spec _ (fun _ _ => True)); [done|]. intros [?|] ? ? _; [|done]. by wp_step.
Qed.

(** The end of [monitor_node] is the recovery. *)
Lemma monitor_recovers hb (state : gmap string NodeState) s :
  (clusterName <- cluster_of_node mgmt namespace (hb_NodeName hb) ;;
   match clusterName with
   | None => ret (@Return _ unit tt)
   | Some clusterName =>
       ReconcileClusterPoliciesForNode mgmt (hb_NodeName hb) clusterName ;;;
       UpsertNodeHealth mgmt namespace hb "Unhealthy" ;;;
       ret (Next state)
   end) s =
  (r <- recover_node hb ;;
   ret (match r with Some _ => Next state | None => Return tt end)) s.
Proof.
  unfold recover_node, bind, ret. destruct (r_out (cluster_of_node _ _ _ s)) as [[cl|]|]; cbn.
  - destruct (r_out (ReconcileClusterPoliciesForNode _ _ _ _)); cbn; [|done].
    destruct (r_out (UpsertNodeHealth _ _ _ _ _)); cbn; [|done]. by rewrite !app_nil_r.
  - by rewrite !app_nil_r.
  - done.
Qed.

(** One node of a tick. *)
Definition node_outcome (now : Time) (hb : HeartbeatPayload) (state : gmap string NodeState)
    (o : outcome (flow (gmap string NodeState) unit)) (t : trace) : Prop :=
  match o with
  | Ret (Next state') => examined now hb state state' /\
      (forall n, n ≠ hb_NodeName hb -> state' !! n = state !! n) /\
      (if reports_node now hb state then ran_recovery (hb_NodeName hb) t else t = [])
  | Ret (Return _) => reports_node now hb state = true /\ unlisted_for hb t
  | Crash => reports_node now hb state = true /\ panicked_for hb t
  end.

Lemma spec_monitor_node now hb state :
  spec (monitor_node mgmt namespace now hb state) (node_outcome now hb state).
Proof.
  apply spec_of_wp. intros s.
  assert (monitor_node mgmt namespace now hb state = (
    let '(st, detected) := node_observe now hb (state_of hb state) in
    if detected then
      t <- do Now ;;
      let st := MkNodeState (ns_TLastHeartbeat st) t (ns_IsTriggered st) (ns_MissCount st) in
      let state := <[ hb_NodeName hb := st ]> state in
      clusterName <- cluster_of_node mgmt namespace (hb_NodeName hb) ;;
      match clusterName with
      | None => ret (Return tt)
      | Some clusterName =>
          ReconcileClusterPoliciesForNode mgmt (hb_NodeName hb) clusterName ;;;
          UpsertNodeHealth mgmt namespace hb "Unhealthy" ;;;
          ret (Next state)
      end
    else ret (Next (<[ hb_NodeName hb := st ]> state)))) as -> by done.
  unfold node_outcome, examined, reports_node.
  destruct (node_observe _ _ _) as [st detected]. cbn [fst snd]. destruct detected.
  2:{ wp_step. split; [eexists; by rewrite lookup_insert_eq|].
      split; [|done]. intros n Hn. by rewrite lookup_insert_ne. }
  wp_step. apply wp_do. intros t w. eapply wp_eq; [apply monitor_recovers|]. wp_step.
  pose proof (spec_recover_node hb (MkState w (ms_singleton s))) as Hs. unfold wp at 1.
  destruct (r_out (recover_node hb (MkState w (ms_singleton s)))) as [[[]|]|] eqn:Hr; try wp_step.
  - split; [eexists; by rewrite lookup_insert_eq|].
    split; [intros n Hn; by rewrite lookup_insert_ne|].
    eexists hb, _, _, []. rewrite app_nil_r. done.
  - split; [done|]. by apply unlisted_for_app.
  - split; [done|]. by eexists _, _.
Qed.

(** All nodes of a tick. *)
Definition nodes_outcome (now : Time) (stored : HeartbeatPayload -> Prop)
    (state : gmap string NodeState) (o : outcome (flow (gmap string NodeState) unit)) (t : trace)
    : Prop :=
  match o with
  | Ret (Next state') =>
      (forall hb, stored hb -> examined now hb state state' /\
        (reports_node now hb state = true -> ran_recovery (hb_NodeName hb) t)) /\
      (forall n, (forall hb, stored hb -> hb_NodeName hb ≠ n) -> state' !! n = state !! n) /\
      ((forall hb, stored hb -> reports_node now hb state = false) -> t = [])
  | Ret (Return _) => exists hb, stored hb /\ reports_node now hb state = true /\ unlisted_for hb t
  | Crash => exists hb, stored hb /\ reports_node now hb state = true /\ panicked_for hb t
  end.

(** An examination of other nodes does not change what a node's gives. *)
Lemma state_of_frame hb hb' state state1 :
  (forall n, n ≠ hb_NodeName hb -> state1 !! n = state !! n) ->
  hb_NodeName hb' ≠ hb_NodeName hb -> state_of hb' state1 = state_of hb' state.
Proof. intros Hf Hn. unfold state_of. by rewrite Hf. Qed.

Lemma nodes_outcome_cons now hb nodes state state1 t1 o t2 :
  hb_NodeName hb ∉ hb_NodeName <$> nodes ->
  node_outcome now hb state (Ret (Next state1)) t1 ->
  nodes_outcome now (.∈ nodes) state1 o t2 ->
  nodes_outcome now (.∈ hb :: nodes) state o (t1 ++ t2).
Proof.
  intros Hnotin (He1 & Hf1 & Hr1) H2.
  assert (forall hb', hb' ∈ nodes -> hb_NodeName hb' ≠ hb_NodeName hb) as Hne.
  { intros hb' Hin Heq. apply Hnotin. rewrite <-Heq. by apply list_elem_of_fmap_2. }
  assert (forall hb', hb' ∈ nodes -> state_of hb' state1 = state_of hb' state) as Hst.
  { intros hb' Hin. eapply state_of_frame; eauto. }
  assert (forall hb', hb' ∈ nodes -> reports_node now hb' state1 = reports_node now hb' state) as Hrs.
  { intros hb' Hin. unfold reports_node. by rewrite Hst. }
  destruct o as [[state2|[]]|]; cbn in H2 |- *.
  - destruct H2 as (He2 & Hf2 & Hn2). split; [|split].
    + intros hb' [->|Hin]%elem_of_cons.
      * split.
        -- destruct He1 as (st & H & Hs). exists st. split; [|done].
           rewrite Hf2; [done|]. intros hb' Hin. auto.
        -- intros Hd. rewrite Hd in Hr1. apply ran_recovery_app. by left.
      * destruct (He2 hb' Hin) as [He Hr]. split.
        -- unfold examined in *. by rewrite Hst in He.
        -- rewrite <-Hrs by done. intros Hd. apply ran_recovery_app. right. auto.
    + intros n Hn. rewrite Hf2, Hf1; [done| |].
      * intros ->. by apply (Hn hb (list_elem_of_here _ _)).
      * intros hb' Hin. by apply Hn, list_elem_of_further.
    + intros Hno. rewrite (Hno hb (list_elem_of_here _ _)) in Hr1. subst t1. cbn. apply Hn2.
      intros hb' Hin. rewrite Hrs by done. by apply Hno, list_elem_of_further.
  - destruct H2 as (hb' & Hin & Hd & Hu). exists hb'. rewrite <-Hrs by done.
    split; [by apply list_elem_of_further|]. split; [done|]. by apply unlisted_for_app.
  - destruct H2 as (hb' & Hin & Hd & Hu). exists hb'. rewrite <-Hrs by done.
    split; [by apply list_elem_of_further|]. split; [done|]. by apply panicked_for_app.
Qed.

Lemma spec_monitor_nodes now nodes state :
  NoDup (hb_NodeName <$> nodes) ->
  spec (forEach nodes state (monitor_node mgmt namespace now))
    (nodes_outcome now (.∈ nodes) state).
Proof.
  revert state. induction nodes as [|hb nodes IH]; intros state Hn; apply spec_of_wp; intros s;
    cbn [forEach].
  { wp_step. split; [intros hb Hin; by apply elem_of_nil in Hin|done]. }
  simpl in Hn. apply NoDup_cons in Hn as [Hnotin Hn].
  wp_step. eapply wp_spec; [apply spec_monitor_node|]. cbn beta. cbn [app].
  intros [[state1|[]]|] s1 t1 H1.
  - eapply wp_spec; [by apply IH|]. cbn beta. intros o s2 t2 H2. by eapply nodes_outcome_cons.
  - wp_step. exists hb. split; [by apply list_elem_of_here|]. exact H1.
  - exists hb. split; [by apply list_elem_of_here|]. exact H1.
Qed.

(** Each payload is stored under its node. *)
Definition store_ok (s : HeartbeatStore) : Prop :=
  forall n hb, s !! n = Some hb -> hb_NodeName hb = n.

Lemma store_nodes (s : HeartbeatStore) choices :
  store_ok s ->
  let l := snd <$> map_to_list s in
  let nodes := reorder (length l) choices l in
  NoDup (hb_NodeName <$> nodes) /\ (forall hb, hb ∈ nodes <-> s !! hb_NodeName hb = Some hb).
Proof.
  intros Hs l nodes. assert (nodes ≡ₚ l) as Hp by apply reorder_perm.
  assert (hb_NodeName <$> l = fst <$> map_to_list s) as Hl.
  { subst l. rewrite <- list_fmap_compose. apply list_fmap_ext. intros i [n hb] Hi. simpl.
    by apply Hs, elem_of_map_to_list, list_elem_of_lookup_2 with i. }
  split.
  - rewrite Hp, Hl. apply NoDup_fst_map_to_list.
  - intros hb. rewrite Hp. subst l. rewrite list_elem_of_fmap. split.
    + intros ([n hb'] & -> & Hin%elem_of_map_to_list). simpl. by rewrite (Hs _ _ Hin).
    + intros H. exists (hb_NodeName hb, hb). by rewrite <- (elem_of_map_to_list s) in H.
Qed.

(** What a tick does. *)
Definition tick_outcome (startupTime : Time) (s : HeartbeatStore) (state : gmap string NodeState)
    (o : outcome (flow (gmap string NodeState) unit)) (tr : trace) : Prop :=
  exists now t, tr = Ev Now now :: t /\
    if (Sub now startupTime <? hb_warmupPeriod)%Z then o = Ret (Next state) /\ t = []
    else exists order t', t = Ev Schedule order :: t' /\
      nodes_outcome now (fun hb => s !! hb_NodeName hb = Some hb) state o t'.

Lemma nodes_outcome_ext now P Q state o t :
  (forall hb, P hb <-> Q hb) -> nodes_outcome now P state o t -> nodes_outcome now Q state o t.
Proof.
  intros He. destruct o as [[state'|[]]|]; cbn.
  - intros (H1 & H2 & H3). split; [|split].
    + intros hb Hq. by apply H1, He.
    + intros n Hn. apply H2. intros hb Hp. by apply Hn, He.
    + intros Hn. apply H3. intros hb Hp. by apply Hn, He.
  - intros (hb & Hp & ?). exists hb. by rewrite <-He.
  - intros (hb & Hp & ?). exists hb. by rewrite <-He.
Qed.

Lemma spec_monitor_tick startupTime s state :
  store_ok s ->
  spec (monitor_tick mgmt namespace startupTime s state) (tick_outcome startupTime s state).
Proof.
  intros Hs. apply spec_of_wp.
  intros st0. unfold monitor_tick, All. wp_step. apply wp_do. intros now w.
  destruct (_ <? _)%Z eqn:Hw; [wp_step; exists now, []; by rewrite Hw|].
  wp_step. wp_step. apply (wp_do Schedule). intros choices w2. wp_step.
  destruct (store_nodes s choices Hs) as [Hn Hin].
  eapply wp_spec; [by apply spec_monitor_nodes|]. cbn beta.
  intros o s' t Ho. eexists now, _. split; [reflexivity|]. rewrite Hw.
  eexists choices, t. split; [done|]. eapply nodes_outcome_ext; [|exact Ho]. exact Hin.
Qed.

(** C8: A tick of the monitor reads the clock once; during the warm-up it does
    nothing else. Afterwards it examines every stored node once, with that reading
    of the clock and the node's own last heartbeat only, and recovers each node
    that it reports, whatever the order in which the store is visited; the states
    of other nodes stay as they are, and when no stored node is reported nothing
    else is done. The monitor ends only when a stored AWS node is reported and the
    machines cannot be listed for it, and panics only in the recovery of a stored
    node that it reports. *)
Theorem monitor_tick_examines startupTime s state st0 :
  store_ok s ->
  tick_outcome startupTime s state
    (r_out (monitor_tick mgmt namespace startupTime s state st0))
    (r_trace (monitor_tick mgmt namespace startupTime s state st0)).
Proof. intros Hs. by apply spec_monitor_tick. Qed.

End Ticks.

(** A store with one silent node. *)
Definition silent_node : HeartbeatPayload :=
  MkHeartbeatPayload "edge-md-0" "10.0.0.3" "linux" "amd64" 4 8192 ∅ (10 * Second) "edge" "default"
    "" "" "" "" "" 0.

(** It missed twelve ticks. *)
Definition silent_state : gmap string NodeState :=
  {[ "edge-md-0" := MkNodeState (10 * Second) 0 false 12 ]}.

Lemma monitor_tick_examines_witness :
  reports_node 0 silent_node silent_state = true /\
  let r := @monitor_tick (ConstExternals default_resp) MgmtClient "default" (- 10 * Second)%Z
    {[ "edge-md-0" := silent_node ]} silent_state (const_state default_resp) in
  @tick_outcome (ConstExternals default_resp) MgmtClient "default" (- 10 * Second)%Z
    {[ "edge-md-0" := silent_node ]} silent_state (r_out r) (r_trace r).
Proof.
  split; [reflexivity|].
  apply (@monitor_tick_examines (ConstExternals default_resp)).
  intros n hb [<- <-]%lookup_singleton_Some. reflexivity.
Defined.

(** ** The handler and the system *)

Section System.
Context {X : Externals} (mgmt : Client) (namespace : string).

(** What a written resource says of the node. *)
Definition health_of (hb : HeartbeatPayload) (condition : string) (nh : NodeHealth) : Prop :=
  nhst_IP (nh_Status nh) = hb_IPAddress hb /\ nhst_OS (nh_Status nh) = hb_OS hb /\
  nhst_Arch (nh_Status nh) = hb_Arch hb /\ nhst_CPUs (nh_Status nh) = hb_CPUCount hb /\
  nhst_MemTotal (nh_Status nh) = hb_MemoryMB hb /\
  nhst_LastSeen (nh_Status nh) = hb_ReceivedAt hb /\ nhst_Condition (nh_Status nh) = condition.

(** The calls of an upsert. The resource is looked up under the node's name. Any
    error of the lookup, not only NotFound, leads to a creation under that name;
    otherwise the resource that was found is written back, through its status, and
    as a whole when that is refused. *)
Definition upserted (hb : HeartbeatPayload) (condition : string) (t : trace) : Prop :=
  exists r t', t = Ev (KGetNodeHealth mgmt (NN namespace (hb_NodeName hb))) r :: t' /\
    exists nh, health_of hb condition nh /\
    match r with
    | Err _ => exists r', t' = [Ev (KCreateNodeHealth mgmt nh) r'] /\
        nh_Meta nh = named namespace (hb_NodeName hb) /\
        nh_Spec nh = MkNodeHealthSpec (hb_NodeName hb)
    | Ok found => exists r',
        match r' with
        | Ok _ => t' = [Ev (KUpdateNodeHealthStatus mgmt nh) r']
        | Err _ => exists r2, t' = [Ev (KUpdateNodeHealthStatus mgmt nh) r';
                                    Ev (KUpdateNodeHealth mgmt nh) r2]
        end /\ nh_Meta nh = nh_Meta found /\ nh_Spec nh = nh_Spec found
    end.

Lemma spec_UpsertNodeHealth hb condition :
  spec (UpsertNodeHealth mgmt namespace hb condition) (fun o t =>
    o ≠ Crash /\ upserted hb condition t).
Proof.
  apply spec_of_wp. intros s. unfold UpsertNodeHealth.
  repeat wp_step; (split; [done|]); eexists _, _; (split; [reflexivity|]).
  all: first [exists (with_heartbeat a hb condition) | exists (new_NodeHealth namespace hb condition)].
  - split; [done|]. by eexists (Ok _).
  - split; [done|]. eexists (Err _). split; [by eexists|done].
  - split; [done|]. by eexists.
Qed.

(** C37: The answer of the heartbeat handler. A request that is not a POST is
    answered 405, a POST whose body cannot be decoded 400, and both leave the store
    and the cluster as they were. Every well-formed POST is answered 204, even when
    the cluster could not be written; the payload is stored under its node with the
    server's clock, and the node's NodeHealth resource, found or created under the
    node's name, is written as Healthy. The resource's LastSeen is the time in the
    payload, not the server's time that the store keeps. *)
Theorem handle_heartbeat_outcome rq store s :
  let r := handle_heartbeat mgmt namespace rq store s in
  if (rq_Method rq =? "POST")%string then
    match rq_Body rq with
    | Ok hb =>
        exists now t, r_trace r = Ev Now now :: t /\
          r_out r = Ret (<[ hb_NodeName hb := received now hb ]> store, 204%Z) /\
          upserted hb "Healthy" t
    | Err _ => r_out r = Ret (store, 400%Z) /\ r_trace r = []
    end
  else r_out r = Ret (store, 405%Z) /\ r_trace r = [].
Proof.
  cbn zeta. unfold handle_heartbeat. destruct rq as [path method [hb|e]]; cbn [rq_Body rq_Method];
    destruct (method =? "POST")%string; cbn [negb]; auto.
  change (wp (s <- Update store hb ;; UpsertNodeHealth mgmt namespace hb "Healthy" ;;;
      ret (s, StatusNoContent)) (fun o _ tr => exists now t, tr = Ev Now now :: t /\
    o = Ret (<[ hb_NodeName hb := received now hb ]> store, 204%Z) /\
    upserted hb "Healthy" t) s []).
  unfold Update. wp_step. wp_step. apply wp_do. intros now w. wp_step. wp_step.
  eapply wp_spec; [apply spec_UpsertNodeHealth|]. cbn beta. intros o s1 t (Ho & Hu).
  destruct o; [|done]. wp_step. by exists now, t.
Qed.

(** What a request may do to the store. *)
Definition accepted (rq : HttpRequest) : option HeartbeatPayload :=
  if ((rq_Path rq =? "/heartbeat") && (rq_Method rq =? "POST"))%string
  then match rq_Body rq with Ok hb => Some hb | Err _ => None end
  else None.

Definition stored (rq : HttpRequest) (store store' : HeartbeatStore) : Prop :=
  match accepted rq with
  | Some hb => exists now, store' = <[ hb_NodeName hb := received now hb ]> store
  | None => store' = store
  end.

Lemma serve_spec rq store :
  spec (RunHeartbeatServer mgmt namespace rq store) (fun o _ =>
    exists store' a, o = Ret (store', a) /\ stored rq store store').
Proof.
  apply spec_of_wp. intros s.
  unfold RunHeartbeatServer, handle_heartbeat, handle_nodes, All, Update, stored, accepted.
  destruct (rq_Path rq =? "/heartbeat")%string; cbn [andb].
  - wp_step. destruct (rq_Method rq =? "POST")%string; cbn [negb]; [|repeat wp_step; eauto].
    destruct (rq_Body rq) as [hb|e]; [|repeat wp_step; eauto].
    wp_step. wp_step. apply wp_do. intros now w. wp_step. wp_step.
    eapply wp_spec; [apply spec_UpsertNodeHealth|]. cbn beta. intros [?|] s' t (Hc & _); [|done].
    wp_step. wp_step. eauto.
  - destruct (rq_Path rq =? "/nodes")%string; [|wp_step; eauto].
    wp_step. wp_step. wp_step. repeat wp_step. eauto.
Qed.

(** What holds between inputs. *)
Definition node_ok (st : NodeState) : Prop :=
  (0 <= ns_MissCount st)%Z /\ ns_IsTriggered st = (12 <? ns_MissCount st)%Z.

Definition system_ok (sys : hb_system) : Prop :=
  store_ok (sys_store sys) /\
  forall n st, sys_state sys !! n = Some st -> is_Some (sys_store sys !! n) /\ node_ok st.

Lemma node_observe_ok now hb st : node_ok st -> node_ok (node_observe now hb st).1.
Proof.
  intros [H1 H2]. unfold node_observe, node_missed. destruct (After _ _); simpl; [done|].
  rewrite H2. destruct (Z.ltb_spec 12 (ns_MissCount st)), (Z.ltb_spec 12 (ns_MissCount st + 1));
    simpl; unfold node_ok; simpl; try lia; (split; [lia|]); symmetry;
    (apply Z.ltb_lt || apply Z.ltb_ge); lia.
Qed.

Lemma examined_ok now hb state state' :
  (forall st, state !! hb_NodeName hb = Some st -> node_ok st) ->
  examined now hb state state' ->
  exists st', state' !! hb_NodeName hb = Some st' /\ node_ok st'.
Proof.
  intros Hok (st' & Hl & Hs). exists st'. split; [done|].
  assert (node_ok (default (new_NodeState hb) (state !! hb_NodeName hb))) as H.
  { destruct (state !! _) eqn:E; simpl; [by apply Hok|done]. }
  apply (node_observe_ok now hb) in H. destruct Hs as (? & Ht & Hm). unfold node_ok in *.
  by rewrite Ht, Hm.
Qed.

Lemma monitor_tick_ok startupTime s state s0 state' :
  system_ok (MkHbSystem s state true) ->
  r_out (monitor_tick mgmt namespace startupTime s state s0) = Ret (Next state') ->
  system_ok (MkHbSystem s state' true).
Proof.
  intros [Hs Hn] Hr.
  pose proof (spec_monitor_tick mgmt namespace startupTime s state Hs s0) as H.
  rewrite Hr in H. cbn [sys_store sys_state] in *. destruct H as (now & t & _ & H).
  split; [done|]. simpl in Hn |- *.
  destruct (_ <? _)%Z; [by destruct H as [[= ->] _]|]. destruct H as (order & t' & _ & He & Hf & _).
  intros n st Hst. destruct (s !! n) as [hb|] eqn:Hl.
  - split; [done|]. pose proof (Hs _ _ Hl) as <-.
    destruct (He hb Hl) as [H _]. apply examined_ok in H as (st' & H & Hok); [by simplify_eq|].
    intros st1 H1. by apply Hn in H1 as [_ ?].
  - rewrite Hf in Hst; [apply Hn in Hst as [[] _]; congruence|]. congruence.
Qed.

Lemma hb_step_ok startupTime i sys s0 sys' :
  system_ok sys ->
  r_out (hb_step mgmt namespace startupTime i sys s0) = Ret sys' -> system_ok sys'.
Proof.
  destruct sys as [s state b]. intros Hok. destruct i as [rq|]; cbn [hb_step sys_store sys_state].
  - pose proof (serve_spec rq s s0) as (s' & a & Hr & H). unfold bind. rewrite Hr.
    simpl. intros [= <-]. destruct Hok as [Hs Hn]. simpl in *. unfold stored in H.
    destruct (accepted rq) as [hb|]; [destruct H as (now & ->)|by subst s'].
    split; simpl.
    + intros n hb' [[<- <-]|[_ ?]]%lookup_insert_Some; [done|by apply Hs].
    + intros n st Hst. apply Hn in Hst as [? ?]. split; [|done].
      destruct (decide (hb_NodeName hb = n)) as [->|]; [by rewrite lookup_insert_eq|].
      by rewrite lookup_insert_ne.
  - destruct b; cbn [sys_running]; [|by intros [= <-]]. unfold bind.
    destruct (r_out (monitor_tick _ _ _ s state s0)) as [[state'|[]]|] eqn:Hr; simpl; [| |done];
      intros [= <-]; [|done].
    by eapply monitor_tick_ok in Hr.
Qed.

Lemma hb_run_ok startupTime inputs sys s0 sys' :
  system_ok sys ->
  r_out (hb_run mgmt namespace startupTime inputs sys s0) = Ret sys' -> system_ok sys'.
Proof.
  revert sys s0. induction inputs as [|i inputs IH]; intros sys s0 Hok; simpl.
  - by intros [= <-].
  - unfold bind. destruct (r_out (hb_step _ _ _ i sys s0)) as [sys1|] eqn:H1; [|done]. simpl.
    apply IH. by eapply hb_step_ok.
Qed.

(** Whatever requests and ticks arrive, and in whatever order, each payload is
    stored under its own node, only stored nodes have a state, and a node is
    marked as triggered exactly when more than twelve ticks were missed. *)
Theorem StartServer_invariant inputs s0 sys :
  r_out (StartServer mgmt namespace inputs s0) = Ret sys -> system_ok sys.
Proof.
  unfold StartServer, bind. cbn [r_out do]. apply hb_run_ok. split; [|by intros ?? [=]].
  intros n hb H. cbn [sys_store] in H. unfold NewHeartbeatStore in H. by rewrite lookup_empty in H.
Qed.

End System.

Definition heartbeat_request : hb_input := Request (MkHttpRequest "/heartbeat" "POST" (Ok silent_node)).

Lemma StartServer_invariant_witness :
  exists sys, r_out (@StartServer (ConstExternals default_resp) MgmtClient "default"
    [heartbeat_request; Tick] (const_state default_resp)) = Ret sys /\ system_ok sys.
Proof.
  eexists. split; [reflexivity|].
  apply (@StartServer_invariant (ConstExternals default_resp) MgmtClient "default"
    [heartbeat_request; Tick] (const_state default_resp)). reflexivity.
Defined.
