(* ===== verification/Names.v ===== *)
(** * Names

    The text functions of internal/controller/checkpoint_controller.go and the
    parts of path/filepath, strings and crypto/sha1 that they use: sanitized
    names, names of the pre-pull pods, checkpoint paths. *)
From S2P Require Import Prelude.
From stdpp Require Import list.

(** ** Package strings *)

Fixpoint TrimLeft (c : ascii) (s : string) : string :=
  match s with
  | String a s' => if Ascii.eqb a c then TrimLeft c s' else s
  | EmptyString => EmptyString
  end.
Fixpoint TrimRight (c : ascii) (s : string) : string :=
  match s with
  | String a s' =>
      let r := TrimRight c s' in
      if Ascii.eqb a c && (r =? "")%string then EmptyString else String a r
  | EmptyString => EmptyString
  end.
(** [strings.Trim(s, c)] for a cutset of one character. *)
Definition Trim (s : string) (c : ascii) : string := TrimRight c (TrimLeft c s).

Fixpoint map_string (f : ascii -> ascii) (s : string) : string :=
  match s with
  | String a s' => String (f a) (map_string f s')
  | EmptyString => EmptyString
  end.

Definition is_space (a : ascii) : bool :=
  let n := nat_of_ascii a in ((9 <=? n) && (n <=? 13) || (n =? 32))%nat.
Fixpoint trim_space_left (s : string) : string :=
  match s with
  | String a s' => if is_space a then trim_space_left s' else s
  | EmptyString => EmptyString
  end.
Fixpoint trim_space_right (s : string) : string :=
  match s with
  | String a s' =>
      let r := trim_space_right s' in
      if is_space a && (r =? "")%string then EmptyString else String a r
  | EmptyString => EmptyString
  end.
(** [strings.TrimSpace] on ASCII text. *)
Definition TrimSpace (s : string) : string := trim_space_right (trim_space_left s).

(** The elements between slashes. *)
Fixpoint SplitSlash (s : string) : list string :=
  match s with
  | EmptyString => [""]
  | String a s' =>
      match SplitSlash s' with
      | e :: l => if Ascii.eqb a "/" then "" :: e :: l else String a e :: l
      | [] => []
      end
  end.

(** ** Package filepath *)

(** [filepath.Base]. *)
Definition Base (path : string) : string :=
  if (path =? "")%string then "."
  else
    let elements := List.filter (fun e => negb (e =? "")%string) (SplitSlash path) in
    match last elements with Some e => e | None => "/" end.

Definition IsAbs (path : string) : bool := String.prefix "/" path.

(** [filepath.Clean] of an absolute path, by the elements kept so far. *)
Fixpoint clean_elements (elements kept : list string) : list string :=
  match elements with
  | [] => rev kept
  | e :: elements' =>
      if (e =? "")%string || (e =? ".")%string then clean_elements elements' kept
      else if (e =? "..")%string then clean_elements elements' (tl kept)
      else clean_elements elements' (e :: kept)
  end.
Definition CleanAbs (path : string) : string :=
  "/" +:+ JoinStrings (clean_elements (SplitSlash path) []) "/".

(** The same of a relative path: leading [..] elements stay. *)
Fixpoint clean_relative (elements kept : list string) : list string :=
  match elements with
  | [] => rev kept
  | e :: elements' =>
      if (e =? "")%string || (e =? ".")%string then clean_relative elements' kept
      else if (e =? "..")%string then
        match kept with
        | k :: kept' =>
            if (k =? "..")%string then clean_relative elements' (e :: kept)
            else clean_relative elements' kept'
        | [] => clean_relative elements' [e]
        end
      else clean_relative elements' (e :: kept)
  end.
Definition Clean (path : string) : string :=
  if IsAbs path then CleanAbs path
  else
    let p := JoinStrings (clean_relative (SplitSlash path) []) "/" in
    if (p =? "")%string then "." else p.

(** [filepath.Join] of two elements; empty ones are left out. *)
Definition JoinPath (dir name : string) : string :=
  match List.filter (fun e => negb (e =? "")%string) [dir; name] with
  | [] => ""
  | elements => Clean (JoinStrings elements "/")
  end.

Example JoinPath_ex :
  JoinPath "/certs//a/" "../tls.crt" = "/certs/tls.crt" /\ JoinPath "../c" "./tls.key" = "../c/tls.key".
Proof. vm_compute. done. Qed.

(** ** Package crypto/sha1 *)

Module sha1.

Definition word (z : Z) : Z := Z.land z (Z.ones 32).
Definition rotl (n x : Z) : Z := Z.lor (word (Z.shiftl x n)) (Z.shiftr x (32 - n)).

Definition bytes (s : string) : list Z := (fun a => Z.of_nat (nat_of_ascii a)) <$> String.list_ascii_of_string s.

(** The message, the bit 1, zeros, and its length in bits, in blocks of 64 bytes. *)
Definition be_bytes (n : nat) (z : Z) : list Z :=
  (fun i => Z.land (Z.shiftr z (8 * Z.of_nat (n - 1 - i))) 255) <$> seq 0 n.
Definition padded (m : list Z) : list Z :=
  let zeros := Z.to_nat ((55 - Z.of_nat (length m)) mod 64) in
  m ++ [128%Z] ++ replicate zeros 0%Z ++ be_bytes 8 (8 * Z.of_nat (length m)).

Fixpoint chunks (fuel n : nat) (l : list Z) : list (list Z) :=
  match fuel, l with
  | S fuel', _ :: _ => take n l :: chunks fuel' n (drop n l)
  | _, _ => []
  end.

Definition be_word (l : list Z) : Z := foldl (fun z b => Z.lor (Z.shiftl z 8) b) 0%Z l.

(** The message schedule, newest word first. *)
Fixpoint extend (n : nat) (w : list Z) : list Z :=
  match n with
  | O => w
  | S n' =>
      let at_ i := nth i w 0%Z in
      extend n' (rotl 1 (Z.lxor (Z.lxor (at_ 2) (at_ 7)) (Z.lxor (at_ 13) (at_ 15))) :: w)
  end.

Record state := MkHash { h_a : Z; h_b : Z; h_c : Z; h_d : Z; h_e : Z }.

Definition f_k (i : nat) (b c d : Z) : Z * Z :=
  if (i <? 20)%nat then (Z.lor (Z.land b c) (Z.land (Z.lxor b (Z.ones 32)) d), 0x5A827999%Z)
  else if (i <? 40)%nat then (Z.lxor (Z.lxor b c) d, 0x6ED9EBA1%Z)
  else if (i <? 60)%nat
  then (Z.lor (Z.lor (Z.land b c) (Z.land b d)) (Z.land c d), 0x8F1BBCDC%Z)
  else (Z.lxor (Z.lxor b c) d, 0xCA62C1D6%Z).

Definition round (st : state) (iw : nat * Z) : state :=
  let '(MkHash a b c d e) := st in
  let '(f, k) := f_k iw.1 b c d in
  MkHash (word (rotl 5 a + f + e + k + iw.2)) a (rotl 30 b) c d.

Definition block (st : state) (b : list Z) : state :=
  let w := rev (extend 64 (rev (be_word <$> chunks 16 4 b))) in
  let st' := foldl round st (imap pair w) in
  MkHash (word (h_a st + h_a st')) (word (h_b st + h_b st')) (word (h_c st + h_c st'))
    (word (h_d st + h_d st')) (word (h_e st + h_e st')).

Definition Sum (s : string) : list Z :=
  let m := padded (bytes s) in
  let st := foldl block (MkHash 0x67452301 0xEFCDAB89 0x98BADCFE 0x10325476 0xC3D2E1F0)
              (chunks (length m) 64 m) in
  be_bytes 4 (h_a st) ++ be_bytes 4 (h_b st) ++ be_bytes 4 (h_c st) ++ be_bytes 4 (h_d st) ++
  be_bytes 4 (h_e st).

(** The verb [%x]. *)
Definition hex_digit (z : Z) : ascii :=
  ascii_of_nat (Z.to_nat (if (z <? 10)%Z then z + 48 else z + 87)).
Fixpoint hex (l : list Z) : string :=
  match l with
  | [] => ""
  | b :: l' => String (hex_digit (Z.shiftr b 4)) (String (hex_digit (Z.land b 15)) (hex l'))
  end.

Example sha1_empty : hex (Sum "") = "da39a3ee5e6b4b0d3255bfef95601890afd80709".
Proof. vm_compute. reflexivity. Qed.
Example sha1_abc : hex (Sum "abc") = "a9993e364706816aba3e25717850c26c9cd0d89d".
Proof. vm_compute. reflexivity. Qed.
Example sha1_two_blocks :
  hex (Sum "abcdbcdecdefdefgefghfghighijhijkijkljklmklmnlmnomnopnopq") =
  "84983e441c3bd26ebaae4aa1f95129e5e54670f1".
Proof. vm_compute. reflexivity. Qed.

End sha1.

(** ** checkpoint_controller.go *)

(** The class [[a-z0-9-.]] of the regular expression. *)
Definition name_char (a : ascii) : bool :=
  let n := nat_of_ascii a in
  ((97 <=? n) && (n <=? 122) || (48 <=? n) && (n <=? 57) || (n =? 45) || (n =? 46))%nat.

Definition sanitizeName (s : string) : string :=
  Trim (map_string (fun a => if name_char a then a else "-"%char) (ToLower s)) "-".

Definition maxLen : nat := 50.

(** The part of a pre-pull pod's name that stands for the image: its sanitized
    name, cut and completed with a hash when it is long. *)
Definition image_part (image : string) : string :=
  let namePart := sanitizeName image in
  if (maxLen <? String.length namePart)%nat
  then String.substring 0 (maxLen - 8) namePart +:+
       String.substring 0 8 ("-" +:+ sha1.hex (sha1.Sum namePart))
  else namePart.

Definition prepull_name (prefix image nodeName : string) : string :=
  prefix +:+ image_part image +:+ "-" +:+ nodeName.

Definition CheckpointBasePath : string := "/var/lib/kubelet/checkpoints".

(** Where buildCheckpointImage looks for the file. *)
Definition fullCheckpointPath (checkpointPath : string) : string :=
  if IsAbs checkpointPath then checkpointPath
  else CleanAbs (CheckpointBasePath +:+ "/" +:+ checkpointPath).

Example base_ex : Base "/var/lib/kubelet/checkpoints/c.tar" = "c.tar".
Proof. reflexivity. Qed.
Example base_slashes : Base "a/b//" = "b" /\ Base "//" = "/" /\ Base "" = ".".
Proof. repeat split. Qed.
Example full_path_relative :
  fullCheckpointPath "./x/../c.tar" = "/var/lib/kubelet/checkpoints/c.tar".
Proof. reflexivity. Qed.
Example sanitize_ex :
  sanitizeName "Reg.example:5000/Team_A/app:v1" = "reg.example-5000-team-a-app-v1".
Proof. reflexivity. Qed.

(** ** Lemmas *)

Fixpoint all_chars (p : ascii -> bool) (s : string) : bool :=
  match s with
  | EmptyString => true
  | String a s' => p a && all_chars p s'
  end.

Lemma all_chars_app p s t : all_chars p (s +:+ t) = all_chars p s && all_chars p t.
Proof. induction s as [|a s IH]; [done|]. rewrite app_cons. simpl. by rewrite IH, andb_assoc. Qed.

Lemma all_chars_map p f s : (forall a, p (f a) = true) -> all_chars p (map_string f s) = true.
Proof. intros H. induction s as [|a s IH]; simpl; [done|]. by rewrite H, IH. Qed.

Lemma all_chars_TrimLeft p c s : all_chars p s = true -> all_chars p (TrimLeft c s) = true.
Proof.
  induction s as [|a s IH]; [done|]. cbn [TrimLeft]. destruct (Ascii.eqb a c); [|done].
  simpl. intros [_ H]%andb_true_iff. auto.
Qed.

Lemma all_chars_TrimRight p c s : all_chars p s = true -> all_chars p (TrimRight c s) = true.
Proof.
  induction s as [|a s IH]; [done|]. simpl. intros [Ha H]%andb_true_iff.
  destruct (_ && _); [done|]. simpl. by rewrite Ha, IH.
Qed.

Lemma all_chars_substring p n m s : all_chars p s = true -> all_chars p (String.substring n m s) = true.
Proof.
  revert n m. induction s as [|a s IH]; intros [|n] [|m] H; try done;
    apply andb_true_iff in H as [Ha H]; simpl; rewrite ?Ha; simpl; by auto.
Qed.

Lemma substring_length_exact n s :
  (n <= String.length s)%nat -> String.length (String.substring 0 n s) = n.
Proof.
  revert n. induction s as [|a s IH]; intros [|n] H; simpl in *; try lia. by rewrite IH by lia.
Qed.

Lemma hash_length s : String.length (sha1.hex (sha1.Sum s)) = 40%nat.
Proof.
  assert (forall l, String.length (sha1.hex l) = (2 * length l)%nat) as ->.
  { induction l as [|b l IH]; [done|]. cbn [sha1.hex String.length length]. rewrite IH. lia. }
  unfold sha1.Sum. by rewrite !length_app.
Qed.

(** The last character, or [d]. *)
Fixpoint last_char (s : string) (d : ascii) : ascii :=
  match s with EmptyString => d | String a s' => last_char s' a end.

Lemma TrimRight_last c s d : d ≠ c -> last_char (TrimRight c s) d ≠ c.
Proof.
  revert d. induction s as [|a s IH]; intros d Hd; [done|]. simpl.
  destruct (Ascii.eqb_spec a c) as [->|Ha]; simpl.
  - destruct (String.eqb_spec (TrimRight c s) "") as [_|He]; [done|]. simpl.
    destruct (TrimRight c s) as [|b r] eqn:E; [done|]. simpl. exact (IH d Hd).
  - by apply IH.
Qed.

Lemma TrimRight_head c s a r :
  TrimRight c s = String a r -> exists s', s = String a s'.
Proof. destruct s as [|b s]; simpl; [done|]. destruct (_ && _); [done|]. intros [= <- _]. eauto. Qed.

Lemma TrimLeft_head c s s' : TrimLeft c s = String c s' -> False.
Proof.
  induction s as [|a s IH]; simpl; [done|]. destruct (Ascii.eqb_spec a c); [done|]. congruence.
Qed.

Lemma sanitize_chars s : all_chars name_char (sanitizeName s) = true.
Proof.
  unfold sanitizeName, Trim. apply all_chars_TrimRight, all_chars_TrimLeft, all_chars_map.
  intros a. by destruct (name_char a) eqn:E.
Qed.

Lemma hex_digit_char z : (0 <= z < 16)%Z -> name_char (sha1.hex_digit z) = true.
Proof.
  intros H. assert (z ∈ (Z.of_nat <$> seq 0 16)) as Hz.
  { apply list_elem_of_fmap. exists (Z.to_nat z). rewrite Z2Nat.id by lia. split; [done|].
    apply elem_of_seq. lia. }
  simpl in Hz. repeat (apply elem_of_cons in Hz as [->|Hz]; [reflexivity|]). set_solver.
Qed.

Lemma land_bounds z n : (0 <= n)%Z -> (0 <= Z.land z (Z.ones n) < 2 ^ n)%Z.
Proof. intros H. rewrite Z.land_ones by done. apply Z.mod_pos_bound. lia. Qed.

Lemma hex_chars l : Forall (fun b => 0 <= b < 256)%Z l -> all_chars name_char (sha1.hex l) = true.
Proof.
  induction 1 as [|b l Hb _ IH]; [done|]. simpl. rewrite IH, !hex_digit_char; [done| |].
  - apply (land_bounds b 4). lia.
  - rewrite Z.shiftr_div_pow2 by lia. split; [apply Z.div_pos; lia|].
    apply Z.div_lt_upper_bound; lia.
Qed.

Lemma be_bytes_bounds n z : Forall (fun b => 0 <= b < 256)%Z (sha1.be_bytes n z).
Proof.
  unfold sha1.be_bytes. apply Forall_fmap, Forall_forall. intros i _. simpl.
  apply (land_bounds _ 8). lia.
Qed.

Lemma sum_bounds s : Forall (fun b => 0 <= b < 256)%Z (sha1.Sum s).
Proof. unfold sha1.Sum. repeat apply Forall_app_2; apply be_bytes_bounds. Qed.

(** ** Properties *)

(** A sanitized name has only characters that Kubernetes names may have, and
    neither begins nor ends with a dash. *)
Lemma sanitizeName_clean s :
  all_chars name_char (sanitizeName s) = true /\
  last_char (sanitizeName s) "x" ≠ "-"%char /\
  (forall r, sanitizeName s ≠ String "-" r).
Proof.
  split; [apply sanitize_chars|]. unfold sanitizeName, Trim. split; [by apply TrimRight_last|].
  intros r [s' H]%TrimRight_head. by apply TrimLeft_head in H.
Qed.

(** The part of a pre-pull pod's name that stands for the image: the sanitized name
    when it has at most 50 characters, and exactly 50 characters when it has more. *)
Lemma image_part_length image :
  String.length (image_part image) = Nat.min maxLen (String.length (sanitizeName image)).
Proof.
  unfold image_part. destruct (Nat.ltb_spec maxLen (String.length (sanitizeName image))) as [H|H]; [|lia].
  pose proof (hash_length (sanitizeName image)).
  rewrite string_app_length, !substring_length_exact; [unfold maxLen in *; lia| |unfold maxLen in *; lia].
  rewrite string_app_length. cbn [String.length]. lia.
Qed.

Lemma image_part_chars image : all_chars name_char (image_part image) = true.
Proof.
  unfold image_part. destruct (_ <? _)%nat; [|apply sanitize_chars].
  rewrite all_chars_app, !all_chars_substring; [done| |apply sanitize_chars].
  rewrite all_chars_app, hex_chars; [done|apply sum_bounds].
Qed.

Lemma prepull_name_length prefix image node :
  (String.length (prepull_name prefix image node) =
   String.length prefix + Nat.min maxLen (String.length (sanitizeName image)) + 1 +
   String.length node)%nat.
Proof.
  unfold prepull_name. rewrite !string_app_length, image_part_length. cbn [String.length]. lia.
Qed.

Lemma prepull_name_chars prefix image node :
  all_chars name_char prefix = true -> all_chars name_char node = true ->
  all_chars name_char (prepull_name prefix image node) = true.
Proof.
  intros Hp Hn. unfold prepull_name. by rewrite !all_chars_app, Hp, Hn, image_part_chars.
Qed.

(** The pods of an image on different nodes have different names. *)
Lemma prepull_name_inj prefix image node node' :
  prepull_name prefix image node = prepull_name prefix image node' -> node = node'.
Proof.
  assert (forall s t u, s +:+ t = s +:+ u -> t = u) as Hinj.
  { intros s t u. induction s as [|a s IH]; [done|]. rewrite !app_cons. intros [= H]. auto. }
  unfold prepull_name. intros H. by apply Hinj, Hinj, Hinj in H.
Qed.

(** The names that Kubernetes accepts for a pod: labels between periods, of letters,
    digits and dashes, that neither begin nor end with a dash. *)
Fixpoint split_periods (s : string) : list string :=
  match s with
  | EmptyString => [""]
  | String a s' =>
      match split_periods s' with
      | e :: l => if Ascii.eqb a "." then "" :: e :: l else String a e :: l
      | [] => []
      end
  end.
Definition label_ok (s : string) : bool :=
  negb (s =? "")%string && negb (String.prefix "-" s) && negb (Ascii.eqb (last_char s "-") "-").
Definition pod_name_ok (s : string) : bool :=
  all_chars name_char s && forallb label_ok (split_periods s) && (String.length s <=? 253)%nat.

(** A name that is cut may not be accepted: here a period is the last character that
    is kept, and the dash of the hash follows it. *)
Example cut_after_period :
  let image := "docker.io/team/checkpoint-of-my-server-v1.24.0-20250101-120000" in
  String.substring 0 (maxLen - 8) (sanitizeName image) = "docker.io-team-checkpoint-of-my-server-v1." /\
  pod_name_ok (prepull_name "prepull-checkpoint-image-" image "worker-1") = false.
Proof. vm_compute. done. Qed.
Example cut_elsewhere :
  pod_name_ok (prepull_name "prepull-checkpoint-image-"
    "docker.io/team/checkpoint-of-the-server-v1.24.0-20250101-120000" "worker-1") = true.
Proof. vm_compute. done. Qed.
