(* ===== verification/Minio.v ===== *)
(** * reconcilers/miniohelper

    The object store through which checkpoint files reach the operator: opening
    it, waiting for a file, downloading it. *)
From S2P Require Import Prelude Types Runtime Names.

Section Minio.
Context {X : Externals}.

Definition getenv (key defaultVal : string) : M string :=
  v <- do (Getenv key) ;;
  ret (if (v =? "")%string then defaultVal else v).

(** Each failure is a [log.Fatalf], which ends the process. The result is the
    bucket's name. *)
Definition InitializeMinio : M string :=
  minioEndpoint <- getenv "MINIO_ENDPOINT" "192.168.28.111:30350" ;;
  minioAccess <- getenv "MINIO_ACCESS_KEY" "nephio1234" ;;
  minioSecret <- getenv "MINIO_SECRET_KEY" "secret1234" ;;
  minioBucket <- getenv "MINIO_BUCKET" "checkpoints" ;;
  minioClient <- do (MinioNew minioEndpoint minioAccess minioSecret) ;;
  match minioClient with
  | Err _ => crash
  | Ok _ =>
      exists_ <- do (MinioBucketExists minioBucket) ;;
      match exists_ with
      | Err _ => crash
      | Ok true => ret minioBucket
      | Ok false =>
          err <- do (MinioMakeBucket minioBucket) ;;
          match err with
          | Err _ => crash
          | Ok _ => ret minioBucket
          end
      end
  end.

Definition FileExistsInMinio (bucket localFilePath : string) : M (result bool) :=
  r <- do (MinioStat bucket (Base localFilePath)) ;;
  match r with
  | Err err =>
      match err_reason err with
      | ReasonNoSuchKey => ret (Ok false)
      | _ => ret (Err err)
      end
  | Ok _ => ret (Ok true)
  end.

Definition DownloadFileFromMinio (bucket objectName localFilePath : string) : M (result unit) :=
  obj <- do (MinioGetObject bucket objectName) ;;
  match obj with
  | Err err => ret (Err (Wrapf ("failed to get object " +:+ quoted objectName +:+ " from bucket "
                                +:+ quoted bucket +:+ ": ") err))
  | Ok _ =>
      localFile <- do (CreateFile localFilePath) ;;
      match localFile with
      | Err err => ret (Err (Wrapf ("failed to create local file " +:+ quoted localFilePath
                                    +:+ ": ") err))
      | Ok _ =>
          written <- do (CopyObject bucket objectName localFilePath) ;;
          match written with
          | Err err => ret (Err (Wrapf ("failed to write object " +:+ quoted objectName
                          +:+ " to local file " +:+ quoted localFilePath +:+ ": ") err))
          | Ok written =>
              if (written =? 0)%Z
              then ret (Err (Errorf ("downloaded file is empty: object " +:+ quoted objectName
                                     +:+ " from bucket " +:+ quoted bucket)))
              else ret (Ok tt)
          end
      end
  end.

Definition wait_timed_out (bucket localFilePath : string) : error :=
  Errorf ("timed out waiting for file " +:+ Base localFilePath +:+
          " to appear in MinIO bucket " +:+ bucket).

(** The polling loop, cut after [rounds] rounds, where it ends like a timeout. *)
Fixpoint wait_file (rounds : nat) (bucket localFilePath : string) (start : Time)
    (timeout checkInterval : Duration) : M (result unit) :=
  match rounds with
  | O => ret (Err (wait_timed_out bucket localFilePath))
  | S rounds' =>
      exists_ <- FileExistsInMinio bucket localFilePath ;;
      match exists_ with
      | Err err => ret (Err (Wrapf ("error checking MinIO for " +:+ Base localFilePath +:+ ": ") err))
      | Ok true => ret (Ok tt)
      | Ok false =>
          now <- do Now ;;
          if (timeout <? Sub now start)%Z then ret (Err (wait_timed_out bucket localFilePath))
          else
            do (Sleep checkInterval) ;;;
            wait_file rounds' bucket localFilePath start timeout checkInterval
      end
  end.

(** As every round but the last sleeps for [checkInterval], the clock is past
    [timeout] in the last round: see [wait_rounds_enough]. *)
Definition wait_rounds (timeout checkInterval : Duration) : nat :=
  Z.to_nat (timeout / checkInterval + 2).

Definition WaitForFileInMinio (bucket localFilePath : string) (timeout checkInterval : Duration)
    : M (result unit) :=
  start <- do Now ;;
  wait_file (wait_rounds timeout checkInterval) bucket localFilePath start timeout checkInterval.

End Minio.

#[global] Arguments WaitForFileInMinio : simpl never.

Section Waiting.
Context {X : Externals} {C : Clock X}.

Lemma clock_file_exists bucket path s :
  (clock (ms_world s) <= clock (ms_world (r_state (FileExistsInMinio bucket path s))))%Z.
Proof.
  unfold FileExistsInMinio, bind, do. simpl.
  pose proof (clock_mono (MinioStat bucket (Base path)) (ms_world s)) as H.
  destruct (respond _ _) as [[|e] w]; simpl in *; [done|]. by destruct (err_reason e).
Qed.

(** When [k] rounds take the clock past the timeout, further rounds change nothing. *)
Lemma wait_file_enough k extra bucket path start timeout interval s :
  (0 < interval)%Z -> (0 <= timeout < maxInt64)%Z ->
  (timeout < clock (ms_world s) - start + Z.of_nat k * interval)%Z ->
  wait_file (S k + extra) bucket path start timeout interval s =
  wait_file (S k) bucket path start timeout interval s.
Proof.
  intros Hi Ht. revert s. induction k as [|k IH]; intros s Hc; cbn [wait_file Nat.add];
    apply bind_cong; intros [[|]|] _; try done;
    pose proof (clock_file_exists bucket path s) as H1;
    set (s1 := r_state (FileExistsInMinio _ _ s)) in *;
    apply bind_cong; intros now [= <-]; rewrite clock_now;
    pose proof (Sub_gt (clock (ms_world s1)) start timeout ltac:(unfold minInt64; lia)) as H2;
    destruct (Z.ltb_spec timeout (Sub (clock (ms_world s1)) start)) as [|Hs]; try done.
  - exfalso. apply Z.le_ngt in Hs. apply Hs, H2. lia.
  - apply bind_cong. intros [] _. apply IH.
    set (w1 := respond Now (ms_world s1)).
    pose proof (clock_mono Now (ms_world s1)). pose proof (clock_sleep interval w1.2).
    subst w1. simpl in *. rewrite Nat2Z.inj_succ, Z.mul_succ_l in Hc. lia.
Qed.

(** C28: Waiting for a file in the object store ends after at most the rounds that
    the timeout and the interval allow (602 for the 300 s and 500 ms in use): with
    a clock that never goes back and sleeps that last, the loop of the program,
    which has no bound of its own, never goes further. *)
Theorem wait_rounds_enough extra bucket path timeout interval s :
  (0 < interval)%Z -> (0 <= timeout < maxInt64)%Z ->
  let start := clock (ms_world s) in
  wait_file (wait_rounds timeout interval + extra) bucket path start timeout interval s =
  wait_file (wait_rounds timeout interval) bucket path start timeout interval s.
Proof.
  intros Hi Ht. cbn zeta. unfold wait_rounds.
  pose proof (Z.div_pos timeout interval ltac:(lia) Hi) as Hq.
  replace (Z.to_nat (timeout / interval + 2)) with (S (Z.to_nat (timeout / interval + 1))) by lia.
  apply wait_file_enough; [done|done|]. rewrite Z2Nat.id by lia.
  pose proof (Z.mod_pos_bound timeout interval Hi). pose proof (Z.div_mod timeout interval). lia.
Qed.

End Waiting.

(** A store in which the file never appears. *)
Definition missing_file (c : call) : resp c :=
  match c with
  | MinioStat _ _ => Err (MkError "not found" ReasonNoSuchKey)
  | c => default_resp c
  end.

Lemma wait_rounds_enough_witness :
  let s := @MkState (SleepExternals missing_file) 0%Z None in
  wait_file (wait_rounds (3 * Second) Second + 7) "checkpoints" "c.tar" 0 (3 * Second) Second s =
  wait_file (wait_rounds (3 * Second) Second) "checkpoints" "c.tar" 0 (3 * Second) Second s /\
  r_out (wait_file (wait_rounds (3 * Second) Second) "checkpoints" "c.tar" 0 (3 * Second) Second s)
    = Ret (Err (wait_timed_out "checkpoints" "c.tar")).
Proof.
  split; [|vm_compute; reflexivity].
  apply (@wait_rounds_enough (SleepExternals missing_file) (sleep_clock missing_file) 7 "checkpoints"
    "c.tar" (3 * Second) Second (@MkState (SleepExternals missing_file) 0%Z None)); done.
Defined.
