(* ===== verification/CheckpointController.v ===== *)
(** * Checkpoint controller

    internal/controller/checkpoint_controller.go: a Checkpoint resource is
    scheduled with cron; each run checkpoints the containers of its pod through
    the kubelet, builds and pushes an image from the checkpoint file, and has the
    target cluster pull it in advance. Reconciliations and firing jobs are the
    inputs of one system, in the order in which they run. *)
From S2P Require Import Prelude Types Runtime Common Capi Records Names Minio.

Definition CheckpointFinalizer : string := "checkpoint.transition.dcnlab.ssu.ac.kr/finalizer".
Definition checkpoint_saName : string := "checkpoint-sa".
Definition checkpoint_saNamespace : string := "default".

(** The HTTP client, which is never used, is left out. *)
Record KubeletClient := MkKubeletClient { kc_token : string; kc_kubeletURL : string }.

Record RegistryClient := MkRegistryClient {
  rc_username : string; rc_password : string; rc_registry : string }.

(** The closure of a cron entry. [cj_backup] is the object that the closure and the
    reconciliation that scheduled it share. *)
Record CronJob := MkCronJob {
  cj_client : Client; cj_backup : Checkpoint; cj_nodeName : string; cj_restConfig : RestConfig }.

(** The reconciler's fields: clients, whether the scheduler was started, the entry
    of each Checkpoint, and the entries of the scheduler. *)
Record CheckpointReconciler := MkCheckpointReconciler {
  cr_KubeletClient : option KubeletClient;
  cr_RegistryClient : option RegistryClient;
  cr_MinioClient : option string;
  cr_Scheduler : bool;
  cr_scheduledJobs : gmap string Z;
  cr_entries : gmap Z CronJob }.

Definition new_CheckpointReconciler : CheckpointReconciler :=
  MkCheckpointReconciler None None None false ∅ ∅.

Definition with_jobs (r : CheckpointReconciler) (jobs : gmap string Z) (entries : gmap Z CronJob)
    : CheckpointReconciler :=
  MkCheckpointReconciler (cr_KubeletClient r) (cr_RegistryClient r) (cr_MinioClient r)
    (cr_Scheduler r) jobs entries.

(** [types.NamespacedName.String]. *)
Definition nn_String (nn : NamespacedName) : string := nn_Namespace nn +:+ "/" +:+ nn_Name nn.

Definition ck_key (c : Checkpoint) : string := nn_String (NN (ck_Namespace c) (ck_Name c)).

(** [controllerutil]: finalizers of an object. *)
Definition with_finalizers (c : Checkpoint) (l : list string) : Checkpoint :=
  let m := ck_Meta c in
  MkCheckpoint (MkObjectMeta (om_Name m) (om_Namespace m) (om_Labels m) (om_Annotations m)
    (om_OwnerReferences m) l (om_CreationTimestamp m) (om_DeletionTimestamp m))
    (ck_Spec c) (ck_Status c).
Definition ContainsFinalizer (c : Checkpoint) : bool :=
  existsb (String.eqb CheckpointFinalizer) (om_Finalizers (ck_Meta c)).
Definition AddFinalizer (c : Checkpoint) : Checkpoint :=
  if ContainsFinalizer c then c
  else with_finalizers c (om_Finalizers (ck_Meta c) ++ [CheckpointFinalizer]).
Definition RemoveFinalizer (c : Checkpoint) : Checkpoint :=
  with_finalizers c
    (List.filter (fun f => negb (f =? CheckpointFinalizer)%string) (om_Finalizers (ck_Meta c))).

(** The status fields that every step sets; the last image is set on success. *)
Definition with_status (c : Checkpoint) (originalImage : string) (now : Time)
    (phase message lastImage : string) : Checkpoint :=
  let st := ck_Status c in
  MkCheckpoint (ck_Meta c) (ck_Spec c)
    (MkCheckpointStatus phase (Some now) message (ckst_ObservedGeneration st) lastImage
       originalImage (ckst_Conditions st)).

Definition checkpoint_url (cfg : RestConfig) (nodeName namespace podName containerName : string)
    : string :=
  rc_Host cfg +:+ "/api/v1/nodes/" +:+ nodeName +:+ "/proxy/checkpoint/" +:+ namespace +:+ "/"
  +:+ podName +:+ "/" +:+ containerName +:+ "?timeout=60".

Definition checkpoint_image (backup : Checkpoint) (container : string) : string :=
  let spec := ck_Spec backup in
  reg_URL (cks_Registry spec) +:+ "/" +:+ reg_Repository (cks_Registry spec) +:+ "/checkpoint-"
  +:+ pr_Namespace (cks_PodRef spec) +:+ "_" +:+ pr_Name (cks_PodRef spec) +:+ "-"
  +:+ container +:+ ":latest".

Definition cleanup_interval : Duration := (3 * Second)%Z.

Definition prepull_pod (ns podName node image : string) (sleep policy : string) : Pod :=
  MkPod (named ns podName) node [MkContainer "prepull" image ["sleep"; sleep] [] [] policy] []
    "Never" false "" "" [].

Section Controller.
Context {X : Externals} (mgmt : Client).

(** ** Clients *)

Definition getKubeletToken (workloadClient : Client) (saName saNamespace : string)
    : M (result string) :=
  sa <- do (KGetServiceAccount workloadClient (NN saNamespace saName)) ;;
  match sa with
  | Err e => ret (Err (Wrapf "failed to get service account: " e))
  | Ok _ =>
      tr <- do (KCreateToken workloadClient (NN saNamespace saName)
                  ["https://kubernetes.default.svc"] 3600) ;;
      match tr with
      | Ok token => ret (Ok token)
      | Err _ =>
          secretList <- do (KListSecrets workloadClient saNamespace) ;;
          match secretList with
          | Err e => ret (Err (Wrapf "failed to list secrets: " e))
          | Ok secretList =>
              let token_of s :=
                if (sec_Type s =? "kubernetes.io/service-account-token")%string &&
                   (mget (om_Annotations (sec_Meta s)) "kubernetes.io/service-account.name"
                      =? saName)%string
                then sec_Data s !! "token" else None in
              match omap token_of secretList with
              | token :: _ => ret (Ok token)
              | [] => ret (Err (Errorf ("no token secret found for service account " +:+ saName)))
              end
          end
      end
  end.

Definition NewKubeletClient (nodeIP : string) (workloadClient : Client) : M (result KubeletClient) :=
  token <- getKubeletToken workloadClient checkpoint_saName checkpoint_saNamespace ;;
  match token with
  | Err e => ret (Err (Wrapf "failed to get kubelet token: " e))
  | Ok token =>
      ret (Ok (MkKubeletClient token
        (if (nodeIP =? "")%string then "https://localhost:10250"
         else "https://" +:+ nodeIP +:+ ":10250")))
  end.

(** The secret is read from the management cluster. *)
Definition NewRegistryClient (registryConfig : Registry) : M (result RegistryClient) :=
  let '(secretName, secretNamespace) :=
    match reg_SecretRef registryConfig with
    | Some ref =>
        (sr_Name ref, if (sr_Namespace ref =? "")%string then "default" else sr_Namespace ref)
    | None => ("reg-credentials", "default")
    end in
  let where_ := secretNamespace +:+ "/" +:+ secretName in
  secret <- do (KGetSecret mgmt (NN secretNamespace secretName)) ;;
  match secret with
  | Err e => ret (Err (Wrapf ("failed to get registry credentials secret " +:+ where_ +:+ ": ") e))
  | Ok secret =>
      let username := mget (sec_Data secret) "username" in
      let password := mget (sec_Data secret) "password" in
      let registry := mget (sec_Data secret) "registry" in
      if (username =? "")%string || (password =? "")%string
      then ret (Err (Errorf ("registry credentials are empty in secret " +:+ where_)))
      else
        let registryURL :=
          if (reg_URL registryConfig =? "")%string && negb (registry =? "")%string
          then registry else reg_URL registryConfig in
        ret (Ok (MkRegistryClient username password
          (if (registryURL =? "")%string then "docker.io" else registryURL)))
  end.

(** Its error branch is never taken: InitializeMinio ends the process instead. *)
Definition NewMinioClient : M string := InitializeMinio.

(** The MinIO client is made anew each time, the others once. *)
Definition initializeClients (r : CheckpointReconciler) (backup : Checkpoint) (nodeKubeletIP : string)
    (workloadClient : Client) : M (CheckpointReconciler * option error) :=
  kubelet <- (match cr_KubeletClient r with
              | Some k => ret (Ok k)
              | None => NewKubeletClient nodeKubeletIP workloadClient
              end) ;;
  match kubelet with
  | Err e => ret (r, Some (Wrapf "failed to create kubelet client: " e))
  | Ok kubelet =>
      bucket <- NewMinioClient ;;
      registry <- (match cr_RegistryClient r with
                   | Some c => ret (Ok c)
                   | None => NewRegistryClient (cks_Registry (ck_Spec backup))
                   end) ;;
      match registry with
      | Err e =>
          ret (MkCheckpointReconciler (Some kubelet) (cr_RegistryClient r) (Some bucket)
                 (cr_Scheduler r) (cr_scheduledJobs r) (cr_entries r),
               Some (Wrapf "failed to create registry client: " e))
      | Ok registry =>
          if cr_Scheduler r then
            ret (MkCheckpointReconciler (Some kubelet) (Some registry) (Some bucket) true
                   (cr_scheduledJobs r) (cr_entries r), None)
          else
            do CronNew ;;;
            ret (MkCheckpointReconciler (Some kubelet) (Some registry) (Some bucket) true ∅ ∅, None)
      end
  end.

(** ** Images *)

Definition CreateCheckpoint (restConfig : RestConfig)
    (nodeName namespace podName containerName : string) : M (result string) :=
  let url := checkpoint_url restConfig nodeName namespace podName containerName in
  transport <- do (TransportFor restConfig) ;;
  match transport with
  | Err e => ret (Err (Wrapf "failed to create transport: " e))
  | Ok _ =>
      req <- do (HttpNewRequest "POST" url) ;;
      match req with
      | Err e => ret (Err (Wrapf "failed to create request: " e))
      | Ok _ =>
          resp <- do (HttpPost url) ;;
          match resp with
          | Err e => ret (Err (Wrapf
              "failed to call kubelet checkpoint API via apiserver proxy: " e))
          | Ok resp =>
              if negb (http_Status resp =? 200)%Z then
                ret (Err (Errorf ("checkpoint API returned " +:+ pretty (http_Status resp) +:+ ": "
                  +:+ match http_Body resp with Ok body => body | Err _ => "" end)))
              else
                match http_Body resp with
                | Err e => ret (Err (Wrapf "failed to read checkpoint response body: " e))
                | Ok body =>
                    items <- do (UnmarshalItems body) ;;
                    match items with
                    | Err e => ret (Err (MkError ("failed to parse checkpoint response: "
                        +:+ err_msg e +:+ " (raw=" +:+ body +:+ ")") (err_reason e)))
                    | Ok [] => ret (Err (Errorf "checkpoint API returned no items"))
                    | Ok (item :: _) => ret (Ok item)
                    end
                end
          end
      end
  end.

(** [exec.Command(...).Run()], its error under a prefix. *)
Definition run_cmd (cmd : list string) (pre : string) : M (result unit) :=
  out <- do (Exec cmd) ;;
  ret (match out with Ok _ => Ok tt | Err e => Err (Wrapf pre e) end).

(** Commands one after the other, until one fails. *)
Fixpoint run_cmds (cmds : list (list string * string)) : M (result unit) :=
  match cmds with
  | [] => ret (Ok tt)
  | (cmd, pre) :: cmds' =>
      r <- run_cmd cmd pre ;;
      match r with
      | Err e => ret (Err e)
      | Ok _ => run_cmds cmds'
      end
  end.

(** The deferred [buildah rm] runs on every return once there is a container. *)
Definition buildCheckpointImage (checkpointPath imageName baseImage containerName : string)
    : M (result unit) :=
  let path := fullCheckpointPath checkpointPath in
  st <- do (StatFile path) ;;
  if match st with Err e => IsNotFound e | Ok _ => false end
  then ret (Err (Errorf ("checkpoint file does not exist: " +:+ path +:+
                         " (this should not happen after findCheckpointFile)")))
  else
    out <- do (Exec ["buildah"; "from"; "scratch"]) ;;
    match out with
    | Err e => ret (Err (Wrapf "failed to create buildah container: " e))
    | Ok out =>
        let newContainer := TrimSpace out in
        res <- run_cmds
          [(["buildah"; "add"; newContainer; path; "/"],
            "failed to add checkpoint to container (" +:+ path +:+ "): ");
           (["buildah"; "config"; "--annotation=org.criu.checkpoint.container.name=" +:+ imageName;
             newContainer], "failed to add checkpoint name annotation: ");
           (["buildah"; "config"; "--annotation=org.criu.checkpoint.rootfsImageName=" +:+ baseImage;
             newContainer], "failed to add rootfs image annotation: ");
           (["buildah"; "commit"; newContainer; imageName], "failed to commit image: ")] ;;
        do (Exec ["buildah"; "rm"; newContainer]) ;;;
        ret res
    end.

(** The default registry is stored in the client as well, where it is read again. *)
Definition login (rc : RegistryClient) : M (result unit) :=
  let registry := if (rc_registry rc =? "")%string then "docker.io" else rc_registry rc in
  if (rc_username rc =? "")%string then ret (Err (Errorf "registry username is empty"))
  else if (rc_password rc =? "")%string then ret (Err (Errorf "registry password is empty"))
  else run_cmd ["buildah"; "login"; "-u"; rc_username rc; "-p"; rc_password rc; registry]
         ("failed to login to registry " +:+ registry +:+ ": ").

Definition PushImage (rc : RegistryClient) (imageName : string) : M (result unit) :=
  l <- login rc ;;
  match l with
  | Err e => ret (Err (Wrapf "failed to login to registry: " e))
  | Ok _ => run_cmd ["buildah"; "push"; imageName] ("failed to push image " +:+ imageName +:+ ": ")
  end.

Definition DeleteBuildImage (imageName : string) : M (result unit) :=
  run_cmd ["buildah"; "rmi"; imageName] ("failed to delete image " +:+ imageName +:+ ": ").

(** ** Pre-pulling *)

Definition createPrepullPodsNamespace (cl : Client) (namespace : string) : M (result unit) :=
  ns <- do (KGetNamespace cl namespace) ;;
  match ns with
  | Ok _ => ret (Ok tt)
  | Err err =>
      if negb (IsNotFound err)
      then ret (Err (Errorf ("error checking namespace " +:+ namespace +:+ ": " +:+ err_msg err)))
      else
        c <- do (KCreateNamespace cl namespace) ;;
        match c with
        | Err err =>
            ret (Err (Errorf ("failed to create namespace " +:+ namespace +:+ ": " +:+ err_msg err)))
        | Ok _ => ret (Ok tt)
        end
  end.

(** What distinguishes the two loops over the nodes. *)
Record prepull := MkPrepull {
  pp_prefix : string;     (* of the pods' names *)
  pp_sleep : string;      (* how long the pod runs *)
  pp_policy : string;     (* its ImagePullPolicy *)
  pp_pause : bool;        (* whether to wait after deleting an old pod *)
  pp_what : string        (* in the error message *) }.

Definition prepull_checkpoint : prepull :=
  MkPrepull "prepull-checkpoint-image-" "5" "Always" false "pre-pull pod".
Definition prepull_original : prepull :=
  MkPrepull "prepull-original-image-" "10" "" true "pre-pull original pod image".

(** One node of either loop. *)
Definition prepull_node (pp : prepull) (cl : Client) (ns image : string) (node : Node) (_ : unit)
    : M (flow unit error) :=
  match om_Labels (node_Meta node) !! "node-role.kubernetes.io/control-plane" with
  | Some _ => ret (Next tt)
  | None =>
      let podName := prepull_name (pp_prefix pp) image (node_Name node) in
      existingPod <- do (KGetPod cl (NN ns podName)) ;;
      gone <- (match existingPod with
               | Ok _ =>
                   d <- do (KDeletePod cl (NN ns podName)) ;;
                   match d with
                   | Err err => ret (Some (Wrapf ("failed to delete existing pre-pull pod "
                                     +:+ podName +:+ ": ") err))
                   | Ok _ =>
                       if pp_pause pp then do (Sleep (3 * Second)) ;;; ret None else ret None
                   end
               | Err err =>
                   if IsNotFound err then ret None
                   else ret (Some (Wrapf ("failed to check for existing pre-pull pod "
                          +:+ podName +:+ ": ") err))
               end) ;;
      match gone with
      | Some err => ret (Return err)
      | None =>
          c <- do (KCreatePod cl (prepull_pod ns podName (node_Name node) image (pp_sleep pp)
                     (pp_policy pp))) ;;
          match c with
          | Err err =>
              if IsAlreadyExists err then do (Go (BgCleanupPod cl ns podName)) ;;; ret (Next tt)
              else ret (Return (Wrapf ("failed to create " +:+ pp_what pp +:+ " " +:+ podName
                                       +:+ ": ") err))
          | Ok _ => do (Go (BgCleanupPod cl ns podName)) ;;; ret (Next tt)
          end
      end
  end.

(** The goroutine that removes a pre-pull pod when it is done; a 3 s ticker fires
    at most [ticks] times before the context is done. *)
Fixpoint cleanup_pod (ticks : nat) (cl : Client) (ns podName : string) : M unit :=
  let delete_pod := do (KDeletePod cl (NN ns podName)) ;;; ret tt in
  match ticks with
  | O => delete_pod
  | S ticks' =>
      tick <- do (AwaitTick cleanup_interval) ;;
      if negb tick then delete_pod
      else
        currentPod <- do (KGetPod cl (NN ns podName)) ;;
        match currentPod with
        | Err err => if IsNotFound err then ret tt else delete_pod
        | Ok currentPod =>
            if (pod_Phase currentPod =? PodSucceeded)%string ||
               (pod_Phase currentPod =? PodFailed)%string
            then delete_pod
            else cleanup_pod ticks' cl ns podName
        end
  end.

Definition cleanup (cl : Client) (ns podName : string) : M unit :=
  cleanup_pod (Z.to_nat (2 * Minute / cleanup_interval)) cl ns podName.

(** A checkpoint without a target cluster makes it panic. *)
Definition PreDownloadImageToTargetCluster (checkpointImage originalImage : string)
    (checkpoint : Checkpoint) : M (result unit) :=
  match cks_TargetClusterRef (ck_Spec checkpoint) with
  | None => crash
  | Some target =>
      res <- GetWorkloadClusterClient mgmt (clr_Name target) ;;
      match res with
      | Err e => ret (Err e)
      | Ok (_, None) => ret (Err (Errorf "target cluster client not available yet: {false 10s}"))
      | Ok (_, Some (cl, _)) =>
          prepull_namespace <- GetEnv "NAMESPACE" "pod-prepull" ;;
          createPrepullPodsNamespace cl prepull_namespace ;;;
          nodeList <- do (KListNodes cl ∅) ;;
          match nodeList with
          | Err e => ret (Err (Wrapf "failed to list nodes in target cluster: " e))
          | Ok nodeList =>
              r <- forEach nodeList tt
                     (prepull_node prepull_checkpoint cl prepull_namespace checkpointImage) ;;
              match r with
              | Return e => ret (Err e)
              | Next _ =>
                  if negb (originalImage =? "")%string &&
                     negb (originalImage =? checkpointImage)%string
                  then
                    r <- forEach nodeList tt
                           (prepull_node prepull_original cl prepull_namespace originalImage) ;;
                    match r with
                    | Return e => ret (Err e)
                    | Next _ => ret (Ok tt)
                    end
                  else ret (Ok tt)
              end
          end
      end
  end.

(** ** Checkpoints *)

(** [r.Status().Update(ctx, backup)]: the object takes the server's answer. *)
Definition update_status (backup : Checkpoint) : M (Checkpoint * option error) :=
  r <- do (KUpdateCheckpointStatus mgmt backup) ;;
  ret (match r with Ok answer => (answer, None) | Err e => (backup, Some e) end).

(** Sets the status now and updates it. *)
Definition report (backup : Checkpoint) (image phase message lastImage : string)
    : M (Checkpoint * option error) :=
  now <- do Now ;;
  update_status (with_status backup image now phase message lastImage).

Definition failure_message (e : error) : string :=
  "Failed to update backup status with image name: " +:+ err_msg e.

(** The branch after a failed step: the status is [Failed], and the error is the
    one of the update when that fails too. *)
Definition report_failure (backup : Checkpoint) (image : string) (message : error) (e : error)
    : M (Checkpoint * option error) :=
  r <- report backup image CheckpointPhaseFailed (failure_message message)
         (ckst_LastCheckpointImage (ck_Status backup)) ;;
  match r.2 with
  | Some ue => ret (r.1, Some ue)
  | None => ret (r.1, Some e)
  end.

(** From the checkpoint file to the pushed image, the bucket and the registry
    client being those of the reconciler; a nil one makes it panic. The error
    comes with the one that the status shows. *)
Definition make_image (r : CheckpointReconciler) (checkpointPath imageName baseImage container : string)
    : M (result unit) :=
  match cr_MinioClient r with
  | None => crash
  | Some bucket =>
      w <- WaitForFileInMinio bucket checkpointPath (300 * Second) (500 * Millisecond) ;;
      match w with
      | Err e => ret (Err e)
      | Ok _ =>
          d <- DownloadFileFromMinio bucket (Base checkpointPath) checkpointPath ;;
          match d with
          | Err e => ret (Err e)
          | Ok _ =>
              b <- buildCheckpointImage checkpointPath imageName baseImage container ;;
              match b with
              | Err e => ret (Err e)
              | Ok _ =>
                  match cr_RegistryClient r with
                  | None => crash
                  | Some rc => PushImage rc imageName
                  end
              end
          end
      end
  end.

Definition checkpointContainer (r : CheckpointReconciler) (backup : Checkpoint)
    (container : CoreContainer) (nodeName : string) (restConfig : RestConfig)
    : M (Checkpoint * option error) :=
  let baseImage := c_Image container in
  st <- report backup baseImage CheckpointPhaseRunning
          ("Starting checkpoint for container " +:+ c_Name container)
          (ckst_LastCheckpointImage (ck_Status backup)) ;;
  match st with
  | (backup, Some e) => ret (backup, Some e)
  | (backup, None) =>
      let ref := cks_PodRef (ck_Spec backup) in
      path <- CreateCheckpoint restConfig nodeName (pr_Namespace ref) (pr_Name ref)
                (c_Name container) ;;
      match path with
      | Err e => report_failure backup baseImage e
                   (Wrapf "failed to create checkpoint via kubelet API: " e)
      | Ok checkpointPath =>
          let imageName := checkpoint_image backup (c_Name container) in
          img <- make_image r checkpointPath imageName baseImage (c_Name container) ;;
          match img with
          | Err e => report_failure backup baseImage e e
          | Ok _ =>
              let done backup := report backup baseImage CheckpointPhaseCompleted
                                   "Checkpoint completed successfully" imageName in
              st <- done backup ;;
              match st with
              | (backup, Some e) => ret (backup, Some e)
              | (backup, None) =>
                  PreDownloadImageToTargetCluster imageName baseImage backup ;;;
                  do (RemoveFile checkpointPath) ;;;
                  DeleteBuildImage imageName ;;;
                  done backup
              end
          end
      end
  end.

(** The containers one after the other; the first failure ends the run. *)
Definition performCheckpoint (r : CheckpointReconciler) (workloadClient : Client) (backup : Checkpoint)
    (nodeName : string) (restConfig : RestConfig) : M (Checkpoint * option error) :=
  let ref := cks_PodRef (ck_Spec backup) in
  pod <- do (KGetPod workloadClient (NN (pr_Namespace ref) (pr_Name ref))) ;;
  match pod with
  | Err e => ret (backup, Some (Wrapf "failed to get pod: " e))
  | Ok pod =>
      if negb (pod_Phase pod =? PodRunning)%string then ret (backup, None)
      else
        res <- forEach (pod_Containers pod) backup (fun container backup =>
          c <- checkpointContainer r backup container nodeName restConfig ;;
          match c with
          | (backup, None) => ret (Next backup)
          | (backup, Some e) =>
              f <- report_failure backup (c_Image container) e e ;;
              ret (Return f)
          end) ;;
        match res with
        | Next backup => ret (backup, None)
        | Return f => ret f
        end
  end.

(** ** Reconciliation *)

(** Removes the cron entry of a Checkpoint, if there is one. *)
Definition remove_job (r : CheckpointReconciler) (key : string) : M CheckpointReconciler :=
  match cr_scheduledJobs r !! key with
  | None => ret r
  | Some entryID =>
      if cr_Scheduler r then
        do (CronRemove entryID) ;;;
        ret (with_jobs r (delete key (cr_scheduledJobs r)) (delete entryID (cr_entries r)))
      else crash
  end.

Definition set_backup (backup : Checkpoint) (j : CronJob) : CronJob :=
  MkCronJob (cj_client j) backup (cj_nodeName j) (cj_restConfig j).

Definition reconcileNormal (r : CheckpointReconciler) (workloadClient : Client) (backup : Checkpoint)
    (nodeName : string) (restConfig : RestConfig)
    : M (CheckpointReconciler * (Duration * option error)) :=
  let backupKey := ck_key backup in
  r <- remove_job r backupKey ;;
  if negb (cr_Scheduler r) then crash
  else
    id <- do (CronAddFunc (cks_Schedule (ck_Spec backup)) backupKey) ;;
    match id with
    | Err e => ret (r, (0%Z, Some e))
    | Ok entryID =>
        let job := MkCronJob workloadClient backup nodeName restConfig in
        let r := with_jobs r (<[ backupKey := entryID ]> (cr_scheduledJobs r))
                   (<[ entryID := job ]> (cr_entries r)) in
        match ckst_LastCheckpointTime (ck_Status backup) with
        | Some _ => ret (r, (Hour, None))
        | None =>
            p <- performCheckpoint r workloadClient backup nodeName restConfig ;;
            let r := with_jobs r (cr_scheduledJobs r) (alter (set_backup p.1) entryID (cr_entries r)) in
            match p.2 with
            | Some e => ret (r, (0%Z, Some e))
            | None => ret (r, (Hour, None))
            end
        end
    end.

Definition reconcileDelete (r : CheckpointReconciler) (backup : Checkpoint)
    : M (CheckpointReconciler * (Duration * option error)) :=
  r <- remove_job r (ck_key backup) ;;
  u <- do (KUpdateCheckpoint mgmt (RemoveFinalizer backup)) ;;
  match u with
  | Err e => ret (r, (0%Z, Some e))
  | Ok _ => ret (r, (0%Z, None))
  end.

(** The loop over the nodes: the clients it makes are thrown away, the address that
    it finds is the one of a new variable, so that the caller's stays empty, and
    the URL is handed down but never read. *)
Definition visit_node (workloadClient : Client) (nodeName : string) (node : Node) : M unit :=
  if (nodeName =? node_Name node)%string then
    forDo (node_Addresses node) (fun addr =>
      if (addr_Type addr =? NodeInternalIP)%string then
        NewKubeletClient (addr_Address addr) workloadClient ;;; ret tt
      else ret tt)
  else ret tt.

Definition Reconcile (r : CheckpointReconciler) (req : NamespacedName)
    : M (CheckpointReconciler * (Duration * option error)) :=
  ckpt <- do (KGetCheckpoint mgmt req) ;;
  match ckpt with
  | Err err =>
      if IsNotFound err then r <- remove_job r (nn_String req) ;; ret (r, (0%Z, None))
      else ret (r, (0%Z, Some err))
  | Ok ckpt =>
      added <- (if ContainsFinalizer ckpt then ret (Ok ckpt)
                else do (KUpdateCheckpoint mgmt (AddFinalizer ckpt))) ;;
      match added with
      | Err e => ret (r, (0%Z, Some e))
      | Ok ckpt =>
          match om_DeletionTimestamp (ck_Meta ckpt) with
          | Some _ => reconcileDelete r ckpt
          | None =>
              match cks_ClusterRef (ck_Spec ckpt) with
              | None => crash
              | Some clusterRef =>
                  res <- GetWorkloadClusterClient mgmt (clr_Name clusterRef) ;;
                  match res with
                  | Err e => ret (r, (0%Z, Some e))
                  | Ok (after, None) => ret (r, (after, None))
                  | Ok (_, Some (cl, restConfig)) =>
                      nodeList <- do (KListNodes cl ∅) ;;
                      match nodeList with
                      | Err e =>
                          ret (r, (0%Z, Some (Wrapf "failed to list nodes in workload cluster: " e)))
                      | Ok nodeList =>
                          let ref := cks_PodRef (ck_Spec ckpt) in
                          pod <- do (KGetPod cl (NN (pr_Namespace ref) (pr_Name ref))) ;;
                          match pod with
                          | Err e => ret (r, (0%Z, Some (Wrapf ("failed to get pod " +:+
                              pr_Namespace ref +:+ "/" +:+ pr_Name ref +:+ ": ") e)))
                          | Ok pod =>
                              let nodeName := pod_NodeName pod in
                              forDo nodeList (visit_node cl nodeName) ;;;
                              i <- initializeClients r ckpt "" cl ;;
                              match i with
                              | (r, Some e) => ret (r, (0%Z, Some e))
                              | (r, None) => reconcileNormal r cl ckpt nodeName restConfig
                              end
                          end
                      end
                  end
              end
          end
      end
  end.

(** A cron entry fires: its closure runs on the object it was made with. *)
Definition fire (r : CheckpointReconciler) (entryID : Z) : M CheckpointReconciler :=
  match cr_entries r !! entryID with
  | None => ret r
  | Some job =>
      p <- performCheckpoint r (cj_client job) (cj_backup job) (cj_nodeName job)
             (cj_restConfig job) ;;
      ret (with_jobs r (cr_scheduledJobs r) (alter (set_backup p.1) entryID (cr_entries r)))
  end.

(** ** The system *)

Inductive ck_input := CkRequest (req : NamespacedName) | CkFire (entryID : Z).

Definition ck_step (i : ck_input) (r : CheckpointReconciler) : M CheckpointReconciler :=
  match i with
  | CkRequest req => p <- Reconcile r req ;; ret p.1
  | CkFire entryID => fire r entryID
  end.

Fixpoint ck_run (inputs : list ck_input) (r : CheckpointReconciler) : M CheckpointReconciler :=
  match inputs with
  | [] => ret r
  | i :: inputs' => r' <- ck_step i r ;; ck_run inputs' r'
  end.

End Controller.

#[global] Arguments WaitForFileInMinio : simpl never.
#[global] Arguments make_image : simpl never.
#[global] Arguments PreDownloadImageToTargetCluster : simpl never.
#[global] Arguments CreateCheckpoint : simpl never.
#[global] Arguments performCheckpoint : simpl never.
#[global] Arguments checkpointContainer : simpl never.
#[global] Arguments initializeClients : simpl never.
#[global] Arguments report : simpl never.
#[global] Arguments report_failure : simpl never.

(** ** Runs *)

Section Runs.
Context {X : Externals} (mgmt : Client).

(** A status update of a Checkpoint, and whether it was accepted. *)
Definition reported (e : event) : option (Checkpoint * bool) :=
  match e with
  | Ev (KUpdateCheckpointStatus _ c) r => Some (c, is_ok r)
  | _ => None
  end.
Definition is_cron (e : event) : Prop :=
  match e with Ev (CronAddFunc _ _) _ | Ev (CronRemove _) _ => True | _ => False end.

(** Events that neither report nor touch the scheduler. *)
Definition silent (e : event) : Prop := reported e = None /\ ~ is_cron e.

Lemma silent_capi e : is_capi_event e -> silent e.
Proof. destruct e as [[] ?]; simpl; try done; intros _; (split; [done|by intros []]). Qed.
Lemma silent_getenv e : is_getenv e -> silent e.
Proof. destruct e as [[] ?]; simpl; try done; intros _; (split; [done|by intros []]). Qed.

Ltac silent_auto := emits_auto; try (split; [reflexivity|by intros []]).

Lemma emits_silent_client name : emits silent (GetWorkloadClusterClient mgmt name).
Proof. eapply emits_mono; [apply silent_capi|apply emits_GetWorkloadClusterClient]. Qed.
Lemma emits_silent_env k d : emits silent (GetEnv k d).
Proof. eapply emits_mono; [apply silent_getenv|apply emits_GetEnv]. Qed.
#[local] Hint Resolve emits_silent_client emits_silent_env : go.

Lemma emits_silent_minio : emits silent NewMinioClient.
Proof. unfold NewMinioClient, InitializeMinio, getenv. silent_auto. Qed.
Lemma emits_silent_kubelet ip cl : emits silent (NewKubeletClient ip cl).
Proof. unfold NewKubeletClient, getKubeletToken. silent_auto. Qed.
Lemma emits_silent_registry reg : emits silent (NewRegistryClient mgmt reg).
Proof. unfold NewRegistryClient. silent_auto. Qed.
Lemma emits_silent_create cfg a b c d : emits silent (CreateCheckpoint cfg a b c d).
Proof. unfold CreateCheckpoint. silent_auto. Qed.
Lemma emits_silent_wait n b p st t i : emits silent (wait_file n b p st t i).
Proof. induction n as [|n IH]; cbn [wait_file]; unfold FileExistsInMinio; silent_auto. Qed.
Lemma emits_silent_cmds cmds : emits silent (run_cmds cmds).
Proof. induction cmds as [|[cmd pre] cmds IH]; simpl; unfold run_cmd; silent_auto. Qed.
#[local] Hint Resolve emits_silent_minio emits_silent_kubelet emits_silent_registry
  emits_silent_create emits_silent_wait emits_silent_cmds : go.
Lemma emits_silent_build a b c d : emits silent (buildCheckpointImage a b c d).
Proof. unfold buildCheckpointImage. silent_auto. Qed.
Lemma emits_silent_push rc i : emits silent (PushImage rc i).
Proof. unfold PushImage, login, run_cmd. silent_auto. Qed.
#[local] Hint Resolve emits_silent_build emits_silent_push : go.
Lemma emits_silent_make r p i b c : emits silent (make_image r p i b c).
Proof. unfold make_image, WaitForFileInMinio, DownloadFileFromMinio. silent_auto. Qed.
Lemma emits_silent_prepull_node pp cl ns i n u : emits silent (prepull_node pp cl ns i n u).
Proof. unfold prepull_node. silent_auto. Qed.
#[local] Hint Resolve emits_silent_make emits_silent_prepull_node : go.
Lemma emits_silent_predownload i o c : emits silent (PreDownloadImageToTargetCluster mgmt i o c).
Proof. unfold PreDownloadImageToTargetCluster, createPrepullPodsNamespace. silent_auto. Qed.
Lemma emits_silent_delete i : emits silent (DeleteBuildImage i).
Proof. unfold DeleteBuildImage, run_cmd. silent_auto. Qed.
Lemma emits_silent_visit cl n node : emits silent (visit_node cl n node).
Proof. unfold visit_node. silent_auto. Qed.
#[local] Hint Resolve emits_silent_predownload emits_silent_delete emits_silent_visit : go.

(** *** Images are pushed before they are reported *)

Definition pushed (image : string) (e : event) : Prop :=
  match e with Ev (Exec cmd) (Ok _) => cmd = ["buildah"; "push"; image] | _ => False end.

(** The image that a status update reports as completed. *)
Definition completed (e : event) : option string :=
  match reported e with
  | Some (c, _) =>
      if (ckst_Phase (ck_Status c) =? CheckpointPhaseCompleted)%string
      then Some (ckst_LastCheckpointImage (ck_Status c)) else None
  | None => None
  end.

Definition pushed_before (t : trace) : Prop :=
  forall image, precedes (pushed image) (fun e => completed e = Some image) t.

#[export] Instance pushed_before_closed : Closed pushed_before.
Proof.
  split; [intros i; apply precedes_nil|].
  intros t1 t2 H1 H2 i. apply precedes_app; [apply H1|right; apply H2].
Qed.

Lemma pushed_before_none t : Forall (fun e => completed e = None) t -> pushed_before t.
Proof. intros H i. apply precedes_no. eapply Forall_impl; [exact H|]. cbn. congruence. Qed.

Lemma pushed_before_then image t1 t2 :
  pushed_before t1 -> Exists (pushed image) t1 ->
  Forall (fun e => completed e = None \/ completed e = Some image) t2 -> pushed_before (t1 ++ t2).
Proof.
  intros H1 He H2 i. apply precedes_app; [apply H1|].
  destruct (decide (i = image)) as [->|Hne]; [by left|]. right. apply precedes_no.
  eapply Forall_impl; [exact H2|]. cbn. intros e [->| ->]; congruence.
Qed.

Lemma silent_completed e : silent e -> completed e = None.
Proof. intros [H _]. unfold completed. by rewrite H. Qed.
Lemma silent_not_completed t : Forall silent t -> Forall (fun e => completed e = None) t.
Proof. intros H. eapply Forall_impl; [exact H|]. apply silent_completed. Qed.

Lemma emits_uncompleted_report b i phase m l :
  phase ≠ CheckpointPhaseCompleted ->
  emits (fun e => completed e = None) (report mgmt b i phase m l).
Proof.
  intros H. unfold report, update_status. emits_auto. unfold completed. simpl.
  by destruct (String.eqb_spec phase CheckpointPhaseCompleted).
Qed.
Lemma emits_report_failure b i m e :
  emits (fun e => completed e = None) (report_failure mgmt b i m e).
Proof.
  unfold report_failure. apply emits_bind; [by apply emits_uncompleted_report|]. intros ?. emits_auto.
Qed.
Lemma emits_completed_report b i m l :
  emits (fun e => completed e = None \/ completed e = Some l)
    (report mgmt b i CheckpointPhaseCompleted m l).
Proof. unfold report, update_status. emits_auto; [by left|by right]. Qed.

Lemma spec_make_image r p i b c :
  spec (make_image r p i b c) (fun o t => Forall silent t /\
    forall u, o = Ret (Ok u) -> Exists (pushed i) t).
Proof.
  apply spec_of_wp. intros s.
  enough (wp (make_image r p i b c) (fun o _ t => forall u, o = Ret (Ok u) -> Exists (pushed i) t) s []
    /\ Forall silent (r_trace (make_image r p i b c s))) as [H1 H2].
  { unfold wp in *. split; [exact H2|exact H1]. }
  split; [|apply emits_silent_make].
  unfold make_image. destruct (cr_MinioClient r) as [bucket|]; [|by wp_step].
  wp_step. eapply (wp_spec _ (fun _ _ => True)); [done|]. intros [[?|?]|] s1 t1 _; [|by wp_step|done].
  wp_step. eapply (wp_spec _ (fun _ _ => True)); [done|]. intros [[?|?]|] s2 t2 _; [|by wp_step|done].
  wp_step. eapply (wp_spec _ (fun _ _ => True)); [done|]. intros [[?|?]|] s3 t3 _; [|by wp_step|done].
  destruct (cr_RegistryClient r) as [rc|]; [|by wp_step]. unfold PushImage, run_cmd.
  wp_step. eapply (wp_spec _ (fun _ _ => True)); [done|]. intros [[?|?]|] s4 t4 _; [|by wp_step|done].
  wp_step. wp_step. wp_step. destruct r0 as [out|e]; [|done]. intros u _.
  apply Exists_app. right. by constructor.
Qed.

Lemma pushed_before_container r b c n cfg :
  traces pushed_before (checkpointContainer mgmt r b c n cfg).
Proof.
  intros s. change (wp (checkpointContainer mgmt r b c n cfg) (fun _ _ t => pushed_before t) s []).
  unfold checkpointContainer. wp_step.
  eapply wp_emits; [by apply emits_uncompleted_report|]. cbn [app]. intros [[b1 [e|]]|] s1 t1 H1;
    [wp_step; by apply pushed_before_none| |by apply pushed_before_none].
  wp_step. eapply wp_emits; [apply emits_silent_create|]. intros o s2 t2 H2%silent_not_completed.
  assert (Forall (fun e => completed e = None) (t1 ++ t2)) as H12 by by apply Forall_app.
  assert (forall t, Forall (fun e => completed e = None) t -> pushed_before ((t1 ++ t2) ++ t)) as Hnone
    by (intros t Ht; apply pushed_before_none; by apply Forall_app).
  destruct o as [[path|e]|]; [| |by apply pushed_before_none].
  2:{ eapply wp_emits; [apply emits_report_failure|]. intros ? ? t Ht. by apply Hnone. }
  wp_step. eapply wp_spec; [apply spec_make_image|]. cbn beta. intros o s3 t3 [H3 Hp].
  apply silent_not_completed in H3.
  destruct o as [[u|e]|]; [| |by apply Hnone].
  2:{ eapply wp_emits; [apply emits_report_failure|]. intros ? ? t Ht. rewrite <- app_assoc.
      apply Hnone. by apply Forall_app. }
  specialize (Hp u eq_refl).
  set (image := checkpoint_image b1 (c_Name c)) in *.
  eapply wp_emits.
  - apply (emits_bind (fun e => completed e = None \/ completed e = Some image));
      [apply emits_completed_report|].
    intros [b2 [e|]]; [apply emits_ret|].
    apply emits_bind; [eapply emits_mono; [|apply emits_silent_predownload]; intros; left;
      by apply silent_completed|]. intros _.
    apply emits_bind; [apply emits_do; by left|]. intros _.
    apply emits_bind; [eapply emits_mono; [|apply emits_silent_delete]; intros; left;
      by apply silent_completed|]. intros _. apply emits_completed_report.
  - intros ? ? t Ht. apply (pushed_before_then image); [by apply Hnone| |done].
    apply Exists_app. by right.
Qed.

Lemma pushed_before_silent {A} (m : M A) : emits silent m -> traces pushed_before m.
Proof.
  apply traces_emits. intros t Ht. by apply pushed_before_none, silent_not_completed.
Qed.
Lemma pushed_before_failure b i m e : traces pushed_before (report_failure mgmt b i m e).
Proof. eapply traces_emits; [|apply emits_report_failure]. apply pushed_before_none. Qed.
Lemma pushed_before_one c r : reported (Ev c r) = None -> pushed_before [Ev c r].
Proof. intros H. apply pushed_before_none. constructor; [|done]. unfold completed. by rewrite H. Qed.
#[local] Hint Resolve pushed_before_container pushed_before_failure pushed_before_one : go.

Lemma pushed_before_perform r cl b n cfg :
  traces pushed_before (performCheckpoint mgmt r cl b n cfg).
Proof. unfold performCheckpoint. traces_auto. Qed.
#[local] Hint Resolve pushed_before_perform : go.

Lemma pushed_before_step i r : traces pushed_before (ck_step mgmt i r).
Proof.
  pose proof (fun name => pushed_before_silent _ (emits_silent_client name)).
  pose proof (fun reg => pushed_before_silent _ (emits_silent_registry reg)).
  pose proof (fun ip cl => pushed_before_silent _ (emits_silent_kubelet ip cl)).
  pose proof (pushed_before_silent _ emits_silent_minio).
  assert (forall cl n l, traces pushed_before (forDo l (visit_node cl n))).
  { intros cl n l. apply pushed_before_silent, emits_forDo. intros; apply emits_silent_visit. }
  unfold ck_step, Reconcile, fire, reconcileDelete, reconcileNormal, remove_job, initializeClients.
  traces_auto.
Qed.

(** *** What a run reports *)

Definition reports (t : trace) : list (Checkpoint * bool) := omap reported t.

Definition dated (c : Checkpoint * bool) : Prop :=
  ckst_LastCheckpointTime (ck_Status c.1) ≠ None.

(** What a report shows: the container's image, the phase, and whether the update
    was accepted. *)
Definition shows (c : Checkpoint * bool) : string * string * bool :=
  (ckst_OriginalImage (ck_Status c.1), ckst_Phase (ck_Status c.1), c.2).
Definition story (t : trace) : list (string * string * bool) := shows <$> reports t.

Lemma reports_app t1 t2 : reports (t1 ++ t2) = reports t1 ++ reports t2.
Proof. apply omap_app. Qed.
Lemma reports_silent t : Forall silent t -> reports t = [].
Proof. intros H. eapply omap_none; [|exact H]. by intros e [? _]. Qed.
Lemma story_app t1 t2 : story (t1 ++ t2) = story t1 ++ story t2.
Proof. unfold story. by rewrite reports_app, fmap_app. Qed.

(** The story of a container that was checkpointed. *)
Definition success (image : string) : list (string * string * bool) :=
  [(image, CheckpointPhaseRunning, true); (image, CheckpointPhaseCompleted, true);
   (image, CheckpointPhaseCompleted, true)].

(** The story of a container that was not, up to the error that its function returns:
    an update was refused, or a step failed and the phase [Failed] was reported. *)
Definition failure (image : string) (l : list (string * string * bool)) : Prop :=
  l = [(image, CheckpointPhaseRunning, false)] \/
  (exists accepted, l = [(image, CheckpointPhaseRunning, true);
                         (image, CheckpointPhaseFailed, accepted)]) \/
  l = [(image, CheckpointPhaseRunning, true); (image, CheckpointPhaseCompleted, false)] \/
  l = [(image, CheckpointPhaseRunning, true); (image, CheckpointPhaseCompleted, true);
       (image, CheckpointPhaseCompleted, false)].

Definition container_story (image : string) (o : outcome (Checkpoint * option error)) (t : trace)
    : Prop :=
  Forall dated (reports t) /\
  match o with
  | Ret (_, None) => story t = success image
  | Ret (_, Some _) => failure image (story t)
  | Crash => story t `prefix_of` success image
  end.

Lemma spec_report b i phase m l :
  spec (report mgmt b i phase m l) (fun o t => exists b' err,
    o = Ret (b', err) /\ Forall dated (reports t) /\
    story t = [(i, phase, bool_decide (err = None))]).
Proof.
  apply spec_of_wp. intros s. unfold report, update_status. repeat wp_step.
  destruct r0 as [c|e]; eexists _, _; (split; [reflexivity|]);
    (split; [by repeat constructor|reflexivity]).
Qed.

Lemma spec_report_failure b i m e :
  spec (report_failure mgmt b i m e) (fun o t => exists b' err accepted, o = Ret (b', Some err) /\
    Forall dated (reports t) /\ story t = [(i, CheckpointPhaseFailed, accepted)]).
Proof.
  apply spec_of_wp. intros s. unfold report_failure. wp_step.
  eapply wp_spec; [apply spec_report|]. cbn beta. cbn [app].
  intros o s1 t (b' & err & -> & Hd & Ht). simpl.
  destruct err as [ue|]; wp_step; eexists _, _, _; by split.
Qed.

Lemma head_kept (e : event) t1 t2 : head t1 = Some e -> head (t1 ++ t2) = Some e.
Proof. by destruct t1. Qed.

(** What was reported so far. *)
Definition told (l : list (string * string * bool)) (t : trace) : Prop :=
  Forall dated (reports t) /\ story t = l.

Lemma told_app l1 l2 t1 t2 : told l1 t1 -> told l2 t2 -> told (l1 ++ l2) (t1 ++ t2).
Proof.
  intros [Hd1 <-] [Hd2 <-]. split; [rewrite reports_app; by apply Forall_app|apply story_app].
Qed.
Lemma told_silent l t1 t2 : told l t1 -> reports t2 = [] -> told l (t1 ++ t2).
Proof.
  intros H H2. rewrite <-(app_nil_r l). apply told_app; [done|]. unfold told, story. by rewrite H2.
Qed.

Lemma wp_silent {A} (m : M A) (Q : outcome A -> mstate -> trace -> Prop) s tr l :
  emits silent m -> told l tr ->
  (forall o s' tr', told l tr' -> Q o s' tr') -> wp m Q s tr.
Proof.
  intros H Ht HQ. eapply wp_emits; [exact H|]. intros o s' t Hs. apply HQ.
  apply told_silent; [done|by apply reports_silent].
Qed.

Lemma wp_report b i phase m l Q s tr told0 :
  told told0 tr ->
  (forall b' err s' tr', told (told0 ++ [(i, phase, bool_decide (err = None))]) tr' ->
     Q (Ret (b', err)) s' tr') ->
  wp (report mgmt b i phase m l) Q s tr.
Proof.
  intros Ht HQ. eapply wp_spec; [apply spec_report|]. cbn beta.
  intros o s' t (b' & err & -> & H). apply HQ. by apply told_app.
Qed.

Lemma wp_report_failure b i m e Q s tr told0 :
  told told0 tr ->
  (forall b' err accepted s' tr', (forall e, head tr = Some e -> head tr' = Some e) ->
     told (told0 ++ [(i, CheckpointPhaseFailed, accepted)]) tr' -> Q (Ret (b', Some err)) s' tr') ->
  wp (report_failure mgmt b i m e) Q s tr.
Proof.
  intros Ht HQ. eapply wp_spec; [apply spec_report_failure|]. cbn beta.
  intros o s' t (b' & err & acc & -> & H). eapply HQ; [intros e0; apply head_kept|by apply told_app].
Qed.

Lemma spec_container_story r b c n cfg :
  spec (checkpointContainer mgmt r b c n cfg) (container_story (c_Image c)).
Proof.
  apply spec_of_wp. intros s. unfold checkpointContainer, container_story.
  assert (told [] []) as H0 by done.
  wp_step. apply (wp_report _ _ _ _ _ _ _ _ _ H0). intros b1 [e1|] s1 t1 H1; cbn in H1.
  { wp_step. destruct H1 as [? ->]. split; [done|]. by left. }
  wp_step. eapply wp_silent; [apply emits_silent_create|exact H1|]. intros o s2 t2 H2.
  destruct o as [[path|e]|]; cycle 1.
  { apply (wp_report_failure _ _ _ _ _ _ _ _ H2). intros b2 err acc s3 t3 _ [? ->].
    split; [done|]. right. left. by exists acc. }
  { destruct H2 as [? ->]. split; [done|]. by eexists. }
  wp_step. eapply wp_silent; [apply emits_silent_make|exact H2|]. intros o s3 t3 H3.
  destruct o as [[u|e]|]; cycle 1.
  { apply (wp_report_failure _ _ _ _ _ _ _ _ H3). intros b2 err acc s4 t4 _ [? ->].
    split; [done|]. right. left. by exists acc. }
  { destruct H3 as [? ->]. split; [done|]. by eexists. }
  cbv zeta. wp_step. apply (wp_report _ _ _ _ _ _ _ _ _ H3). intros b4 [e4|] s4 t4 H4; cbn in H4.
  { wp_step. destruct H4 as [? ->]. split; [done|]. by right; right; left. }
  wp_step. eapply wp_silent; [apply emits_silent_predownload|exact H4|]. intros o s5 t5 H5.
  destruct o; [|destruct H5 as [? ->]; split; [done|by eexists]].
  wp_step. wp_step. wp_step.
  eapply wp_silent; [apply emits_silent_delete|by apply told_silent|]. intros o s6 t6 H6.
  destruct o; [|destruct H6 as [? ->]; split; [done|by eexists]].
  apply (wp_report _ _ _ _ _ _ _ _ _ H6). intros b8 [e8|] s8 t8 [? Ht8]; cbn in Ht8; rewrite Ht8;
    (split; [done|]); [by right; right; right|done].
Qed.

(** The story of a run over the containers of a running pod, in their order. Every
    container before the last one it turned to was checkpointed; after an error
    [Failed] is reported once more, for the container that failed. *)
Definition containers_story (containers : list CoreContainer)
    (o : outcome (Checkpoint * option error)) (l : list (string * string * bool)) : Prop :=
  match o with
  | Ret (_, None) => l = flat_map (fun c => success (c_Image c)) containers
  | Ret (_, Some _) => exists past c rest lc accepted,
      containers = past ++ c :: rest /\ failure (c_Image c) lc /\
      l = flat_map (fun c => success (c_Image c)) past ++
          lc ++ [(c_Image c, CheckpointPhaseFailed, accepted)]
  | Crash => exists past c rest lc,
      containers = past ++ c :: rest /\ lc `prefix_of` success (c_Image c) /\
      l = flat_map (fun c => success (c_Image c)) past ++ lc
  end.

(** The story of a run, by what reading the pod gave. *)
Definition run_story (backup : Checkpoint) (pod : result Pod)
    (o : outcome (Checkpoint * option error)) (l : list (string * string * bool)) : Prop :=
  match pod with
  | Err _ => l = [] /\ exists e, o = Ret (backup, Some e)
  | Ok pod =>
      if (pod_Phase pod =? PodRunning)%string then containers_story (pod_Containers pod) o l
      else l = [] /\ o = Ret (backup, None)
  end.

(** Between two containers: the first event is [e], and [past] was checkpointed. *)
Definition between (e : event) (containers rest : list CoreContainer) (tr : trace) : Prop :=
  head tr = Some e /\ exists past, containers = past ++ rest /\
    told (flat_map (fun c => success (c_Image c)) past) tr.

Lemma spec_perform_story r cl b n cfg :
  spec (performCheckpoint mgmt r cl b n cfg) (fun o t => exists pod,
    head t = Some (Ev (KGetPod cl (NN (pr_Namespace (cks_PodRef (ck_Spec b)))
                                      (pr_Name (cks_PodRef (ck_Spec b))))) pod) /\
    Forall dated (reports t) /\ run_story b pod o (story t)).
Proof.
  apply spec_of_wp. intros s. unfold performCheckpoint. wp_step.
  set (call := KGetPod _ _). apply (wp_do call). intros pod w. unfold run_story.
  destruct pod as [pod|e]; cbn [app]; [|wp_step; exists (Err e); split_and!; try done; by eexists].
  destruct (pod_Phase pod =? PodRunning)%string eqn:Hp; cbn [negb].
  2:{ wp_step. eexists. split_and!; [done..|]. cbn. by rewrite Hp. }
  wp_step. apply (wp_forEach (fun rest _ _ tr =>
    between (Ev call (Ok pod)) (pod_Containers pod) rest tr)).
  - split; [done|]. by exists [].
  - intros c rest b1 s1 tr (Hh & past & Hc & Ht). wp_step.
    eapply wp_spec; [apply spec_container_story|]. cbn beta.
    intros [[b2 [e|]]|] s2 t2 [Hd2 H2].
    + wp_step. eapply wp_report_failure; [eapply told_app; [exact Ht|by split]|].
      intros b3 err acc s3 t3 Hkeep [Hd Hs]. wp_step. wp_step.
      exists (Ok pod). split; [by apply Hkeep, head_kept|]. split; [done|]. rewrite Hp.
      exists past, c, rest, (story t2), acc. by rewrite Hs, <-(assoc_L (++)).
    + wp_step. split; [by apply head_kept|]. exists (past ++ [c]).
      rewrite <-(assoc_L (++)), flat_map_app. split; [done|]. by apply told_app.
    + exists (Ok pod). split; [by apply head_kept|].
      split; [rewrite reports_app; apply Forall_app; by destruct Ht|]. rewrite Hp.
      exists past, c, rest, (story t2). rewrite story_app. by destruct Ht as [_ ->].
  - intros b1 s1 tr (Hh & past & Hc & Hd & Hs). wp_step. exists (Ok pod).
    split; [done|]. split; [done|]. rewrite Hp, Hs, Hc, app_nil_r. done.
Qed.

(** *** The scheduler *)

Definition live_step (l : gset Z) (e : event) : gset Z :=
  match e with
  | Ev (CronAddFunc _ _) (Ok id) => {[ id ]} ∪ l
  | Ev (CronRemove id) _ => l ∖ {[ id ]}
  | _ => l
  end.
(** The entries that were added and not removed, and all that were added. *)
Definition live (t : trace) : gset Z := foldl live_step ∅ t.
Definition added (e : event) : option Z :=
  match e with Ev (CronAddFunc _ _) (Ok id) => Some id | _ => None end.

(** The jobs of the reconciler are exactly the live entries, one per Checkpoint. *)
Definition jobs_ok (r : CheckpointReconciler) (l : gset Z) : Prop :=
  (forall id, id ∈ l <-> is_Some (cr_entries r !! id)) /\
  (forall id, is_Some (cr_entries r !! id) <-> exists key, cr_scheduledJobs r !! key = Some id) /\
  (forall k1 k2 id, cr_scheduledJobs r !! k1 = Some id -> cr_scheduledJobs r !! k2 = Some id ->
     k1 = k2) /\
  (cr_Scheduler r = false -> cr_scheduledJobs r = ∅ /\ cr_entries r = ∅).

(** The invariant of a run, for a scheduler that does not reuse identifiers. *)
Definition scheduled (r : CheckpointReconciler) (tr : trace) : Prop :=
  NoDup (omap added tr) -> jobs_ok r (live tr).

Lemma live_added tr id : id ∈ live tr -> id ∈ omap added tr.
Proof.
  unfold live. induction tr as [|e tr IH] using rev_ind; [set_solver|].
  rewrite foldl_app, omap_app. simpl. intros H. apply elem_of_app.
  destruct e as [c res]; destruct c; simpl in *; try by left; auto.
  - destruct res as [id'|]; simpl in *; [|by left; auto].
    apply elem_of_union in H as [->%elem_of_singleton|H]; [right; by left|left; auto].
  - left. apply IH. set_solver.
Qed.

Lemma live_silent tr t : Forall (fun e => ~ is_cron e) t -> live (tr ++ t) = live tr.
Proof.
  unfold live. rewrite foldl_app. generalize (foldl live_step ∅ tr). intros l Ht.
  induction Ht as [|e t He _ IH]; [done|]. simpl.
  assert (live_step l e = l) as -> by (destruct e as [[] ?]; done || (exfalso; by apply He)). done.
Qed.

Lemma added_silent t : Forall (fun e => ~ is_cron e) t -> omap added t = [].
Proof.
  apply omap_none. by intros [[] ?] H.
Qed.

Lemma scheduled_silent r tr t :
  Forall (fun e => ~ is_cron e) t -> scheduled r tr -> scheduled r (tr ++ t).
Proof.
  intros Ht H. unfold scheduled. rewrite omap_app, (added_silent t), app_nil_r by done.
  rewrite live_silent by done. exact H.
Qed.

Lemma silent_no_cron t : Forall silent t -> Forall (fun e => ~ is_cron e) t.
Proof. intros H. eapply Forall_impl; [exact H|]. by intros e [_ ?]. Qed.

Lemma jobs_remove r key id l :
  jobs_ok r l -> cr_scheduledJobs r !! key = Some id ->
  jobs_ok (with_jobs r (delete key (cr_scheduledJobs r)) (delete id (cr_entries r))) (l ∖ {[ id ]}).
Proof.
  intros (H1 & H2 & H3 & H4) Hk. unfold jobs_ok. simpl. repeat split.
  - intros [Hl Hne]%elem_of_difference. rewrite lookup_delete_ne by set_solver. by apply H1.
  - intros [j Hj]. apply lookup_delete_Some in Hj as [Hne Hj]. apply elem_of_difference.
    split; [apply H1; by eexists|set_solver].
  - intros [j Hj]. apply lookup_delete_Some in Hj as [Hne Hj].
    destruct (proj1 (H2 id0)) as [k Hk']; [by eexists|]. exists k.
    rewrite lookup_delete_ne; [done|]. intros ->. congruence.
  - intros [k Hj]. apply lookup_delete_Some in Hj as [Hne Hj].
    rewrite lookup_delete_ne; [apply H2; by exists k|]. intros ->. by apply Hne, (H3 _ _ _ Hk).
  - intros k1 k2 id0 [_ Ha]%lookup_delete_Some [_ Hb]%lookup_delete_Some. by eapply H3.
  - destruct (H4 H) as [-> _]. by rewrite delete_empty.
  - destruct (H4 H) as [_ ->]. by rewrite delete_empty.
Qed.

Lemma jobs_add r key id j l :
  jobs_ok r l -> cr_scheduledJobs r !! key = None -> id ∉ l -> cr_Scheduler r = true ->
  jobs_ok (with_jobs r (<[ key := id ]> (cr_scheduledJobs r)) (<[ id := j ]> (cr_entries r)))
    ({[ id ]} ∪ l).
Proof.
  intros (H1 & H2 & H3 & H4) Hk Hid Hs. unfold jobs_ok. simpl.
  assert (forall k, cr_scheduledJobs r !! k ≠ Some id) as Hfree.
  { intros k Hj. apply Hid, H1, H2. by exists k. }
  split; [|split; [|split]].
  - intros id0. rewrite elem_of_union, elem_of_singleton, lookup_insert_is_Some, H1.
    destruct (decide (id = id0)); naive_solver.
  - intros id0. rewrite lookup_insert_is_Some, H2. split.
    + intros [<-|[Hne [k Hj]]]; [exists key; by rewrite lookup_insert_eq|].
      exists k. rewrite lookup_insert_ne; [done|]. intros ->. congruence.
    + intros [k Hj]. apply lookup_insert_Some in Hj as [[_ <-]|[Hne Hj]]; [by left|].
      right. split; [|by exists k]. intros ->. by apply (Hfree k).
  - intros k1 k2 id0 [[<- <-]|[Hn1 Ha]]%lookup_insert_Some [[<- Heq]|[Hn2 Hb]]%lookup_insert_Some;
      [done| | |by eapply H3]; exfalso; subst; [by apply (Hfree k2)|by apply (Hfree k1)].
  - congruence.
Qed.

Lemma jobs_alter r f id l :
  jobs_ok r l -> jobs_ok (with_jobs r (cr_scheduledJobs r) (alter f id (cr_entries r))) l.
Proof.
  intros (H1 & H2 & H3 & H4). unfold jobs_ok. simpl. split; [|split; [|split]]; [| |done|].
  - intros id0. rewrite H1. by rewrite lookup_alter_is_Some.
  - intros id0. rewrite <- H2. by rewrite lookup_alter_is_Some.
  - intros H. destruct (H4 H) as [-> ->]. done.
Qed.

(** *** The invariant of the reconciler *)

Definition no_cron (e : event) : Prop := ~ is_cron e.

Lemma no_cron_silent {A} (m : M A) : emits silent m -> emits no_cron m.
Proof. apply emits_mono. by intros e [_ ?]. Qed.
#[local] Hint Resolve no_cron_silent : go.

Lemma no_cron_report b i p m l : emits no_cron (report mgmt b i p m l).
Proof. unfold report, update_status. emits_auto; by intros []. Qed.
#[local] Hint Resolve no_cron_report : go.
Lemma no_cron_failure b i m e : emits no_cron (report_failure mgmt b i m e).
Proof. unfold report_failure. emits_auto. Qed.
#[local] Hint Resolve no_cron_failure : go.
Lemma no_cron_container r b c n cfg : emits no_cron (checkpointContainer mgmt r b c n cfg).
Proof. unfold checkpointContainer. emits_auto; by intros []. Qed.
#[local] Hint Resolve no_cron_container : go.
Lemma no_cron_perform r cl b n cfg : emits no_cron (performCheckpoint mgmt r cl b n cfg).
Proof. unfold performCheckpoint. emits_auto; by intros []. Qed.
#[local] Hint Resolve no_cron_perform : go.

Definition localhost_url : string := "https://localhost:10250".

Record consistent (r : CheckpointReconciler) (tr : trace) : Prop := {
  inv_jobs : scheduled r tr;
  inv_kubelet : forall kc, cr_KubeletClient r = Some kc -> kc_kubeletURL kc = localhost_url }.

(** The postcondition of a step: the invariant, unless it panicked. *)
Definition keeps {A} (f : A -> CheckpointReconciler) (o : outcome A) (_ : mstate) (tr : trace) : Prop :=
  match o with Ret a => consistent (f a) tr | Crash => True end.

Lemma consistent_no_cron r tr t : Forall no_cron t -> consistent r tr -> consistent r (tr ++ t).
Proof. intros Ht [H1 H2]. split; [by apply scheduled_silent|done]. Qed.

Lemma wp_no_cron {A B} (f : B -> CheckpointReconciler) (m : M A) (k : A -> M B) r s tr :
  consistent r tr -> emits no_cron m ->
  (forall a s' tr', consistent r tr' -> wp (k a) (keeps f) s' tr') ->
  wp (bind m k) (keeps f) s tr.
Proof.
  intros Hc Hm Hk. wp_step. eapply wp_emits; [exact Hm|].
  intros [a|] s' t Ht; [|done]. apply Hk. by apply consistent_no_cron.
Qed.

Lemma wp_remove_job {B} (f : B -> CheckpointReconciler) (k : CheckpointReconciler -> M B) r key s tr :
  consistent r tr ->
  (forall r' s' tr', consistent r' tr' -> cr_scheduledJobs r' !! key = None ->
     wp (k r') (keeps f) s' tr') ->
  wp (bind (remove_job r key) k) (keeps f) s tr.
Proof.
  intros [Hj Hu] Hk. wp_step. unfold remove_job.
  destruct (cr_scheduledJobs r !! key) as [id|] eqn:Hl; [|wp_step; by apply Hk].
  destruct (cr_Scheduler r); [|by wp_step]. wp_step. wp_step. wp_step. apply Hk.
  - split; [|done]. unfold scheduled, live. rewrite omap_app, foldl_app. cbn [omap list_omap added].
    rewrite app_nil_r. intros Hn. by apply jobs_remove; [apply Hj|].
  - simpl. by rewrite lookup_delete_eq.
Qed.

(** What [initializeClients] does to the reconciler. *)
Definition initialized (r r' : CheckpointReconciler) : Prop :=
  (forall kc, cr_KubeletClient r' = Some kc ->
     cr_KubeletClient r = Some kc \/ kc_kubeletURL kc = localhost_url) /\
  ((cr_scheduledJobs r' = cr_scheduledJobs r /\ cr_entries r' = cr_entries r /\
    (cr_Scheduler r = true -> cr_Scheduler r' = true) /\
    (cr_Scheduler r' = true -> cr_Scheduler r = true)) \/
   (cr_Scheduler r = false /\ cr_scheduledJobs r' = ∅ /\ cr_entries r' = ∅ /\
    cr_Scheduler r' = true)).

Lemma no_cron_initialize r b ip cl : emits no_cron (initializeClients mgmt r b ip cl).
Proof.
  unfold initializeClients. emits_auto; try by intros [].
Qed.

Lemma spec_NewKubeletClient cl :
  spec (NewKubeletClient "" cl) (fun o _ => forall kc, o = Ret (Ok kc) ->
    kc_kubeletURL kc = localhost_url).
Proof.
  apply spec_of_wp. intros s. unfold NewKubeletClient. wp_step.
  eapply (wp_spec _ (fun _ _ => True)); [done|]. intros [[t|e]|] s1 t1 _; [| |done];
    wp_step; by intros kc [= <-].
Qed.

Lemma spec_initialize r b cl :
  spec (initializeClients mgmt r b "" cl) (fun o _ =>
    match o with Ret (r', _) => initialized r r' | Crash => True end).
Proof.
  apply spec_of_wp. intros s. unfold initializeClients. wp_step.
  apply (wp_mono _ (fun o _ _ => forall kc, o = Ret (Ok kc) ->
    cr_KubeletClient r = Some kc \/ kc_kubeletURL kc = localhost_url)).
  { destruct (cr_KubeletClient r) as [k|]; [wp_step; intros kc [= <-]; by left|].
    eapply wp_spec; [apply spec_NewKubeletClient|]. cbn beta. intros o s1 t H kc Ho. right. by apply H. }
  intros [[kubelet|e]|] s1 t1 Hk; [| |done].
  2:{ wp_step. split; [auto|]. left. auto. }
  specialize (Hk _ eq_refl).
  wp_step. eapply (wp_spec _ (fun _ _ => True)); [done|]. intros [bucket|] s2 t2 _; [|done].
  wp_step. eapply (wp_spec _ (fun _ _ => True)); [done|]. intros [registry|] s3 t3 _; [|done].
  assert (forall kc : KubeletClient, Some kubelet = Some kc ->
    cr_KubeletClient r = Some kc \/ kc_kubeletURL kc = localhost_url) as Hu by (intros kc [= <-]; done).
  destruct registry as [registry|e]; [|wp_step; split; [done|left; auto]].
  destruct (cr_Scheduler r) eqn:Hs; [wp_step; split; [done|left; auto]|].
  do 3 wp_step. split; [done|right; auto].
Qed.

Lemma jobs_initialized r r' l : initialized r r' -> jobs_ok r l -> jobs_ok r' l.
Proof.
  intros [_ [(Hj & He & Hs & Hs')|(Hs & Hj & He & Hs')]] (H1 & H2 & H3 & H4); unfold jobs_ok;
    rewrite Hj, He.
  - split; [done|]. split; [done|]. split; [done|]. intros H. apply H4.
    destruct (cr_Scheduler r); [|done]. by rewrite Hs in H.
  - destruct (H4 Hs) as [E1 E2]. rewrite E1, E2 in *. repeat split; try apply H1; try apply H2; try done.
Qed.

Lemma wp_initialize {B} (f : B -> CheckpointReconciler) r b cl s tr
    (k : CheckpointReconciler * option error -> M B) :
  consistent r tr ->
  (forall r' e s' tr', consistent r' tr' -> wp (k (r', e)) (keeps f) s' tr') ->
  wp (bind (initializeClients mgmt r b "" cl) k) (keeps f) s tr.
Proof.
  intros Hc Hk. wp_step.
  pose proof (spec_initialize r b cl s) as H. pose proof (no_cron_initialize r b "" cl s) as Ht.
  unfold wp at 1. destruct (r_out (initializeClients mgmt r b "" cl s)) as [[r' e]|]; [|done].
  apply Hk. apply (consistent_no_cron _ _ _ Ht) in Hc as [Hj Hu]. split.
  - intros Hn. by eapply jobs_initialized, Hj.
  - intros kc Hkc. apply H in Hkc as [Hkc|Hkc]; [by apply Hu|done].
Qed.

Lemma consistent_perform r id b tr :
  consistent r tr ->
  consistent (with_jobs r (cr_scheduledJobs r) (alter (set_backup b) id (cr_entries r))) tr.
Proof. intros [Hj Hu]. split; [|done]. intros Hn. by apply jobs_alter, Hj. Qed.

Lemma wp_reconcileNormal r cl b n cfg s tr :
  consistent r tr -> wp (reconcileNormal mgmt r cl b n cfg) (keeps fst) s tr.
Proof.
  intros Hc. unfold reconcileNormal. apply wp_remove_job with (r := r); [done|].
  clear Hc. intros r1 s1 tr1 Hc Hfree. destruct (cr_Scheduler r1) eqn:Hs; simpl; [|by wp_step].
  wp_step. wp_step. destruct r0 as [id|e].
  2:{ wp_step. split; [|apply Hc]. intros Hn. unfold live. rewrite foldl_app. simpl.
      rewrite omap_app, app_nil_r in Hn. by apply (inv_jobs _ _ Hc). }
  assert (forall j, consistent (with_jobs r1 (<[ck_key b := id]> (cr_scheduledJobs r1))
      (<[id := j]> (cr_entries r1))) (tr1 ++ [Ev (CronAddFunc (cks_Schedule (ck_Spec b)) (ck_key b)) (Ok id)]))
    as Hc2.
  { intros j. split; [|apply Hc]. intros Hn. unfold live. rewrite foldl_app. simpl.
    rewrite omap_app in Hn. simpl in Hn. apply NoDup_app in Hn as (Hn & Hdis & _).
    apply jobs_add; [by apply (inv_jobs _ _ Hc)|done| |done].
    intros Hin%live_added. apply (Hdis id Hin). by left. }
  destruct (ckst_LastCheckpointTime _); [wp_step; apply Hc2|].
  eapply wp_no_cron; [apply (Hc2 (MkCronJob cl b n cfg))|apply no_cron_perform|]. intros [b' err] s2 tr2 Hc3. simpl.
  apply (consistent_perform _ id b') in Hc3. destruct err; wp_step; exact Hc3.
Qed.

Lemma wp_Reconcile r req s tr :
  consistent r tr -> wp (Reconcile mgmt r req) (keeps fst) s tr.
Proof.
  intros Hc. unfold Reconcile. eapply wp_no_cron; [done|emits_auto; by intros []|].
  clear Hc. intros ckpt s1 tr1 Hc. destruct ckpt as [c|e].
  2:{ destruct (IsNotFound e); [|by wp_step]. apply wp_remove_job with (r := r); [done|].
      intros r' s' tr' Hc' _. by wp_step. }
  eapply wp_no_cron; [done|emits_auto; by intros []|]. clear Hc c. intros added s2 tr2 Hc.
  destruct added as [c|e]; [|by wp_step].
  destruct (om_DeletionTimestamp _).
  { unfold reconcileDelete. apply wp_remove_job with (r := r); [done|]. intros r' s' tr' Hc' _.
    eapply wp_no_cron; [done|emits_auto; by intros []|]. intros [?|?] ? ? ?; by wp_step. }
  destruct (cks_ClusterRef _) as [ref|]; [|by wp_step].
  eapply wp_no_cron; [done|auto with go|]. clear Hc. intros res s3 tr3 Hc.
  destruct res as [[d [[cl cfg]|]]|e]; [|by wp_step|by wp_step].
  eapply wp_no_cron; [done|emits_auto; by intros []|]. clear Hc. intros nodes s4 tr4 Hc.
  destruct nodes as [nodes|e]; [|by wp_step].
  eapply wp_no_cron; [done|emits_auto; by intros []|]. clear Hc. intros pod s5 tr5 Hc.
  destruct pod as [pod|e]; [|by wp_step].
  eapply wp_no_cron; [done|apply emits_forDo; auto with go|]. clear Hc. intros [] s6 tr6 Hc.
  apply wp_initialize with (r := r); [done|]. clear Hc. intros r' [e|] s7 tr7 Hc; [by wp_step|].
  by apply wp_reconcileNormal.
Qed.

Lemma wp_ck_run inputs r s tr :
  consistent r tr -> wp (ck_run mgmt inputs r) (keeps id) s tr.
Proof.
  revert r s tr. induction inputs as [|i inputs IH]; intros r s tr Hc; simpl; [by wp_step|].
  wp_step. apply (wp_mono _ (keeps id)).
  - destruct i as [req|id]; simpl.
    + wp_step. eapply wp_mono; [by apply wp_Reconcile|]. intros [p|] s' tr' H; [by wp_step|done].
    + unfold fire. destruct (cr_entries r !! id) as [j|]; [|by wp_step].
      eapply wp_no_cron; [done|apply no_cron_perform|]. intros p s' tr' H. wp_step.
      by apply consistent_perform.
  - intros [r'|] s' tr' H; [by apply IH|done].
Qed.

Lemma ck_run_consistent inputs s :
  keeps id (r_out (ck_run mgmt inputs new_CheckpointReconciler s)) (r_state (ck_run mgmt inputs
    new_CheckpointReconciler s)) (r_trace (ck_run mgmt inputs new_CheckpointReconciler s)).
Proof.
  apply (wp_ck_run inputs new_CheckpointReconciler s []). split; [|done].
  intros _. split; [|split; [|split]]; [| | |done]; simpl; unfold live; simpl.
  - intros id. rewrite elem_of_empty, lookup_empty. split; [done|by intros [? ?]].
  - intros id. rewrite lookup_empty. split; [by intros [? ?]|].
    intros [k H]. by rewrite lookup_empty in H.
  - intros k1 k2 id H. by rewrite lookup_empty in H.
Qed.

End Runs.

(** ** Properties *)

(** C6: Over any sequence of reconciliations and firings, whatever the services
    answer, a Checkpoint's status reports an image as completed only after that
    image was pushed to the registry. *)
Theorem completed_after_push {X : Externals} mgmt inputs r s :
  pushed_before (r_trace (ck_run mgmt inputs r s)).
Proof.
  revert r s. enough (forall r, traces pushed_before (ck_run mgmt inputs r)) as H by (intros; apply H).
  induction inputs as [|i inputs IH]; intros r; simpl; [apply traces_ret; apply _|].
  apply traces_bind; [apply _|apply pushed_before_step|done].
Qed.

(** C17: What a run of a checkpoint reports, from the pod it reads. When the pod
    cannot be read the run fails without a report, and when the pod is not running
    it does nothing. Otherwise it turns to the containers in their order, one after
    the other, none left out: each one that succeeds is reported Running and then
    Completed, twice, all accepted; at the first that does not, the run ends with an
    error, after reports for that container that end in [Failed] (itself perhaps
    refused). It succeeds exactly with the successful story of every container. A
    panic leaves a beginning of a successful story. Every report, also the one
    before the first attempt, has a LastCheckpointTime: a failed first checkpoint
    is therefore not tried again by the next reconciliation. *)
Theorem performCheckpoint_outcome {X : Externals} mgmt r cl b n cfg s :
  let run := performCheckpoint mgmt r cl b n cfg s in
  exists pod,
    head (r_trace run) = Some (Ev (KGetPod cl (NN (pr_Namespace (cks_PodRef (ck_Spec b)))
                                                  (pr_Name (cks_PodRef (ck_Spec b))))) pod) /\
    Forall dated (reports (r_trace run)) /\
    run_story b pod (r_out run) (story (r_trace run)).
Proof. apply (spec_perform_story mgmt r cl b n cfg s). Qed.

(** C7: With a scheduler that does not reuse identifiers, after any sequence of
    reconciliations and firings the entries that were added and not removed are
    exactly those the reconciler knows, one per scheduled Checkpoint: no entry is
    leaked, and no Checkpoint is scheduled twice. *)
Theorem scheduled_entries {X : Externals} mgmt inputs s r :
  let run := ck_run mgmt inputs new_CheckpointReconciler s in
  NoDup (omap added (r_trace run)) ->
  r_out run = Ret r -> jobs_ok r (live (r_trace run)).
Proof.
  cbn zeta. intros Hn Hr. pose proof (ck_run_consistent mgmt inputs s) as H. rewrite Hr in H.
  by apply H.
Qed.

(** The kubelet client always points to [localhost]: the address that Reconcile
    finds for the pod's node is stored in a new variable of an inner block. *)
Theorem kubelet_url_localhost {X : Externals} mgmt inputs s r kc :
  r_out (ck_run mgmt inputs new_CheckpointReconciler s) = Ret r ->
  cr_KubeletClient r = Some kc -> kc_kubeletURL kc = localhost_url.
Proof.
  intros Hr. pose proof (ck_run_consistent mgmt inputs s) as H. rewrite Hr in H. apply H.
Qed.

(** ** A reconciliation that schedules a Checkpoint *)

Definition scheduled_checkpoint : Checkpoint :=
  MkCheckpoint (MkObjectMeta "web" "default" ∅ ∅ [] [CheckpointFinalizer] ZeroTime None)
    (MkCheckpointSpec "*/5 * * * *" (Some (MkClusterRef "edge" "edge" "web")) None
       (MkPodRef "default" "web-0" (MkContainerRef [])) zero_ResourceRef (MkRegistry "" "" None) [])
    (MkCheckpointStatus CheckpointPhaseCompleted (Some Second) "" 0 "" "" []).

Definition checkpoint_answers (c : call) : resp c :=
  match c with
  | KGetCheckpoint _ _ => Ok scheduled_checkpoint
  | KListClusters _ => Ok [MkCluster "edge" "default" "Provisioned" []]
  | KGetSecret _ nn =>
      Ok (MkSecret (named (nn_Namespace nn) (nn_Name nn)) "Opaque"
            {[ "username" := "u"; "password" := "p" ]})
  | KGetUnstructuredCluster _ _ => Ok ""
  | MarshalUnstructured _ => Ok ""
  | UnmarshalCluster _ =>
      Ok (MkCluster "edge" "default" "Provisioned" [MkCondition ReadyCondition "True" "" "" 0])
  | RESTConfigFromKubeConfig _ => Ok (MkRestConfig "https://edge" "")
  | NewK8sClient _ _ => Ok tt
  | KListNodes _ _ => Ok [MkNode (named "" "n") [MkAddress NodeInternalIP "10.0.0.7"] []]
  | KGetPod _ _ => Ok (MkPod (named "default" "web-0") "n" [] [] "" false PodRunning "" [])
  | KGetServiceAccount _ _ => Ok tt
  | KCreateToken _ _ _ _ => Ok "token"
  | MinioNew _ _ _ => Ok tt
  | MinioBucketExists _ => Ok true
  | CronAddFunc _ _ => Ok 1%Z
  | c => default_resp c
  end.

Definition checkpoint_inputs : list ck_input := [CkRequest (NN "default" "web"); CkFire 1].
Abbreviation checkpoint_run :=
  (@ck_run (ConstExternals checkpoint_answers) MgmtClient checkpoint_inputs new_CheckpointReconciler
    (const_state checkpoint_answers)).

Lemma scheduled_entries_witness :
  match r_out checkpoint_run with
  | Ret r => jobs_ok r (live (r_trace checkpoint_run)) /\ cr_scheduledJobs r !! "default/web" = Some 1%Z
  | Crash => False
  end.
Proof.
  assert (omap added (r_trace checkpoint_run) = [1%Z]) as Hadded by (vm_compute; reflexivity).
  destruct (r_out checkpoint_run) as [r|] eqn:E; [|vm_compute in E; discriminate E].
  split.
  - pose proof (@scheduled_entries (ConstExternals checkpoint_answers) MgmtClient checkpoint_inputs
      (const_state checkpoint_answers) r) as H. cbv zeta in H.
    rewrite Hadded in H. exact (H (NoDup_singleton 1%Z) E).
  - assert (match r_out checkpoint_run with
            | Ret r => cr_scheduledJobs r !! "default/web" | Crash => None end = Some 1%Z) as H
      by (vm_compute; reflexivity).
    rewrite E in H. exact H.
Defined.

Lemma kubelet_url_localhost_witness :
  match r_out checkpoint_run with
  | Ret r => exists kc, cr_KubeletClient r = Some kc /\ kc_kubeletURL kc = localhost_url
  | Crash => False
  end.
Proof.
  destruct (r_out checkpoint_run) as [r|] eqn:E; [|vm_compute in E; discriminate E].
  destruct (cr_KubeletClient r) as [kc|] eqn:Hk.
  - exists kc. split; [reflexivity|].
    pose proof (@kubelet_url_localhost (ConstExternals checkpoint_answers) MgmtClient
      checkpoint_inputs (const_state checkpoint_answers) r kc) as H.
    exact (H E Hk).
  - assert (match r_out checkpoint_run with
            | Ret r => is_Some (cr_KubeletClient r) | Crash => False end) as H
      by (vm_compute; eexists; reflexivity).
    rewrite E, Hk in H. destruct H as [? H]. discriminate H.
Defined.
