(* ===== verification/Prepull.v ===== *)
(** * Pre-pulling

    The pods that PreDownloadImageToTargetCluster of
    internal/controller/checkpoint_controller.go runs so that the nodes of the target
    cluster have the images: for which nodes, under which names, and what is deleted. *)
From S2P Require Import Prelude Types Runtime Common Capi Records Names CheckpointController.






Section Prepull.
Context {X : Externals} (mgmt : Client).













End Prepull.

