(* ===== verification/Durations.v ===== *)
(** * Durations in the environment

    The two readers of a duration from an environment variable, in
    reconcilers/helpers/common.go and reconcilers/heartbeat/heartbeat_server.go,
    over [time.ParseDuration] of the standard library, with its 64-bit arithmetic
    and, for fractions, its float64 arithmetic ([SpecFloat]). *)
From S2P Require Import Prelude Types Runtime.
From Stdlib Require Import SpecFloat Lia.

Local Open Scope Z_scope.

(** ** Machine arithmetic *)

Definition uint64 (z : Z) : Z := z mod 2 ^ 64.
(** Conversion of a uint64 to [Duration], and negation of one. *)
Definition int64 (z : Z) : Z := (z + 2 ^ 63) mod 2 ^ 64 - 2 ^ 63.

Definition float64_of (z : Z) : spec_float := binary_normalize 53 1024 z 0 false.
Definition float_mul : spec_float -> spec_float -> spec_float := SFmul 53 1024.
Definition float_div : spec_float -> spec_float -> spec_float := SFdiv 53 1024.

(** [uint64(x)] of a finite float that is not negative: truncation. *)
Definition uint64_of_float (x : spec_float) : Z :=
  match x with
  | S754_finite false m e => uint64 (Z.shiftl (Zpos m) e)
  | _ => 0
  end.

Lemma int64_range z : minInt64 <= int64 z <= maxInt64.
Proof. unfold int64, minInt64, maxInt64. pose proof (Z.mod_pos_bound (z + 2 ^ 63) (2 ^ 64)). lia. Qed.

Lemma int64_id z : minInt64 <= z <= maxInt64 -> int64 z = z.
Proof. unfold int64, minInt64, maxInt64. intros H. rewrite Z.mod_small; lia. Qed.

(** ** time.ParseDuration *)

Definition is_digit (a : ascii) : bool := (48 <=? byte_val a) && (byte_val a <=? 57).
Definition digit (a : ascii) : Z := byte_val a - 48.

(** The digits at the front: their value, and the rest; [None] on overflow. *)
Fixpoint leadingInt (x : Z) (s : string) : option (Z * string) :=
  match s with
  | String c s' =>
      if is_digit c then
        if 2 ^ 63 / 10 <? x then None
        else
          let x := uint64 (x * 10 + digit c) in
          if 2 ^ 63 <? x then None else leadingInt x s'
      else Some (x, s)
  | EmptyString => Some (x, s)
  end.

(** The digits after a period: their value as an integer, the power of ten to
    divide it by, and the rest; digits past the precision are dropped. *)
Fixpoint leadingFraction (x : Z) (scale : spec_float) (overflow : bool) (s : string)
    : Z * spec_float * string :=
  match s with
  | String c s' =>
      if is_digit c then
        if overflow then leadingFraction x scale true s'
        else if (2 ^ 63 - 1) / 10 <? x then leadingFraction x scale true s'
        else
          let y := uint64 (x * 10 + digit c) in
          if 2 ^ 63 <? y then leadingFraction x scale true s'
          else leadingFraction y (float_mul scale (float64_of 10)) false s'
      else (x, scale, s)
  | EmptyString => (x, scale, s)
  end.

(** The unit: everything up to the next period or digit. *)
Fixpoint leadingUnit (s : string) : string * string :=
  match s with
  | String c s' =>
      if Ascii.eqb c "." || is_digit c then ("", s)
      else let '(u, r) := leadingUnit s' in (String c u, r)
  | EmptyString => ("", s)
  end%string.

(** [unitMap]; the micro sign is U+00B5 or U+03BC, in UTF-8. *)
Definition unit_of (u : string) : option Z :=
  if (u =? "ns")%string then Some 1
  else if (u =? "us")%string || (u =? String "194" (String "181" "s"))%string
          || (u =? String "206" (String "188" "s"))%string then Some 1000
  else if (u =? "ms")%string then Some Millisecond
  else if (u =? "s")%string then Some Second
  else if (u =? "m")%string then Some Minute
  else if (u =? "h")%string then Some Hour
  else None.

(** An optional period with digits: the fraction, its scale, the rest, and whether
    there were digits. *)
Definition parse_fraction (s : string) : Z * spec_float * string * bool :=
  match s with
  | String "." s' =>
      let '(f, scale, rest) := leadingFraction 0 (float64_of 1) false s' in
      (f, scale, rest, negb (String.length s' =? String.length rest)%nat)
  | _ => (0, float64_of 1, s, false)
  end.

(** The unit, and the value [v + f / scale] in that unit in nanoseconds. *)
Definition parse_unit (v f : Z) (scale : spec_float) (s : string) : option (Z * string) :=
  let '(u, rest) := leadingUnit s in
  if (u =? "")%string then None
  else
    unit ← unit_of u;
    if 2 ^ 63 / unit <? v then None
    else
      let v := uint64 (v * unit) in
      if 0 <? f then
        let v := uint64 (v + uint64_of_float
                   (float_mul (float64_of f) (float_div (float64_of unit) scale))) in
        if 2 ^ 63 <? v then None else Some (v, rest)
      else Some (v, rest).

(** One number with its unit: its value in nanoseconds, and the rest. *)
Definition parse_element (s : string) : option (Z * string) :=
  match s with
  | String c _ =>
      if negb (Ascii.eqb c "." || is_digit c) then None
      else
        '(v, s1) ← leadingInt 0 s;
        let pre := negb (String.length s =? String.length s1)%nat in
        let '(f, scale, s2, post) := parse_fraction s1 in
        if negb pre && negb post then None else parse_unit v f scale s2
  | EmptyString => None
  end.

(** The loop; each round eats at least a character, so the length is enough fuel. *)
Fixpoint parse_elements (fuel : nat) (d : Z) (s : string) : option Z :=
  match fuel, s with
  | _, EmptyString => Some d
  | O, _ => None
  | S fuel', _ =>
      '(v, rest) ← parse_element s;
      let d := uint64 (d + v) in
      if 2 ^ 63 <? d then None else parse_elements fuel' d rest
  end.

(** The sign, and what follows it. *)
Definition sign_of (s : string) : bool * string :=
  match s with
  | String "-" s' => (true, s')
  | String "+" s' => (false, s')
  | _ => (false, s)
  end.

(** [None]: an error, which its callers drop. *)
Definition ParseDuration (s : string) : option Duration :=
  let '(neg, s) := sign_of s in
  if (s =? "0")%string then Some 0
  else if (s =? "")%string then None
  else
    d ← parse_elements (String.length s) 0 s;
    if (neg : bool) then Some (int64 (- int64 d))
    else if 2 ^ 63 - 1 <? d then None
    else Some (int64 d).

Example parse_compound : ParseDuration "1h15m30.918s" = Some (4530918 * Millisecond).
Proof. vm_compute. reflexivity. Qed.

Example parse_half_hour : ParseDuration "-.5h" = Some (- (30 * Minute)).
Proof. vm_compute. reflexivity. Qed.

Example parse_third_hour : ParseDuration "0.3333333333333333333h" = Some (20 * Minute).
Proof. vm_compute. reflexivity. Qed.

Example parse_least : ParseDuration "-9223372036854775808ns" = Some minInt64.
Proof. vm_compute. reflexivity. Qed.

Example parse_errors :
  ParseDuration "" = None /\ ParseDuration "-" = None /\ ParseDuration "." = None /\
  ParseDuration ".s" = None /\ ParseDuration "3" = None /\ ParseDuration "1x" = None /\
  ParseDuration "9223372036854775808ns" = None /\ ParseDuration "9223372037s" = None.
Proof. vm_compute. done. Qed.

(** ** The readers *)

Section Durations.
Context {X : Externals}.

(** reconcilers/helpers/common.go. *)
Definition GetEnvDuration (key : string) (defaultVal : Duration) : M Duration :=
  v <- do (Getenv key) ;;
  if negb (v =? "")%string then
    match ParseDuration v with
    | Some d => ret d
    | None => ret defaultVal
    end
  else ret defaultVal.

(** reconcilers/heartbeat/heartbeat_server.go. *)
Definition getenvDuration (key : string) (defaultVal : Duration) : M Duration :=
  v <- do (Getenv key) ;;
  if negb (v =? "")%string then
    match ParseDuration v with
    | Some d => ret d
    | None => ret defaultVal
    end
  else ret defaultVal.

End Durations.

(** ** Lemmas *)

Lemma pretty_go_app n s t : pretty_N_go n s +:+ t = pretty_N_go n (s +:+ t).
Proof.
  revert s. induction (N.lt_wf_0 n) as [n _ IH]; intros s.
  destruct (decide (n = 0%N)) as [->|Hn]; [by rewrite !pretty_N_go_0|].
  rewrite !(pretty_N_go_step n) by lia. rewrite IH by (apply N.div_lt; lia).
  by rewrite app_cons.
Qed.

Lemma pretty_digit k : (k < 10)%N ->
  is_digit (pretty_N_char k) = true /\ digit (pretty_N_char k) = Z.of_N k.
Proof.
  intros Hk. assert (k ∈ [0; 1; 2; 3; 4; 5; 6; 7; 8; 9]%N) as Hin.
  { rewrite !elem_of_cons. lia. }
  rewrite !elem_of_cons in Hin. by repeat destruct Hin as [->|Hin]; [..|apply elem_of_nil in Hin].
Qed.

(** What [leadingInt] does with one more digit. *)
Lemma leadingInt_digit (y : Z) (k : N) s :
  0 <= y <= 2 ^ 63 -> (k < 10)%N ->
  leadingInt y (String (pretty_N_char k) s) =
  if 2 ^ 63 <? y * 10 + Z.of_N k then None else leadingInt (y * 10 + Z.of_N k) s.
Proof.
  intros Hy Hk. cbn [leadingInt]. destruct (pretty_digit k Hk) as [-> ->].
  destruct (Z.ltb_spec (2 ^ 63 / 10) y) as [H|H].
  - destruct (Z.ltb_spec (2 ^ 63) (y * 10 + Z.of_N k)); [done|]. exfalso.
    change (2 ^ 63 / 10) with 922337203685477580 in H. lia.
  - change (2 ^ 63 / 10) with 922337203685477580 in H. unfold uint64. rewrite Z.mod_small by lia. done.
Qed.

(** A number in decimal is read exactly when it is at most [2^63]. *)
Lemma leadingInt_pretty n s : (0 < n)%N ->
  leadingInt 0 (pretty_N_go n s) =
  if 2 ^ 63 <? Z.of_N n then None else leadingInt (Z.of_N n) s.
Proof.
  revert s. induction (N.lt_wf_0 n) as [n _ IH]; intros s Hn.
  rewrite pretty_N_go_step by done.
  pose proof (N.mod_lt n 10 ltac:(lia)) as Hm. pose proof (N.div_mod n 10 ltac:(lia)) as Hdm.
  pose proof (N.div_lt n 10 ltac:(lia) ltac:(lia)) as Hlt.
  generalize dependent (n / 10)%N. generalize dependent (n mod 10)%N. intros r Hr q Hdm Hlt.
  destruct (decide (q = 0)%N) as [Hz|Hz].
  - rewrite Hz, pretty_N_go_0, leadingInt_digit by lia.
    by replace (0 * 10 + Z.of_N r) with (Z.of_N n) by lia.
  - rewrite IH by lia. destruct (Z.ltb_spec (2 ^ 63) (Z.of_N q)) as [Hb|Hb].
    + destruct (Z.ltb_spec (2 ^ 63) (Z.of_N n)); [done|lia].
    + rewrite leadingInt_digit by lia.
      by replace (Z.of_N q * 10 + Z.of_N r) with (Z.of_N n) by lia.
Qed.

(** A unit stands alone and starts with neither a digit nor a period. *)
Lemma unit_of_some u k : unit_of u = Some k ->
  leadingUnit u = (u, ""%string) /\ 1 <= k <= Hour /\
  exists c u', u = String c u' /\ is_digit c = false /\ Ascii.eqb c "." = false.
Proof.
  unfold unit_of. intros H. repeat split_if; simplify_eq; bool_to_prop; subst.
  all: try match goal with H : (_ || _) = true |- _ =>
    apply orb_true_iff in H as [[H|H]%orb_true_iff|H]; bool_to_prop; subst end.
  all: split; [reflexivity|]; split; [unfold Hour, Minute, Second, Millisecond; lia|].
  all: eexists _, _; repeat split.
Qed.

Lemma leadingInt_stop x c s : is_digit c = false -> leadingInt x (String c s) = Some (x, String c s).
Proof. intros H. simpl. by rewrite H. Qed.

(** The text of a number starts with a digit. *)
Lemma pretty_first n s : (0 < n)%N -> exists c t,
  pretty_N_go n s = String c t /\ is_digit c = true /\ (String.length s < S (String.length t))%nat.
Proof.
  revert s. induction (N.lt_wf_0 n) as [n _ IH]; intros s Hn. rewrite pretty_N_go_step by done.
  pose proof (N.mod_lt n 10 ltac:(lia)) as Hm.
  pose proof (N.div_lt n 10 ltac:(lia) ltac:(lia)) as Hlt.
  generalize dependent (n / 10)%N. generalize dependent (n mod 10)%N. intros r Hr q Hlt.
  destruct (decide (q = 0)%N) as [->|Hz].
  - rewrite pretty_N_go_0. eexists _, _. split; [done|]. split; [by apply pretty_digit|lia].
  - destruct (IH q Hlt (String (pretty_N_char r) s) ltac:(lia)) as (c & t & -> & Hc & Hl).
    exists c, t. split; [done|]. split; [done|]. simpl in Hl. lia.
Qed.

Lemma digit_not_sign c t : is_digit c = true -> sign_of (String c t) = (false, String c t).
Proof. by destruct c as [[] [] [] [] [] [] [] []]. Qed.

(** A decimal number before a unit: how it starts, and how it is read. *)
Lemma leadingInt_number (n : N) u k : unit_of u = Some k ->
  (exists c t, pretty n +:+ u = String c t /\ is_digit c = true /\
     (String.length u < S (String.length t))%nat) /\
  leadingInt 0 (pretty n +:+ u) = if 2 ^ 63 <? Z.of_N n then None else Some (Z.of_N n, u).
Proof.
  intros (_ & _ & c & u' & -> & Hc & _)%unit_of_some.
  unfold pretty, pretty_N. destruct (decide (n = 0)%N) as [->|Hn].
  - split; [|simpl; by rewrite Hc]. eexists _, _. split; [reflexivity|]. split; [done|simpl; lia].
  - rewrite pretty_go_app. change ("" +:+ String c u') with (String c u').
    split; [apply pretty_first; lia|].
    rewrite leadingInt_pretty by lia. by rewrite leadingInt_stop.
Qed.

Lemma mul_fits (n k : Z) : 1 <= k -> (2 ^ 63 / k <? n) = (2 ^ 63 <? n * k).
Proof.
  intros Hk. apply eq_true_iff_eq. rewrite !Z.ltb_lt.
  pose proof (Z.mod_pos_bound (2 ^ 63) k ltac:(lia)).
  pose proof (Z.div_mod (2 ^ 63) k ltac:(lia)). split; intros; nia.
Qed.

Lemma parse_element_number (n : N) u k : unit_of u = Some k ->
  parse_element (pretty n +:+ u) =
  if 2 ^ 63 <? Z.of_N n * k then None else Some (Z.of_N n * k, ""%string).
Proof.
  intros Hu. destruct (leadingInt_number n u k Hu) as [(c & t & Heq & Hc & Hl) HI].
  destruct (unit_of_some u k Hu) as (HU & Hk & c' & u' & -> & Hc' & Hdot).
  rewrite Heq in HI |- *. unfold parse_element. rewrite Hc, orb_true_r, HI. cbn [negb].
  assert ((2 ^ 63 <? Z.of_N n) = true -> (2 ^ 63 <? Z.of_N n * k) = true) as Hbig.
  { rewrite !Z.ltb_lt. nia. }
  destruct (2 ^ 63 <? Z.of_N n); [by rewrite Hbig|clear Hbig]. cbn [mbind option_bind].
  assert (parse_fraction (String c' u') = (0, float64_of 1, String c' u', false)) as ->.
  { by destruct c' as [[] [] [] [] [] [] [] []]. }
  assert ((String.length (String c t) =? String.length (String c' u'))%nat = false) as ->.
  { apply Nat.eqb_neq. simpl in *. lia. }
  cbn [negb andb]. unfold parse_unit. rewrite HU, Hu. cbn [mbind option_bind].
  replace (String c' u' =? "")%string with false by done.
  rewrite mul_fits by lia. destruct (Z.ltb_spec (2 ^ 63) (Z.of_N n * k)); [done|].
  assert (0 <= Z.of_N n * k) by (apply Z.mul_nonneg_nonneg; lia).
  change (0 <? 0) with false. unfold uint64. cbv iota zeta. by rewrite Z.mod_small by lia.
Qed.

(** The value that the documents give HEARTBEAT_FAULT_DELAY has no unit. *)
Example parse_documented_delay : ParseDuration "20" = None.
Proof. vm_compute. reflexivity. Qed.

(** An integer with a unit is accepted exactly when it fits an int64. *)
Lemma ParseDuration_number (n : N) u k : unit_of u = Some k ->
  ParseDuration (pretty n +:+ u) =
  if Z.of_N n * k <=? maxInt64 then Some (Z.of_N n * k) else None.
Proof.
  intros Hu. destruct (leadingInt_number n u k Hu) as [(c & t & Heq & Hc & Hl) _].
  destruct (unit_of_some u k Hu) as (_ & Hk & c' & u' & -> & _).
  unfold ParseDuration. rewrite Heq, (digit_not_sign c t Hc).
  assert (t ≠ ""%string) as Ht by (intros ->; simpl in Hl; lia).
  replace (String c t =? "0")%string with false
    by (symmetry; apply String.eqb_neq; by intros [= _ ->]).
  replace (String c t =? "")%string with false by done.
  cbn [String.length parse_elements]. rewrite <-Heq, (parse_element_number n _ k Hu).
  destruct (Z.ltb_spec (2 ^ 63) (Z.of_N n * k)) as [Hb|Hb]; cbn [mbind option_bind].
  { destruct (Z.leb_spec (Z.of_N n * k) maxInt64); [unfold maxInt64 in *; lia|done]. }
  assert (0 <= Z.of_N n * k) by (apply Z.mul_nonneg_nonneg; lia).
  unfold uint64. rewrite Z.add_0_l, Z.mod_small by lia.
  destruct (Z.ltb_spec (2 ^ 63) (Z.of_N n * k)); [lia|].
  replace (parse_elements (String.length t) (Z.of_N n * k) "") with (Some (Z.of_N n * k))
    by by destruct (String.length t).
  cbn. destruct (Z.leb_spec (Z.of_N n * k) maxInt64) as [Hm|Hm]; unfold maxInt64 in Hm;
    destruct (Z.ltb_spec (2 ^ 63 - 1) (Z.of_N n * k)); try lia; [|done].
  rewrite int64_id; [done|unfold minInt64, maxInt64; lia].
Qed.

Lemma ParseDuration_range s d : ParseDuration s = Some d -> minInt64 <= d <= maxInt64.
Proof.
  unfold ParseDuration. destruct (sign_of s) as [neg s'].
  destruct (_ =? "0")%string; [intros [= <-]; unfold minInt64, maxInt64; lia|].
  destruct (_ =? "")%string; [done|]. destruct (parse_elements _ _ _) as [z|]; [|done]. cbn.
  destruct neg; [intros [= <-]; apply int64_range|].
  destruct (_ <? _); [done|]. intros [= <-]. apply int64_range.
Qed.

(** ** Each round eats text *)

Lemma leadingInt_shrinks x s y r :
  leadingInt x s = Some (y, r) -> (String.length r <= String.length s)%nat.
Proof.
  revert x. induction s as [|c s IH]; intros x; simpl; [by intros [= _ <-]|].
  repeat split_if; try done; [|by intros [= _ <-]]. intros H%IH. lia.
Qed.

Lemma leadingFraction_shrinks x sc o s y sc' r :
  leadingFraction x sc o s = (y, sc', r) -> (String.length r <= String.length s)%nat.
Proof.
  revert x sc o. induction s as [|c s IH]; intros x sc o; simpl; [by intros [= _ _ <-]|].
  repeat split_if; try (intros H%IH; lia). by intros [= _ _ <-].
Qed.

Lemma leadingUnit_shrinks s u r :
  leadingUnit s = (u, r) -> (String.length r + String.length u = String.length s)%nat.
Proof.
  revert u. induction s as [|c s IH]; intros u; simpl; [by intros [= <- <-]|].
  split_if; [by intros [= <- <-]|]. destruct (leadingUnit s) as [u' r'].
  intros [= <- <-]. simpl. rewrite <-(IH u') by done. lia.
Qed.

Lemma parse_fraction_shrinks s f sc r post :
  parse_fraction s = (f, sc, r, post) -> (String.length r <= String.length s)%nat.
Proof.
  unfold parse_fraction.
  destruct s as [|[[] [] [] [] [] [] [] []] s]; try (intros [= _ _ <- _]; lia).
  destruct (leadingFraction _ _ _ s) as [[f' sc'] r'] eqn:H. apply leadingFraction_shrinks in H.
  intros [= _ _ <- _]. simpl. lia.
Qed.

Lemma parse_unit_shrinks v f sc s v' r :
  parse_unit v f sc s = Some (v', r) -> (String.length r < String.length s)%nat.
Proof.
  unfold parse_unit. destruct (leadingUnit s) as [u rest] eqn:Hu. apply leadingUnit_shrinks in Hu.
  destruct (String.eqb_spec u "") as [|Hn]; [done|].
  assert (String.length u ≠ 0)%nat by by destruct u.
  destruct (unit_of u); [|done]. cbn. repeat split_if; try done; intros [= _ <-]; lia.
Qed.

Lemma parse_element_shrinks s v r :
  parse_element s = Some (v, r) -> (String.length r < String.length s)%nat.
Proof.
  destruct s as [|c s]; [done|]. unfold parse_element. destruct (negb _); [done|].
  destruct (leadingInt _ _) as [[v1 s1]|] eqn:H1; [|done]. apply leadingInt_shrinks in H1. cbn [mbind option_bind].
  destruct (parse_fraction s1) as [[[f sc] s2] post] eqn:H2. apply parse_fraction_shrinks in H2.
  destruct (_ && _); [done|]. intros H3%parse_unit_shrinks. lia.
Qed.

(** The fuel of [ParseDuration] is enough: more changes nothing. *)
Lemma parse_elements_enough k d s :
  parse_elements (String.length s + k) d s = parse_elements (String.length s) d s.
Proof.
  assert (forall n m d s, (String.length s <= n)%nat -> (String.length s <= m)%nat ->
    parse_elements n d s = parse_elements m d s) as H; [|apply H; lia].
  clear. induction n as [|n IH]; intros [|m] d s Hn Hm; destruct s as [|c s]; cbn [parse_elements String.length] in *;
    try lia; try done.
  set (s0 := String c s). destruct (parse_element s0) as [[v r]|] eqn:E; [|done]. cbn.
  apply parse_element_shrinks in E. split_if; [done|]. simpl in E. apply IH; lia.
Qed.

(** ** Properties *)

(** A duration read from the environment, by either reader: it is an int64 for
    every text, the default for text that is not a duration, and for an integer [n]
    with a unit of [k] nanoseconds exactly [n * k] when that fits an int64 and the
    default when it does not; it never wraps around. *)
Theorem GetEnvDuration_bounds {X : Externals} key defaultVal s :
  minInt64 <= defaultVal <= maxInt64 ->
  let v := (respond (Getenv key) (ms_world s)).1 in
  exists d,
    r_out (GetEnvDuration key defaultVal s) = Ret d /\
    r_out (getenvDuration key defaultVal s) = Ret d /\
    minInt64 <= d <= maxInt64 /\
    d = default defaultVal (ParseDuration v) /\
    (forall n u k, v = pretty (n : N) +:+ u -> unit_of u = Some k ->
       d = if Z.of_N n * k <=? maxInt64 then Z.of_N n * k else defaultVal).
Proof.
  intros Hd. cbn zeta. unfold GetEnvDuration, getenvDuration, bind, do. cbn.
  destruct (respond (Getenv key) (ms_world s)) as [v w]. cbn in v |- *.
  exists (default defaultVal (ParseDuration v)).
  set (s' := MkState w (ms_singleton s)).
  assert (r_out ((if negb (v =? "")%string then
    match ParseDuration v with Some d => ret d | None => ret defaultVal end
    else ret defaultVal) s') = Ret (default defaultVal (ParseDuration v))) as Hm.
  { destruct (String.eqb_spec v "") as [->|_]; [done|]. by destruct (ParseDuration v). }
  split; [exact Hm|]. split; [exact Hm|]. split; [|split; [done|]].
  - destruct (ParseDuration v) eqn:E; simpl; [by eapply ParseDuration_range|done].
  - intros n u k -> Hu. rewrite (ParseDuration_number n u k Hu). by destruct (_ <=? _).
Qed.

Definition duration_answers (c : call) : resp c :=
  match c with
  | Getenv _ => "90s"%string
  | c => default_resp c
  end.

Lemma GetEnvDuration_bounds_witness :
  exists d, r_out (@GetEnvDuration (ConstExternals duration_answers) "DELAY" Second
                     (const_state duration_answers)) = Ret d /\ d = 90 * Second.
Proof.
  destruct (@GetEnvDuration_bounds (ConstExternals duration_answers) "DELAY" Second
    (const_state duration_answers) ltac:(unfold minInt64, maxInt64, Second; lia))
    as (d & Hd & _ & _ & _ & Hn).
  exists d. split; [exact Hd|]. exact (Hn 90%N "s"%string Second eq_refl eq_refl).
Defined.
