(* ===== verification/Main.v ===== *)
(** * Process start

    cmd/main.go: the API types, the command line, the TLS options of the two
    servers, the manager with its controllers, and the order in which all this is
    started; and the two controllers that are still empty scaffolding. *)
From S2P Require Import Prelude Types Runtime Common Capi Names.
From Stdlib Require Import Lia.

(** ** Flags *)

(** The variables that the program's flags set. *)
Record Flags := MkFlags {
  metricsAddr : string;
  probeAddr : string;
  enableLeaderElection : bool;
  secureMetrics : bool;
  webhookCertPath : string;
  webhookCertName : string;
  webhookCertKey : string;
  metricsCertPath : string;
  metricsCertName : string;
  metricsCertKey : string;
  enableHTTP2 : bool }.

Definition default_flags : Flags :=
  MkFlags "0" ":8081" false true "" "tls.crt" "tls.key" "" "tls.crt" "tls.key" false.

(** [strconv.ParseBool]. *)
Definition ParseBool (s : string) : option bool :=
  if decide (s ∈ ["1"; "t"; "T"; "true"; "TRUE"; "True"]) then Some true
  else if decide (s ∈ ["0"; "f"; "F"; "false"; "FALSE"; "False"]) then Some false
  else None.

(** How the value of a flag is stored; the names of the program's own flags. *)
Inductive flag_kind :=
| StringVar (set : string -> Flags -> Flags)
| BoolVar (set : bool -> Flags -> Flags).

Definition own_flag (name : string) : option flag_kind :=
  if (name =? "metrics-bind-address")%string then Some (StringVar (fun v f =>
    MkFlags v (probeAddr f) (enableLeaderElection f) (secureMetrics f) (webhookCertPath f)
      (webhookCertName f) (webhookCertKey f) (metricsCertPath f) (metricsCertName f)
      (metricsCertKey f) (enableHTTP2 f)))
  else if (name =? "health-probe-bind-address")%string then Some (StringVar (fun v f =>
    MkFlags (metricsAddr f) v (enableLeaderElection f) (secureMetrics f) (webhookCertPath f)
      (webhookCertName f) (webhookCertKey f) (metricsCertPath f) (metricsCertName f)
      (metricsCertKey f) (enableHTTP2 f)))
  else if (name =? "leader-elect")%string then Some (BoolVar (fun v f =>
    MkFlags (metricsAddr f) (probeAddr f) v (secureMetrics f) (webhookCertPath f)
      (webhookCertName f) (webhookCertKey f) (metricsCertPath f) (metricsCertName f)
      (metricsCertKey f) (enableHTTP2 f)))
  else if (name =? "metrics-secure")%string then Some (BoolVar (fun v f =>
    MkFlags (metricsAddr f) (probeAddr f) (enableLeaderElection f) v (webhookCertPath f)
      (webhookCertName f) (webhookCertKey f) (metricsCertPath f) (metricsCertName f)
      (metricsCertKey f) (enableHTTP2 f)))
  else if (name =? "webhook-cert-path")%string then Some (StringVar (fun v f =>
    MkFlags (metricsAddr f) (probeAddr f) (enableLeaderElection f) (secureMetrics f) v
      (webhookCertName f) (webhookCertKey f) (metricsCertPath f) (metricsCertName f)
      (metricsCertKey f) (enableHTTP2 f)))
  else if (name =? "webhook-cert-name")%string then Some (StringVar (fun v f =>
    MkFlags (metricsAddr f) (probeAddr f) (enableLeaderElection f) (secureMetrics f)
      (webhookCertPath f) v (webhookCertKey f) (metricsCertPath f) (metricsCertName f)
      (metricsCertKey f) (enableHTTP2 f)))
  else if (name =? "webhook-cert-key")%string then Some (StringVar (fun v f =>
    MkFlags (metricsAddr f) (probeAddr f) (enableLeaderElection f) (secureMetrics f)
      (webhookCertPath f) (webhookCertName f) v (metricsCertPath f) (metricsCertName f)
      (metricsCertKey f) (enableHTTP2 f)))
  else if (name =? "metrics-cert-path")%string then Some (StringVar (fun v f =>
    MkFlags (metricsAddr f) (probeAddr f) (enableLeaderElection f) (secureMetrics f)
      (webhookCertPath f) (webhookCertName f) (webhookCertKey f) v (metricsCertName f)
      (metricsCertKey f) (enableHTTP2 f)))
  else if (name =? "metrics-cert-name")%string then Some (StringVar (fun v f =>
    MkFlags (metricsAddr f) (probeAddr f) (enableLeaderElection f) (secureMetrics f)
      (webhookCertPath f) (webhookCertName f) (webhookCertKey f) (metricsCertPath f) v
      (metricsCertKey f) (enableHTTP2 f)))
  else if (name =? "metrics-cert-key")%string then Some (StringVar (fun v f =>
    MkFlags (metricsAddr f) (probeAddr f) (enableLeaderElection f) (secureMetrics f)
      (webhookCertPath f) (webhookCertName f) (webhookCertKey f) (metricsCertPath f)
      (metricsCertName f) v (enableHTTP2 f)))
  else if (name =? "enable-http2")%string then Some (BoolVar (fun v f =>
    MkFlags (metricsAddr f) (probeAddr f) (enableLeaderElection f) (secureMetrics f)
      (webhookCertPath f) (webhookCertName f) (webhookCertKey f) (metricsCertPath f)
      (metricsCertName f) (metricsCertKey f) v))
  else None.

(** The name and the value of [name=value]; an equals sign at the front counts as
    part of the name. *)
Fixpoint cut_value (s : string) : string * option string :=
  match s with
  | EmptyString => (EmptyString, None)
  | String c s' =>
      match s' with
      | String "=" v => (String c EmptyString, Some v)
      | _ => let '(n, v) := cut_value s' in (String c n, v)
      end
  end.

(** The flag in an argument: not a flag, the terminator, a malformed one, or a name
    with an optional value. *)
Inductive arg := ArgNone | ArgTerminator | ArgBad | ArgFlag (name : string) (value : option string).

Definition flag_name (s : string) : arg :=
  match s with
  | EmptyString => ArgBad
  | String "-" _ | String "=" _ => ArgBad
  | _ => let '(n, v) := cut_value s in ArgFlag n v
  end.

Definition parse_arg (s : string) : arg :=
  match s with
  | String "-" (String "-" EmptyString) => ArgTerminator
  | String "-" (String "-" n) => flag_name n
  | String "-" EmptyString => ArgNone
  | String "-" n => flag_name n
  | _ => ArgNone
  end.

Section Flags.
(** The flags that libraries register on the same command line (zap's options and
    [kubeconfig]): whether one is boolean, and which values it accepts. *)
Context (foreign : string -> option (bool * (string -> bool))).

Definition set_own (k : flag_kind) (v : string) (f : Flags) : option Flags :=
  match k with
  | StringVar set => Some (set v f)
  | BoolVar set => (fun b => set b f) <$> ParseBool v
  end.

(** [flag.Parse()]; [None]: the process exits, with a usage message. *)
Fixpoint flag_parse (args : list string) (f : Flags) : option Flags :=
  match args with
  | [] => Some f
  | s :: args' =>
      match parse_arg s with
      | ArgNone | ArgTerminator => Some f
      | ArgBad => None
      | ArgFlag name value =>
          match own_flag name with
          | Some (BoolVar _ as k) => f' ← set_own k (default "true" value) f; flag_parse args' f'
          | Some (StringVar _ as k) =>
              match value, args' with
              | Some v, _ => f' ← set_own k v f; flag_parse args' f'
              | None, v :: args'' => f' ← set_own k v f; flag_parse args'' f'
              | None, [] => None
              end
          | None =>
              match foreign name with
              | None => None
              | Some (true, ok) => if ok (default "true" value) then flag_parse args' f else None
              | Some (false, ok) =>
                  match value, args' with
                  | Some v, _ => if ok v then flag_parse args' f else None
                  | None, v :: args'' => if ok v then flag_parse args'' f else None
                  | None, [] => None
                  end
              end
          end
      end
  end.

End Flags.

(** ** Slices *)

(** A slice of TLS options: a backing array, a length and a capacity; a nil slice
    has no capacity. The arrays are the memory. *)
Record slice := MkSlice { sl_arr : nat; sl_len : nat; sl_cap : nat }.
Abbreviation memory := (list (list (option TLSOpt))).

Definition nil_slice : slice := MkSlice 0 0 0.

Definition read_slice (h : memory) (s : slice) : list TLSOpt :=
  omap id (take (sl_len s) (default [] (h !! sl_arr s))).

Section Slices.
(** The capacity that the runtime allocates for a needed length. *)
Context (grow : nat -> nat).

(** [append(s, x)]: in place when the capacity allows it, otherwise in a new array. *)
Definition append_slice (h : memory) (s : slice) (x : TLSOpt) : memory * slice :=
  if (sl_len s <? sl_cap s)%nat then
    (alter (fun arr => <[sl_len s := Some x]> arr) (sl_arr s) h,
     MkSlice (sl_arr s) (S (sl_len s)) (sl_cap s))
  else
    let n := Nat.max (S (sl_len s)) (grow (S (sl_len s))) in
    (h ++ [take (sl_len s) (default [] (h !! sl_arr s)) ++ Some x :: replicate (n - S (sl_len s)) None],
     MkSlice (length h) (S (sl_len s)) n).

Definition append_if (b : bool) (h : memory) (s : slice) (x : TLSOpt) : memory * slice :=
  if b then append_slice h s x else (h, s).

(** What main does with [tlsOpts]: the memory at the end, and the options of the
    webhook and of the metrics server, both of which start as [tlsOpts]. *)
Definition tls_slices (http2 webhookCert metricsCert : bool) : memory * slice * slice :=
  let '(h, tlsOpts) := append_if (negb http2) [] nil_slice DisableHTTP2 in
  let '(h, webhookTLSOpts) := append_if webhookCert h tlsOpts WebhookGetCertificate in
  let '(h, metricsTLSOpts) := append_if metricsCert h tlsOpts MetricsGetCertificate in
  (h, webhookTLSOpts, metricsTLSOpts).

(** The servers read their options after main has built both. *)
Definition tls_options (http2 webhookCert metricsCert : bool) : list TLSOpt * list TLSOpt :=
  let '(h, webhookTLSOpts, metricsTLSOpts) := tls_slices http2 webhookCert metricsCert in
  (read_slice h webhookTLSOpts, read_slice h metricsTLSOpts).

End Slices.

(** ** Controllers *)

Definition PackagePolicySetup : ControllerSetup := MkControllerSetup "PackagePolicy" [] "packagepolicy".
(** Its watches map every event with [mapClusterToClusterPolicy]. *)
Definition ClusterPolicySetup : ControllerSetup :=
  MkControllerSetup "ClusterPolicy" ["Cluster"; "Application"] "".
Definition CheckpointSetup : ControllerSetup := MkControllerSetup "Checkpoint" [] "checkpoint".
Definition NodeHealthSetup : ControllerSetup := MkControllerSetup "NodeHealth" [] "nodehealth".

Definition controllers : list ControllerSetup :=
  [PackagePolicySetup; ClusterPolicySetup; CheckpointSetup; NodeHealthSetup].

(** ** main *)

Section Main.
Context {X : Externals}.
Context (foreign : string -> option (bool * (string -> bool))) (grow : nat -> nat).

(** The empty reconcilers: no requeue and no error. *)
Definition NodeHealth_Reconcile (req : NamespacedName) : M (result Duration) := ret (Ok 0%Z).
Definition PackagePolicy_Reconcile (req : NamespacedName) : M (result Duration) := ret (Ok 0%Z).

(** [init()]: the scheme of the manager; only the error of Cluster API is dropped. *)
Definition init : M Scheme :=
  scheme <- must_add_all [ClientGoScheme; VeleroV1; ArgoV1alpha1; TransitionV1] [] ;;
  r <- AddToSchemeOf CapiV1beta1 scheme ;;
  ret r.1.

(** [os.Exit(1)] on an error. *)
Definition must {A} (m : M (result A)) : M A :=
  r <- m ;;
  match r with Err _ => crash | Ok a => ret a end.

(** Whether a watcher was built for the given directory. *)
Definition cert_watcher (path name key : string) : M bool :=
  if (0 <? String.length path)%nat then
    must (do (CertWatcherNew (JoinPath path name) (JoinPath path key))) ;;;
    ret true
  else ret false.

Definition manager_options (scheme : Scheme) (f : Flags) (webhookCert metricsCert : bool)
    : ManagerOptions :=
  let tls := tls_options grow (enableHTTP2 f) webhookCert metricsCert in
  MkManagerOptions scheme (MkMetricsOptions (metricsAddr f) (secureMetrics f) tls.2 (secureMetrics f))
    tls.1 (probeAddr f) (enableLeaderElection f) "74b2dfed.dcnlab.ssu.ac.kr".

Definition heartbeatAddr : string := ":8090".

(** [heartbeat.StartServer]: two goroutines. *)
Definition start_heartbeat (namespace addr : string) : M unit :=
  do (Go (BgHeartbeatServer addr)) ;;;
  do (Go (BgMonitorNodes namespace)).

Definition add_watcher (watcher : bool) (w : TLSOpt) : M unit :=
  if watcher then must (do (MgrAdd w)) else ret tt.

(** main, once the flags are read. *)
Definition start_manager (scheme : Scheme) (f : Flags) : M unit :=
  webhookCertWatcher <- cert_watcher (webhookCertPath f) (webhookCertName f) (webhookCertKey f) ;;
  metricsCertWatcher <- cert_watcher (metricsCertPath f) (metricsCertName f) (metricsCertKey f) ;;
  must (do GetConfig) ;;;
  must (do (NewManager (manager_options scheme f webhookCertWatcher metricsCertWatcher))) ;;;
  forDo controllers (fun d => must (do (SetupController d))) ;;;
  namespace <- GetEnv "NAMESPACE" "default" ;;
  start_heartbeat namespace heartbeatAddr ;;;
  add_watcher metricsCertWatcher MetricsGetCertificate ;;;
  add_watcher webhookCertWatcher WebhookGetCertificate ;;;
  must (do (MgrAddHealthzCheck "healthz")) ;;;
  must (do (MgrAddReadyzCheck "readyz")) ;;;
  must (do MgrStart).

Definition main : M unit :=
  scheme <- init ;;
  args <- do OsArgs ;;
  match flag_parse foreign args default_flags with
  | None => crash
  | Some f => start_manager scheme f
  end.

End Main.

(** ** What a start does *)

Definition calls (t : trace) : list call := (fun e : event => let 'Ev c _ := e in c) <$> t.

Definition is_set (path : string) : bool := (0 <? String.length path)%nat.

Definition manager_scheme (capi : bool) : Scheme :=
  [ClientGoScheme; VeleroV1; ArgoV1alpha1; TransitionV1] ++ (if capi then [CapiV1beta1] else []).

(** The calls that read the command line. *)
Definition init_calls : list call :=
  [AddToScheme [] ClientGoScheme; AddToScheme [ClientGoScheme] VeleroV1;
   AddToScheme [ClientGoScheme; VeleroV1] ArgoV1alpha1;
   AddToScheme [ClientGoScheme; VeleroV1; ArgoV1alpha1] TransitionV1;
   AddToScheme [ClientGoScheme; VeleroV1; ArgoV1alpha1; TransitionV1] CapiV1beta1; OsArgs].

Definition watcher_calls (path name key : string) : list call :=
  if is_set path then [CertWatcherNew (JoinPath path name) (JoinPath path key)] else [].

(** The calls of a start with these flags, in this namespace. *)
Definition start_calls (grow : nat -> nat) (capi : bool) (f : Flags) (namespace : string)
    : list call :=
  watcher_calls (webhookCertPath f) (webhookCertName f) (webhookCertKey f) ++
  watcher_calls (metricsCertPath f) (metricsCertName f) (metricsCertKey f) ++
  [GetConfig;
   NewManager (manager_options grow (manager_scheme capi) f (is_set (webhookCertPath f))
                 (is_set (metricsCertPath f)));
   SetupController PackagePolicySetup; SetupController ClusterPolicySetup;
   SetupController CheckpointSetup; SetupController NodeHealthSetup;
   Getenv "NAMESPACE"; Go (BgHeartbeatServer heartbeatAddr); Go (BgMonitorNodes namespace)] ++
  (if is_set (metricsCertPath f) then [MgrAdd MetricsGetCertificate] else []) ++
  (if is_set (webhookCertPath f) then [MgrAdd WebhookGetCertificate] else []) ++
  [MgrAddHealthzCheck "healthz"; MgrAddReadyzCheck "readyz"; MgrStart].

Lemma calls_app t1 t2 : calls (t1 ++ t2) = calls t1 ++ calls t2.
Proof. apply fmap_app. Qed.

(** The calls whose error ends the process; only the registration of the Cluster
    API types may fail. *)
Definition fatal (e : event) : bool :=
  match e with
  | Ev (AddToScheme _ CapiV1beta1) _ => false
  | Ev (AddToScheme _ _) (Err _) | Ev (CertWatcherNew _ _) (Err _) | Ev GetConfig (Err _)
  | Ev (NewManager _) (Err _) | Ev (SetupController _) (Err _) | Ev (MgrAdd _) (Err _)
  | Ev (MgrAddHealthzCheck _) (Err _) | Ev (MgrAddReadyzCheck _) (Err _) | Ev MgrStart (Err _) => true
  | _ => false
  end.

(** What the answers of a run decide: the scheme of the manager and the namespace. *)
Definition capi_added (t : trace) : list bool :=
  omap (fun e => match e with Ev (AddToScheme _ CapiV1beta1) r => Some (is_ok r) | _ => None end) t.
Definition namespaces_read (t : trace) : list string :=
  omap (fun e => match e with
    | Ev (Getenv _) v => Some (if (v =? "")%string then "default" else v)
    | _ => None
    end) t.

(** No call failed that may not fail. *)
Definition sound (t : trace) : Prop := existsb fatal t = false.
(** The last call is the first that failed. *)
Definition ended_by_last (t : trace) : Prop :=
  exists t' e, t = t' ++ [e] /\ sound t' /\ fatal e = true.

Lemma sound_app t1 t2 : sound t1 -> sound t2 -> sound (t1 ++ t2).
Proof. unfold sound. rewrite existsb_app. by intros -> ->. Qed.
Lemma ended_app t1 t2 : sound t1 -> ended_by_last t2 -> ended_by_last (t1 ++ t2).
Proof.
  intros H (t' & e & -> & Ht & He). exists (t1 ++ t'), e.
  rewrite (assoc_L (++)). split; [done|]. split; [by apply sound_app|done].
Qed.
Lemma ended_snoc t e : sound t -> fatal e = true -> ended_by_last (t ++ [e]).
Proof. by exists t, e. Qed.

(** Solves both for a trace that is written out. *)
Ltac ended_tac :=
  match goal with
  | |- sound _ => reflexivity
  | |- ended_by_last [?e] => apply (ended_snoc [] e); reflexivity
  | |- ended_by_last (?e :: ?t) => apply (ended_app [e] t); [reflexivity|ended_tac]
  end.

Lemma spec_init {X : Externals} :
  spec init (fun o t =>
    namespaces_read t = [] /\
    match o with
    | Ret scheme => sound t /\ calls t ++ [OsArgs] = init_calls /\
        exists capi, capi_added t = [capi] /\ scheme = manager_scheme capi
    | Crash => ended_by_last t /\ calls t `prefix_of` init_calls
    end).
Proof.
  apply spec_of_wp. intros s. unfold init, AddToSchemeOf. cbn [must_add_all].
  unfold MustAdd, AddToSchemeOf. repeat (wp_step; simplify_eq/=).
  all: split; [done|].
  all: first [split; [ended_tac|by eexists] | split; [done|]; split; [done|]].
  all: first [by exists true | by exists false].
Qed.

Lemma spec_start_manager {X : Externals} grow capi f :
  spec (start_manager grow (manager_scheme capi) f) (fun o t =>
    capi_added t = [] /\
    exists namespace, namespaces_read t `prefix_of` [namespace] /\
      match o with
      | Ret _ => sound t /\ calls t = start_calls grow capi f namespace
      | Crash => ended_by_last t /\ calls t `prefix_of` start_calls grow capi f namespace
      end).
Proof.
  apply spec_of_wp. intros s. unfold start_manager, cert_watcher, add_watcher, must, start_heartbeat,
    GetEnv, controllers, start_calls, watcher_calls, is_set. cbn [forDo].
  generalize (manager_scheme capi). intros scheme.
  destruct (_ <? String.length (webhookCertPath f))%nat, (_ <? String.length (metricsCertPath f))%nat.
  all: repeat (wp_step; simplify_eq/=).
  all: split; [done|].
  all: match goal with
       | r : string |- _ =>
           exists (if (r =? "")%string then "default" else r)
       | _ => exists ""
       end; split; [by eexists|].
  all: first [split; [ended_tac|by eexists] | done].
Qed.

(** A run of main that got as far as the command line: [t1] are the calls up to
    there, [t2] those of the start. *)
Definition start_outcome (foreign : string -> option (bool * (string -> bool))) (grow : nat -> nat)
    (o : outcome unit) (t : trace) : Prop :=
  exists t1 t2 args, t = t1 ++ t2 /\ last t1 = Some (Ev OsArgs args) /\
    sound t1 /\ calls t1 = init_calls /\
    match flag_parse foreign args default_flags with
    | None => o = Crash /\ t2 = []
    | Some f => exists capi namespace,
        capi_added t1 = [capi] /\ namespaces_read t2 `prefix_of` [namespace] /\
        match o with
        | Ret _ => sound t2 /\ calls t2 = start_calls grow capi f namespace
        | Crash => ended_by_last t2 /\ calls t2 `prefix_of` start_calls grow capi f namespace
        end
    end.

(** C25: A start. The calls of main have one order, that of [init_calls] and
    [start_calls], which depends on the command line, on whether the Cluster API
    types could be registered, and on NAMESPACE ("default" when it is empty). Main
    returns only when every call was made and none failed. Otherwise the process
    ends: at the first call that fails, and no call follows it; or at a command
    line that does not parse, and nothing is called after reading it. In particular
    all controllers are registered before nodes are monitored; and the monitor of
    the nodes, which triggers migrations, is started before the manager and whatever
    the leader election flag says, so that replicas without leadership run it too. *)
Theorem main_calls {X : Externals} foreign grow s :
  let o := r_out (main foreign grow s) in
  let t := r_trace (main foreign grow s) in
  (o = Crash /\ calls t `prefix_of` init_calls /\ ended_by_last t) \/
  start_outcome foreign grow o t.
Proof.
  cbn zeta. apply (spec_of_wp (main foreign grow) (fun o t =>
    (o = Crash /\ calls t `prefix_of` init_calls /\ ended_by_last t) \/
    start_outcome foreign grow o t)).
  intros s'. unfold main. wp_step. eapply wp_spec; [apply spec_init|].
  intros o s1 t1 [Hn Ho]. destruct o as [scheme|]; [|left; tauto].
  destruct Ho as (Hs1 & Ht1 & capi & Hcapi & ->). cbn [app]. wp_step. apply (wp_do OsArgs).
  intros args w.
  assert (sound (t1 ++ [Ev OsArgs args])) as Hs by by apply sound_app.
  assert (calls (t1 ++ [Ev OsArgs args]) = init_calls) as Hi by by rewrite calls_app.
  assert (capi_added (t1 ++ [Ev OsArgs args]) = [capi]) as Hc.
  { unfold capi_added in *. rewrite omap_app, Hcapi. done. }
  destruct (flag_parse foreign args default_flags) as [f|] eqn:Hf.
  - eapply wp_spec; [apply spec_start_manager|]. intros o s2 t2 (_ & ns & Hns & H).
    right. eexists _, t2, args. split; [reflexivity|]. split; [by rewrite last_snoc|].
    split; [done|]. split; [done|]. rewrite Hf. by exists capi, ns.
  - wp_step. right. eexists _, [], args. split; [by rewrite app_nil_r|].
    split; [by rewrite last_snoc|]. by rewrite Hf.
Qed.

(** ** TLS options *)

(** HTTP/2 is disabled on the webhook and on the metrics server unless the flag
    enables it, and each server gets its own certificate and not the other's. Both
    option lists start as one slice; they do not share memory because the runtime
    allocates a capacity of one for the first option. *)
Theorem tls_options_separate grow http2 webhookCert metricsCert :
  grow 1%nat = 1%nat ->
  tls_options grow http2 webhookCert metricsCert =
  ((if http2 then [] else [DisableHTTP2]) ++ (if webhookCert then [WebhookGetCertificate] else []),
   (if http2 then [] else [DisableHTTP2]) ++ (if metricsCert then [MetricsGetCertificate] else [])).
Proof.
  intros H1. unfold tls_options, tls_slices, append_if, append_slice.
  destruct http2, webhookCert, metricsCert; cbn; rewrite ?H1; cbn; try done.
Qed.

Lemma tls_options_separate_witness :
  tls_options (fun n => n) false true true =
  ([DisableHTTP2; WebhookGetCertificate], [DisableHTTP2; MetricsGetCertificate]).
Proof. apply (tls_options_separate (fun n => n) false true true). reflexivity. Defined.

(** With an allocator that rounds up, the second append overwrites the first one's
    option and the webhook would serve the certificate of the metrics server. *)
Example tls_options_shared :
  tls_options (fun _ => 4%nat) false true true =
  ([DisableHTTP2; MetricsGetCertificate], [DisableHTTP2; MetricsGetCertificate]).
Proof. reflexivity. Qed.
