(* ===== verification/Memory.v ===== *)
(** * Memory

    Go memory with pointers, slices and maps, as far as the generated copy functions
    of src/api/v1 need it. A flat value holds addresses; [denote] says which value
    it stands for in a heap and which cells that value occupies. [Copyable] is the
    interface between a type and the types that contain it: a copy stands for the
    same value, in cells that were not in use before. *)
From S2P Require Import Prelude.
From stdpp Require Import gmap sets.
From Stdlib Require Import Lia.

Abbreviation addr := positive.

(** A type whose values are stored in cells, with Go's zero value. *)
Class Storable (cell T : Type) := {
  inj : T -> cell;
  prj : cell -> option T;
  prj_inj : forall t, prj (inj t) = Some t;
  zero : T }.

Abbreviation heap := (gmap addr).

Section Memory.
Context {cell : Type}.

(** Computations on memory; [None]: a nil or dangling pointer. *)
Definition H (A : Type) : Type := heap cell -> option (A * heap cell).
Definition hret {A} (x : A) : H A := fun h => Some (x, h).
Definition hbind {A B} (m : H A) (f : A -> H B) : H B := fun h =>
  match m h with Some (x, h') => f x h' | None => None end.

(** [new(T)] and [make], with a first value. *)
Definition alloc {T} `{Storable cell T} (t : T) : H addr := fun h =>
  let a := fresh (dom h) in Some (a, <[a := inj t]> h).
Definition load {T} `{Storable cell T} (a : addr) : H T := fun h =>
  match h !! a with
  | Some c => match prj c with Some t => Some (t, h) | None => None end
  | None => None
  end.
Definition store {T} `{Storable cell T} (a : addr) (t : T) : H unit := fun h =>
  match h !! a with Some _ => Some (tt, <[a := inj t]> h) | None => None end.

End Memory.

Arguments H cell A : clear implicits.

Declare Scope heap_scope.
Delimit Scope heap_scope with heap.
Notation "x <- m ;; k" := (hbind m (fun x => k))
  (at level 100, m at next level, right associativity) : heap_scope.
Notation "m ;;; k" := (hbind m (fun _ => k)) (at level 100, right associativity) : heap_scope.
Open Scope heap_scope.

(** ** The interface *)

(** [F] is the flat type, [V] the type of the values. The value that [x] stands for
    depends on its cells only, and [copy_into] copies it. *)
Class Copyable (cell F V : Type) := {
  denote : heap cell -> F -> option (V * gset addr);
  copy_into : F -> H cell F;
  denote_dom : forall h x v fp, denote h x = Some (v, fp) -> fp ⊆ dom h;
  denote_local : forall h h2 x v fp, denote h x = Some (v, fp) ->
    (forall a, a ∈ fp -> h2 !! a = h !! a) -> denote h2 x = Some (v, fp);
  copy_spec : forall h x v fp, denote h x = Some (v, fp) ->
    exists y h' fp', copy_into x h = Some (y, h') /\ h ⊆ h' /\
      denote h' y = Some (v, fp') /\ fp' ## dom h }.

(** The result of a copy in [h] of something with the value [v]. *)
Definition copied {cell F V} `{Copyable cell F V} (h : heap cell) (v : V)
    (r : option (F * heap cell)) : Prop :=
  exists y h' fp', r = Some (y, h') /\ h ⊆ h' /\ denote h' y = Some (v, fp') /\ fp' ## dom h.

Lemma denote_mono {cell F V} `{Copyable cell F V} (h h2 : heap cell) x v fp :
  denote h x = Some (v, fp) -> h ⊆ h2 -> denote h2 x = Some (v, fp).
Proof.
  intros Hx Hs. eapply denote_local; [exact Hx|]. intros a Ha.
  apply (denote_dom _ _ _ _ Hx) in Ha. apply elem_of_dom in Ha as [c Hc].
  rewrite Hc. by eapply lookup_weaken.
Qed.

(** ** Types without pointers: assignment copies them *)

Definition flat_copyable (cell T : Type) : Copyable cell T T.
Proof.
  refine {| denote := fun _ x => Some (x, ∅); copy_into := hret |}.
  - intros h x v fp [= <- <-]. set_solver.
  - done.
  - intros h x v fp [= <- <-]. exists x, h, ∅. split; [done|]. set_solver.
Defined.

(** ** Two fields *)

Section Pair.
Context {cell A VA B VB : Type} `{Copyable cell A VA, Copyable cell B VB}.

Definition denote_pair (h : heap cell) (x : A * B) : option ((VA * VB) * gset addr) :=
  '(va, fa) ← denote h x.1; '(vb, fb) ← denote h x.2; Some ((va, vb), fa ∪ fb).

Definition copy_pair (x : A * B) : H cell (A * B) :=
  a <- copy_into x.1 ;; b <- copy_into x.2 ;; hret (a, b).

Lemma denote_pair_some h x v fp :
  denote_pair h x = Some (v, fp) <->
  exists fa fb, denote h x.1 = Some (v.1, fa) /\ denote h x.2 = Some (v.2, fb) /\ fp = fa ∪ fb.
Proof.
  unfold denote_pair. destruct v as [va vb]. split.
  - destruct (denote h x.1) as [[va' fa]|]; [|done]. cbn.
    destruct (denote h x.2) as [[vb' fb]|]; [|done]. cbn. intros [= <- <- <-]. eauto.
  - intros (fa & fb & -> & -> & ->). done.
Qed.

#[export] Instance pair_copyable : Copyable cell (A * B) (VA * VB).
Proof.
  refine {| denote := denote_pair; copy_into := copy_pair |}.
  - intros h x v fp (fa & fb & Ha & Hb & ->)%denote_pair_some.
    apply denote_dom in Ha, Hb. set_solver.
  - intros h h2 x v fp (fa & fb & Ha & Hb & ->)%denote_pair_some Hl.
    apply denote_pair_some. exists fa, fb.
    split; [|split; [|done]]; (eapply denote_local; [eassumption|]; set_solver).
  - intros h x v fp (fa & fb & Ha & Hb & ->)%denote_pair_some.
    destruct (copy_spec h x.1 v.1 fa Ha) as (a & h1 & fa' & E1 & S1 & D1 & F1).
    pose proof (denote_mono _ _ _ _ _ Hb S1) as Hb1.
    destruct (copy_spec h1 x.2 v.2 fb Hb1) as (b & h2 & fb' & E2 & S2 & D2 & F2).
    exists (a, b), h2, (fa' ∪ fb'). unfold copy_pair, hbind. rewrite E1, E2.
    split; [done|]. split; [by transitivity h1|]. split.
    + apply denote_pair_some. exists fa', fb'. eauto using denote_mono.
    + apply subseteq_dom in S1. set_solver.
Defined.

End Pair.

(** ** Structs: their fields as a tuple *)

Section Struct.
Context {cell T VT F V : Type} {CT : Copyable cell T VT}.
Context (tup : F -> T) (untup : T -> F) (mk : VT -> V) (into : F -> H cell F).
Context (tup_untup : forall t, tup (untup t) = t).
Context (into_eq : forall x h, into x h = (t <- copy_into (tup x) ;; hret (untup t)) h).

Definition struct_copyable : Copyable cell F V.
Proof.
  refine {| denote := fun h x => '(v, fp) ← denote h (tup x); Some (mk v, fp);
            copy_into := into |}.
  - intros h x v fp Hx. destruct (denote h (tup x)) as [[v' fp']|] eqn:E; [|done].
    cbn in Hx. injection Hx as _ <-. by eapply denote_dom.
  - intros h h2 x v fp Hx Hl. destruct (denote h (tup x)) as [[v' fp']|] eqn:E; [|done].
    cbn in Hx. injection Hx as <- <-. by rewrite (denote_local _ h2 _ _ _ E Hl).
  - intros h x v fp Hx. destruct (denote h (tup x)) as [[v' fp']|] eqn:E; [|done].
    cbn in Hx. injection Hx as <- <-.
    destruct (copy_spec _ _ _ _ E) as (t & h' & fp2 & Ec & Hs & Hd & Hf).
    exists (untup t), h', fp2. rewrite into_eq. unfold hbind. rewrite Ec.
    split; [done|]. split; [done|]. rewrite tup_untup, Hd. done.
Defined.

End Struct.

(** ** Fresh cells *)

Section Cells.
Context {cell T : Type} `{Storable cell T}.

Lemma load_some (h : heap cell) a t : h !! a = Some (inj t) -> load a h = Some (t, h).
Proof. intros Ha. unfold load. by rewrite Ha, prj_inj. Qed.

Lemma store_some (h : heap cell) a c t : h !! a = Some c -> store a t h = Some (tt, <[a := inj t]> h).
Proof. intros Ha. unfold store. by rewrite Ha. Qed.

(** The content of a cell. *)
Definition content (h : heap cell) (a : addr) : option T := c ← h !! a; prj c.

Lemma load_content (h : heap cell) a t : content h a = Some t -> load a h = Some (t, h).
Proof.
  unfold content, load. destruct (h !! a); [|done]. cbn. by intros ->.
Qed.

Lemma content_dom (h : heap cell) a t : content h a = Some t -> a ∈ dom h.
Proof.
  unfold content. destruct (h !! a) as [c|] eqn:E; [|done]. intros _. by eapply elem_of_dom_2.
Qed.

Lemma content_local (h h2 : heap cell) a : h2 !! a = h !! a -> content h2 a = content h a.
Proof. unfold content. by intros ->. Qed.

Lemma content_mono (h h2 : heap cell) a t : h ⊆ h2 -> content h a = Some t -> content h2 a = Some t.
Proof.
  unfold content. intros Hs. destruct (h !! a) as [c|] eqn:E; [|done].
  by rewrite (lookup_weaken _ _ _ _ E Hs).
Qed.

Lemma content_insert (h : heap cell) a t : content (<[a := inj t]> h) a = Some t.
Proof. unfold content. rewrite lookup_insert_eq. cbn. apply prj_inj. Qed.

End Cells.

(** ** Pointers to types without pointers *)

Section Pointer.
Context {cell T : Type} `{Storable cell T}.
Context (fresh_value : T) (fill : T -> T) (fill_id : forall t, fill t = t).

(** A new cell that is filled from the old one, when there is one. *)
Definition copy_cell (p : option addr) : H cell (option addr) :=
  match p with
  | None => hret None
  | Some a =>
      out <- alloc fresh_value ;;
      t <- load a ;;
      (store out (fill t) ;;;
       hret (Some out))
  end.

Definition denote_ptr (h : heap cell) (p : option addr) : option (option T * gset addr) :=
  match p with
  | None => Some (None, ∅)
  | Some a => t ← content h a; Some (Some t, {[a]})
  end.

Definition cell_copyable : Copyable cell (option addr) (option T).
Proof.
  refine {| denote := denote_ptr; copy_into := copy_cell |}.
  - intros h [a|] v fp; cbn; [|intros [= <- <-]; set_solver].
    destruct (content h a) eqn:E; [|done]. cbn. intros [= <- <-].
    apply content_dom in E. set_solver.
  - intros h h2 [a|] v fp; cbn; [|done].
    destruct (content h a) eqn:E; [|done]. cbn. intros [= <- <-] Hl.
    rewrite (content_local h h2) by (apply Hl; set_solver). by rewrite E.
  - intros h [a|] v fp; cbn; [|intros [= <- <-]; exists None, h, ∅; repeat split; set_solver].
    destruct (content h a) as [t|] eqn:E; [|done]. cbn. intros [= <- <-].
    set (out := fresh (dom h)). assert (out ∉ dom h) as Hf by apply is_fresh.
    pose proof (content_dom _ _ _ E) as Ha.
    exists (Some out), (<[out := inj t]> h), {[out]}.
    split; [|split; [by apply insert_subseteq, not_elem_of_dom|split; [|set_solver]]].
    + unfold hbind, alloc, hret. fold out.
      rewrite (load_content _ a t) by (rewrite (content_local h); [done|];
        rewrite lookup_insert_ne; [done|intros <-; done]).
      erewrite store_some by apply lookup_insert_eq. by rewrite insert_insert_eq, fill_id.
    + cbn. by rewrite content_insert.
Defined.

End Pointer.

(** [*out = new(T); **out = **in]. *)
Definition copy_ptr {cell T} `{Storable cell T} : option addr -> H cell (option addr) :=
  copy_cell (zero : T) (fun t => t).
Definition ptr_copyable (cell T : Type) `{Storable cell T} : Copyable cell (option addr) (option T) :=
  cell_copyable zero (fun t => t) (fun t => eq_refl).

(** ** Maps of strings *)

Section StringMap.
Context {cell : Type} `{Storable cell (gmap string string)}.

(** The loop that copies entry by entry into the new map. *)
Definition copy_entries (m : gmap string string) : gmap string string :=
  map_fold (fun key val out => <[key := val]> out) ∅ m.

Lemma copy_entries_id m : copy_entries m = m.
Proof.
  apply (map_fold_weak_ind (fun r m => r = m)); [done|]. by intros i x m' r _ ->.
Qed.

Definition copy_map : option addr -> H cell (option addr) :=
  copy_cell (∅ : gmap string string) copy_entries.

(** A nil map reads as an empty one. *)
Definition map_copyable : Copyable cell (option addr) (gmap string string).
Proof.
  refine (struct_copyable (CT := cell_copyable ∅ copy_entries copy_entries_id)
    (fun p => p) (fun p => p) (default ∅) copy_map _ _); [done|].
  intros p h. cbn. unfold copy_map, hbind, hret. by destruct (copy_cell _ _ p h) as [[]|].
Defined.

End StringMap.

(** ** Slices *)

(** The backing array and the length; a nil slice has none. *)
Abbreviation slice := (option (addr * nat)).

Section Slice.
Context {cell F V : Type} {CF : Copyable cell F V} `{Storable cell (list F)}.
Context (z : F).

Definition denote_slice (h : heap cell) (s : slice) : option (list V * gset addr) :=
  match s with
  | None => Some ([], ∅)
  | Some (a, n) =>
      l ← content h a;
      if (n <=? length l)%nat
      then r ← mapM (denote h) (take n l); Some (r.*1, {[a]} ∪ ⋃ r.*2)
      else None
  end.

(** The loop over the elements: each of the [k] from index [i] on is copied into the
    element of the new array. *)
Fixpoint copy_elems (a out : addr) (i k : nat) : H cell unit :=
  match k with
  | O => hret tt
  | S k' =>
      l <- load a ;;
      match (l : list F) !! i with
      | None => fun _ => None
      | Some x =>
          y <- copy_into x ;;
          l' <- load out ;;
          (store out (<[i := y]> (l' : list F)) ;;;
           copy_elems a out (S i) k')
      end
  end.

Definition copy_slice (s : slice) : H cell slice :=
  match s with
  | None => hret None
  | Some (a, n) =>
      out <- alloc (replicate n z) ;;
      (copy_elems a out 0 n ;;;
       hret (Some (out, n)))
  end.

(** The first [ys] elements of the new array are copied, in cells that are neither
    in use in [h0] nor the array itself. *)
Definition copied_upto (h0 h : heap cell) (out : addr) (ys zs : list F) (rs : list (V * gset addr))
    : Prop :=
  h0 ⊆ h /\ content h out = Some (ys ++ zs) /\
  Forall2 (fun y r => denote h y = Some r) ys rs /\
  Forall (fun r => r.2 ## dom h0 /\ out ∉ r.2) rs.

Lemma copy_elems_spec h0 a out l n (rs0 : list (V * gset addr)) :
  content h0 a = Some l -> out ∉ dom h0 -> (n <= length l)%nat ->
  Forall2 (fun x r => denote h0 x = Some r) (take n l) rs0 ->
  forall k ys rs h, (length ys + k)%nat = n ->
  copied_upto h0 h out ys (replicate k z) rs -> rs.*1 = take (length ys) rs0.*1 ->
  exists ys' rs' h', copy_elems a out (length ys) k h = Some (tt, h') /\
    copied_upto h0 h' out ys' [] rs' /\ rs'.*1 = rs0.*1 /\ length ys' = n.
Proof.
  intros Hl Hout Hn Hds. induction k as [|k IH]; intros ys rs h Hk (Hs & Hc & Hys & Hrs) Hv.
  - exists ys, rs, h. rewrite Nat.add_0_r in Hk. split; [done|]. split; [done|].
    split; [|done]. rewrite Hv. apply take_ge. rewrite length_fmap.
    apply Forall2_length in Hds. rewrite length_take in Hds. lia.
  - assert (exists x r, l !! length ys = Some x /\ rs0 !! length ys = Some r /\
      denote h0 x = Some r) as (x & r & Hx & Hr & Hxr).
    { destruct (l !! length ys) as [x|] eqn:Hx; [|apply lookup_ge_None in Hx; lia].
      assert (take n l !! length ys = Some x) as Hx' by (rewrite lookup_take_lt by lia; done).
      destruct (Forall2_lookup_l _ _ _ _ _ Hds Hx') as (r & Hr & Hxr). eauto. }
    destruct r as [v fp]. pose proof (denote_mono _ _ _ _ _ Hxr Hs) as Hxh.
    destruct (copy_spec h x v fp Hxh) as (y & h1 & fp' & Hcp & Hs1 & Hy & Hf).
    assert (out ∈ dom h) as Hod by by eapply content_dom.
    assert (dom h0 ⊆ dom h) as Hd0 by by apply subseteq_dom.
    pose proof (content_mono h h1 out _ Hs1 Hc) as Hc1.
    set (l2 := ys ++ y :: replicate k z). set (h2 := <[out := inj l2]> h1).
    assert (h0 ⊆ h2) as Hs2.
    { apply insert_subseteq_r; [by apply not_elem_of_dom|by transitivity h]. }
    assert (forall y' r', denote h1 y' = Some r' -> out ∉ r'.2 -> denote h2 y' = Some r') as Hkeep.
    { intros y' [v' f'] Hy' Ho. eapply denote_local; [exact Hy'|]. intros b Hb.
      unfold h2. rewrite lookup_insert_ne; [done|]. intros ->. done. }
    destruct (IH (ys ++ [y]) (rs ++ [(v, fp')]) h2) as (ys' & rs' & h' & Hrun & Hinv & Hv' & Hlen).
    + rewrite length_app. simpl. lia.
    + split; [done|]. split; [|split].
      * unfold h2. rewrite content_insert. unfold l2. by rewrite <-(assoc_L (++)).
      * apply Forall2_app; [|constructor; [apply Hkeep; [done|simpl; set_solver]|constructor]].
        rewrite Forall2_lookup in Hys |- *. intros j. specialize (Hys j).
        rewrite Forall_lookup in Hrs. specialize (Hrs j).
        destruct Hys as [y' [v' f'] Hyr|]; constructor. apply Hkeep; [by eapply denote_mono|].
        by apply (Hrs _ eq_refl).
      * apply Forall_app. split; [done|]. constructor; [|constructor]. simpl. set_solver.
    + rewrite fmap_app, Hv, length_app. simpl. rewrite Nat.add_1_r.
      symmetry. apply take_S_r. by rewrite list_lookup_fmap, Hr.
    + exists ys', rs', h'. split; [|done]. cbn [copy_elems]. unfold hbind.
      rewrite (load_content h a l) by by eapply content_mono.
      rewrite Hx, Hcp, (load_content h1 out _ Hc1).
      assert (exists c, h1 !! out = Some c) as [c Hcc].
      { apply elem_of_dom. apply subseteq_dom in Hs1. set_solver. }
      rewrite (store_some h1 out c) by done.
      replace (<[length ys := y]> (ys ++ replicate (S k) z)) with l2; [|].
      * rewrite length_app in Hrun. simpl in Hrun. by rewrite Nat.add_1_r in Hrun.
      * unfold l2. rewrite insert_app_r_alt, Nat.sub_diag by lia. done.
Qed.

Lemma denote_slice_some h a n vs fp :
  denote_slice h (Some (a, n)) = Some (vs, fp) <->
  exists l rs, content h a = Some l /\ (n <= length l)%nat /\
    Forall2 (fun x r => denote h x = Some r) (take n l) rs /\ vs = rs.*1 /\ fp = {[a]} ∪ ⋃ rs.*2.
Proof.
  cbn. split.
  - destruct (content h a) as [l|]; [|done]. cbn. destruct (Nat.leb_spec n (length l)); [|done].
    destruct (mapM (denote h) (take n l)) as [rs|] eqn:E; [|done]. cbn.
    intros [= <- <-]. apply mapM_Some in E. eauto 10.
  - intros (l & rs & -> & Hn & Hrs & -> & ->). cbn. rewrite (proj2 (Nat.leb_le _ _)) by done.
    apply mapM_Some in Hrs. by rewrite Hrs.
Qed.

Lemma elem_of_footprint (rs : list (V * gset addr)) b :
  b ∈ ⋃ rs.*2 <-> exists r, r ∈ rs /\ b ∈ r.2.
Proof.
  rewrite elem_of_union_list. split.
  - intros (X & HX & Hb). apply list_elem_of_fmap in HX as (r & -> & Hr). eauto.
  - intros (r & Hr & Hb). exists r.2. split; [|done]. apply list_elem_of_fmap. eauto.
Qed.

Definition slice_copyable : Copyable cell slice (list V).
Proof.
  refine {| denote := denote_slice; copy_into := copy_slice |}.
  - intros h [[a n]|] vs fp; [|intros [= <- <-]; set_solver].
    intros (l & rs & Hl & _ & Hrs & _ & ->)%denote_slice_some. apply content_dom in Hl.
    intros b [->%elem_of_singleton|Hb]%elem_of_union; [done|].
    apply elem_of_footprint in Hb as ([v f] & Hr & Hb).
    apply list_elem_of_lookup in Hr as [i Hi].
    destruct (Forall2_lookup_r _ _ _ _ _ Hrs Hi) as (x & _ & Hx). by apply (denote_dom _ _ _ _ Hx).
  - intros h h2 [[a n]|] vs fp; [|done].
    intros (l & rs & Hl & Hn & Hrs & -> & ->)%denote_slice_some Hloc.
    apply denote_slice_some. exists l, rs.
    split; [rewrite <-Hl; apply content_local, Hloc; set_solver|]. split; [done|].
    split; [|done]. rewrite Forall2_lookup in Hrs |- *. intros i. specialize (Hrs i).
    destruct (rs !! i) as [[v f]|] eqn:Hi; inversion Hrs as [x r Hx|]; constructor; subst.
    eapply denote_local; [done|]. intros b Hb. apply Hloc, elem_of_union_r, elem_of_footprint.
    exists (v, f). split; [by eapply list_elem_of_lookup_2|done].
  - intros h [[a n]|] vs fp; [|intros [= <- <-]; exists None, h, ∅; repeat split; set_solver].
    intros (l & rs & Hl & Hn & Hrs & -> & ->)%denote_slice_some.
    set (out := fresh (dom h)). assert (out ∉ dom h) as Hf by apply is_fresh.
    set (h1 := <[out := inj (replicate n z)]> h).
    destruct (copy_elems_spec h a out l n rs Hl Hf Hn Hrs n [] [] h1)
      as (ys & rs' & h' & Hrun & (Hs & Hc & Hys & Hfp) & Hv & Hlen); [done| |done|].
    { split; [by apply insert_subseteq, not_elem_of_dom|]. split; [apply content_insert|by constructor]. }
    exists (Some (out, n)), h', ({[out]} ∪ ⋃ rs'.*2).
    split; [unfold copy_slice, hbind, alloc; fold out h1; cbn in Hrun; by rewrite Hrun|].
    split; [done|]. rewrite app_nil_r in Hc. split.
    + apply denote_slice_some. exists ys, rs'. rewrite Hlen.
      split; [done|]. split; [done|]. split; [by rewrite take_ge by lia|]. by rewrite Hv.
    + intros b [->%elem_of_singleton|Hb]%elem_of_union; [done|].
      apply elem_of_footprint in Hb as (r & Hr & Hb).
      rewrite Forall_forall in Hfp. destruct (Hfp r Hr). set_solver.
Defined.

End Slice.

(** ** Slices of types without pointers: the builtin [copy] *)

Section FlatSlice.
Context {cell T : Type} `{Storable cell T, Storable cell (list T)}.

Definition copy_slice_flat (s : slice) : H cell slice :=
  match s with
  | None => hret None
  | Some (a, n) =>
      out <- alloc (replicate n (zero : T)) ;;
      l <- load a ;;
      (store out (take n (l : list T)) ;;;
       hret (Some (out, n)))
  end.

Definition denote_flat (h : heap cell) (s : slice) : option (list T * gset addr) :=
  match s with
  | None => Some ([], ∅)
  | Some (a, n) =>
      l ← content h a;
      if (n <=? length l)%nat then Some (take n (l : list T), {[a]}) else None
  end.

Definition flat_slice_copyable : Copyable cell slice (list T).
Proof.
  refine {| denote := denote_flat; copy_into := copy_slice_flat |}.
  - intros h [[a n]|] v fp; cbn; [|intros [= <- <-]; set_solver].
    destruct (content h a) eqn:E; [|done]. cbn. split_if; [|done]. intros [= <- <-].
    apply content_dom in E. set_solver.
  - intros h h2 [[a n]|] v fp; cbn; [|done].
    destruct (content h a) eqn:E; [|done]. cbn. split_if; [|done]. intros [= <- <-] Hl.
    rewrite (content_local h h2), E by (apply Hl; set_solver). cbn.
    by match goal with H : _ = true |- _ => rewrite H end.
  - intros h [[a n]|] v fp; cbn; [|intros [= <- <-]; exists None, h, ∅; repeat split; set_solver].
    destruct (content h a) as [t|] eqn:E; [|done]. cbn.
    destruct (Nat.leb_spec n (length t)) as [Hn|]; [|done]. intros [= <- <-].
    set (out := fresh (dom h)). assert (out ∉ dom h) as Hf by apply is_fresh.
    exists (Some (out, n)), (<[out := inj (take n t)]> h), {[out]}.
    split; [|split; [by apply insert_subseteq, not_elem_of_dom|split; [|set_solver]]].
    + unfold hbind, alloc, hret. fold out.
      rewrite (load_content _ a t)
        by (eapply content_mono; [|exact E]; by apply insert_subseteq, not_elem_of_dom).
      erewrite store_some by apply lookup_insert_eq. by rewrite insert_insert_eq.
    + cbn. rewrite content_insert. cbn. rewrite length_take, (proj2 (Nat.leb_le _ _)) by lia.
      by rewrite take_take, Nat.min_id.
Defined.

End FlatSlice.

(** ** Pointers to structs: the methods [DeepCopy] and [DeepCopyObject] *)

Section DeepPointer.
Context {cell F V : Type} {CF : Copyable cell F V} {SF : Storable cell F}.

Definition deep_copy (into : F -> H cell F) (p : option addr) : H cell (option addr) :=
  match p with
  | None => hret None
  | Some a =>
      out <- alloc (zero : F) ;;
      x <- load a ;;
      y <- into x ;;
      (store out y ;;;
       hret (Some out))
  end.

Definition denote_deep (h : heap cell) (p : option addr) : option (option V * gset addr) :=
  match p with
  | None => Some (None, ∅)
  | Some a => x ← content h a; '(v, fp) ← denote h (x : F); Some (Some v, {[a]} ∪ fp)
  end.

Lemma denote_deep_some h a v fp :
  denote_deep h (Some a) = Some (v, fp) <->
  exists x v' fp', content h a = Some x /\ denote h (x : F) = Some (v', fp') /\
    v = Some v' /\ fp = {[a]} ∪ fp'.
Proof.
  cbn. split.
  - destruct (content h a) as [x|]; [|done]. cbn.
    destruct (denote h x) as [[v' fp']|] eqn:E; [|done]. cbn. intros [= <- <-]. eauto 10.
  - intros (x & v' & fp' & -> & Hx & -> & ->). cbn. by rewrite Hx.
Qed.

Definition deep_ptr_copyable : Copyable cell (option addr) (option V).
Proof.
  refine {| denote := denote_deep; copy_into := deep_copy copy_into |}.
  - intros h [a|] v fp; [|intros [= <- <-]; set_solver].
    intros (x & v' & fp' & Hc & Hd & _ & ->)%denote_deep_some.
    apply content_dom in Hc. apply denote_dom in Hd. set_solver.
  - intros h h2 [a|] v fp; [|done].
    intros (x & v' & fp' & Hc & Hd & -> & ->)%denote_deep_some Hl.
    apply denote_deep_some. exists x, v', fp'.
    split; [rewrite <-Hc; apply content_local, Hl; set_solver|]. split; [|done].
    eapply denote_local; [exact Hd|]. set_solver.
  - intros h [a|] v fp; [|intros [= <- <-]; exists None, h, ∅; repeat split; set_solver].
    intros (x & v' & fp' & Hc & Hd & -> & ->)%denote_deep_some.
    set (out := fresh (dom h)). assert (out ∉ dom h) as Hf by apply is_fresh.
    set (h1 := <[out := inj (zero : F)]> h).
    assert (h ⊆ h1) as Hs1 by by apply insert_subseteq, not_elem_of_dom.
    destruct (copy_spec h1 x v' fp' (denote_mono _ _ _ _ _ Hd Hs1))
      as (y & h2 & fp2 & Hcp & Hs2 & Hy & Hf2).
    assert (out ∉ fp2) as Ho by (unfold h1 in Hf2; set_solver).
    assert (exists c, h2 !! out = Some c) as [c Hout].
    { exists (inj (zero : F)). eapply lookup_weaken; [apply lookup_insert_eq|exact Hs2]. }
    assert (h ⊆ h2) as Hs by by transitivity h1.
    exists (Some out), (<[out := inj y]> h2), ({[out]} ∪ fp2).
    split; [|split; [by apply insert_subseteq_r; [apply not_elem_of_dom|]|split]].
    + cbn. unfold hbind, alloc. fold out h1.
      rewrite (load_content h1 a x) by by eapply content_mono.
      rewrite Hcp. by rewrite (store_some h2 out c).
    + apply denote_deep_some. exists y, v', fp2. split; [apply content_insert|]. split; [|done].
      eapply denote_local; [exact Hy|]. intros b Hb. by rewrite lookup_insert_ne by set_solver.
    + apply subseteq_dom in Hs1. set_solver.
Defined.

End DeepPointer.

(** ** What a copy promises its users *)

(** The copy stands for the same value; its cells are new; and writes to the cells
    of one of the two leave the other's value unchanged. *)
Definition copies_deeply {cell V} (C : Copyable cell (option addr) (option V))
    (copy : option addr -> H cell (option addr)) : Prop :=
  forall h p v fp, denote h p = Some (v, fp) ->
  exists q h' fp', copy p h = Some (q, h') /\ h ⊆ h' /\
    denote h' q = Some (v, fp') /\ fp' ## fp /\
    (forall h2, (forall a, a ∉ fp' -> h2 !! a = h' !! a) -> denote h2 p = Some (v, fp)) /\
    (forall h2, (forall a, a ∉ fp -> h2 !! a = h' !! a) -> denote h2 q = Some (v, fp')).

Lemma copyable_copies {cell V} (C : Copyable cell (option addr) (option V)) copy :
  (forall p h, copy p h = copy_into p h) -> copies_deeply C copy.
Proof.
  intros Hcopy h p v fp Hp. destruct (copy_spec h p v fp Hp) as (q & h' & fp' & Hc & Hs & Hq & Hf).
  pose proof (denote_dom _ _ _ _ Hp) as Hfp.
  exists q, h', fp'. rewrite Hcopy. split; [done|]. split; [done|]. split; [done|].
  split; [set_solver|]. split.
  - intros h2 H2. eapply denote_local; [by eapply denote_mono|]. intros a Ha. apply H2. set_solver.
  - intros h2 H2. eapply denote_local; [exact Hq|]. intros a Ha. apply H2. set_solver.
Qed.
