(* ===== verification/DeepCopy.v ===== *)
(** * Deep copies

    src/api/v1/zz_generated.deepcopy.go: the copy functions of the API types, over the
    memory of Memory.v. A struct whose fields hold no pointers is copied by
    assignment; the flat form [f<T>] of any other type [T] keeps the pointers, slices
    and maps of its fields. The copies of the types of other packages (object and
    list headers, containers, conditions) are parameters: instances of [Copyable];
    [metav1.Time] is documented to be copied by assignment. The controllers get
    their objects from a cache that hands out such copies. *)
From S2P Require Import Prelude Types Memory.

(** ** Types that no other part of the development uses *)

Record TypeMeta := MkTypeMeta { tm_Kind : string; tm_APIVersion : string }.

(** checkpoint_types.go, clusterpolicy_types.go, packagepolicy_types.go. *)
Record BackupRef := MkBackupRef { br_Name : string }.
Record PackageRetentionPolicy := MkPackageRetentionPolicy {
  prp_RetainOnSource : bool; prp_DeleteAfterTransition : bool }.
Record PackagePolicySpec := MkPackagePolicySpec { pps_Foo : string }.
Record PackagePolicyStatus := MkPackagePolicyStatus {}.

(** ** Zero values *)

Definition zero_BackupInformation : BackupInformation := MkBackupInformation "" "" "".
Definition zero_BackupRef : BackupRef := MkBackupRef "".
Definition zero_ClusterRef : ClusterRef := MkClusterRef "" "" "".
Definition zero_ClusterSelector : ClusterSelector := MkClusterSelector "" "" "" "".
Definition zero_Container : Container := MkCkptContainer "" "".
Definition zero_NodeHealthSpec : NodeHealthSpec := MkNodeHealthSpec "".
Definition zero_PackagePolicySpec : PackagePolicySpec := MkPackagePolicySpec "".
Definition zero_PackagePolicyStatus : PackagePolicyStatus := MkPackagePolicyStatus.
Definition zero_PackageRetentionPolicy : PackageRetentionPolicy := MkPackageRetentionPolicy false
    false.
Definition zero_PreferredCluster : PreferredCluster := MkPreferredCluster "" "" 0.
Definition zero_SecretRef : SecretRef := MkSecretRef "" "".

(** [metav1.Time] is copied by assignment. *)
Definition Time_DeepCopyInto {cell} (t : Time) : H cell Time := hret t.

Section DeepCopy.
Context {FObjectMeta FListMeta FContainer FCondition VListMeta foreign_cell : Type}.
Context (zero_FObjectMeta : FObjectMeta) (zero_FListMeta : FListMeta).
Context (zero_FContainer : FContainer) (zero_FCondition : FCondition).

(** ** Flat forms *)

Record fPackageSelector := MkfPackageSelector {
  fPackageSelector_Name : string;
  fPackageSelector_PackagePath : string;
  fPackageSelector_PackageType : string;
  fPackageSelector_LiveStatePackage : bool;
  fPackageSelector_BackupInformation : slice }.
Definition zero_fPackageSelector : fPackageSelector :=
  MkfPackageSelector "" "" "" false None.

Record fTransitionedPackages := MkfTransitionedPackages {
  fTransitionedPackages_PackageSelectors : slice;
  fTransitionedPackages_LastTransitionTime : Time;
  fTransitionedPackages_PackageTransitionCondition : string;
  fTransitionedPackages_PackageTransitionMessage : string }.
Definition zero_fTransitionedPackages : fTransitionedPackages :=
  MkfTransitionedPackages None ZeroTime "" "".

Record fTargetClusterPolicy := MkfTargetClusterPolicy {
  fTargetClusterPolicy_PreferClusters : slice;
  fTargetClusterPolicy_AvoidClusters : slice }.
Definition zero_fTargetClusterPolicy : fTargetClusterPolicy :=
  MkfTargetClusterPolicy None None.

Record fClusterPolicySpec := MkfClusterPolicySpec {
  fClusterPolicySpec_ClusterSelector : ClusterSelector;
  fClusterPolicySpec_PackageSelectors : slice;
  fClusterPolicySpec_TargetClusterPolicy : fTargetClusterPolicy }.
Definition zero_fClusterPolicySpec : fClusterPolicySpec :=
  MkfClusterPolicySpec zero_ClusterSelector None zero_fTargetClusterPolicy.

Record fClusterPolicyStatus := MkfClusterPolicyStatus {
  fClusterPolicyStatus_TransitionedPackages : slice }.
Definition zero_fClusterPolicyStatus : fClusterPolicyStatus :=
  MkfClusterPolicyStatus None.

Record fClusterPolicy := MkfClusterPolicy {
  fClusterPolicy_TypeMeta : TypeMeta;
  fClusterPolicy_ObjectMeta : FObjectMeta;
  fClusterPolicy_Spec : fClusterPolicySpec;
  fClusterPolicy_Status : fClusterPolicyStatus }.
Definition zero_fClusterPolicy : fClusterPolicy :=
  MkfClusterPolicy (MkTypeMeta "" "") zero_FObjectMeta zero_fClusterPolicySpec
      zero_fClusterPolicyStatus.

Record fClusterPolicyList := MkfClusterPolicyList {
  fClusterPolicyList_TypeMeta : TypeMeta;
  fClusterPolicyList_ListMeta : FListMeta;
  fClusterPolicyList_Items : slice }.
Definition zero_fClusterPolicyList : fClusterPolicyList :=
  MkfClusterPolicyList (MkTypeMeta "" "") zero_FListMeta None.

Record fResourceRef := MkfResourceRef {
  fResourceRef_APIVersion : string;
  fResourceRef_Kind : string;
  fResourceRef_Namespace : string;
  fResourceRef_Name : string;
  fResourceRef_Annotations : option addr }.
Definition zero_fResourceRef : fResourceRef :=
  MkfResourceRef "" "" "" "" None.

Record fContainerRef := MkfContainerRef {
  fContainerRef_Containers : slice }.
Definition zero_fContainerRef : fContainerRef :=
  MkfContainerRef None.

Record fPodRef := MkfPodRef {
  fPodRef_Namespace : string;
  fPodRef_Name : string;
  fPodRef_ContainerRef : fContainerRef }.
Definition zero_fPodRef : fPodRef :=
  MkfPodRef "" "" zero_fContainerRef.

Record fRegistry := MkfRegistry {
  fRegistry_URL : string;
  fRegistry_Repository : string;
  fRegistry_SecretRef : option addr }.
Definition zero_fRegistry : fRegistry :=
  MkfRegistry "" "" None.

Record fCheckpointSpec := MkfCheckpointSpec {
  fCheckpointSpec_Schedule : string;
  fCheckpointSpec_ClusterRef : option addr;
  fCheckpointSpec_TargetClusterRef : option addr;
  fCheckpointSpec_PodRef : fPodRef;
  fCheckpointSpec_ResourceRef : fResourceRef;
  fCheckpointSpec_Registry : fRegistry;
  fCheckpointSpec_Containers : slice }.
Definition zero_fCheckpointSpec : fCheckpointSpec :=
  MkfCheckpointSpec "" None None zero_fPodRef zero_fResourceRef zero_fRegistry None.

Record fCheckpointStatus := MkfCheckpointStatus {
  fCheckpointStatus_Phase : string;
  fCheckpointStatus_LastCheckpointTime : option addr;
  fCheckpointStatus_Message : string;
  fCheckpointStatus_ObservedGeneration : Z;
  fCheckpointStatus_LastCheckpointImage : string;
  fCheckpointStatus_OriginalImage : string;
  fCheckpointStatus_Conditions : slice }.
Definition zero_fCheckpointStatus : fCheckpointStatus :=
  MkfCheckpointStatus "" None "" 0%Z "" "" None.

Record fCheckpoint := MkfCheckpoint {
  fCheckpoint_TypeMeta : TypeMeta;
  fCheckpoint_ObjectMeta : FObjectMeta;
  fCheckpoint_Spec : fCheckpointSpec;
  fCheckpoint_Status : fCheckpointStatus }.
Definition zero_fCheckpoint : fCheckpoint :=
  MkfCheckpoint (MkTypeMeta "" "") zero_FObjectMeta zero_fCheckpointSpec zero_fCheckpointStatus.

Record fCheckpointList := MkfCheckpointList {
  fCheckpointList_TypeMeta : TypeMeta;
  fCheckpointList_ListMeta : FListMeta;
  fCheckpointList_Items : slice }.
Definition zero_fCheckpointList : fCheckpointList :=
  MkfCheckpointList (MkTypeMeta "" "") zero_FListMeta None.

Record fContainers := MkfContainers {
  fContainers_Container : FContainer }.
Definition zero_fContainers : fContainers :=
  MkfContainers zero_FContainer.

Record fNodeHealthStatus := MkfNodeHealthStatus {
  fNodeHealthStatus_Conditions : slice;
  fNodeHealthStatus_IP : string;
  fNodeHealthStatus_OS : string;
  fNodeHealthStatus_Arch : string;
  fNodeHealthStatus_CPUs : Z;
  fNodeHealthStatus_CPUUsage : string;
  fNodeHealthStatus_MemTotal : Z;
  fNodeHealthStatus_MemUsed : Z;
  fNodeHealthStatus_LastSeen : Time;
  fNodeHealthStatus_Condition : string;
  fNodeHealthStatus_ClusterName : string;
  fNodeHealthStatus_ClusterNS : string;
  fNodeHealthStatus_Machine : string;
  fNodeHealthStatus_OwnerKind : string;
  fNodeHealthStatus_OwnerName : string;
  fNodeHealthStatus_ProvidedIP : string;
  fNodeHealthStatus_CRISocket : string }.
Definition zero_fNodeHealthStatus : fNodeHealthStatus :=
  MkfNodeHealthStatus None "" "" "" 0%Z "" 0%Z 0%Z ZeroTime "" "" "" "" "" "" "" "".

Record fNodeHealth := MkfNodeHealth {
  fNodeHealth_TypeMeta : TypeMeta;
  fNodeHealth_ObjectMeta : FObjectMeta;
  fNodeHealth_Spec : NodeHealthSpec;
  fNodeHealth_Status : fNodeHealthStatus }.
Definition zero_fNodeHealth : fNodeHealth :=
  MkfNodeHealth (MkTypeMeta "" "") zero_FObjectMeta zero_NodeHealthSpec zero_fNodeHealthStatus.

Record fNodeHealthList := MkfNodeHealthList {
  fNodeHealthList_TypeMeta : TypeMeta;
  fNodeHealthList_ListMeta : FListMeta;
  fNodeHealthList_Items : slice }.
Definition zero_fNodeHealthList : fNodeHealthList :=
  MkfNodeHealthList (MkTypeMeta "" "") zero_FListMeta None.

Record fPackagePolicy := MkfPackagePolicy {
  fPackagePolicy_TypeMeta : TypeMeta;
  fPackagePolicy_ObjectMeta : FObjectMeta;
  fPackagePolicy_Spec : PackagePolicySpec;
  fPackagePolicy_Status : PackagePolicyStatus }.
Definition zero_fPackagePolicy : fPackagePolicy :=
  MkfPackagePolicy (MkTypeMeta "" "") zero_FObjectMeta zero_PackagePolicySpec
      zero_PackagePolicyStatus.

Record fPackagePolicyList := MkfPackagePolicyList {
  fPackagePolicyList_TypeMeta : TypeMeta;
  fPackagePolicyList_ListMeta : FListMeta;
  fPackagePolicyList_Items : slice }.
Definition zero_fPackagePolicyList : fPackagePolicyList :=
  MkfPackagePolicyList (MkTypeMeta "" "") zero_FListMeta None.

(** ** Cells *)

(** What a cell can hold: the target of a pointer or the array of a slice. *)
Inductive cell :=
| C_BackupInformation (x : BackupInformation)
| C_BackupRef (x : BackupRef)
| C_ClusterRef (x : ClusterRef)
| C_ClusterSelector (x : ClusterSelector)
| C_Container (x : Container)
| C_NodeHealthSpec (x : NodeHealthSpec)
| C_PackagePolicySpec (x : PackagePolicySpec)
| C_PackagePolicyStatus (x : PackagePolicyStatus)
| C_PackageRetentionPolicy (x : PackageRetentionPolicy)
| C_PreferredCluster (x : PreferredCluster)
| C_SecretRef (x : SecretRef)
| C_PackageSelector (x : fPackageSelector)
| C_TransitionedPackages (x : fTransitionedPackages)
| C_TargetClusterPolicy (x : fTargetClusterPolicy)
| C_ClusterPolicySpec (x : fClusterPolicySpec)
| C_ClusterPolicyStatus (x : fClusterPolicyStatus)
| C_ClusterPolicy (x : fClusterPolicy)
| C_ClusterPolicyList (x : fClusterPolicyList)
| C_ResourceRef (x : fResourceRef)
| C_ContainerRef (x : fContainerRef)
| C_PodRef (x : fPodRef)
| C_Registry (x : fRegistry)
| C_CheckpointSpec (x : fCheckpointSpec)
| C_CheckpointStatus (x : fCheckpointStatus)
| C_Checkpoint (x : fCheckpoint)
| C_CheckpointList (x : fCheckpointList)
| C_Containers (x : fContainers)
| C_NodeHealthStatus (x : fNodeHealthStatus)
| C_NodeHealth (x : fNodeHealth)
| C_NodeHealthList (x : fNodeHealthList)
| C_PackagePolicy (x : fPackagePolicy)
| C_PackagePolicyList (x : fPackagePolicyList)
| C_Time (x : Time)
| C_Annotations (x : gmap string string)
| C_BackupInformation_array (x : list BackupInformation)
| C_PackageSelector_array (x : list fPackageSelector)
| C_PreferredCluster_array (x : list PreferredCluster)
| C_TransitionedPackages_array (x : list fTransitionedPackages)
| C_ClusterPolicy_array (x : list fClusterPolicy)
| C_CoreContainer_array (x : list FContainer)
| C_Container_array (x : list Container)
| C_Condition_array (x : list FCondition)
| C_Checkpoint_array (x : list fCheckpoint)
| C_NodeHealth_array (x : list fNodeHealth)
| C_PackagePolicy_array (x : list fPackagePolicy)
| C_foreign (x : foreign_cell).

#[local] Instance BackupInformation_storable : Storable cell (BackupInformation) :=
  {| inj := C_BackupInformation; prj c := match c with C_BackupInformation x => Some x | _ => None
      end;
     prj_inj _ := eq_refl; zero := zero_BackupInformation |}.
#[local] Instance BackupRef_storable : Storable cell (BackupRef) :=
  {| inj := C_BackupRef; prj c := match c with C_BackupRef x => Some x | _ => None end;
     prj_inj _ := eq_refl; zero := zero_BackupRef |}.
#[local] Instance ClusterRef_storable : Storable cell (ClusterRef) :=
  {| inj := C_ClusterRef; prj c := match c with C_ClusterRef x => Some x | _ => None end;
     prj_inj _ := eq_refl; zero := zero_ClusterRef |}.
#[local] Instance ClusterSelector_storable : Storable cell (ClusterSelector) :=
  {| inj := C_ClusterSelector; prj c := match c with C_ClusterSelector x => Some x | _ => None end;
     prj_inj _ := eq_refl; zero := zero_ClusterSelector |}.
#[local] Instance Container_storable : Storable cell (Container) :=
  {| inj := C_Container; prj c := match c with C_Container x => Some x | _ => None end;
     prj_inj _ := eq_refl; zero := zero_Container |}.
#[local] Instance NodeHealthSpec_storable : Storable cell (NodeHealthSpec) :=
  {| inj := C_NodeHealthSpec; prj c := match c with C_NodeHealthSpec x => Some x | _ => None end;
     prj_inj _ := eq_refl; zero := zero_NodeHealthSpec |}.
#[local] Instance PackagePolicySpec_storable : Storable cell (PackagePolicySpec) :=
  {| inj := C_PackagePolicySpec; prj c := match c with C_PackagePolicySpec x => Some x | _ => None
      end;
     prj_inj _ := eq_refl; zero := zero_PackagePolicySpec |}.
#[local] Instance PackagePolicyStatus_storable : Storable cell (PackagePolicyStatus) :=
  {| inj := C_PackagePolicyStatus; prj c := match c with C_PackagePolicyStatus x => Some x | _ =>
      None end;
     prj_inj _ := eq_refl; zero := zero_PackagePolicyStatus |}.
#[local] Instance PackageRetentionPolicy_storable : Storable cell (PackageRetentionPolicy) :=
  {| inj := C_PackageRetentionPolicy; prj c := match c with C_PackageRetentionPolicy x => Some x |
      _ => None end;
     prj_inj _ := eq_refl; zero := zero_PackageRetentionPolicy |}.
#[local] Instance PreferredCluster_storable : Storable cell (PreferredCluster) :=
  {| inj := C_PreferredCluster; prj c := match c with C_PreferredCluster x => Some x | _ => None
      end;
     prj_inj _ := eq_refl; zero := zero_PreferredCluster |}.
#[local] Instance SecretRef_storable : Storable cell (SecretRef) :=
  {| inj := C_SecretRef; prj c := match c with C_SecretRef x => Some x | _ => None end;
     prj_inj _ := eq_refl; zero := zero_SecretRef |}.
#[local] Instance PackageSelector_storable : Storable cell (fPackageSelector) :=
  {| inj := C_PackageSelector; prj c := match c with C_PackageSelector x => Some x | _ => None end;
     prj_inj _ := eq_refl; zero := zero_fPackageSelector |}.
#[local] Instance TransitionedPackages_storable : Storable cell (fTransitionedPackages) :=
  {| inj := C_TransitionedPackages; prj c := match c with C_TransitionedPackages x => Some x | _ =>
      None end;
     prj_inj _ := eq_refl; zero := zero_fTransitionedPackages |}.
#[local] Instance TargetClusterPolicy_storable : Storable cell (fTargetClusterPolicy) :=
  {| inj := C_TargetClusterPolicy; prj c := match c with C_TargetClusterPolicy x => Some x | _ =>
      None end;
     prj_inj _ := eq_refl; zero := zero_fTargetClusterPolicy |}.
#[local] Instance ClusterPolicySpec_storable : Storable cell (fClusterPolicySpec) :=
  {| inj := C_ClusterPolicySpec; prj c := match c with C_ClusterPolicySpec x => Some x | _ => None
      end;
     prj_inj _ := eq_refl; zero := zero_fClusterPolicySpec |}.
#[local] Instance ClusterPolicyStatus_storable : Storable cell (fClusterPolicyStatus) :=
  {| inj := C_ClusterPolicyStatus; prj c := match c with C_ClusterPolicyStatus x => Some x | _ =>
      None end;
     prj_inj _ := eq_refl; zero := zero_fClusterPolicyStatus |}.
#[local] Instance ClusterPolicy_storable : Storable cell (fClusterPolicy) :=
  {| inj := C_ClusterPolicy; prj c := match c with C_ClusterPolicy x => Some x | _ => None end;
     prj_inj _ := eq_refl; zero := zero_fClusterPolicy |}.
#[local] Instance ClusterPolicyList_storable : Storable cell (fClusterPolicyList) :=
  {| inj := C_ClusterPolicyList; prj c := match c with C_ClusterPolicyList x => Some x | _ => None
      end;
     prj_inj _ := eq_refl; zero := zero_fClusterPolicyList |}.
#[local] Instance ResourceRef_storable : Storable cell (fResourceRef) :=
  {| inj := C_ResourceRef; prj c := match c with C_ResourceRef x => Some x | _ => None end;
     prj_inj _ := eq_refl; zero := zero_fResourceRef |}.
#[local] Instance ContainerRef_storable : Storable cell (fContainerRef) :=
  {| inj := C_ContainerRef; prj c := match c with C_ContainerRef x => Some x | _ => None end;
     prj_inj _ := eq_refl; zero := zero_fContainerRef |}.
#[local] Instance PodRef_storable : Storable cell (fPodRef) :=
  {| inj := C_PodRef; prj c := match c with C_PodRef x => Some x | _ => None end;
     prj_inj _ := eq_refl; zero := zero_fPodRef |}.
#[local] Instance Registry_storable : Storable cell (fRegistry) :=
  {| inj := C_Registry; prj c := match c with C_Registry x => Some x | _ => None end;
     prj_inj _ := eq_refl; zero := zero_fRegistry |}.
#[local] Instance CheckpointSpec_storable : Storable cell (fCheckpointSpec) :=
  {| inj := C_CheckpointSpec; prj c := match c with C_CheckpointSpec x => Some x | _ => None end;
     prj_inj _ := eq_refl; zero := zero_fCheckpointSpec |}.
#[local] Instance CheckpointStatus_storable : Storable cell (fCheckpointStatus) :=
  {| inj := C_CheckpointStatus; prj c := match c with C_CheckpointStatus x => Some x | _ => None
      end;
     prj_inj _ := eq_refl; zero := zero_fCheckpointStatus |}.
#[local] Instance Checkpoint_storable : Storable cell (fCheckpoint) :=
  {| inj := C_Checkpoint; prj c := match c with C_Checkpoint x => Some x | _ => None end;
     prj_inj _ := eq_refl; zero := zero_fCheckpoint |}.
#[local] Instance CheckpointList_storable : Storable cell (fCheckpointList) :=
  {| inj := C_CheckpointList; prj c := match c with C_CheckpointList x => Some x | _ => None end;
     prj_inj _ := eq_refl; zero := zero_fCheckpointList |}.
#[local] Instance Containers_storable : Storable cell (fContainers) :=
  {| inj := C_Containers; prj c := match c with C_Containers x => Some x | _ => None end;
     prj_inj _ := eq_refl; zero := zero_fContainers |}.
#[local] Instance NodeHealthStatus_storable : Storable cell (fNodeHealthStatus) :=
  {| inj := C_NodeHealthStatus; prj c := match c with C_NodeHealthStatus x => Some x | _ => None
      end;
     prj_inj _ := eq_refl; zero := zero_fNodeHealthStatus |}.
#[local] Instance NodeHealth_storable : Storable cell (fNodeHealth) :=
  {| inj := C_NodeHealth; prj c := match c with C_NodeHealth x => Some x | _ => None end;
     prj_inj _ := eq_refl; zero := zero_fNodeHealth |}.
#[local] Instance NodeHealthList_storable : Storable cell (fNodeHealthList) :=
  {| inj := C_NodeHealthList; prj c := match c with C_NodeHealthList x => Some x | _ => None end;
     prj_inj _ := eq_refl; zero := zero_fNodeHealthList |}.
#[local] Instance PackagePolicy_storable : Storable cell (fPackagePolicy) :=
  {| inj := C_PackagePolicy; prj c := match c with C_PackagePolicy x => Some x | _ => None end;
     prj_inj _ := eq_refl; zero := zero_fPackagePolicy |}.
#[local] Instance PackagePolicyList_storable : Storable cell (fPackagePolicyList) :=
  {| inj := C_PackagePolicyList; prj c := match c with C_PackagePolicyList x => Some x | _ => None
      end;
     prj_inj _ := eq_refl; zero := zero_fPackagePolicyList |}.
#[local] Instance Time_storable : Storable cell (Time) :=
  {| inj := C_Time; prj c := match c with C_Time x => Some x | _ => None end;
     prj_inj _ := eq_refl; zero := ZeroTime |}.
#[local] Instance Annotations_storable : Storable cell (gmap string string) :=
  {| inj := C_Annotations; prj c := match c with C_Annotations x => Some x | _ => None end;
     prj_inj _ := eq_refl; zero := ∅ |}.
#[local] Instance BackupInformation_array_storable : Storable cell (list BackupInformation) :=
  {| inj := C_BackupInformation_array; prj c := match c with C_BackupInformation_array x => Some x
      | _ => None end;
     prj_inj _ := eq_refl; zero := [] |}.
#[local] Instance PackageSelector_array_storable : Storable cell (list fPackageSelector) :=
  {| inj := C_PackageSelector_array; prj c := match c with C_PackageSelector_array x => Some x | _
      => None end;
     prj_inj _ := eq_refl; zero := [] |}.
#[local] Instance PreferredCluster_array_storable : Storable cell (list PreferredCluster) :=
  {| inj := C_PreferredCluster_array; prj c := match c with C_PreferredCluster_array x => Some x |
      _ => None end;
     prj_inj _ := eq_refl; zero := [] |}.
#[local] Instance TransitionedPackages_array_storable : Storable cell (list fTransitionedPackages)
    :=
  {| inj := C_TransitionedPackages_array; prj c := match c with C_TransitionedPackages_array x =>
      Some x | _ => None end;
     prj_inj _ := eq_refl; zero := [] |}.
#[local] Instance ClusterPolicy_array_storable : Storable cell (list fClusterPolicy) :=
  {| inj := C_ClusterPolicy_array; prj c := match c with C_ClusterPolicy_array x => Some x | _ =>
      None end;
     prj_inj _ := eq_refl; zero := [] |}.
#[local] Instance CoreContainer_array_storable : Storable cell (list FContainer) :=
  {| inj := C_CoreContainer_array; prj c := match c with C_CoreContainer_array x => Some x | _ =>
      None end;
     prj_inj _ := eq_refl; zero := [] |}.
#[local] Instance Container_array_storable : Storable cell (list Container) :=
  {| inj := C_Container_array; prj c := match c with C_Container_array x => Some x | _ => None end;
     prj_inj _ := eq_refl; zero := [] |}.
#[local] Instance Condition_array_storable : Storable cell (list FCondition) :=
  {| inj := C_Condition_array; prj c := match c with C_Condition_array x => Some x | _ => None end;
     prj_inj _ := eq_refl; zero := [] |}.
#[local] Instance Checkpoint_array_storable : Storable cell (list fCheckpoint) :=
  {| inj := C_Checkpoint_array; prj c := match c with C_Checkpoint_array x => Some x | _ => None
      end;
     prj_inj _ := eq_refl; zero := [] |}.
#[local] Instance NodeHealth_array_storable : Storable cell (list fNodeHealth) :=
  {| inj := C_NodeHealth_array; prj c := match c with C_NodeHealth_array x => Some x | _ => None
      end;
     prj_inj _ := eq_refl; zero := [] |}.
#[local] Instance PackagePolicy_array_storable : Storable cell (list fPackagePolicy) :=
  {| inj := C_PackagePolicy_array; prj c := match c with C_PackagePolicy_array x => Some x | _ =>
      None end;
     prj_inj _ := eq_refl; zero := [] |}.

(** The copies of the types of other packages. *)
Context {ObjectMeta_copyable : Copyable cell FObjectMeta ObjectMeta}.
Context {ListMeta_copyable : Copyable cell FListMeta VListMeta}.
Context {CoreContainer_copyable : Copyable cell FContainer CoreContainer}.
Context {Condition_copyable : Copyable cell FCondition Condition}.

(** ** Types without pointers *)

Definition BackupInformation_DeepCopyInto (x : BackupInformation) : H cell BackupInformation :=
    hret x.
Definition BackupInformation_DeepCopy : option addr -> H cell (option addr) := deep_copy
    BackupInformation_DeepCopyInto.
Definition BackupRef_DeepCopyInto (x : BackupRef) : H cell BackupRef := hret x.
Definition BackupRef_DeepCopy : option addr -> H cell (option addr) := deep_copy
    BackupRef_DeepCopyInto.
Definition ClusterRef_DeepCopyInto (x : ClusterRef) : H cell ClusterRef := hret x.
Definition ClusterRef_DeepCopy : option addr -> H cell (option addr) := deep_copy
    ClusterRef_DeepCopyInto.
Definition ClusterSelector_DeepCopyInto (x : ClusterSelector) : H cell ClusterSelector := hret x.
Definition ClusterSelector_DeepCopy : option addr -> H cell (option addr) := deep_copy
    ClusterSelector_DeepCopyInto.
Definition Container_DeepCopyInto (x : Container) : H cell Container := hret x.
Definition Container_DeepCopy : option addr -> H cell (option addr) := deep_copy
    Container_DeepCopyInto.
Definition NodeHealthSpec_DeepCopyInto (x : NodeHealthSpec) : H cell NodeHealthSpec := hret x.
Definition NodeHealthSpec_DeepCopy : option addr -> H cell (option addr) := deep_copy
    NodeHealthSpec_DeepCopyInto.
Definition PackagePolicySpec_DeepCopyInto (x : PackagePolicySpec) : H cell PackagePolicySpec :=
    hret x.
Definition PackagePolicySpec_DeepCopy : option addr -> H cell (option addr) := deep_copy
    PackagePolicySpec_DeepCopyInto.
Definition PackagePolicyStatus_DeepCopyInto (x : PackagePolicyStatus) : H cell PackagePolicyStatus
    := hret x.
Definition PackagePolicyStatus_DeepCopy : option addr -> H cell (option addr) := deep_copy
    PackagePolicyStatus_DeepCopyInto.
Definition PackageRetentionPolicy_DeepCopyInto (x : PackageRetentionPolicy) : H cell
    PackageRetentionPolicy := hret x.
Definition PackageRetentionPolicy_DeepCopy : option addr -> H cell (option addr) := deep_copy
    PackageRetentionPolicy_DeepCopyInto.
Definition PreferredCluster_DeepCopyInto (x : PreferredCluster) : H cell PreferredCluster := hret x.
Definition PreferredCluster_DeepCopy : option addr -> H cell (option addr) := deep_copy
    PreferredCluster_DeepCopyInto.
Definition SecretRef_DeepCopyInto (x : SecretRef) : H cell SecretRef := hret x.
Definition SecretRef_DeepCopy : option addr -> H cell (option addr) := deep_copy
    SecretRef_DeepCopyInto.

(** ** Types with pointers *)

(** Two components of a struct. *)
Definition pairC {A VA B VB} (CA : Copyable cell A VA) (CB : Copyable cell B VB)
  : Copyable cell (A * B) (VA * VB) := pair_copyable.

Lemma pair_into {A VA B VB C} (CA : Copyable cell A VA) (CB : Copyable cell B VB) p
    (k : A * B -> H cell C) h :
  (t <- copy_into (Copyable := pairC CA CB) p ;; k t) h =
  (a <- copy_into p.1 ;; b <- copy_into p.2 ;; k (a, b)) h.
Proof.
  cbn. unfold copy_pair, hbind, hret. destruct (copy_into p.1 h) as [[a h1]|]; [|done].
  by destruct (copy_into p.2 h1) as [[b h2]|].
Qed.

Ltac tuple_tac := intros; repeat match goal with x : _ * _ |- _ => destruct x end; reflexivity.
Ltac into_tac := intros [] h; rewrite ?pair_into; reflexivity.

Definition PackageSelector_DeepCopyInto (x : fPackageSelector) : H cell fPackageSelector :=
  BackupInformation' <- copy_slice_flat (T := BackupInformation)
      (fPackageSelector_BackupInformation x) ;;
  hret (MkfPackageSelector (fPackageSelector_Name x) (fPackageSelector_PackagePath x)
      (fPackageSelector_PackageType x) (fPackageSelector_LiveStatePackage x) BackupInformation').
Definition PackageSelector_DeepCopy : option addr -> H cell (option addr) := deep_copy
    PackageSelector_DeepCopyInto.
Definition PackageSelector_copyable : Copyable cell fPackageSelector (PackageSelector).
Proof.
  refine (struct_copyable (CT := (pairC (flat_copyable cell (string * string * string * bool))
      (flat_slice_copyable (cell := cell) (T := BackupInformation))))
    (fun x => ((fPackageSelector_Name x, fPackageSelector_PackagePath x,
        fPackageSelector_PackageType x, fPackageSelector_LiveStatePackage x),
        fPackageSelector_BackupInformation x))
    (fun '((Name', PackagePath', PackageType', LiveStatePackage'), BackupInformation') =>
        MkfPackageSelector Name' PackagePath' PackageType' LiveStatePackage' BackupInformation')
    (fun '((Name', PackagePath', PackageType', LiveStatePackage'), BackupInformation') =>
        MkPackageSelector Name' PackagePath' PackageType' LiveStatePackage' BackupInformation')
        PackageSelector_DeepCopyInto _ _);
    [tuple_tac|into_tac].
Defined.

Definition TransitionedPackages_DeepCopyInto (x : fTransitionedPackages) : H cell
    fTransitionedPackages :=
  PackageSelectors' <- copy_slice (CF := PackageSelector_copyable) zero_fPackageSelector
      (fTransitionedPackages_PackageSelectors x) ;;
  LastTransitionTime' <- Time_DeepCopyInto (fTransitionedPackages_LastTransitionTime x) ;;
  hret (MkfTransitionedPackages PackageSelectors' LastTransitionTime'
      (fTransitionedPackages_PackageTransitionCondition x)
      (fTransitionedPackages_PackageTransitionMessage x)).
Definition TransitionedPackages_DeepCopy : option addr -> H cell (option addr) := deep_copy
    TransitionedPackages_DeepCopyInto.
Definition TransitionedPackages_copyable : Copyable cell fTransitionedPackages
    (TransitionedPackages).
Proof.
  refine (struct_copyable (CT := (pairC (pairC (flat_copyable cell (string * string))
      (slice_copyable (CF := PackageSelector_copyable) zero_fPackageSelector)) (flat_copyable cell
      Time)))
    (fun x => (((fTransitionedPackages_PackageTransitionCondition x,
        fTransitionedPackages_PackageTransitionMessage x), fTransitionedPackages_PackageSelectors
        x), fTransitionedPackages_LastTransitionTime x))
    (fun '(((PackageTransitionCondition', PackageTransitionMessage'), PackageSelectors'),
        LastTransitionTime') => MkfTransitionedPackages PackageSelectors' LastTransitionTime'
        PackageTransitionCondition' PackageTransitionMessage')
    (fun '(((PackageTransitionCondition', PackageTransitionMessage'), PackageSelectors'),
        LastTransitionTime') => MkTransitionedPackages PackageSelectors' LastTransitionTime'
        PackageTransitionCondition' PackageTransitionMessage') TransitionedPackages_DeepCopyInto _
        _);
    [tuple_tac|into_tac].
Defined.

Definition TargetClusterPolicy_DeepCopyInto (x : fTargetClusterPolicy) : H cell
    fTargetClusterPolicy :=
  PreferClusters' <- copy_slice_flat (T := PreferredCluster) (fTargetClusterPolicy_PreferClusters
      x) ;;
  AvoidClusters' <- copy_slice_flat (T := PreferredCluster) (fTargetClusterPolicy_AvoidClusters x)
      ;;
  hret (MkfTargetClusterPolicy PreferClusters' AvoidClusters').
Definition TargetClusterPolicy_DeepCopy : option addr -> H cell (option addr) := deep_copy
    TargetClusterPolicy_DeepCopyInto.
Definition TargetClusterPolicy_copyable : Copyable cell fTargetClusterPolicy (TargetClusterPolicy).
Proof.
  refine (struct_copyable (CT := (pairC (flat_slice_copyable (cell := cell) (T :=
      PreferredCluster)) (flat_slice_copyable (cell := cell) (T := PreferredCluster))))
    (fun x => (fTargetClusterPolicy_PreferClusters x, fTargetClusterPolicy_AvoidClusters x))
    (fun '(PreferClusters', AvoidClusters') => MkfTargetClusterPolicy PreferClusters'
        AvoidClusters')
    (fun '(PreferClusters', AvoidClusters') => MkTargetClusterPolicy PreferClusters'
        AvoidClusters') TargetClusterPolicy_DeepCopyInto _ _);
    [tuple_tac|into_tac].
Defined.

Definition ClusterPolicySpec_DeepCopyInto (x : fClusterPolicySpec) : H cell fClusterPolicySpec :=
  PackageSelectors' <- copy_slice (CF := PackageSelector_copyable) zero_fPackageSelector
      (fClusterPolicySpec_PackageSelectors x) ;;
  TargetClusterPolicy' <- TargetClusterPolicy_DeepCopyInto (fClusterPolicySpec_TargetClusterPolicy
      x) ;;
  hret (MkfClusterPolicySpec (fClusterPolicySpec_ClusterSelector x) PackageSelectors'
      TargetClusterPolicy').
Definition ClusterPolicySpec_DeepCopy : option addr -> H cell (option addr) := deep_copy
    ClusterPolicySpec_DeepCopyInto.
Definition ClusterPolicySpec_copyable : Copyable cell fClusterPolicySpec (ClusterPolicySpec).
Proof.
  refine (struct_copyable (CT := (pairC (pairC (flat_copyable cell (ClusterSelector))
      (slice_copyable (CF := PackageSelector_copyable) zero_fPackageSelector))
      (TargetClusterPolicy_copyable)))
    (fun x => ((fClusterPolicySpec_ClusterSelector x, fClusterPolicySpec_PackageSelectors x),
        fClusterPolicySpec_TargetClusterPolicy x))
    (fun '((ClusterSelector', PackageSelectors'), TargetClusterPolicy') => MkfClusterPolicySpec
        ClusterSelector' PackageSelectors' TargetClusterPolicy')
    (fun '((ClusterSelector', PackageSelectors'), TargetClusterPolicy') => MkClusterPolicySpec
        ClusterSelector' PackageSelectors' TargetClusterPolicy') ClusterPolicySpec_DeepCopyInto _
        _);
    [tuple_tac|into_tac].
Defined.

Definition ClusterPolicyStatus_DeepCopyInto (x : fClusterPolicyStatus) : H cell
    fClusterPolicyStatus :=
  TransitionedPackages' <- copy_slice (CF := TransitionedPackages_copyable)
      zero_fTransitionedPackages (fClusterPolicyStatus_TransitionedPackages x) ;;
  hret (MkfClusterPolicyStatus TransitionedPackages').
Definition ClusterPolicyStatus_DeepCopy : option addr -> H cell (option addr) := deep_copy
    ClusterPolicyStatus_DeepCopyInto.
Definition ClusterPolicyStatus_copyable : Copyable cell fClusterPolicyStatus (ClusterPolicyStatus).
Proof.
  refine (struct_copyable (CT := (slice_copyable (CF := TransitionedPackages_copyable)
      zero_fTransitionedPackages))
    (fun x => fClusterPolicyStatus_TransitionedPackages x)
    (fun TransitionedPackages' => MkfClusterPolicyStatus TransitionedPackages')
    (fun TransitionedPackages' => MkClusterPolicyStatus TransitionedPackages')
        ClusterPolicyStatus_DeepCopyInto _ _);
    [tuple_tac|into_tac].
Defined.

Definition ClusterPolicy_DeepCopyInto (x : fClusterPolicy) : H cell fClusterPolicy :=
  ObjectMeta' <- copy_into (Copyable := ObjectMeta_copyable) (fClusterPolicy_ObjectMeta x) ;;
  Spec' <- ClusterPolicySpec_DeepCopyInto (fClusterPolicy_Spec x) ;;
  Status' <- ClusterPolicyStatus_DeepCopyInto (fClusterPolicy_Status x) ;;
  hret (MkfClusterPolicy (fClusterPolicy_TypeMeta x) ObjectMeta' Spec' Status').
Definition ClusterPolicy_DeepCopy : option addr -> H cell (option addr) := deep_copy
    ClusterPolicy_DeepCopyInto.
Definition ClusterPolicy_copyable : Copyable cell fClusterPolicy (TypeMeta * ClusterPolicy).
Proof.
  refine (struct_copyable (CT := (pairC (pairC (pairC (flat_copyable cell (TypeMeta))
      (ObjectMeta_copyable)) (ClusterPolicySpec_copyable)) (ClusterPolicyStatus_copyable)))
    (fun x => (((fClusterPolicy_TypeMeta x, fClusterPolicy_ObjectMeta x), fClusterPolicy_Spec x),
        fClusterPolicy_Status x))
    (fun '(((TypeMeta', ObjectMeta'), Spec'), Status') => MkfClusterPolicy TypeMeta' ObjectMeta'
        Spec' Status')
    (fun '(((TypeMeta', ObjectMeta'), Spec'), Status') => (fun tm m s st => (tm, MkClusterPolicy m
        s st)) TypeMeta' ObjectMeta' Spec' Status') ClusterPolicy_DeepCopyInto _ _);
    [tuple_tac|into_tac].
Defined.

Definition ClusterPolicyList_DeepCopyInto (x : fClusterPolicyList) : H cell fClusterPolicyList :=
  ListMeta' <- copy_into (Copyable := ListMeta_copyable) (fClusterPolicyList_ListMeta x) ;;
  Items' <- copy_slice (CF := ClusterPolicy_copyable) zero_fClusterPolicy (fClusterPolicyList_Items
      x) ;;
  hret (MkfClusterPolicyList (fClusterPolicyList_TypeMeta x) ListMeta' Items').
Definition ClusterPolicyList_DeepCopy : option addr -> H cell (option addr) := deep_copy
    ClusterPolicyList_DeepCopyInto.
Definition ClusterPolicyList_copyable : Copyable cell fClusterPolicyList (TypeMeta * VListMeta *
    list (TypeMeta * ClusterPolicy)).
Proof.
  refine (struct_copyable (CT := (pairC (pairC (flat_copyable cell (TypeMeta)) (ListMeta_copyable))
      (slice_copyable (CF := ClusterPolicy_copyable) zero_fClusterPolicy)))
    (fun x => ((fClusterPolicyList_TypeMeta x, fClusterPolicyList_ListMeta x),
        fClusterPolicyList_Items x))
    (fun '((TypeMeta', ListMeta'), Items') => MkfClusterPolicyList TypeMeta' ListMeta' Items')
    (fun '((TypeMeta', ListMeta'), Items') => (fun tm m l => (tm, m, l)) TypeMeta' ListMeta'
        Items') ClusterPolicyList_DeepCopyInto _ _);
    [tuple_tac|into_tac].
Defined.

Definition ResourceRef_DeepCopyInto (x : fResourceRef) : H cell fResourceRef :=
  Annotations' <- copy_map (fResourceRef_Annotations x) ;;
  hret (MkfResourceRef (fResourceRef_APIVersion x) (fResourceRef_Kind x) (fResourceRef_Namespace x)
      (fResourceRef_Name x) Annotations').
Definition ResourceRef_DeepCopy : option addr -> H cell (option addr) := deep_copy
    ResourceRef_DeepCopyInto.
Definition ResourceRef_copyable : Copyable cell fResourceRef (ResourceRef).
Proof.
  refine (struct_copyable (CT := (pairC (flat_copyable cell (string * string * string * string))
      (map_copyable (cell := cell))))
    (fun x => ((fResourceRef_APIVersion x, fResourceRef_Kind x, fResourceRef_Namespace x,
        fResourceRef_Name x), fResourceRef_Annotations x))
    (fun '((APIVersion', Kind', Namespace', Name'), Annotations') => MkfResourceRef APIVersion'
        Kind' Namespace' Name' Annotations')
    (fun '((APIVersion', Kind', Namespace', Name'), Annotations') => MkResourceRef APIVersion'
        Kind' Namespace' Name' Annotations') ResourceRef_DeepCopyInto _ _);
    [tuple_tac|into_tac].
Defined.

Definition ContainerRef_DeepCopyInto (x : fContainerRef) : H cell fContainerRef :=
  Containers' <- copy_slice (CF := CoreContainer_copyable) zero_FContainer
      (fContainerRef_Containers x) ;;
  hret (MkfContainerRef Containers').
Definition ContainerRef_DeepCopy : option addr -> H cell (option addr) := deep_copy
    ContainerRef_DeepCopyInto.
Definition ContainerRef_copyable : Copyable cell fContainerRef (ContainerRef).
Proof.
  refine (struct_copyable (CT := (slice_copyable (CF := CoreContainer_copyable) zero_FContainer))
    (fun x => fContainerRef_Containers x)
    (fun Containers' => MkfContainerRef Containers')
    (fun Containers' => MkContainerRef Containers') ContainerRef_DeepCopyInto _ _);
    [tuple_tac|into_tac].
Defined.

Definition PodRef_DeepCopyInto (x : fPodRef) : H cell fPodRef :=
  ContainerRef' <- ContainerRef_DeepCopyInto (fPodRef_ContainerRef x) ;;
  hret (MkfPodRef (fPodRef_Namespace x) (fPodRef_Name x) ContainerRef').
Definition PodRef_DeepCopy : option addr -> H cell (option addr) := deep_copy PodRef_DeepCopyInto.
Definition PodRef_copyable : Copyable cell fPodRef (PodRef).
Proof.
  refine (struct_copyable (CT := (pairC (flat_copyable cell (string * string))
      (ContainerRef_copyable)))
    (fun x => ((fPodRef_Namespace x, fPodRef_Name x), fPodRef_ContainerRef x))
    (fun '((Namespace', Name'), ContainerRef') => MkfPodRef Namespace' Name' ContainerRef')
    (fun '((Namespace', Name'), ContainerRef') => MkPodRef Namespace' Name' ContainerRef')
        PodRef_DeepCopyInto _ _);
    [tuple_tac|into_tac].
Defined.

Definition Registry_DeepCopyInto (x : fRegistry) : H cell fRegistry :=
  SecretRef' <- copy_ptr (T := SecretRef) (fRegistry_SecretRef x) ;;
  hret (MkfRegistry (fRegistry_URL x) (fRegistry_Repository x) SecretRef').
Definition Registry_DeepCopy : option addr -> H cell (option addr) := deep_copy
    Registry_DeepCopyInto.
Definition Registry_copyable : Copyable cell fRegistry (Registry).
Proof.
  refine (struct_copyable (CT := (pairC (flat_copyable cell (string * string)) (ptr_copyable cell
      SecretRef)))
    (fun x => ((fRegistry_URL x, fRegistry_Repository x), fRegistry_SecretRef x))
    (fun '((URL', Repository'), SecretRef') => MkfRegistry URL' Repository' SecretRef')
    (fun '((URL', Repository'), SecretRef') => MkRegistry URL' Repository' SecretRef')
        Registry_DeepCopyInto _ _);
    [tuple_tac|into_tac].
Defined.

Definition CheckpointSpec_DeepCopyInto (x : fCheckpointSpec) : H cell fCheckpointSpec :=
  ClusterRef' <- copy_ptr (T := ClusterRef) (fCheckpointSpec_ClusterRef x) ;;
  TargetClusterRef' <- copy_ptr (T := ClusterRef) (fCheckpointSpec_TargetClusterRef x) ;;
  PodRef' <- PodRef_DeepCopyInto (fCheckpointSpec_PodRef x) ;;
  ResourceRef' <- ResourceRef_DeepCopyInto (fCheckpointSpec_ResourceRef x) ;;
  Registry' <- Registry_DeepCopyInto (fCheckpointSpec_Registry x) ;;
  Containers' <- copy_slice_flat (T := Container) (fCheckpointSpec_Containers x) ;;
  hret (MkfCheckpointSpec (fCheckpointSpec_Schedule x) ClusterRef' TargetClusterRef' PodRef'
      ResourceRef' Registry' Containers').
Definition CheckpointSpec_DeepCopy : option addr -> H cell (option addr) := deep_copy
    CheckpointSpec_DeepCopyInto.
Definition CheckpointSpec_copyable : Copyable cell fCheckpointSpec (CheckpointSpec).
Proof.
  refine (struct_copyable (CT := (pairC (pairC (pairC (pairC (pairC (pairC (flat_copyable cell
      (string)) (ptr_copyable cell ClusterRef)) (ptr_copyable cell ClusterRef)) (PodRef_copyable))
      (ResourceRef_copyable)) (Registry_copyable)) (flat_slice_copyable (cell := cell) (T :=
      Container))))
    (fun x => ((((((fCheckpointSpec_Schedule x, fCheckpointSpec_ClusterRef x),
        fCheckpointSpec_TargetClusterRef x), fCheckpointSpec_PodRef x), fCheckpointSpec_ResourceRef
        x), fCheckpointSpec_Registry x), fCheckpointSpec_Containers x))
    (fun '((((((Schedule', ClusterRef'), TargetClusterRef'), PodRef'), ResourceRef'), Registry'),
        Containers') => MkfCheckpointSpec Schedule' ClusterRef' TargetClusterRef' PodRef'
        ResourceRef' Registry' Containers')
    (fun '((((((Schedule', ClusterRef'), TargetClusterRef'), PodRef'), ResourceRef'), Registry'),
        Containers') => MkCheckpointSpec Schedule' ClusterRef' TargetClusterRef' PodRef'
        ResourceRef' Registry' Containers') CheckpointSpec_DeepCopyInto _ _);
    [tuple_tac|into_tac].
Defined.

Definition CheckpointStatus_DeepCopyInto (x : fCheckpointStatus) : H cell fCheckpointStatus :=
  LastCheckpointTime' <- copy_ptr (T := Time) (fCheckpointStatus_LastCheckpointTime x) ;;
  Conditions' <- copy_slice (CF := Condition_copyable) zero_FCondition
      (fCheckpointStatus_Conditions x) ;;
  hret (MkfCheckpointStatus (fCheckpointStatus_Phase x) LastCheckpointTime'
      (fCheckpointStatus_Message x) (fCheckpointStatus_ObservedGeneration x)
      (fCheckpointStatus_LastCheckpointImage x) (fCheckpointStatus_OriginalImage x) Conditions').
Definition CheckpointStatus_DeepCopy : option addr -> H cell (option addr) := deep_copy
    CheckpointStatus_DeepCopyInto.
Definition CheckpointStatus_copyable : Copyable cell fCheckpointStatus (CheckpointStatus).
Proof.
  refine (struct_copyable (CT := (pairC (pairC (flat_copyable cell (string * string * Z * string *
      string)) (ptr_copyable cell Time)) (slice_copyable (CF := Condition_copyable)
      zero_FCondition)))
    (fun x => (((fCheckpointStatus_Phase x, fCheckpointStatus_Message x,
        fCheckpointStatus_ObservedGeneration x, fCheckpointStatus_LastCheckpointImage x,
        fCheckpointStatus_OriginalImage x), fCheckpointStatus_LastCheckpointTime x),
        fCheckpointStatus_Conditions x))
    (fun '(((Phase', Message', ObservedGeneration', LastCheckpointImage', OriginalImage'),
        LastCheckpointTime'), Conditions') => MkfCheckpointStatus Phase' LastCheckpointTime'
        Message' ObservedGeneration' LastCheckpointImage' OriginalImage' Conditions')
    (fun '(((Phase', Message', ObservedGeneration', LastCheckpointImage', OriginalImage'),
        LastCheckpointTime'), Conditions') => MkCheckpointStatus Phase' LastCheckpointTime'
        Message' ObservedGeneration' LastCheckpointImage' OriginalImage' Conditions')
        CheckpointStatus_DeepCopyInto _ _);
    [tuple_tac|into_tac].
Defined.

Definition Checkpoint_DeepCopyInto (x : fCheckpoint) : H cell fCheckpoint :=
  ObjectMeta' <- copy_into (Copyable := ObjectMeta_copyable) (fCheckpoint_ObjectMeta x) ;;
  Spec' <- CheckpointSpec_DeepCopyInto (fCheckpoint_Spec x) ;;
  Status' <- CheckpointStatus_DeepCopyInto (fCheckpoint_Status x) ;;
  hret (MkfCheckpoint (fCheckpoint_TypeMeta x) ObjectMeta' Spec' Status').
Definition Checkpoint_DeepCopy : option addr -> H cell (option addr) := deep_copy
    Checkpoint_DeepCopyInto.
Definition Checkpoint_copyable : Copyable cell fCheckpoint (TypeMeta * Checkpoint).
Proof.
  refine (struct_copyable (CT := (pairC (pairC (pairC (flat_copyable cell (TypeMeta))
      (ObjectMeta_copyable)) (CheckpointSpec_copyable)) (CheckpointStatus_copyable)))
    (fun x => (((fCheckpoint_TypeMeta x, fCheckpoint_ObjectMeta x), fCheckpoint_Spec x),
        fCheckpoint_Status x))
    (fun '(((TypeMeta', ObjectMeta'), Spec'), Status') => MkfCheckpoint TypeMeta' ObjectMeta' Spec'
        Status')
    (fun '(((TypeMeta', ObjectMeta'), Spec'), Status') => (fun tm m s st => (tm, MkCheckpoint m s
        st)) TypeMeta' ObjectMeta' Spec' Status') Checkpoint_DeepCopyInto _ _);
    [tuple_tac|into_tac].
Defined.

Definition CheckpointList_DeepCopyInto (x : fCheckpointList) : H cell fCheckpointList :=
  ListMeta' <- copy_into (Copyable := ListMeta_copyable) (fCheckpointList_ListMeta x) ;;
  Items' <- copy_slice (CF := Checkpoint_copyable) zero_fCheckpoint (fCheckpointList_Items x) ;;
  hret (MkfCheckpointList (fCheckpointList_TypeMeta x) ListMeta' Items').
Definition CheckpointList_DeepCopy : option addr -> H cell (option addr) := deep_copy
    CheckpointList_DeepCopyInto.
Definition CheckpointList_copyable : Copyable cell fCheckpointList (TypeMeta * VListMeta * list
    (TypeMeta * Checkpoint)).
Proof.
  refine (struct_copyable (CT := (pairC (pairC (flat_copyable cell (TypeMeta)) (ListMeta_copyable))
      (slice_copyable (CF := Checkpoint_copyable) zero_fCheckpoint)))
    (fun x => ((fCheckpointList_TypeMeta x, fCheckpointList_ListMeta x), fCheckpointList_Items x))
    (fun '((TypeMeta', ListMeta'), Items') => MkfCheckpointList TypeMeta' ListMeta' Items')
    (fun '((TypeMeta', ListMeta'), Items') => (fun tm m l => (tm, m, l)) TypeMeta' ListMeta'
        Items') CheckpointList_DeepCopyInto _ _);
    [tuple_tac|into_tac].
Defined.

Definition Containers_DeepCopyInto (x : fContainers) : H cell fContainers :=
  Container' <- copy_into (Copyable := CoreContainer_copyable) (fContainers_Container x) ;;
  hret (MkfContainers Container').
Definition Containers_DeepCopy : option addr -> H cell (option addr) := deep_copy
    Containers_DeepCopyInto.
Definition Containers_copyable : Copyable cell fContainers (CoreContainer).
Proof.
  refine (struct_copyable (CT := (CoreContainer_copyable))
    (fun x => fContainers_Container x)
    (fun Container' => MkfContainers Container')
    (fun Container' => (fun c => c) Container') Containers_DeepCopyInto _ _);
    [tuple_tac|into_tac].
Defined.

Definition NodeHealthStatus_DeepCopyInto (x : fNodeHealthStatus) : H cell fNodeHealthStatus :=
  Conditions' <- copy_slice (CF := Condition_copyable) zero_FCondition
      (fNodeHealthStatus_Conditions x) ;;
  LastSeen' <- Time_DeepCopyInto (fNodeHealthStatus_LastSeen x) ;;
  hret (MkfNodeHealthStatus Conditions' (fNodeHealthStatus_IP x) (fNodeHealthStatus_OS x)
      (fNodeHealthStatus_Arch x) (fNodeHealthStatus_CPUs x) (fNodeHealthStatus_CPUUsage x)
      (fNodeHealthStatus_MemTotal x) (fNodeHealthStatus_MemUsed x) LastSeen'
      (fNodeHealthStatus_Condition x) (fNodeHealthStatus_ClusterName x)
      (fNodeHealthStatus_ClusterNS x) (fNodeHealthStatus_Machine x) (fNodeHealthStatus_OwnerKind x)
      (fNodeHealthStatus_OwnerName x) (fNodeHealthStatus_ProvidedIP x) (fNodeHealthStatus_CRISocket
      x)).
Definition NodeHealthStatus_DeepCopy : option addr -> H cell (option addr) := deep_copy
    NodeHealthStatus_DeepCopyInto.
Definition NodeHealthStatus_copyable : Copyable cell fNodeHealthStatus (NodeHealthStatus).
Proof.
  refine (struct_copyable (CT := (pairC (pairC (flat_copyable cell (string * string * string * Z *
      string * Z * Z * string * string * string * string * string * string * string * string))
      (slice_copyable (CF := Condition_copyable) zero_FCondition)) (flat_copyable cell Time)))
    (fun x => (((fNodeHealthStatus_IP x, fNodeHealthStatus_OS x, fNodeHealthStatus_Arch x,
        fNodeHealthStatus_CPUs x, fNodeHealthStatus_CPUUsage x, fNodeHealthStatus_MemTotal x,
        fNodeHealthStatus_MemUsed x, fNodeHealthStatus_Condition x, fNodeHealthStatus_ClusterName
        x, fNodeHealthStatus_ClusterNS x, fNodeHealthStatus_Machine x, fNodeHealthStatus_OwnerKind
        x, fNodeHealthStatus_OwnerName x, fNodeHealthStatus_ProvidedIP x,
        fNodeHealthStatus_CRISocket x), fNodeHealthStatus_Conditions x), fNodeHealthStatus_LastSeen
        x))
    (fun '(((IP', OS', Arch', CPUs', CPUUsage', MemTotal', MemUsed', Condition', ClusterName',
        ClusterNS', Machine', OwnerKind', OwnerName', ProvidedIP', CRISocket'), Conditions'),
        LastSeen') => MkfNodeHealthStatus Conditions' IP' OS' Arch' CPUs' CPUUsage' MemTotal'
        MemUsed' LastSeen' Condition' ClusterName' ClusterNS' Machine' OwnerKind' OwnerName'
        ProvidedIP' CRISocket')
    (fun '(((IP', OS', Arch', CPUs', CPUUsage', MemTotal', MemUsed', Condition', ClusterName',
        ClusterNS', Machine', OwnerKind', OwnerName', ProvidedIP', CRISocket'), Conditions'),
        LastSeen') => MkNodeHealthStatus Conditions' IP' OS' Arch' CPUs' CPUUsage' MemTotal'
        MemUsed' LastSeen' Condition' ClusterName' ClusterNS' Machine' OwnerKind' OwnerName'
        ProvidedIP' CRISocket') NodeHealthStatus_DeepCopyInto _ _);
    [tuple_tac|into_tac].
Defined.

Definition NodeHealth_DeepCopyInto (x : fNodeHealth) : H cell fNodeHealth :=
  ObjectMeta' <- copy_into (Copyable := ObjectMeta_copyable) (fNodeHealth_ObjectMeta x) ;;
  Status' <- NodeHealthStatus_DeepCopyInto (fNodeHealth_Status x) ;;
  hret (MkfNodeHealth (fNodeHealth_TypeMeta x) ObjectMeta' (fNodeHealth_Spec x) Status').
Definition NodeHealth_DeepCopy : option addr -> H cell (option addr) := deep_copy
    NodeHealth_DeepCopyInto.
Definition NodeHealth_copyable : Copyable cell fNodeHealth (NodeHealth).
Proof.
  refine (struct_copyable (CT := (pairC (pairC (flat_copyable cell (TypeMeta * NodeHealthSpec))
      (ObjectMeta_copyable)) (NodeHealthStatus_copyable)))
    (fun x => (((fNodeHealth_TypeMeta x, fNodeHealth_Spec x), fNodeHealth_ObjectMeta x),
        fNodeHealth_Status x))
    (fun '(((TypeMeta', Spec'), ObjectMeta'), Status') => MkfNodeHealth TypeMeta' ObjectMeta' Spec'
        Status')
    (fun '(((TypeMeta', Spec'), ObjectMeta'), Status') => (fun tm m s st => MkNodeHealth
        (tm_APIVersion tm) (tm_Kind tm) m s st) TypeMeta' ObjectMeta' Spec' Status')
        NodeHealth_DeepCopyInto _ _);
    [tuple_tac|into_tac].
Defined.

Definition NodeHealthList_DeepCopyInto (x : fNodeHealthList) : H cell fNodeHealthList :=
  ListMeta' <- copy_into (Copyable := ListMeta_copyable) (fNodeHealthList_ListMeta x) ;;
  Items' <- copy_slice (CF := NodeHealth_copyable) zero_fNodeHealth (fNodeHealthList_Items x) ;;
  hret (MkfNodeHealthList (fNodeHealthList_TypeMeta x) ListMeta' Items').
Definition NodeHealthList_DeepCopy : option addr -> H cell (option addr) := deep_copy
    NodeHealthList_DeepCopyInto.
Definition NodeHealthList_copyable : Copyable cell fNodeHealthList (TypeMeta * VListMeta * list
    NodeHealth).
Proof.
  refine (struct_copyable (CT := (pairC (pairC (flat_copyable cell (TypeMeta)) (ListMeta_copyable))
      (slice_copyable (CF := NodeHealth_copyable) zero_fNodeHealth)))
    (fun x => ((fNodeHealthList_TypeMeta x, fNodeHealthList_ListMeta x), fNodeHealthList_Items x))
    (fun '((TypeMeta', ListMeta'), Items') => MkfNodeHealthList TypeMeta' ListMeta' Items')
    (fun '((TypeMeta', ListMeta'), Items') => (fun tm m l => (tm, m, l)) TypeMeta' ListMeta'
        Items') NodeHealthList_DeepCopyInto _ _);
    [tuple_tac|into_tac].
Defined.

Definition PackagePolicy_DeepCopyInto (x : fPackagePolicy) : H cell fPackagePolicy :=
  ObjectMeta' <- copy_into (Copyable := ObjectMeta_copyable) (fPackagePolicy_ObjectMeta x) ;;
  hret (MkfPackagePolicy (fPackagePolicy_TypeMeta x) ObjectMeta' (fPackagePolicy_Spec x)
      (fPackagePolicy_Status x)).
Definition PackagePolicy_DeepCopy : option addr -> H cell (option addr) := deep_copy
    PackagePolicy_DeepCopyInto.
Definition PackagePolicy_copyable : Copyable cell fPackagePolicy (TypeMeta * ObjectMeta *
    PackagePolicySpec * PackagePolicyStatus).
Proof.
  refine (struct_copyable (CT := (pairC (flat_copyable cell (TypeMeta * PackagePolicySpec *
      PackagePolicyStatus)) (ObjectMeta_copyable)))
    (fun x => ((fPackagePolicy_TypeMeta x, fPackagePolicy_Spec x, fPackagePolicy_Status x),
        fPackagePolicy_ObjectMeta x))
    (fun '((TypeMeta', Spec', Status'), ObjectMeta') => MkfPackagePolicy TypeMeta' ObjectMeta'
        Spec' Status')
    (fun '((TypeMeta', Spec', Status'), ObjectMeta') => (fun tm m s st => (tm, m, s, st)) TypeMeta'
        ObjectMeta' Spec' Status') PackagePolicy_DeepCopyInto _ _);
    [tuple_tac|into_tac].
Defined.

Definition PackagePolicyList_DeepCopyInto (x : fPackagePolicyList) : H cell fPackagePolicyList :=
  ListMeta' <- copy_into (Copyable := ListMeta_copyable) (fPackagePolicyList_ListMeta x) ;;
  Items' <- copy_slice (CF := PackagePolicy_copyable) zero_fPackagePolicy (fPackagePolicyList_Items
      x) ;;
  hret (MkfPackagePolicyList (fPackagePolicyList_TypeMeta x) ListMeta' Items').
Definition PackagePolicyList_DeepCopy : option addr -> H cell (option addr) := deep_copy
    PackagePolicyList_DeepCopyInto.
Definition PackagePolicyList_copyable : Copyable cell fPackagePolicyList (TypeMeta * VListMeta *
    list (TypeMeta * ObjectMeta * PackagePolicySpec * PackagePolicyStatus)).
Proof.
  refine (struct_copyable (CT := (pairC (pairC (flat_copyable cell (TypeMeta)) (ListMeta_copyable))
      (slice_copyable (CF := PackagePolicy_copyable) zero_fPackagePolicy)))
    (fun x => ((fPackagePolicyList_TypeMeta x, fPackagePolicyList_ListMeta x),
        fPackagePolicyList_Items x))
    (fun '((TypeMeta', ListMeta'), Items') => MkfPackagePolicyList TypeMeta' ListMeta' Items')
    (fun '((TypeMeta', ListMeta'), Items') => (fun tm m l => (tm, m, l)) TypeMeta' ListMeta'
        Items') PackagePolicyList_DeepCopyInto _ _);
    [tuple_tac|into_tac].
Defined.

Definition Checkpoint_DeepCopyObject (p : option addr) : H cell (option addr) :=
  c <- Checkpoint_DeepCopy p ;;
  match c with Some c => hret (Some c) | None => hret None end.
Definition CheckpointList_DeepCopyObject (p : option addr) : H cell (option addr) :=
  c <- CheckpointList_DeepCopy p ;;
  match c with Some c => hret (Some c) | None => hret None end.
Definition ClusterPolicy_DeepCopyObject (p : option addr) : H cell (option addr) :=
  c <- ClusterPolicy_DeepCopy p ;;
  match c with Some c => hret (Some c) | None => hret None end.
Definition ClusterPolicyList_DeepCopyObject (p : option addr) : H cell (option addr) :=
  c <- ClusterPolicyList_DeepCopy p ;;
  match c with Some c => hret (Some c) | None => hret None end.
Definition NodeHealth_DeepCopyObject (p : option addr) : H cell (option addr) :=
  c <- NodeHealth_DeepCopy p ;;
  match c with Some c => hret (Some c) | None => hret None end.
Definition NodeHealthList_DeepCopyObject (p : option addr) : H cell (option addr) :=
  c <- NodeHealthList_DeepCopy p ;;
  match c with Some c => hret (Some c) | None => hret None end.
Definition PackagePolicy_DeepCopyObject (p : option addr) : H cell (option addr) :=
  c <- PackagePolicy_DeepCopy p ;;
  match c with Some c => hret (Some c) | None => hret None end.
Definition PackagePolicyList_DeepCopyObject (p : option addr) : H cell (option addr) :=
  c <- PackagePolicyList_DeepCopy p ;;
  match c with Some c => hret (Some c) | None => hret None end.

(** ** Properties *)

(** A copy of a pointer to a struct, by the method of that type. *)
Abbreviation deep C copy := (copies_deeply (deep_ptr_copyable (CF := C)) copy).

Lemma DeepCopyObject_into {F V} (C : Copyable cell F V) `{Storable cell F} p h :
  (c <- deep_copy copy_into p ;;
   match c with Some c => hret (Some c) | None => hret None end) h = deep_copy copy_into p h.
Proof. unfold hbind, hret. by destruct (deep_copy copy_into p h) as [[[a|] h']|]. Qed.

(** C15: [DeepCopyObject] of every kind of the API. The copy of an object stands for
    the same value; it occupies memory that was not in use, so that it shares no
    cell with the original, at any depth; hence writes through the copy leave the
    original as it was, and writes through the original leave the copy as it was.
    It fails on no well-formed object, the nil pointer included. *)
Theorem DeepCopyObject_separates :
  deep Checkpoint_copyable Checkpoint_DeepCopyObject /\
  deep CheckpointList_copyable CheckpointList_DeepCopyObject /\
  deep ClusterPolicy_copyable ClusterPolicy_DeepCopyObject /\
  deep ClusterPolicyList_copyable ClusterPolicyList_DeepCopyObject /\
  deep NodeHealth_copyable NodeHealth_DeepCopyObject /\
  deep NodeHealthList_copyable NodeHealthList_DeepCopyObject /\
  deep PackagePolicy_copyable PackagePolicy_DeepCopyObject /\
  deep PackagePolicyList_copyable PackagePolicyList_DeepCopyObject.
Proof.
  repeat split; apply copyable_copies; intros p h.
  - apply (DeepCopyObject_into Checkpoint_copyable).
  - apply (DeepCopyObject_into CheckpointList_copyable).
  - apply (DeepCopyObject_into ClusterPolicy_copyable).
  - apply (DeepCopyObject_into ClusterPolicyList_copyable).
  - apply (DeepCopyObject_into NodeHealth_copyable).
  - apply (DeepCopyObject_into NodeHealthList_copyable).
  - apply (DeepCopyObject_into PackagePolicy_copyable).
  - apply (DeepCopyObject_into PackagePolicyList_copyable).
Qed.

End DeepCopy.

(** ** An example: a policy with one record *)

Module Example.

Abbreviation ex_cell := (@cell ObjectMeta unit CoreContainer Condition Empty_set).
Abbreviation ex_copyable T := (flat_copyable ex_cell T).

Definition policy : fClusterPolicy :=
  MkfClusterPolicy (MkTypeMeta "ClusterPolicy" "v1") (named "default" "p")
    (MkfClusterPolicySpec (MkClusterSelector "edge" "" "git" "") None
       (MkfTargetClusterPolicy None None))
    (MkfClusterPolicyStatus (Some (2%positive, 1%nat))).

Definition record (msg : string) : fTransitionedPackages :=
  MkfTransitionedPackages None 7%Z PackageTransitionConditionCompleted msg.

(** A record array with room for one more element than the slice shows. *)
Definition memory : heap ex_cell :=
  {[ 1%positive := C_ClusterPolicy policy;
     2%positive := C_TransitionedPackages_array [record "first"; record "spare"] ]}.

(** The messages of the records of the policy behind a pointer. *)
Definition read (h : heap ex_cell) (p : option addr) : option (list string) :=
  '(v, _) ← denote (Copyable := deep_ptr_copyable
     (CF := ClusterPolicy_copyable (ObjectMeta_copyable := ex_copyable ObjectMeta))
     (SF := ClusterPolicy_storable (named "" ""))) h p;
  '(_, p) ← (v : option (TypeMeta * ClusterPolicy));
  Some (tp_PackageTransitionMessage <$> cpst_TransitionedPackages (cp_Status p)).

(** The copy reads the same; overwriting the record of the original changes the
    original only. *)
Example policy_copied :
  match ClusterPolicy_DeepCopyObject (named "" "") (ObjectMeta_copyable := ex_copyable ObjectMeta)
          (Some 1%positive) memory with
  | Some (q, h) =>
      let h' := <[2%positive := C_TransitionedPackages_array [record "changed"; record "spare"]]> h
          in
      read h q = Some ["first"] /\ read h' (Some 1%positive) = Some ["changed"] /\
      read h' q = Some ["first"]
  | None => False
  end.
Proof. vm_compute. repeat split. Qed.

End Example.
