(* ===== verification/Liveness.v ===== *)
(** * A silent node is recovered

    What the heartbeat server promises in the end: a node from which nothing is heard
    is handed to the recovery after a bounded number of ticks, whatever other
    requests arrive in between, unless a call on the way fails in one of the two
    ways that end the monitor. *)
From S2P Require Import Prelude Types Runtime Capi Pool Reconcile Monitors Heartbeat.
From Stdlib Require Import Lia.

Section Liveness.
Context {X : Externals} (mgmt : Client) (namespace : string) (startupTime : Time).





(** Every reading of the clock is past the warm-up. *)
Context (warm : forall w, (hb_warmupPeriod <= Sub (respond Now w).1 startupTime)%Z).




(** ** A run *)














End Liveness.

(** ** Properties *)





