(* ===== verification/Migration.v ===== *)
(** * Migrations

    Every run that can start a migration outside of Reconcile: the heartbeat server
    with its monitor, and the goroutines that watch the control plane and the pod
    network. The [Completed] records that they write are backed by a manifest. *)
From S2P Require Import Prelude Types Runtime Records Capi NodeHealthTransition Transition.
From S2P Require Import Reconcile Probes Monitors Heartbeat.

Section Migration.
Context {X : Externals} (mgmt : Client).

#[local] Hint Resolve backed_triggerMigration : go.

Lemma backed_recover p reason : traces backed (recover mgmt p reason).
Proof. unfold recover. traces_auto. Qed.

Lemma backed_upsert ns hb condition : traces backed (UpsertNodeHealth mgmt ns hb condition).
Proof. unfold UpsertNodeHealth. traces_auto. Qed.

Lemma backed_monitor_node ns now hb state : traces backed (monitor_node mgmt ns now hb state).
Proof.
  pose proof backed_upsert. unfold monitor_node, cluster_of_node, ReconcileClusterPoliciesForNode.
  traces_auto.
Qed.

Lemma backed_hb_step ns startupTime i sys : traces backed (hb_step mgmt ns startupTime i sys).
Proof.
  pose proof backed_upsert. pose proof backed_monitor_node.
  unfold hb_step, monitor_tick, RunHeartbeatServer, handle_heartbeat, handle_nodes, Update, All.
  traces_auto.
Qed.

Lemma backed_hb_run ns startupTime inputs sys :
  traces backed (hb_run mgmt ns startupTime inputs sys).
Proof.
  pose proof backed_hb_step. revert sys.
  induction inputs as [|i inputs IH]; intros sys; cbn [hb_run]; traces_auto.
Qed.

Lemma backed_monitor_loop {St} n interval (tick : St -> M St) st :
  (forall st, traces backed (tick st)) -> traces backed (monitor_loop n interval tick st).
Proof.
  intros H. revert st. induction n as [|n IH]; intros st; cbn [monitor_loop]; traces_auto.
Qed.

Lemma backed_FromName name ns : traces backed (GetCapiClusterFromName name ns mgmt).
Proof. apply backed_capi, emits_GetCapiClusterFromName. Qed.
Lemma backed_GetClusterClient r : traces backed (GetClusterClient r).
Proof. apply backed_capi, emits_GetClusterClient. Qed.
#[local] Hint Resolve backed_FromName backed_GetClusterClient backed_recover : go.

Lemma backed_cp_check cl : traces backed (controlplane.CheckControlPlaneStatus cl).
Proof. unfold controlplane.CheckControlPlaneStatus. traces_auto. Qed.

Lemma backed_cni_check cl cfg : traces backed (cnifault.CheckCNIStatus cl cfg).
Proof.
  assert (forall cfg pod targets, traces backed (cnifault.probe_targets cfg pod targets)).
  { intros cfg' pod. induction targets as [|t targets IH]; cbn [cnifault.probe_targets]; traces_auto. }
  unfold cnifault.CheckCNIStatus, cnifault.listNetTestPods, cnifault.listAllPods,
    cnifault.probe_from, cnifault.probePodNetwork.
  traces_auto.
Qed.

Lemma backed_cp_tick p startupTime st : traces backed (cp_tick mgmt p startupTime st).
Proof. pose proof backed_cp_check. unfold cp_tick. traces_auto. Qed.

Lemma backed_cni_tick p startupTime st : traces backed (cni_tick mgmt p startupTime st).
Proof. pose proof backed_cni_check. unfold cni_tick. traces_auto. Qed.

Lemma backed_prepare n name : traces backed (prepare_pods n mgmt name).
Proof.
  assert (traces backed (ensureNetTestPodsOnce mgmt name)).
  { unfold ensureNetTestPodsOnce. traces_auto. apply traces_forDo; [apply _|]. intros node.
    unfold ensure_net_test_pod. traces_auto. }
  induction n as [|n IH]; cbn [prepare_pods]; traces_auto.
Qed.

End Migration.

(** ** Properties *)

(** C2: The same holds for every migration that is not started by a reconciliation:
    whatever requests and ticks the heartbeat server gets, however long the monitors
    of the control plane and of the pod network run, and for every call of
    triggerMigrationNodeCP, each status update whose newest record is [Completed]
    comes after the commit of the recovery manifest of the recorded package to the
    [dr] repository. *)
Theorem triggerMigration_backed {X : Externals} mgmt s :
  (forall namespace inputs, backed (r_trace (StartServer mgmt namespace inputs s))) /\
  (forall rounds policy, backed (r_trace (cp_monitor rounds mgmt policy s))) /\
  (forall attempts rounds policy, backed (r_trace (cni_monitor attempts rounds mgmt policy s))) /\
  (forall clusterName migrationType,
     backed (r_trace (triggerMigrationNodeCP mgmt clusterName migrationType s))).
Proof.
  pose proof backed_hb_run. pose proof backed_cp_tick. pose proof backed_cni_tick.
  pose proof backed_prepare. pose proof @backed_monitor_loop.
  split_and!; intros; revert s.
  - change (traces backed (StartServer mgmt namespace inputs)). unfold StartServer. traces_auto.
  - change (traces backed (cp_monitor rounds mgmt policy)). unfold cp_monitor. traces_auto.
  - change (traces backed (cni_monitor attempts rounds mgmt policy)). unfold cni_monitor. traces_auto.
  - apply backed_triggerMigration.
Qed.
