(* ===== verification/NodeList.v ===== *)
(** * What the server knows of the nodes

    The store of the heartbeat server, against a reference that knows no map and no
    monitor: the last payload of each node in the list of the inputs. The
    [/nodes] endpoint answers exactly these. *)
From S2P Require Import Prelude Types Runtime Capi Pool Reconcile Monitors Heartbeat.

(** The server's clock replaces the time in the payload. *)
Definition without_time (hb : HeartbeatPayload) : HeartbeatPayload := received 0 hb.

Definition accepted_input (i : hb_input) : option HeartbeatPayload :=
  match i with Request rq => accepted rq | Tick => None end.

(** The reference: of each node its last accepted payload. *)
Fixpoint latest (inputs : list hb_input) : list HeartbeatPayload :=
  match inputs with
  | [] => []
  | i :: inputs' =>
      match accepted_input i with
      | Some hb =>
          if decide (hb_NodeName hb ∈ hb_NodeName <$> latest inputs') then latest inputs'
          else without_time hb :: latest inputs'
      | None => latest inputs'
      end
  end.

(** The names, as the map has them as keys. *)
Definition by_name (l : list HeartbeatPayload) : gmap string HeartbeatPayload :=
  list_to_map ((fun hb => (hb_NodeName hb, hb)) <$> l).

Lemma by_name_fst l : ((fun hb => (hb_NodeName hb, hb)) <$> l).*1 = hb_NodeName <$> l.
Proof. by rewrite <-list_fmap_compose. Qed.

Lemma latest_NoDup inputs : NoDup (hb_NodeName <$> latest inputs).
Proof.
  induction inputs as [|i inputs IH]; simpl; [constructor|].
  destruct (accepted_input i) as [hb|]; [|done]. case_decide; [done|]. by constructor.
Qed.

Lemma by_name_dom l n : n ∉ hb_NodeName <$> l -> by_name l !! n = None.
Proof. intros H. apply not_elem_of_list_to_map_1. by rewrite by_name_fst. Qed.

(** An accepted payload replaces the node's entry, unless a later one does. *)
Lemma by_name_insert hb inputs (m : gmap string HeartbeatPayload) :
  by_name (latest inputs) ∪ <[ hb_NodeName hb := without_time hb ]> m =
  by_name (if decide (hb_NodeName hb ∈ hb_NodeName <$> latest inputs) then latest inputs
           else without_time hb :: latest inputs) ∪ m.
Proof.
  case_decide as Hin.
  - apply map_eq. intros n. rewrite !lookup_union.
    destruct (decide (hb_NodeName hb = n)) as [<-|]; [|by rewrite lookup_insert_ne].
    destruct (by_name (latest inputs) !! hb_NodeName hb) eqn:E.
    + rewrite lookup_insert_eq. by destruct (m !! _).
    + exfalso. apply not_elem_of_list_to_map_2 in E. by rewrite by_name_fst in E.
  - cbn. rewrite <-insert_union_l, insert_union_r; [done|]. by apply by_name_dom.
Qed.

Section NodeList.
Context {X : Externals} (mgmt : Client) (namespace : string).

Lemma step_store startupTime i sys :
  spec (hb_step mgmt namespace startupTime i sys) (fun o _ =>
    match o with
    | Ret sys' => without_time <$> sys_store sys' =
        match accepted_input i with
        | Some hb => <[ hb_NodeName hb := without_time hb ]> (without_time <$> sys_store sys)
        | None => without_time <$> sys_store sys
        end
    | Crash => True
    end).
Proof.
  apply spec_of_wp. intros s. destruct i as [rq|]; cbn [hb_step accepted_input].
  - wp_step. eapply wp_spec; [apply serve_spec|]. cbn beta. intros o s' t (store' & a & -> & H).
    wp_step. cbn. unfold stored in H. destruct (accepted rq) as [hb|]; [|by subst].
    destruct H as (now & ->). by rewrite fmap_insert.
  - destruct (sys_running sys); [|by wp_step]. wp_step.
    eapply (wp_spec _ (fun _ _ => True)); [done|]. cbn beta. intros [[|]|] s' t _; by try wp_step.
Qed.

Lemma run_store startupTime inputs sys :
  spec (hb_run mgmt namespace startupTime inputs sys) (fun o _ =>
    match o with
    | Ret sys' => without_time <$> sys_store sys' =
        by_name (latest inputs) ∪ (without_time <$> sys_store sys)
    | Crash => True
    end).
Proof.
  revert sys. induction inputs as [|i inputs IH]; intros sys; apply spec_of_wp; intros s;
    cbn [hb_run latest].
  - wp_step. unfold by_name; cbn; by rewrite (left_id_L ∅ (∪)).
  - wp_step. eapply wp_spec; [apply step_store|]. cbn beta. intros [sys1|] s1 t1 H1; [|done].
    eapply wp_spec; [apply IH|]. cbn beta. intros [sys2|] s2 t2 H2; [|done].
    rewrite H2, H1. destruct (accepted_input i); [apply by_name_insert|done].
Qed.

Lemma server_store inputs :
  spec (StartServer mgmt namespace inputs) (fun o _ =>
    match o with
    | Ret sys => without_time <$> sys_store sys = by_name (latest inputs)
    | Crash => True
    end).
Proof.
  apply spec_of_wp. intros s. unfold StartServer. wp_step. apply wp_do. intros now w.
  eapply wp_spec; [apply run_store|]. cbn beta. intros [sys|] s' t H; [|done].
  rewrite H. cbn. unfold NewHeartbeatStore. by rewrite fmap_empty, (right_id_L ∅ (∪)).
Qed.

(** C13: The server's list of the nodes is the reference's. After any sequence of
    requests and ticks, a request for /nodes is answered with exactly the last
    accepted payload of each node that ever sent one, each node once, but for the
    time of reception, which the server sets; no tick of the monitor and no other
    request changes the list. *)
Theorem nodes_are_latest inputs rq s sys :
  rq_Path rq = "/nodes" ->
  r_out (StartServer mgmt namespace inputs s) = Ret sys ->
  spec (RunHeartbeatServer mgmt namespace rq (sys_store sys)) (fun o _ =>
    exists nodes, o = Ret (sys_store sys, Nodes nodes) /\
      without_time <$> nodes ≡ₚ latest inputs /\ NoDup (hb_NodeName <$> nodes)).
Proof.
  intros Hp Hr. assert (without_time <$> sys_store sys = by_name (latest inputs)) as Hst.
  { pose proof (server_store inputs s) as H. by rewrite Hr in H. }
  apply spec_of_wp. intros s1. unfold RunHeartbeatServer, handle_nodes, All. rewrite Hp. cbn -[wp bind do].
  wp_step. wp_step. wp_step. apply (wp_do Schedule). intros choices w. wp_step. wp_step. wp_step.
  eexists. split; [done|].
  assert (without_time <$> reorder (length (snd <$> map_to_list (sys_store sys))) choices
    (snd <$> map_to_list (sys_store sys)) ≡ₚ latest inputs) as Hl.
  { rewrite reorder_perm. rewrite <-list_fmap_compose.
    trans (snd <$> map_to_list (without_time <$> sys_store sys)).
    - rewrite map_to_list_fmap, <-list_fmap_compose. done.
    - rewrite Hst. unfold by_name. rewrite map_to_list_to_map, <-list_fmap_compose.
      + by rewrite list_fmap_id.
      + rewrite by_name_fst. apply latest_NoDup. }
  split; [done|]. pose proof (latest_NoDup inputs) as Hn. rewrite <-Hl, <-list_fmap_compose in Hn.
  done.
Qed.

End NodeList.

Definition nodes_request : HttpRequest := MkHttpRequest "/nodes" "GET" (Err (Errorf "EOF")).

Definition nodes_inputs : list hb_input :=
  [heartbeat_request; Request nodes_request; Tick; heartbeat_request].

Definition nodes_system : hb_system :=
  MkHbSystem {[ "edge-md-0" := without_time silent_node ]} ∅ true.

Lemma nodes_are_latest_witness :
  r_out (@StartServer (ConstExternals default_resp) MgmtClient "default" nodes_inputs
    (const_state default_resp)) = Ret nodes_system /\
  exists nodes, r_out (@RunHeartbeatServer (ConstExternals default_resp) MgmtClient "default"
      nodes_request (sys_store nodes_system) (const_state default_resp)) =
      Ret (sys_store nodes_system, Nodes nodes) /\
    without_time <$> nodes ≡ₚ latest nodes_inputs /\ NoDup (hb_NodeName <$> nodes).
Proof.
  split; [vm_compute; reflexivity|].
  apply (@nodes_are_latest (ConstExternals default_resp) MgmtClient "default" nodes_inputs
    nodes_request (const_state default_resp) nodes_system);
    [reflexivity|vm_compute; reflexivity].
Defined.
