(* ===== verification/Races.v ===== *)
(** * Records appended at the same time

    The goroutines of TriggerTransitionOnMissedNodeHealth and of
    HandlePodsOnNodeForPolicy share the policy object, and
    UpdateClusterPolicyStatus appends to its status without a lock. [Pool] runs a
    goroutine's body as one step; here the body's end is cut where it touches the
    shared slice: read the slice header, append (write the slot behind the last
    element, or grow into a new array), assign the header, and send the policy.
    Headers are read and written as a whole, and the answer of the API server, which
    the client decodes into the object, is left out. *)
From S2P Require Import Prelude Types Runtime.
From Stdlib Require Import Lia.

(** A slice of Go: the array it points into and its length. *)
Record slice := MkSlice { sl_array : nat; sl_len : nat }.

(** Where a goroutine is in UpdateClusterPolicyStatus. *)
Inductive phase :=
| Ready
| Loaded (sl : slice)
| Appended (sl : slice)
| Assigned (sl : slice)
| Sent (sl : slice) (records : list TransitionedPackages).

Record goroutine := MkGoroutine { g_record : TransitionedPackages; g_phase : phase }.

(** The arrays (a list as long as its capacity each), the policy's slice, and the
    goroutines. *)
Record race := MkRace {
  rc_arrays : list (list TransitionedPackages);
  rc_slice : slice;
  rc_goroutines : list goroutine }.

Definition zero_record : TransitionedPackages := MkTransitionedPackages [] 0 "" "".

(** The elements of a slice. *)
Definition elements (arrays : list (list TransitionedPackages)) (sl : slice)
    : list TransitionedPackages :=
  take (sl_len sl) (default [] (arrays !! sl_array sl)).

(** [append(s, r)]; the spare capacity of a new array is the runtime's choice. *)
Definition append (arrays : list (list TransitionedPackages)) (sl : slice)
    (r : TransitionedPackages) (spare : nat) : list (list TransitionedPackages) * slice :=
  let a := default [] (arrays !! sl_array sl) in
  if (sl_len sl <? length a)%nat then
    (<[ sl_array sl := <[ sl_len sl := r ]> a ]> arrays, MkSlice (sl_array sl) (S (sl_len sl)))
  else
    (arrays ++ [take (sl_len sl) a ++ [r] ++ replicate spare zero_record],
     MkSlice (length arrays) (S (sl_len sl))).

(** The next step of goroutine [i]. *)
Definition step (i spare : nat) (st : race) : race :=
  match rc_goroutines st !! i with
  | None => st
  | Some g =>
      let goto p := <[ i := MkGoroutine (g_record g) p ]> (rc_goroutines st) in
      match g_phase g with
      | Ready => MkRace (rc_arrays st) (rc_slice st) (goto (Loaded (rc_slice st)))
      | Loaded sl =>
          let '(arrays, sl') := append (rc_arrays st) sl (g_record g) spare in
          MkRace arrays (rc_slice st) (goto (Appended sl'))
      | Appended sl => MkRace (rc_arrays st) sl (goto (Assigned sl))
      | Assigned sl =>
          MkRace (rc_arrays st) (rc_slice st)
            (goto (Sent sl (elements (rc_arrays st) (rc_slice st))))
      | Sent _ _ => st
      end
  end.

(** A schedule: which goroutine moves, and the spare capacity if its append grows. *)
Definition run_race (schedule : list (nat * nat)) (st : race) : race :=
  foldl (fun st c => step c.1 c.2 st) st schedule.

(** The policy as it was read, with [spare] free slots, and the goroutines. *)
Definition start_race (old : list TransitionedPackages) (spare : nat)
    (records : list TransitionedPackages) : race :=
  MkRace [old ++ replicate spare zero_record] (MkSlice 0 (length old))
    ((fun r => MkGoroutine r Ready) <$> records).

Definition policy_records (st : race) : list TransitionedPackages :=
  elements (rc_arrays st) (rc_slice st).

(** ** What any schedule keeps *)

Section Races.
Context (old : list TransitionedPackages).

(** The index at which a goroutine's append put its record. *)
Definition slot (p : phase) : option nat :=
  match p with
  | Ready | Loaded _ => None
  | Appended sl | Assigned sl | Sent sl _ => Some (pred (sl_len sl))
  end.

Definition phase_slice (p : phase) : option slice :=
  match p with
  | Ready => None
  | Loaded sl | Appended sl | Assigned sl | Sent sl _ => Some sl
  end.

(** Goroutine [i] put its record, [r], at index [k]. *)
Definition wrote (gs : list goroutine) (k i : nat) (r : TransitionedPackages) : Prop :=
  exists g, gs !! i = Some g /\ slot (g_phase g) = Some k /\ g_record g = r.

(** Behind the old records a slice shows records of goroutines, each at its own
    index. *)
Definition slice_ok (arrays : list (list TransitionedPackages)) (gs : list goroutine)
    (sl : slice) : Prop :=
  exists a, arrays !! sl_array sl = Some a /\ (length old <= sl_len sl <= length a)%nat /\
    take (length old) a = old /\
    forall k, (length old <= k < sl_len sl)%nat -> exists i r, wrote gs k i r /\ a !! k = Some r.

Definition race_ok (st : race) : Prop :=
  slice_ok (rc_arrays st) (rc_goroutines st) (rc_slice st) /\
  forall i g sl, rc_goroutines st !! i = Some g -> phase_slice (g_phase g) = Some sl ->
    slice_ok (rc_arrays st) (rc_goroutines st) sl.

(** Goroutines keep what they wrote. *)
Definition keeps (gs gs' : list goroutine) : Prop :=
  forall k i r, wrote gs k i r -> wrote gs' k i r.

Lemma keeps_goto gs i g p :
  gs !! i = Some g -> (forall k, slot (g_phase g) = Some k -> slot p = Some k) ->
  keeps gs (<[ i := MkGoroutine (g_record g) p ]> gs).
Proof.
  intros Hi Hs k j r (g' & Hj & Hk & Hr). destruct (decide (i = j)) as [<-|Hne].
  - simplify_eq. eexists. rewrite list_lookup_insert_eq by by eapply lookup_lt_Some. eauto.
  - exists g'. by rewrite list_lookup_insert_ne.
Qed.

Lemma slice_ok_keeps arrays gs gs' sl :
  keeps gs gs' -> slice_ok arrays gs sl -> slice_ok arrays gs' sl.
Proof.
  intros Hk (a & ? & ? & ? & H). exists a. repeat split; try done; try lia.
  intros k Hlt. destruct (H k Hlt) as (i & r & Hw & ?). eauto.
Qed.

(** A move that only changes the phase of goroutine [i]. *)
Lemma goto_ok arrays gs i g p sl sl' :
  gs !! i = Some g -> (forall k, slot (g_phase g) = Some k -> slot p = Some k) ->
  race_ok (MkRace arrays sl gs) -> slice_ok arrays gs sl' ->
  (forall s, phase_slice p = Some s -> slice_ok arrays gs s) ->
  race_ok (MkRace arrays sl' (<[ i := MkGoroutine (g_record g) p ]> gs)).
Proof.
  intros Hi Hs [_ Hg] Hsl Hp. pose proof (keeps_goto gs i g p Hi Hs) as Hk.
  split; cbn in *; [by eapply slice_ok_keeps|].
  intros j g' s [(-> & <- & _)|(Hne & Hj)]%list_lookup_insert_Some Hs'; eauto using slice_ok_keeps.
Qed.

(** An append keeps every slice right, and its own result is right. *)
Lemma append_ok arrays gs sl i r spare :
  slice_ok arrays gs sl -> wrote gs (sl_len sl) i r ->
  let '(arrays', sl') := append arrays sl r spare in
  slice_ok arrays' gs sl' /\ forall s, slice_ok arrays gs s -> slice_ok arrays' gs s.
Proof.
  intros (a & Ha & Hlen & Hold & Hk) Hw. unfold append. rewrite Ha. cbn [default from_option id].
  pose proof (lookup_lt_Some _ _ _ Ha) as Hb. destruct (Nat.ltb_spec (sl_len sl) (length a)) as [Hlt|Hge].
  - assert (forall b k, arrays !! sl_array sl = Some b ->
      (k ≠ sl_len sl -> exists i r, wrote gs k i r /\ b !! k = Some r) ->
      exists i' r', wrote gs k i' r' /\ <[sl_len sl := r]> b !! k = Some r') as Hup.
    { intros b k Hb' H. simplify_eq. destruct (decide (k = sl_len sl)) as [->|Hne].
      - exists i, r. by rewrite list_lookup_insert_eq.
      - rewrite list_lookup_insert_ne by done. auto. }
    assert (take (length old) (<[sl_len sl := r]> a) = old) as Hold'.
    { rewrite take_insert_ge; [done|lia]. }
    split.
    + eexists. cbn. rewrite list_lookup_insert_eq by done. split; [done|].
      rewrite length_insert. split; [lia|]. split; [done|]. intros k Hr. apply Hup; [done|].
      intros Hne. apply Hk. lia.
    + intros s (b & Hs & Hl & Hol & Hks). destruct (decide (sl_array sl = sl_array s)) as [He|Hne].
      * rewrite <-He in Hs. simplify_eq. eexists. rewrite <-He, list_lookup_insert_eq by done.
        split; [done|]. rewrite length_insert. split; [lia|]. split; [done|].
        intros k Hr. apply Hup; [done|]. intros _. by apply Hks.
      * exists b. rewrite list_lookup_insert_ne by done. auto.
  - split.
    + eexists. cbn. rewrite lookup_app_r, Nat.sub_diag by lia. split; [done|].
      rewrite !length_app, length_take. cbn [length]. split; [lia|]. split.
      { rewrite take_app_le by (rewrite length_take; lia). rewrite take_take.
        by replace (length old `min` sl_len sl)%nat with (length old) by lia. }
      intros k Hr. destruct (decide (k = sl_len sl)) as [->|Hne].
      * exists i, r. split; [done|]. rewrite lookup_app_r by (rewrite length_take; lia).
        rewrite length_take. by replace (sl_len sl - sl_len sl `min` length a)%nat with O by lia.
      * destruct (Hk k) as (i' & r' & ? & ?); [lia|]. exists i', r'. split; [done|].
        rewrite lookup_app_l by (rewrite length_take; lia). by rewrite lookup_take_lt by lia.
    + intros s (b & Hs & Hr). exists b. split; [|done]. by apply lookup_app_l_Some.
Qed.

Lemma append_len arrays sl r spare : sl_len (append arrays sl r spare).2 = S (sl_len sl).
Proof. unfold append. by destruct (_ <? _)%nat. Qed.

Lemma step_append_ok arrays sl gs i g s spare :
  race_ok (MkRace arrays sl gs) -> gs !! i = Some g -> g_phase g = Loaded s ->
  let '(arrays', sl') := append arrays s (g_record g) spare in
  race_ok (MkRace arrays' sl (<[ i := MkGoroutine (g_record g) (Appended sl') ]> gs)).
Proof.
  intros [Hsl Hg] Hi Hp. cbn in Hsl, Hg. pose proof (append_len arrays s (g_record g) spare) as Hlen.
  destruct (append arrays s (g_record g) spare) as [arrays' sl'] eqn:Ha. cbn in Hlen.
  set (gs' := <[ i := _ ]> gs). assert (keeps gs gs') as Hk.
  { apply keeps_goto; [done|]. by rewrite Hp. }
  pose proof (append_ok arrays gs' s i (g_record g) spare) as H. rewrite Ha in H.
  destruct H as [Hnew Hold].
  { eapply slice_ok_keeps; [done|]. apply (Hg i g); [done|by rewrite Hp]. }
  { eexists. subst gs'. rewrite list_lookup_insert_eq by by eapply lookup_lt_Some.
    split; [done|]. cbn. by rewrite Hlen. }
  split; cbn; [eauto using slice_ok_keeps|]. intros j g' s' Hj Hs'. subst gs'.
  apply list_lookup_insert_Some in Hj as [(-> & <- & _)|(Hne & Hj)].
  - by simplify_eq/=.
  - eauto using slice_ok_keeps.
Qed.

Lemma step_ok i spare st : race_ok st -> race_ok (step i spare st).
Proof.
  destruct st as [arrays sl gs]. intros Hok. unfold step. cbn.
  destruct (gs !! i) as [g|] eqn:Hi; [|done]. pose proof Hok as [Hsl Hg]. cbn in Hsl, Hg.
  specialize (Hg i g). destruct (g_phase g) as [|s|s|s|s l] eqn:Hp; [| | | |done].
  - eapply goto_ok; rewrite ?Hp; try done. by intros ? [= <-].
  - pose proof (step_append_ok arrays sl gs i g s spare Hok Hi Hp) as H.
    by destruct (append _ _ _ _).
  - eapply goto_ok; rewrite ?Hp; try done; [by apply Hg|]. by intros ? [= <-]; apply Hg.
  - eapply goto_ok; rewrite ?Hp; try done. by intros ? [= <-]; apply Hg.
Qed.

Lemma run_race_ok schedule st : race_ok st -> race_ok (run_race schedule st).
Proof.
  revert st. induction schedule as [|c l IH]; intros st H; [done|]. apply IH. by apply step_ok.
Qed.

Lemma start_race_ok spare records : race_ok (start_race old spare records).
Proof.
  split; cbn.
  - eexists. split; [done|]. cbn. rewrite length_app, take_app_length. split; [lia|].
    split; [done|]. lia.
  - intros i g sl Hi Hs. apply list_lookup_fmap_Some in Hi as (r & -> & _). done.
Qed.

(** What a slice of a run may show: the old records, then records of goroutines,
    none twice. *)
Definition shows (records l : list TransitionedPackages) : Prop :=
  exists order, NoDup order /\ (forall i, i ∈ order -> is_Some (records !! i)) /\
    l = old ++ omap (fun i => records !! i) order.

(** The records a slice shows behind the old ones. *)
Lemma slice_ok_shows arrays gs sl :
  slice_ok arrays gs sl -> shows (g_record <$> gs) (elements arrays sl).
Proof.
  intros (a & Ha & [Hlo Hhi] & Hold & Hk). unfold elements. rewrite Ha. cbn.
  remember (sl_len sl - length old)%nat as d eqn:Hd.
  replace (sl_len sl) with (length old + d)%nat in * by lia. clear Ha Hd.
  assert (exists order, NoDup order /\ (forall i, i ∈ order -> exists k r, (k < length old + d)%nat /\
      wrote gs k i r) /\
    take (length old + d) a = old ++ omap (fun i => (g_record <$> gs) !! i) order) as (order & ? & Hi & ?).
  { induction d as [|d IH].
    - exists []. rewrite Nat.add_0_r, app_nil_r. split; [constructor|]. split; [|done].
      intros i Hi. by apply elem_of_nil in Hi.
    - destruct IH as (order & Hn & Hi & Ht); [lia|lia|intros k Hr; apply Hk; lia|].
      destruct (Hk (length old + d)%nat) as (i & r & Hw & Hr); [lia|].
      exists (order ++ [i]). split_and!.
      + apply NoDup_app. split; [done|]. split; [|apply NoDup_singleton].
        intros j Hj ->%list_elem_of_singleton. destruct (Hi i Hj) as (k & r' & Hlt & g & ? & ? & _).
        destruct Hw as (g' & ? & ? & _). simplify_eq. lia.
      + intros j [Hj| ->%list_elem_of_singleton]%elem_of_app.
        * destruct (Hi j Hj) as (k & r' & ? & ?). exists k, r'. split; [lia|done].
        * exists (length old + d)%nat, r. split; [lia|done].
      + replace (length old + S d)%nat with (S (length old + d)) by lia.
        rewrite (take_S_r _ _ r Hr), Ht, <-app_assoc. f_equal. rewrite omap_app. f_equal.
        destruct Hw as (g & Hg & _ & <-). cbn. by rewrite list_lookup_fmap, Hg. }
  exists order. split; [done|]. split; [|done]. intros i Hin.
  destruct (Hi i Hin) as (k & r & _ & g & Hg & _).
  rewrite list_lookup_fmap, Hg. by eexists.
Qed.

Lemma step_records i spare st :
  g_record <$> rc_goroutines (step i spare st) = g_record <$> rc_goroutines st.
Proof.
  unfold step. destruct (rc_goroutines st !! i) as [g|] eqn:Hi; [|done].
  assert (forall p, g_record <$> <[ i := MkGoroutine (g_record g) p ]> (rc_goroutines st) =
    g_record <$> rc_goroutines st) as H.
  { intros p. rewrite list_fmap_insert. apply list_insert_id. by rewrite list_lookup_fmap, Hi. }
  destruct (g_phase g); try apply H; [|done]. destruct (append _ _ _ _). apply H.
Qed.

Lemma run_records schedule st :
  g_record <$> rc_goroutines (run_race schedule st) = g_record <$> rc_goroutines st.
Proof.
  revert st. induction schedule as [|c l IH]; intros st; [done|].
  rewrite <-(step_records c.1 c.2 st). apply IH.
Qed.

(** What was sent was seen so at some time. *)
Definition sent_ok (records : list TransitionedPackages) (st : race) : Prop :=
  forall i g sl l, rc_goroutines st !! i = Some g -> g_phase g = Sent sl l -> shows records l.

Lemma step_sent_ok i spare st :
  race_ok st -> sent_ok (g_record <$> rc_goroutines st) st ->
  sent_ok (g_record <$> rc_goroutines st) (step i spare st).
Proof.
  intros Hok H j g' sl l Hj Hp. unfold step in Hj.
  destruct (rc_goroutines st !! i) as [g|] eqn:Hi; [|by eapply H].
  assert (forall p, <[ i := MkGoroutine (g_record g) p ]> (rc_goroutines st) !! j = Some g' ->
    p = g_phase g' \/ rc_goroutines st !! j = Some g') as Hgoto.
  { intros p [(-> & <- & _)|(_ & ?)]%list_lookup_insert_Some; auto. }
  destruct (g_phase g) eqn:Hg; [| | | |by eapply H].
  - destruct (Hgoto _ Hj) as [E|?]; [by rewrite Hp in E|by eapply H].
  - destruct (append _ _ _ _). destruct (Hgoto _ Hj) as [E|?]; [by rewrite Hp in E|by eapply H].
  - destruct (Hgoto _ Hj) as [E|?]; [by rewrite Hp in E|by eapply H].
  - destruct (Hgoto _ Hj) as [E|?]; [|by eapply H]. rewrite Hp in E. simplify_eq.
    by apply slice_ok_shows, Hok.
Qed.

Lemma run_sent_ok schedule st :
  race_ok st -> sent_ok (g_record <$> rc_goroutines st) st ->
  sent_ok (g_record <$> rc_goroutines st) (run_race schedule st).
Proof.
  revert st. induction schedule as [|c l IH]; intros st Hok H; [done|].
  rewrite <-(step_records c.1 c.2 st). apply IH; [by apply step_ok|].
  rewrite step_records. by apply step_sent_ok.
Qed.

Lemma start_records spare records :
  g_record <$> rc_goroutines (start_race old spare records) = records.
Proof. cbn. rewrite <-list_fmap_compose. apply list_fmap_id. Qed.

End Races.

(** ** Properties *)

(** C14: Appends that interleave never damage the status. Whatever the schedule, the
    free capacity and the number of goroutines, the policy in memory, and every
    policy that was sent to the API server, has the records it had, in their order,
    followed by records of goroutines of this pool, none twice. *)
Theorem appends_interleaved old spare records schedule :
  let st := run_race schedule (start_race old spare records) in
  shows old records (policy_records st) /\
  forall i r sl l, rc_goroutines st !! i = Some (MkGoroutine r (Sent sl l)) -> shows old records l.
Proof.
  cbn zeta. pose proof (start_race_ok old spare records) as H0.
  pose proof (start_records old spare records) as Hr.
  pose proof (run_race_ok old schedule _ H0) as [H _]. split.
  - apply slice_ok_shows in H. by rewrite run_records, Hr in H.
  - intros i r sl l Hi. rewrite <-Hr.
    eapply (run_sent_ok old schedule _ H0); [|exact Hi|done].
    intros j g sl' l' Hj Hp. by apply list_lookup_fmap_Some in Hj as (? & -> & _).
Qed.

Lemma take_snoc {A} (l : list A) x l' : take (S (length l)) (l ++ x :: l') = l ++ [x].
Proof.
  replace (S (length l)) with (length (l ++ [x])) by (rewrite length_app; cbn; lia).
  rewrite (cons_middle x l l'), (assoc_L (++)). apply take_app_length.
Qed.

Lemma append_spare old z zs r e :
  append [old ++ z :: zs] (MkSlice 0 (length old)) r e =
  ([old ++ r :: zs], MkSlice 0 (S (length old))).
Proof.
  unfold append. cbn -[Nat.ltb]. rewrite length_app. cbn -[Nat.ltb].
  destruct (Nat.ltb_spec (length old) (length old + S (length zs))); [|lia].
  by rewrite insert_app_r_alt, Nat.sub_diag by lia.
Qed.

Lemma append_full old l r e :
  append (old :: l) (MkSlice 0 (length old)) r e =
  (old :: l ++ [old ++ r :: replicate e zero_record], MkSlice (S (length l)) (S (length old))).
Proof. unfold append. cbn -[Nat.ltb]. by rewrite Nat.ltb_irrefl, take_ge by done. Qed.

(** An append shows its record behind the elements of the slice. *)
Lemma append_elements arrays sl r e a :
  arrays !! sl_array sl = Some a -> (sl_len sl <= length a)%nat ->
  elements (append arrays sl r e).1 (append arrays sl r e).2 = elements arrays sl ++ [r].
Proof.
  intros Ha Hle. unfold elements, append. rewrite Ha. cbn [default from_option id].
  pose proof (lookup_lt_Some _ _ _ Ha). destruct (Nat.ltb_spec (sl_len sl) (length a)); cbn.
  - rewrite list_lookup_insert_eq by done. cbn.
    rewrite (take_S_r _ _ r) by by apply list_lookup_insert_eq.
    by rewrite take_insert_ge by lia.
  - rewrite lookup_app_r, Nat.sub_diag by lia. cbn.
    rewrite <-(take_snoc (take (sl_len sl) a) r (replicate e zero_record)).
    by rewrite length_take, Nat.min_l.
Qed.

(** A goroutine that is not interrupted appends its record to what is there: this
    is the step that [Pool] takes. *)
Lemma append_alone st i r a e :
  rc_goroutines st !! i = Some (MkGoroutine r Ready) ->
  rc_arrays st !! sl_array (rc_slice st) = Some a ->
  (sl_len (rc_slice st) <= length a)%nat ->
  policy_records (run_race [(i, e); (i, e); (i, e); (i, e)] st) = policy_records st ++ [r].
Proof.
  intros Hi Ha Hle. pose proof (append_elements _ _ r e a Ha Hle) as He.
  destruct st as [arrays sl gs]. cbn in Hi, Ha, Hle, He. unfold policy_records, run_race, step.
  pose proof (lookup_lt_Some _ _ _ Hi) as Hlt. cbn -[append]. rewrite Hi. cbn -[append].
  rewrite list_lookup_insert_eq by done. cbn -[append].
  destruct (append arrays sl r e) as [arrays' sl']. cbn.
  rewrite list_lookup_insert_eq by by rewrite length_insert. cbn.
  by rewrite list_lookup_insert_eq by by rewrite !length_insert.
Qed.

(** C40: A record can be lost. Two goroutines that append at the same time can both
    end, and both have sent the policy, with the record of only one of them in
    memory and on the way to the API server; whether the slice has free capacity
    or not. *)
Theorem append_loses_record old spare r1 r2 :
  exists schedule, let st := run_race schedule (start_race old spare [r1; r2]) in
    policy_records st = old ++ [r2] /\
    exists sl1 sl2, g_phase <$> rc_goroutines st =
      [Sent sl1 (old ++ [r2]); Sent sl2 (old ++ [r2])].
Proof.
  exists [(0, 0); (1, 0); (0, 0); (1, 0); (0, 0); (1, 0); (0, 0); (1, 0)]%nat.
  destruct spare as [|spare]; unfold run_race, start_race; cbn -[append].
  - rewrite app_nil_r. rewrite !append_full. cbn -[append]. rewrite append_full. cbn.
    unfold policy_records, elements. cbn. rewrite !take_snoc. split; [done|]. by eexists _, _.
  - rewrite !append_spare. cbn -[append]. rewrite append_spare. cbn.
    unfold policy_records, elements. cbn. rewrite !take_snoc. split; [done|]. by eexists _, _.
Qed.
